(* ===== verification/_CoqProject ===== *)
-Q . S2P
Prelude.v
Bytes.v
Text.v
Crypto.v
Message.v
Builder.v
MessageFacts.v
Replies.v
Codec.v
Nonce.v
Credentials.v
CredentialFacts.v
Auth.v
Allocation.v
Dotted.v
AllocationManager.v
AllocationFacts.v
AllocationHandlers.v
Relay.v
Dispatcher.v
DispatcherFacts.v
Server.v
TcpFraming.v
Calls.v
Uuid.v
CallSafety.v
Json.v
Accounts.v
Signaling.v
SignalingFacts.v
SignalingSafety.v
Api.v
Cli.v
ClientMessages.v
CallSetup.v
Exchange.v
JitterBuffer.v
Wav.v
ClientSafety.v
Dtls.v
Recording.v
Config.v
SignIn.v
Mains.v
RelayAccess.v
Tls.v
Streams.v
Udp.v
WsClient.v
WsSessions.v
Devices.v
Media.v
HttpSessions.v
Protocol.v
Repl.v
DtlsRuns.v
TlsContexts.v
TurnServer.v
Logger.v
