(* ===== verification/Prelude.v ===== *)
(** * zaza: a verification development for the call server, TURN server and client

    zaza is an audio telephone: a backend (accounts, signaling), a TURN server
    that relays the media, and a command line client, in C++ under src/.  This
    library models the logic of the three programs and proves what makes it
    correct.

    ** The program's parts and how they interact

    - The client (src/client_cli) logs in over HTTP, opens a WebSocket with the
      token it got, and sends JSON messages: call.create, call.accept,
      call.reject, call.hangup, and the offers, answers and candidates of WebRTC.
    - The backend (src/backend) checks passwords and tokens (auth), keeps the
      calls (calls), relays the messages between the parties (signaling), and
      makes TURN credentials for them (api).
    - The TURN server (src/turn_server) parses STUN messages and ChannelData,
      authenticates requests with the credentials the backend made under the
      shared secret, and relays data between allocations.

    ** Failure, state and effects

    A computation is a function [eff S E A] from a state to a result, a state and
    a list of events (messages sent, lines logged).  A result is [Ok], or [Err]
    with an exception the code throws, [Undefined] for what C++ leaves undefined
    (an access outside a buffer, a null pointer, an uninitialised value), or
    [OutOfFuel] for the model's own bound on a loop.  [wp m Q s] says that [m]
    returns from [s] and that [Q] holds of the outcome: a specification in terms
    of [wp] includes that nothing fails.

    ** The files

    - Prelude, Bytes, Text: results, effects, [wp], iteration over unordered maps;
      bytes and machine integers; [std::string] and number formatting.
    - Crypto: src/shared/crypto over the class [OpenSSL].
    - Message, Builder: message/parser.cpp, builder.cpp and xor_codec.hpp.
      MessageFacts, Replies and Codec have their lemmas and properties: memory
      safety and acceptance of [parse], round trips.
    - Nonce, Credentials: auth/nonce_manager.cpp, hmac_validator.cpp,
      long_term_cred.cpp.  CredentialFacts and Auth: what is accepted and when,
      and the decision on every branch; Nonce refines an abstract service.
    - Allocation, Dotted, AllocationManager: allocation/allocation.hpp,
      permission_table.cpp and allocation_manager.cpp, with the heap of shared
      pointers.  AllocationFacts (the invariant), AllocationHandlers (what each
      handler does) and Relay (the properties of every reachable manager).
    - Dispatcher: core/turn_dispatcher.cpp.  DispatcherFacts and Server: every
      packet is handled without failing up to the [send] of its transport, answered
      once, refused unless authenticated, relayed to the right client.
    - TcpFraming: the packets cut from a stream by transport/tcp_transport.cpp.
      Tls: a session of transport/tls_transport.cpp as the operation it waits for
      and its handlers, which cut the same packets from the same bytes in any
      pieces.  Streams: both listeners, completion by completion, with their
      tables of sessions, the writes in progress and the dispatcher.  Udp:
      transport/udp_transport.cpp, and data that crosses from client to client.
    - Dtls: transport/dtls_transport.cpp with its two mutexes, and the dispatcher
      behind its callback: handshakes go through, but a request over an
      established session makes the thread wait for itself.
    - Calls: backend/calls/call_manager.cpp.  Uuid: the form of a call id.
      CallSafety: nobody is in two calls, and the operations follow the automaton
      of a call.
    - Json: the class [Json] of what the programs use of nlohmann::json.
    - Accounts: backend/auth; who registered can log in, and the token is valid
      until it expires.
    - Signaling: backend/signaling and generateRtcConfig.  SignalingFacts has the
      specification ([respond]: the request of a text, the change of the calls,
      the messages and their recipients), SignalingSafety the proof that the
      router implements it in every reachable state, without failing.
      WsSessions: the sessions of ws_server.cpp with the operation each waits for,
      around the router.
    - Api: backend/api/routes.cpp and the dispatch of http_server.cpp.
      HttpSessions: the sessions of http_server.cpp in front of WsSessions, which is
      the whole backend, handler by handler: it fails in one way only, a second
      write on a WebSocket while one is in progress.
    - Cli, ClientMessages: client_cli/src/cli, session, signaling/message_handler
      .cpp, the lambdas of main.cpp and the wrappers of src/client_cli/src/rtc.
    - CallSetup, Exchange, ClientSafety: the programs together.  A call is set up
      from command line to command line, with credentials the TURN server
      accepts; the media negotiation reaches the other party unchanged; how a call
      ends for a client, and what survives it.
    - Config: shared/config/config.hpp, against the grammar of its file.  Mains:
      what the three main.cpp read and build, and the loop of the backend with its
      timer: a call that nobody answers ends.
    - SignIn: http/http_client.cpp with the routes and the WebSocket server of the
      backend: from the command line to the session table.  RelayAccess: the
      backend, a client and the TURN server as their files configure them: the
      client obtains a relay address.
    - WsClient: signaling/ws_client.cpp, its threads as a state machine: which
      interleavings are safe, and that reconnecting ends.
    - JitterBuffer, Wav, Recording: client_cli/src/audio and the callbacks of
      main.cpp for files.  The ring buffer refines a bounded queue; WAV files are
      read back as they were written; what is recorded is saved, and how much of
      a file is played.  Devices: the threads of playback.cpp and capture.cpp with
      the device's descriptor, a [start] and a [stop] that may run at once.
    - TlsContexts: transport/ssl_context_factory.hpp.  DtlsRuns: what any datagram
      comes to in Dtls.  TurnServer: main.cpp of the TURN server, its start and the
      four transports on one thread around one dispatcher: every completion
      returns and keeps the state in order, but for four exceptions.
    - Logger: shared/log/logger.hpp under threads and signals: whole lines, in one
      order, and how a signal stops them.
    - Protocol: the fields and types of the messages that backend and client
      exchange; what is sent has them, and what has them is handled.  Repl:
      cli/repl.cpp with the callbacks of main.cpp for a login and for signals: how
      the client ends, and what the backend keeps of it.
    - Media: rtc/peer_connection.cpp over the answers of libdatachannel, and the
      capture thread of main.cpp against the functions that replace the
      connection: when that is safe, and what is sent.

    ** What is assumed

    Code that is not in the repository is a class of parameters with laws:
    [OpenSSL], [BoostAddress], [Json], [Sqlite], [JwtCpp] with [JwtCompact], and
    [Dtls] for the DTLS sessions of OpenSSL, whose one law ([DtlsSpec]) is that
    they give bytes.  The laws state documented behaviour only (sizes of digests,
    base64 being ASCII, a dump of well-formed values parsing back, one row per key,
    an unexpired token of the same secret being accepted, tokens made of base64url
    characters and dots).  Each class has an instance with concrete functions, for
    which the laws are proved and in which the witnesses are evaluated; no
    cryptographic strength is assumed.  Clocks, random bytes and the order in which
    an unordered map is traversed ([IterOrder]) are arguments.
    [RAND_bytes] may fail ([inputs_sound]; the packet then ends in its exception);
    where a property needs an answer, it asks that it does not ([inputs_ok]).
    libdatachannel and the HTTP client return or throw, and an exception takes its
    way through the code.  The configuration of the backend is such that TURN_HOST
    is UTF-8 and TURN_TTL not negative ([cfg_ok]); realms and names that go into a
    reply are shorter than 1000 characters.  Each property says which of these it
    needs.

    ** Bounds and fuel

    Integers are kept at their width where the code's type matters ([u8], [u16],
    [u32], int64 additions that overflow are [Undefined]).  Loops that are not
    structural have fuel: the attribute loop of [parse] and the search for the
    integrity attribute the size of the buffer, [allocatePort] the 1000 attempts of
    the code, [generate] a number of draws, [run] of a stream session more than its
    packets, the [handlers] of a TLS session twice the bytes that are there and
    one, [read_chunks] the size of the file.  For each there is a theorem that
    it is enough: the properties state that the functions return.

    ** Concurrency

    The TURN server runs on one thread.  In the backend several threads run the
    handlers; every operation on the calls and on the session table holds a mutex,
    so the invariants of Calls hold of every interleaving, while SignalingSafety
    treats the handling of one message as one step, as when no other thread runs.
    The transports of the TURN server interleave at their completion handlers
    (Streams), the sessions of the backend at theirs, one handler at a time
    (WsSessions, HttpSessions).  A write stays in progress until its completion:
    a second one on the same stream is marked in the events of Streams, and is
    [Undefined] in WsSessions.  The threads of WsClient interleave at every access
    to what they share; a sound thread, [start] and [stop] at their accesses
    (Devices), where two threads in [stop] at once are left out; a captured frame
    and the replacement of the connection at every access to it (Media), where
    [initRtc], [cleanupCall] and the callbacks of the library follow each other,
    though the code has no lock for that.  The client's session is read and written
    by three threads without a lock; the model handles one line or one message at a
    time.

    ** Not modelled

    Sockets, TLS handshakes, HTTP and WebSocket framing: they are calls into
    Boost.Asio, Beast and OpenSSL, whose completions are arguments of the model.
    What two overlapping writes do to the bytes of a stream.  The system calls on
    the sound devices, the WebRTC library, the thread pools.  A signal that arrives
    while the client processes a line, rather than between two.  Memory exhaustion
    and the failure to start a thread. *)

From Stdlib Require Import Ascii.
From stdpp Require Export base gmap strings list fin_maps numbers option sets.

(** ** Notations

    The bit operations of C++ on integers, in a scope of their own. *)
Declare Scope zaza_scope.
Delimit Scope zaza_scope with zaza.
Notation "a .& b" := (Z.land a b) (at level 40, left associativity) : zaza_scope.
Notation "a .| b" := (Z.lor a b) (at level 50, left associativity) : zaza_scope.
Notation "a .^ b" := (Z.lxor a b) (at level 45, left associativity) : zaza_scope.
Notation "a .<< n" := (Z.shiftl a n) (at level 38, left associativity) : zaza_scope.
Notation "a .>> n" := (Z.shiftr a n) (at level 38, left associativity) : zaza_scope.
Open Scope Z_scope.
Open Scope zaza_scope.

(** ** Failure

    [Undefined] is C++ undefined behaviour (an access outside a buffer, the
    value of an uninitialised variable), [OutOfFuel] is the model's own bound
    on a loop, and [Thrown] is a C++ exception with the class and the [what()]
    it carries.  Only the last one can be caught. *)
Inductive exn_kind :=
  | RuntimeError
  | InvalidArgument
  | OutOfRange
  | LoginError
  | UserStoreError
  | JwtExpired
  | JwtInvalid
  | HttpError
  | WavError
  | JsonError.

#[export] Instance exn_kind_eq_dec : EqDecision exn_kind.
Proof. solve_decision. Defined.

Inductive error :=
  | Undefined
  | OutOfFuel
  | Thrown (kind : exn_kind) (what : string).

#[export] Instance error_eq_dec : EqDecision error.
Proof. solve_decision. Defined.

Inductive result (A : Type) :=
  | Ok (a : A)
  | Err (e : error).
Arguments Ok {A} a.
Arguments Err {A} e.

#[export] Instance result_eq_dec `{EqDecision A} : EqDecision (result A).
Proof. solve_decision. Defined.

#[export] Instance result_ret : MRet result := @Ok.
#[export] Instance result_bind : MBind result := λ A B f m,
  match m with Ok a => f a | Err e => Err e end.
#[export] Instance result_fmap : FMap result := λ A B f m,
  match m with Ok a => Ok (f a) | Err e => Err e end.

(** ** Computations with state, output and failure

    A computation that reads and writes an object of type [S], emits events of
    type [E] (a message sent, a line logged) and may fail.  The state and the
    events produced before a failure are kept, as they are in C++. *)
Definition eff (S E A : Type) : Type := S → result A * S * list E.

#[export] Instance eff_ret {S E} : MRet (eff S E) := λ A a s, (Ok a, s, []).
#[export] Instance eff_bind {S E} : MBind (eff S E) := λ A B f m s,
  match m s with
  | (Ok a, s1, l1) => let '(r, s2, l2) := f a s1 in (r, s2, l1 ++ l2)
  | (Err e, s1, l1) => (Err e, s1, l1)
  end.

Definition get {S E} : eff S E S := λ s, (Ok s, s, []).
Definition put {S E} (s : S) : eff S E () := λ _, (Ok (), s, []).
Definition emit {S E} (e : E) : eff S E () := λ s, (Ok (), s, [e]).
Definition lift {S E A} (r : result A) : eff S E A := λ s, (r, s, []).
Definition throw {S E A} (k : exn_kind) (what : string) : eff S E A :=
  λ s, (Err (Thrown k what), s, []).

(** [try m h] is C++'s try/catch: the handler sees exceptions only. *)
Definition try {S E A} (m : eff S E A) (h : exn_kind → string → eff S E A) : eff S E A :=
  λ s, match m s with
       | (Err (Thrown k w), s1, l1) => let '(r, s2, l2) := h k w s1 in (r, s2, l1 ++ l2)
       | out => out
       end.

Definition out_result {S E A} (o : result A * S * list E) : result A := o.1.1.
Definition out_state {S E A} (o : result A * S * list E) : S := o.1.2.
Definition out_events {S E A} (o : result A * S * list E) : list E := o.2.

(** What a result may be: the value, or a failure that [fails] allows. *)
Definition ends {A} (fails : error → Prop) (r : result A) : Prop := match r with Ok _ => True | Err e => fails e end.
Definition never (e : error) : Prop := False.
Definition throws (e : error) : Prop := match e with Thrown _ _ => True | _ => False end.

(** *** Total correctness

    [wp m Q s]: from the state [s] the computation [m] returns, and [Q] holds
    of its value, the final state and the events. *)
Definition wp {S E A} (m : eff S E A) (Q : A → S → list E → Prop) (s : S) : Prop :=
  match m s with (Ok a, s', l) => Q a s' l | (Err _, _, _) => False end.

Section wp.
Context {S E : Type}.
Implicit Types s : S.

Lemma wp_ret {A} (a : A) (Q : A → S → list E → Prop) s : Q a s [] → wp (mret a) Q s.
Proof. done. Qed.

Lemma wp_bind {A B} (m : eff S E A) (f : A → eff S E B) Q s :
  wp m (λ a s' l, wp (f a) (λ b s'' l', Q b s'' (l ++ l')) s') s → wp (m ≫= f) Q s.
Proof.
  unfold wp, mbind, eff_bind. destruct (m s) as [[[a|e] s'] l]; [|done].
  by destruct (f a s') as [[[b|e] s''] l'].
Qed.

Lemma wp_get (Q : S → S → list E → Prop) s : Q s s [] → wp get Q s.
Proof. done. Qed.
Lemma wp_put s' (Q : () → S → list E → Prop) s : Q () s' [] → wp (put s') Q s.
Proof. done. Qed.
Lemma wp_emit (e : E) (Q : () → S → list E → Prop) s : Q () s [e] → wp (emit e) Q s.
Proof. done. Qed.
Lemma wp_lift {A} (a : A) (Q : A → S → list E → Prop) s : Q a s [] → wp (lift (Ok a)) Q s.
Proof. done. Qed.

(** A step whose result is known. *)
Lemma bind_Ok {A B} (m : eff S E A) (f : A → eff S E B) a s s1 l1 : m s = (Ok a, s1, l1) →
  (m ≫= f) s = let '(r, s2, l2) := f a s1 in (r, s2, l1 ++ l2).
Proof. intros H. unfold mbind, eff_bind. by rewrite H. Qed.

(** A step that does nothing but return a value. *)
Lemma bind_lift {A B} (a : A) (f : A → eff S E B) s : (lift (Ok a) ≫= f) s = f a s.
Proof. unfold lift, mbind, eff_bind. by destruct (f a s) as [[? ?] ?]. Qed.

Lemma bind_get {B} (f : S → eff S E B) s : (get ≫= f) s = f s s.
Proof. unfold get, mbind, eff_bind. by destruct (f s s) as [[? ?] ?]. Qed.

Lemma wp_mono {A} (m : eff S E A) (P Q : A → S → list E → Prop) s :
  wp m P s → (∀ a s' l, P a s' l → Q a s' l) → wp m Q s.
Proof. unfold wp. destruct (m s) as [[[a|e] s'] l]; eauto. Qed.

Lemma wp_run {A} (m : eff S E A) (Q : A → S → list E → Prop) s :
  wp m Q s → ∃ a s' l, m s = (Ok a, s', l) ∧ Q a s' l.
Proof. unfold wp. destruct (m s) as [[[a|e] s'] l]; [|done]. eauto 6. Qed.

Lemma run_wp {A} (m : eff S E A) (Q : A → S → list E → Prop) a s s' l :
  m s = (Ok a, s', l) → Q a s' l → wp m Q s.
Proof. unfold wp. by intros ->. Qed.
End wp.

(** ** Unordered maps

    Iterating over a [std::unordered_map] visits every entry once in an order
    the library does not specify.  Code that iterates takes the order as an
    instance of this class, of which only the permutation law is known. *)
Class IterOrder (K V : Type) `{Countable K} := {
  iter : gmap K V → list (K * V);
  iter_perm m : iter m ≡ₚ map_to_list m;
}.

(** An order to evaluate with. *)
Definition list_order (K V : Type) `{Countable K} : IterOrder K V :=
  {| iter := map_to_list; iter_perm m := Permutation_refl _ |}.

Section iter_order.
Context `{Countable K} {V : Type} `{!IterOrder K V}.
Implicit Types m : gmap K V.

Lemma elem_of_iter m k v : (k, v) ∈ iter m ↔ m !! k = Some v.
Proof. by rewrite iter_perm, elem_of_map_to_list. Qed.

Lemma NoDup_iter m : NoDup (iter m).
Proof. rewrite iter_perm. apply NoDup_map_to_list. Qed.

Lemma iter_filter_length (P : K * V → Prop) `{∀ x, Decision (P x)} m :
  length (filter P (iter m)) = length (filter P (map_to_list m)).
Proof. by rewrite iter_perm. Qed.
End iter_order.

(** ** Writes in progress

    The asynchronous writes of the sessions of a server, as a list that has a
    session as often as it has a write in progress. *)
Fixpoint one_less (id : nat) (l : list nat) : list nat :=
  match l with [] => [] | i :: l => if decide (i = id) then l else i :: one_less id l end.

(** ** Tactics and hints *)

Create HintDb zaza discriminated.
Create Rewrite HintDb zaza.

(** Case analysis on the decisions and matches that block a computation. *)
Ltac split_cases :=
  repeat (first [ case_bool_decide | case_decide | case_match ]; simplify_eq/=).

(** [brefl]: turn boolean tests of the code into propositions. *)
Ltac brefl :=
  repeat match goal with
  | H : (_ <? _)%Z = true |- _ => apply Z.ltb_lt in H
  | H : (_ <? _)%Z = false |- _ => apply Z.ltb_ge in H
  | H : (_ <=? _)%Z = true |- _ => apply Z.leb_le in H
  | H : (_ <=? _)%Z = false |- _ => apply Z.leb_gt in H
  | H : (_ =? _)%Z = true |- _ => apply Z.eqb_eq in H
  | H : (_ =? _)%Z = false |- _ => apply Z.eqb_neq in H
  | H : (_ <? _)%nat = true |- _ => apply Nat.ltb_lt in H
  | H : (_ <? _)%nat = false |- _ => apply Nat.ltb_ge in H
  | H : (_ <=? _)%nat = true |- _ => apply Nat.leb_le in H
  | H : (_ <=? _)%nat = false |- _ => apply Nat.leb_gt in H
  | H : (_ =? _)%nat = true |- _ => apply Nat.eqb_eq in H
  | H : (_ =? _)%nat = false |- _ => apply Nat.eqb_neq in H
  | H : negb _ = true |- _ => apply negb_true_iff in H
  | H : negb _ = false |- _ => apply negb_false_iff in H
  | H : _ || _ = false |- _ => apply orb_false_iff in H as [? ?]
  | H : _ && _ = true |- _ => apply andb_true_iff in H as [? ?]
  end.

(** Linear arithmetic with the quotients and remainders unfolded. *)
Ltac dlia := Z.div_mod_to_equations; lia.

(** Steps of the failure monad on results that are known. *)
Ltac rsimpl :=
  try unfold mret, result_ret in *; cbn [mbind result_bind] in *.

(** ** Facts checked for all integers of a range by evaluation *)

Fixpoint all_from (P : Z → bool) (n : nat) (z : Z) : bool :=
  match n with O => true | S n => if P z then all_from P n (z + 1) else false end.

Lemma all_from_spec P n z :
  all_from P n z = true → ∀ x, z ≤ x < z + Z.of_nat n → P x = true.
Proof.
  revert z. induction n as [|n IH]; intros z H x Hx; [lia|]. simpl in H.
  destruct (P z) eqn:E; [|done]. destruct (decide (x = z)) as [->|]; [done|].
  apply (IH (z + 1)); [done|lia].
Qed.

Lemma forall_range P n :
  all_from P n 0 = true → ∀ x, 0 ≤ x < Z.of_nat n → P x = true.
Proof. apply all_from_spec. Qed.

(** Steps through a computation whose next operation is known. *)
Ltac wp_step :=
  match goal with
  | |- wp (mbind _ _) _ _ => apply wp_bind
  | |- wp (mret _) _ _ => apply wp_ret
  | |- wp get _ _ => apply wp_get
  | |- wp (put _) _ _ => apply wp_put
  | |- wp (emit _) _ _ => apply wp_emit
  | |- wp (lift (Ok _)) _ _ => apply wp_lift
  | |- wp (lift (mret _)) _ _ => apply wp_lift
  end.
Ltac wp_steps := repeat (wp_step; cbv beta zeta).
