(* ===== verification/Bytes.v ===== *)
(** * Bytes, machine integers and strings

    Bytes are integers between 0 and 255, buffers are lists of bytes, and an
    unsigned integer of w bits is an integer below [2^w].  The file holds the
    big-endian encodings that the parsers and builders write out shift by
    shift, reads of a buffer at an index (a read outside it is undefined), and
    the conversions between [std::string] and byte vectors. *)

From Stdlib Require Import Ascii.
From S2P Require Export Prelude.

Abbreviation bytes := (list Z).

Definition byte_ok (b : Z) : Prop := 0 ≤ b < 256.
Definition bytes_ok (l : bytes) : Prop := Forall byte_ok l.

#[export] Instance byte_ok_dec b : Decision (byte_ok b).
Proof. unfold byte_ok. apply _. Defined.
#[export] Instance bytes_ok_dec l : Decision (bytes_ok l).
Proof. unfold bytes_ok. apply _. Defined.

(** Conversion to an unsigned type of the given width. *)
Definition u8 (x : Z) : Z := x mod 2 ^ 8.
Definition u16 (x : Z) : Z := x mod 2 ^ 16.
Definition u32 (x : Z) : Z := x mod 2 ^ 32.
Definition u64 (x : Z) : Z := x mod 2 ^ 64.

(** [(hi << 8) | lo] and its four-byte form. *)
Definition be16 (hi lo : Z) : Z := (hi .<< 8) .| lo.
Definition be32 (a b c d : Z) : Z :=
  (a .<< 24) .| (b .<< 16) .| (c .<< 8) .| d.

(** [(x >> k) & 0xFF]. *)
Definition byte_of (x k : Z) : Z := (x .>> k) .& 255.
Definition put16 (x : Z) : bytes := [byte_of x 8; byte_of x 0].
Definition put32 (x : Z) : bytes :=
  [byte_of x 24; byte_of x 16; byte_of x 8; byte_of x 0].

(** Reading [data[i]], and the [n] bytes from [off]. *)
Definition rd (data : bytes) (i : nat) : result Z :=
  match data !! i with Some b => Ok b | None => Err Undefined end.
Definition slice (data : bytes) (off n : nat) : bytes := take n (drop off data).
Definition rd_range (data : bytes) (off n : nat) : result bytes :=
  if (off + n <=? length data)%nat then Ok (slice data off n) else Err Undefined.

(** Distance to the next multiple of four. *)
Definition pad4 (n : nat) : nat :=
  if (n mod 4 =? 0)%nat then 0%nat else (4 - n mod 4)%nat.

(** ** Integers *)

Lemma byte_of_val x k : 0 ≤ k → byte_of x k = (x / 2 ^ k) mod 256.
Proof.
  intros Hk. unfold byte_of. rewrite Z.shiftr_div_pow2 by done.
  by rewrite (Z.land_ones _ 8) by lia.
Qed.

Lemma byte_of_ok x k : 0 ≤ k → byte_ok (byte_of x k).
Proof. intros Hk. rewrite byte_of_val by done. unfold byte_ok. dlia. Qed.

Lemma lor_shiftl_add hi lo k :
  0 ≤ k → 0 ≤ lo < 2 ^ k → (hi .<< k) .| lo = hi * 2 ^ k + lo.
Proof.
  intros Hk Hlo. rewrite Z.shiftl_mul_pow2 by done.
  assert (E : (hi * 2 ^ k) .& lo = 0).
  { apply Z.bits_inj'. intros n Hn. rewrite Z.land_spec, Z.bits_0.
    destruct (decide (n < k)).
    - by rewrite Z.mul_pow2_bits_low by lia.
    - rewrite <-(Z.mod_small lo (2 ^ k)) by lia.
      by rewrite Z.mod_pow2_bits_high, andb_false_r by lia. }
  by rewrite <-Z.lxor_lor, <-Z.add_nocarry_lxor by exact E.
Qed.

Lemma be16_val hi lo : byte_ok lo → be16 hi lo = hi * 256 + lo.
Proof. unfold be16, byte_ok. intros ?. by rewrite lor_shiftl_add by lia. Qed.

Lemma be32_val a b c d :
  byte_ok b → byte_ok c → byte_ok d →
  be32 a b c d = a * 2 ^ 24 + b * 2 ^ 16 + c * 2 ^ 8 + d.
Proof.
  unfold be32, byte_ok. intros Hb Hc Hd.
  replace (a .<< 24) with ((a .<< 8) .<< 16) by by rewrite Z.shiftl_shiftl by lia.
  rewrite <-Z.shiftl_lor, (lor_shiftl_add a b 8) by lia.
  replace (_ .<< 16) with ((a * 2 ^ 8 + b) .<< 8 .<< 8)
    by by rewrite Z.shiftl_shiftl by lia.
  rewrite <-Z.shiftl_lor, (lor_shiftl_add _ c 8), lor_shiftl_add by lia. lia.
Qed.

Lemma be16_bound hi lo : byte_ok hi → byte_ok lo → 0 ≤ be16 hi lo < 65536.
Proof. intros ??. rewrite be16_val by done. unfold byte_ok in *. lia. Qed.

Lemma be32_bound a b c d :
  byte_ok a → byte_ok b → byte_ok c → byte_ok d → 0 ≤ be32 a b c d < 2 ^ 32.
Proof. intros. rewrite be32_val by done. unfold byte_ok in *. lia. Qed.

Lemma be16_put16 x : 0 ≤ x < 65536 → be16 (byte_of x 8) (byte_of x 0) = x.
Proof.
  intros Hx. rewrite be16_val by (apply byte_of_ok; lia).
  rewrite !byte_of_val by lia. dlia.
Qed.

Lemma be32_put32 x : 0 ≤ x < 2 ^ 32 →
  be32 (byte_of x 24) (byte_of x 16) (byte_of x 8) (byte_of x 0) = x.
Proof.
  intros Hx. rewrite be32_val by (apply byte_of_ok; lia).
  rewrite !byte_of_val by lia. dlia.
Qed.

Lemma put16_be16 hi lo : byte_ok hi → byte_ok lo → put16 (be16 hi lo) = [hi; lo].
Proof.
  unfold byte_ok. intros. rewrite be16_val by done. unfold put16.
  rewrite !byte_of_val by lia. repeat f_equal; dlia.
Qed.

Lemma put16_ok x : bytes_ok (put16 x).
Proof. repeat constructor; by apply byte_of_ok. Qed.
Lemma put32_ok x : bytes_ok (put32 x).
Proof. repeat constructor; by apply byte_of_ok. Qed.

Lemma lxor_bound x y n :
  0 ≤ n → 0 ≤ x < 2 ^ n → 0 ≤ y < 2 ^ n → 0 ≤ x .^ y < 2 ^ n.
Proof.
  intros Hn Hx Hy.
  assert (Hnn : 0 ≤ x .^ y) by (apply Z.lxor_nonneg; lia).
  split; [done|]. destruct (decide (x .^ y = 0)) as [->|Hz]; [lia|].
  apply Z.log2_lt_pow2; [lia|].
  assert (0 < n) by (destruct (decide (n = 0)) as [->|]; [|lia];
    assert (x = 0) as -> by lia; assert (y = 0) as -> by lia; done).
  eapply Z.le_lt_trans; [by apply Z.log2_lxor; lia|].
  apply Z.max_lub_lt; (destruct (decide (x = 0)) as [->|], (decide (y = 0)) as [->|]);
    simpl; try lia; apply Z.log2_lt_pow2; lia.
Qed.

Lemma lxor_involutive x y : (x .^ y) .^ y = x.
Proof. by rewrite Z.lxor_assoc, Z.lxor_nilpotent, Z.lxor_0_r. Qed.

Lemma u16_small n : Z.of_nat n < 65536 → u16 (Z.of_nat n) = Z.of_nat n.
Proof. intros. unfold u16. apply Z.mod_small. lia. Qed.

(** ** Buffers *)

Lemma rd_lt data i : (i < length data)%nat → ∃ b, rd data i = Ok b ∧ data !! i = Some b.
Proof. intros [b Hb]%lookup_lt_is_Some. exists b. unfold rd. by rewrite Hb. Qed.

Lemma rd_Ok data i b : rd data i = Ok b ↔ data !! i = Some b.
Proof. unfold rd. by destruct (data !! i); split; intros ?; simplify_eq. Qed.

Lemma rd_drop data off i : rd (drop off data) i = rd data (off + i).
Proof. unfold rd. by rewrite lookup_drop. Qed.

Lemma bytes_ok_lookup data i b : bytes_ok data → data !! i = Some b → byte_ok b.
Proof. intros H. by apply (proj1 (Forall_lookup _ _) H). Qed.

Lemma bytes_ok_slice data off n : bytes_ok data → bytes_ok (slice data off n).
Proof. intros H. by apply Forall_take, Forall_drop. Qed.

Lemma length_slice data off n :
  (off + n ≤ length data)%nat → length (slice data off n) = n.
Proof. intros. unfold slice. rewrite length_take, length_drop. lia. Qed.

Lemma slice_prefix a b : slice (a ++ b) 0 (length a) = a.
Proof. unfold slice. by rewrite drop_0, take_app_length. Qed.

Lemma pad4_lt n : (pad4 n < 4)%nat.
Proof.
  unfold pad4. pose proof (Nat.mod_upper_bound n 4). destruct (Nat.eqb_spec (n mod 4) 0); lia.
Qed.

Lemma pad4_mod n : ((n + pad4 n) mod 4 = 0)%nat.
Proof.
  unfold pad4. destruct (Nat.eqb_spec (n mod 4) 0) as [E|E].
  - by rewrite Nat.add_0_r.
  - pose proof (Nat.mod_upper_bound n 4). rewrite (Nat.div_mod_eq n 4) at 1.
    replace (4 * (n / 4) + n mod 4 + (4 - n mod 4))%nat with ((n / 4 + 1) * 4)%nat by lia.
    by apply Nat.Div0.mod_mul.
Qed.

#[export] Hint Resolve byte_of_ok be16_bound be32_bound put16_ok put32_ok
  bytes_ok_slice : zaza.

(** ** Strings *)

Definition ascii_byte (c : ascii) : Z := Z.of_N (N_of_ascii c).
Definition byte_ascii (b : Z) : ascii := ascii_of_N (Z.to_N b).

Fixpoint bytes_of_string (s : string) : bytes :=
  match s with
  | EmptyString => []
  | String c s => ascii_byte c :: bytes_of_string s
  end.

Fixpoint string_of_bytes (l : bytes) : string :=
  match l with
  | [] => EmptyString
  | b :: l => String (byte_ascii b) (string_of_bytes l)
  end.

Lemma ascii_byte_ok c : byte_ok (ascii_byte c).
Proof. unfold byte_ok, ascii_byte. pose proof (N_ascii_bounded c). lia. Qed.

Lemma byte_ascii_byte c : byte_ascii (ascii_byte c) = c.
Proof. unfold byte_ascii, ascii_byte. rewrite N2Z.id. apply ascii_N_embedding. Qed.

Lemma ascii_byte_ascii b : byte_ok b → ascii_byte (byte_ascii b) = b.
Proof.
  unfold byte_ok, byte_ascii, ascii_byte. intros ?.
  rewrite N_ascii_embedding by lia. lia.
Qed.

Lemma bytes_of_string_ok s : bytes_ok (bytes_of_string s).
Proof. induction s; constructor; auto using ascii_byte_ok. Qed.

Lemma string_of_bytes_of_string s : string_of_bytes (bytes_of_string s) = s.
Proof. induction s as [|c s IH]; [done|]. simpl. by rewrite byte_ascii_byte, IH. Qed.

Lemma bytes_of_string_of_bytes l :
  bytes_ok l → bytes_of_string (string_of_bytes l) = l.
Proof. induction 1; simpl; [done|]. by rewrite ascii_byte_ascii, IHForall. Qed.

Lemma bytes_of_string_app s1 s2 :
  bytes_of_string (s1 +:+ s2) = bytes_of_string s1 ++ bytes_of_string s2.
Proof. induction s1 as [|c s1 IH]; [done|]. simpl. by rewrite IH. Qed.

Lemma bytes_of_string_inj s1 s2 : bytes_of_string s1 = bytes_of_string s2 → s1 = s2.
Proof.
  intros H. by rewrite <-(string_of_bytes_of_string s1), H, string_of_bytes_of_string.
Qed.

Lemma length_bytes_of_string s : length (bytes_of_string s) = String.length s.
Proof. induction s; simpl; auto. Qed.

#[export] Hint Resolve bytes_of_string_ok ascii_byte_ok : zaza.
#[export] Hint Rewrite bytes_of_string_app string_of_bytes_of_string
  length_bytes_of_string : zaza.
