(* ===== verification/Text.v ===== *)
(** * Text: the parts of [std::string] and of number formatting that the code uses

    [std::to_string], [std::hex] with [std::setw] and [std::setfill], [std::stoll]
    and [std::stoi], [find], [substr] and [c_str].  The round trip
    [stoll (to_string n) = n] and the injectivity of [address + ":" + port]
    keys are what the credential code and the lookup tables rest on. *)

From Stdlib Require Import Ascii.
From S2P Require Export Bytes.

#[global] Arguments String.append !_ _ / : simpl nomatch.

(** ** Printing numbers *)

Definition digit_ascii (d : Z) : ascii :=
  byte_ascii (if d <? 10 then 48 + d else 87 + d).

Fixpoint digits_go (base : Z) (fuel : nat) (n : Z) (acc : string) : string :=
  match fuel with
  | O => acc
  | S fuel =>
      let acc := String (digit_ascii (n mod base)) acc in
      if n <? base then acc else digits_go base fuel (n / base) acc
  end.

(** A number below [2 ^ k] has at most [k] digits in any base. *)
Definition digits (base n : Z) : string :=
  digits_go base (S (Z.to_nat (Z.log2 n))) n "".

Definition to_string (n : Z) : string :=
  if n <? 0 then "-" +:+ digits 10 (- n) else digits 10 n.

Fixpoint str_replicate (n : nat) (c : ascii) : string :=
  match n with O => "" | S n => String c (str_replicate n c) end.

(** [oss << std::hex << std::setw(w) << std::setfill('0') << n]. *)
Definition hex_setw (w : nat) (n : Z) : string :=
  str_replicate (w - String.length (digits 16 n)) "0"%char +:+ digits 16 n.

Fixpoint hex_bytes (l : bytes) : string :=
  match l with [] => "" | b :: l => hex_setw 2 b +:+ hex_bytes l end.

(** ** Reading numbers *)

Definition digit_of (c : ascii) : option Z :=
  let b := ascii_byte c in
  if (48 <=? b) && (b <=? 57) then Some (b - 48) else None.

Definition is_space (c : ascii) : bool :=
  let b := ascii_byte c in (b =? 32) || ((9 <=? b) && (b <=? 13)).

Fixpoint skip_spaces (s : string) : string :=
  match s with
  | String c s' => if is_space c then skip_spaces s' else s
  | EmptyString => s
  end.

(** The value of the leading digits of [s], read after the digits of [acc]. *)
Fixpoint digits_val (acc : Z) (s : string) : Z :=
  match s with
  | EmptyString => acc
  | String c s' =>
      match digit_of c with
      | Some d => digits_val (acc * 10 + d) s'
      | None => acc
      end
  end.

Definition starts_with_digit (s : string) : bool :=
  match s with
  | String c _ => bool_decide (is_Some (digit_of c))
  | EmptyString => false
  end.

(** [strtol] in base 10: blanks, a sign, digits; the rest is ignored. *)
Definition strtol (s : string) : option Z :=
  let s := skip_spaces s in
  let '(sign, s) :=
    match s with
    | String c s' =>
        if bool_decide (c = "-"%char) then (-1, s')
        else if bool_decide (c = "+"%char) then (1, s') else (1, s)
    | EmptyString => (1, s)
    end in
  if starts_with_digit s then Some (sign * digits_val 0 s) else None.

(** [std::stoll] and [std::stoi]: the integer types have 64 and 32 bits. *)
Definition sto (name : string) (bits : Z) (s : string) : result Z :=
  match strtol s with
  | None => Err (Thrown InvalidArgument name)
  | Some n =>
      if (- 2 ^ (bits - 1) <=? n) && (n <? 2 ^ (bits - 1)) then Ok n
      else Err (Thrown OutOfRange name)
  end.
Definition stoll (s : string) : result Z := sto "stoll" 64 s.
Definition stoi (s : string) : result Z := sto "stoi" 32 s.

(** ** Searching and cutting *)

(** [s.find(c)]; [None] is [npos]. *)
Fixpoint str_find (c : ascii) (s : string) : option nat :=
  match s with
  | EmptyString => None
  | String c' s' =>
      if bool_decide (c = c') then Some 0%nat else S <$> str_find c s'
  end.

(** [s.substr(0, n)] and [s.substr(n)]. *)
Fixpoint str_take (n : nat) (s : string) : string :=
  match n, s with
  | S n, String c s => String c (str_take n s)
  | _, _ => ""
  end.
Fixpoint str_drop (n : nat) (s : string) : string :=
  match n, s with
  | O, _ => s
  | S n, String _ s => str_drop n s
  | S _, EmptyString => ""
  end.

Definition str_empty (s : string) : bool :=
  match s with EmptyString => true | _ => false end.

Definition colon : ascii := ":"%char.

(** ** Lemmas *)

Fixpoint str_in (c : ascii) (s : string) : Prop :=
  match s with EmptyString => False | String c' s => c = c' ∨ str_in c s end.

Lemma str_app_assoc s1 s2 s3 : (s1 +:+ s2) +:+ s3 = s1 +:+ (s2 +:+ s3).
Proof. induction s1 as [|c s1 IH]; [done|]. simpl. by rewrite IH. Qed.

Lemma str_app_nil_r s : s +:+ "" = s.
Proof. induction s as [|c s IH]; [done|]. simpl. by rewrite IH. Qed.

Lemma str_length_app s1 s2 :
  String.length (s1 +:+ s2) = (String.length s1 + String.length s2)%nat.
Proof. induction s1; simpl; auto. Qed.

Lemma str_in_app c s1 s2 : str_in c (s1 +:+ s2) ↔ str_in c s1 ∨ str_in c s2.
Proof. induction s1 as [|c1 s1 IH]; simpl; [tauto|]. rewrite IH. tauto. Qed.

Lemma str_find_None c s : str_find c s = None ↔ ¬ str_in c s.
Proof.
  induction s as [|c' s IH]; simpl; [tauto|].
  case_bool_decide; [naive_solver|].
  rewrite fmap_None, IH. naive_solver.
Qed.

Lemma str_find_app c s1 s2 :
  ¬ str_in c s1 → str_find c (s1 +:+ String c s2) = Some (String.length s1).
Proof.
  induction s1 as [|c1 s1 IH]; simpl; intros Hn.
  - by rewrite bool_decide_true.
  - rewrite bool_decide_false by naive_solver. rewrite IH by naive_solver. done.
Qed.

Lemma str_take_app s1 s2 : str_take (String.length s1) (s1 +:+ s2) = s1.
Proof. induction s1 as [|c s1 IH]; simpl; [by destruct s2|]. by rewrite IH. Qed.

Lemma str_drop_app s1 s2 : str_drop (String.length s1) (s1 +:+ s2) = s2.
Proof. induction s1 as [|c s1 IH]; simpl; done. Qed.

(** The last separator splits a string in one way only. *)
Lemma str_split_last c x y s t :
  ¬ str_in c s → ¬ str_in c t →
  x +:+ String c s = y +:+ String c t → x = y ∧ s = t.
Proof.
  intros Hs Ht. revert y. induction x as [|a x IH]; intros [|b y]; simpl; intros [=].
  - done.
  - subst. exfalso. apply Hs. apply str_in_app. right. by left.
  - subst. exfalso. apply Ht. apply str_in_app. right. by left.
  - subst. destruct (IH y) as [-> ->]; done.
Qed.

(** *** Digits *)

Lemma digit_of_ascii d : 0 ≤ d < 10 → digit_of (digit_ascii d) = Some d.
Proof.
  intros Hd. unfold digit_of, digit_ascii.
  replace (d <? 10) with true by lia.
  rewrite ascii_byte_ascii by (unfold byte_ok; lia).
  destruct (Z.leb_spec 48 (48 + d)), (Z.leb_spec (48 + d) 57); try lia. simpl. f_equal. lia.
Qed.

Lemma digits_go_val fuel n s :
  0 ≤ n < 10 ^ Z.of_nat fuel → digits_val 0 (digits_go 10 fuel n s) = digits_val n s.
Proof.
  revert n s. induction fuel as [|fuel IH]; intros n s Hn.
  { simpl. f_equal. change (10 ^ Z.of_nat 0) with 1 in Hn. lia. }
  rewrite Nat2Z.inj_succ, Z.pow_succ_r in Hn by lia. simpl.
  destruct (Z.ltb_spec n 10).
  - simpl. rewrite digit_of_ascii by dlia. f_equal. dlia.
  - rewrite IH by dlia. simpl. rewrite digit_of_ascii by dlia. f_equal. dlia.
Qed.

Lemma digits_fuel base n :
  2 ≤ base → 0 ≤ n → n < base ^ Z.of_nat (S (Z.to_nat (Z.log2 n))).
Proof.
  intros Hb Hn. rewrite Nat2Z.inj_succ, Z2Nat.id by apply Z.log2_nonneg.
  destruct (decide (n = 0)) as [->|]; [simpl; lia|].
  eapply Z.lt_le_trans; [apply Z.log2_spec; lia|].
  apply Z.pow_le_mono_l. lia.
Qed.

Lemma digits_val_digits n s :
  0 ≤ n → digits_val 0 (digits 10 n +:+ s) = digits_val n s.
Proof.
  intros Hn. unfold digits.
  assert (Happ : ∀ f m a, digits_go 10 f m a +:+ s = digits_go 10 f m (a +:+ s)).
  { induction f as [|f IH]; intros m a; simpl; [done|]. case_match; [done|]. by rewrite IH. }
  rewrite Happ. apply digits_go_val. split; [done|]. by apply digits_fuel.
Qed.

Lemma digits_go_head base fuel n s :
  2 ≤ base → ∃ m s', 0 ≤ m < base ∧ digits_go base (S fuel) n s = String (digit_ascii m) s'.
Proof.
  intros Hb. revert n s. induction fuel as [|fuel IH]; intros n s.
  - exists (n mod base). simpl. exists s. split; [dlia|]. by case_match.
  - remember (S fuel) as f. simpl. subst f. case_match; [|apply IH].
    exists (n mod base), s. split; [dlia|done].
Qed.

Lemma digits_head base n :
  2 ≤ base → ∃ m s', 0 ≤ m < base ∧ digits base n = String (digit_ascii m) s'.
Proof. apply digits_go_head. Qed.

Lemma digits_go_in base fuel n s c :
  2 ≤ base → str_in c (digits_go base fuel n s) →
  str_in c s ∨ ∃ m, 0 ≤ m < base ∧ c = digit_ascii m.
Proof.
  intros Hb. revert n s. induction fuel as [|fuel IH]; intros n s; simpl; [auto|].
  assert (Hm : 0 ≤ n mod base < base) by dlia.
  case_match; simpl; [naive_solver|]. intros [[]|?]%IH; naive_solver.
Qed.

Lemma digits_in base n c :
  2 ≤ base → str_in c (digits base n) → ∃ m, 0 ≤ m < base ∧ c = digit_ascii m.
Proof. intros Hb [[]|?]%digits_go_in; done. Qed.

(** A digit is no separator, sign or blank. *)
Lemma digit_ascii_val d :
  0 ≤ d < 16 → ascii_byte (digit_ascii d) = if d <? 10 then 48 + d else 87 + d.
Proof.
  intros Hd. unfold digit_ascii. apply ascii_byte_ascii. unfold byte_ok.
  destruct (Z.ltb_spec d 10); lia.
Qed.

Lemma digit_ascii_inj d e :
  0 ≤ d < 16 → 0 ≤ e < 16 → digit_ascii d = digit_ascii e → d = e.
Proof.
  intros Hd He Heq%(f_equal ascii_byte). rewrite !digit_ascii_val in Heq by done.
  destruct (Z.ltb_spec d 10), (Z.ltb_spec e 10); lia.
Qed.

Lemma digits_no_colon base n : 2 ≤ base ≤ 16 → ¬ str_in colon (digits base n).
Proof.
  intros Hb [m [Hm Hc%(f_equal ascii_byte)]]%digits_in; [|lia].
  rewrite digit_ascii_val in Hc by lia.
  change (ascii_byte colon) with 58 in Hc. destruct (Z.ltb_spec m 10); lia.
Qed.

Lemma to_string_no_colon n : ¬ str_in colon (to_string n).
Proof.
  unfold to_string. case_match; [|apply digits_no_colon; lia].
  simpl. intros [?|Hin]; [done|]. revert Hin. apply digits_no_colon; lia.
Qed.

(** *** Round trips *)

Lemma digit_ascii_start m : 0 ≤ m < 10 →
  is_space (digit_ascii m) = false ∧
  digit_ascii m ≠ "-"%char ∧ digit_ascii m ≠ "+"%char.
Proof.
  intros Hm. pose proof (digit_ascii_val m ltac:(lia)) as Hv.
  replace (m <? 10) with true in Hv by lia.
  assert (ascii_byte "-" = 45 ∧ ascii_byte "+" = 43) as [H1 H2] by done.
  split; [|split; intros E; rewrite E in Hv; lia].
  unfold is_space. rewrite Hv.
  by destruct (Z.eqb_spec (48 + m) 32), (Z.leb_spec (48 + m) 13); try lia;
    rewrite ?andb_false_r.
Qed.

Lemma strtol_digits n s :
  0 ≤ n → strtol (digits 10 n +:+ s) = Some (digits_val n s).
Proof.
  intros Hn. destruct (digits_head 10 n) as (m & s' & Hm & E); [lia|].
  pose proof (digits_val_digits n s Hn) as Hv.
  destruct (digit_ascii_start m Hm) as (Hsp & Hmi & Hpl).
  unfold strtol. rewrite E in *. simpl in *. rewrite Hsp.
  rewrite (bool_decide_false _ Hmi), (bool_decide_false _ Hpl).
  simpl. rewrite digit_of_ascii in * by done.
  rewrite bool_decide_true by eauto. by rewrite Z.mul_1_l, Hv.
Qed.

Lemma strtol_to_string n s :
  starts_with_digit s = false → strtol (to_string n +:+ s) = Some n.
Proof.
  intros Hs. assert (Hv : ∀ m, digits_val m s = m).
  { intros m. destruct s as [|c s]; [done|]. simpl in *.
    destruct (digit_of c); [|done]. by rewrite bool_decide_true in Hs by eauto. }
  unfold to_string. destruct (Z.ltb_spec n 0) as [Hn|Hn].
  - pose proof (digits_val_digits (- n) s ltac:(lia)) as Hd.
    destruct (digits_head 10 (- n)) as (m & s' & Hm & E); [lia|].
    unfold strtol. rewrite E in *. simpl in *.
    rewrite digit_of_ascii in * by done.
    rewrite bool_decide_true by eauto. rewrite Hd, Hv. f_equal. lia.
  - rewrite strtol_digits, Hv by done. done.
Qed.

Lemma stoll_to_string_app n s :
  - 2 ^ 63 ≤ n < 2 ^ 63 → starts_with_digit s = false →
  stoll (to_string n +:+ s) = Ok n.
Proof.
  intros Hn Hs. unfold stoll, sto. rewrite strtol_to_string by done.
  change (64 - 1) with 63.
  destruct (Z.leb_spec (- 2 ^ 63) n), (Z.ltb_spec n (2 ^ 63)); try lia. done.
Qed.

Lemma to_string_inj n m : to_string n = to_string m → n = m.
Proof.
  intros E. pose proof (strtol_to_string n "" eq_refl) as Hn.
  rewrite E, strtol_to_string in Hn by done. congruence.
Qed.

Lemma to_string_nonempty n : to_string n ≠ "".
Proof.
  unfold to_string. case_match; [done|].
  destruct (digits_head 10 n) as (m & s' & _ & ->); [lia|done].
Qed.

(** *** Fixed-width hexadecimal *)

Lemma digits_go_length base fuel n s w :
  2 ≤ base → 0 ≤ n < base ^ Z.of_nat w → (0 < w)%nat →
  (String.length (digits_go base fuel n s) ≤ w + String.length s)%nat.
Proof.
  intros Hb. revert n s w. induction fuel as [|fuel IH]; intros n s w Hn Hw; simpl; [lia|].
  destruct (Z.ltb_spec n base); simpl; [lia|].
  destruct w as [|[|w]]; [lia| |].
  { change (Z.of_nat 1) with 1 in Hn. rewrite Z.pow_1_r in Hn. lia. }
  rewrite Nat2Z.inj_succ, Z.pow_succ_r in Hn by lia.
  specialize (IH (n / base) (String (digit_ascii (n mod base)) s) (S w)).
  simpl in IH. etransitivity; [apply IH; [|lia]|lia].
  split; [apply Z.div_pos; lia|]. apply Z.div_lt_upper_bound; lia.
Qed.

Lemma str_length_replicate n c : String.length (str_replicate n c) = n.
Proof. induction n; simpl; auto. Qed.

Lemma hex_setw_length w n :
  (0 < w)%nat → 0 ≤ n < 16 ^ Z.of_nat w → String.length (hex_setw w n) = w.
Proof.
  intros Hw Hn. unfold hex_setw. rewrite str_length_app, str_length_replicate.
  pose proof (digits_go_length 16 (S (Z.to_nat (Z.log2 n))) n "" w) as H.
  unfold digits. simpl (String.length "") in H. lia.
Qed.

Lemma hex_bytes_length l : bytes_ok l → String.length (hex_bytes l) = (2 * length l)%nat.
Proof.
  induction 1 as [|b l Hb Hl IH]; [done|]. cbn [hex_bytes length].
  rewrite str_length_app, hex_setw_length, IH; [lia|lia|]. unfold byte_ok in Hb. simpl. lia.
Qed.

#[export] Hint Resolve to_string_no_colon to_string_nonempty : zaza.
#[export] Hint Rewrite str_app_assoc str_app_nil_r str_length_app : zaza.

Example to_string_ex : map to_string [0; 7; 10; 65535; -120] = ["0"; "7"; "10"; "65535"; "-120"].
Proof. reflexivity. Qed.
Example stoll_ex : map stoll ["  12x"; "-3"; "x"; "9223372036854775808"] =
  [Ok 12; Ok (-3); Err (Thrown InvalidArgument "stoll"); Err (Thrown OutOfRange "stoll")].
Proof. reflexivity. Qed.
Example hex_ex : hex_bytes [0; 10; 255] = "000aff".
Proof. reflexivity. Qed.
