(* ===== verification/Crypto.v ===== *)
(** * Shared cryptography helpers (src/shared/crypto)

    The digest, MAC and base64 routines are OpenSSL's: they are the fields of
    the class [OpenSSL], of which only the laws of [OpenSSLSpec] are assumed
    (output sizes, base64 being ASCII, and [CRYPTO_memcmp] returning zero exactly on equal
    buffers).  What the repository adds around them is modelled: the failure
    branches, the key derivations, the length check before the constant-time
    comparison and the input validation of [base64_decode].

    [ToyOpenSSL] is an instance with concrete functions to evaluate with. *)

From Stdlib Require Import Ascii.
From S2P Require Export Text.

Class OpenSSL := {
  HMAC_sha1 : bytes → bytes → option bytes;      (* None: HMAC() returned NULL *)
  HMAC_sha256 : bytes → bytes → option bytes;
  EVP_sha256 : bytes → option bytes;             (* None: an EVP call failed *)
  EVP_md5 : bytes → bytes;
  BIO_base64_write : bytes → string;
  BIO_base64_read : string → option bytes;       (* None: a negative length *)
  CRYPTO_memcmp : bytes → bytes → Z;
}.

Class OpenSSLSpec `{OpenSSL} := {
  HMAC_sha1_ok key data :
    ∃ mac, HMAC_sha1 key data = Some mac ∧ length mac = 20%nat ∧ bytes_ok mac;
  HMAC_sha256_ok key data :
    ∃ mac, HMAC_sha256 key data = Some mac ∧ length mac = 32%nat ∧ bytes_ok mac;
  EVP_sha256_ok data :
    ∃ d, EVP_sha256 data = Some d ∧ length d = 32%nat ∧ bytes_ok d;
  BIO_base64_write_nonempty b l : BIO_base64_write (b :: l) ≠ "";
  BIO_base64_write_ascii l c : str_in c (BIO_base64_write l) → ascii_byte c < 128;
  CRYPTO_memcmp_eq a b : length a = length b → CRYPTO_memcmp a b = 0 ↔ a = b;
}.

Module crypto.
Section crypto.
Context `{OpenSSL}.

Definition hmac_sha1 (key : bytes) (data : string) : result bytes :=
  match HMAC_sha1 key (bytes_of_string data) with
  | Some mac => mret mac
  | None => Err (Thrown RuntimeError "hmac_sha1: HMAC() failed")
  end.

(** The overload whose key is a string. *)
Definition hmac_sha1_str (key data : string) : result bytes :=
  hmac_sha1 (bytes_of_string key) data.

Definition hmac_sha256 (key : bytes) (data : string) : result bytes :=
  match HMAC_sha256 key (bytes_of_string data) with
  | Some mac => mret mac
  | None => Err (Thrown RuntimeError "hmac_sha256: HMAC() failed")
  end.

Definition sha256 (data : string) : result bytes :=
  match EVP_sha256 (bytes_of_string data) with
  | Some d => mret d
  | None => Err (Thrown RuntimeError "sha256: digest failed")
  end.

Definition long_term_key (username realm password : string) : result bytes :=
  sha256 (username +:+ ":" +:+ realm +:+ ":" +:+ password).

Definition long_term_key_md5 (username realm password : string) : bytes :=
  EVP_md5 (bytes_of_string (username +:+ ":" +:+ realm +:+ ":" +:+ password)).

Definition constant_time_compare (a b : bytes) : bool :=
  if negb (length a =? length b)%nat then false else CRYPTO_memcmp a b =? 0.

Definition constant_time_compare_str (a b : string) : bool :=
  if negb (String.length a =? String.length b)%nat then false
  else CRYPTO_memcmp (bytes_of_string a) (bytes_of_string b) =? 0.

Definition base64_encode (data : bytes) : string :=
  match data with [] => "" | _ => BIO_base64_write data end.

Definition base64_valid : string :=
  "ABCDEFGHIJKLMNOPQRSTUVWXYZabcdefghijklmnopqrstuvwxyz0123456789+/=".

(** The loop over the characters: [i] is the index of the first one of [s],
    [size] the length of the whole input. *)
Fixpoint base64_check (size i : nat) (s : string) : result () :=
  match s with
  | EmptyString => mret ()
  | String c s =>
      if bool_decide (str_find c base64_valid = None)
      then Err (Thrown InvalidArgument "base64_decode: invalid character")
      else if bool_decide (c = "="%char) && (i <? size - 2)%nat
      then Err (Thrown InvalidArgument "base64_decode: invalid padding")
      else base64_check size (S i) s
  end.

Definition base64_decode (input : string) : result bytes :=
  if str_empty input then mret [] else
  if negb (String.length input mod 4 =? 0)%nat
  then Err (Thrown InvalidArgument "base64_decode: invalid length") else
  _ ← base64_check (String.length input) 0 input;
  match BIO_base64_read input with
  | Some l => mret l
  | None => Err (Thrown InvalidArgument "base64_decode: decode failed")
  end.
End crypto.
End crypto.

(** ** Lemmas *)
Section lemmas.
Context `{OpenSSLSpec}.

Lemma hmac_sha1_Ok key data :
  ∃ mac, crypto.hmac_sha1 key data = Ok mac ∧ length mac = 20%nat ∧ bytes_ok mac.
Proof.
  destruct (HMAC_sha1_ok key (bytes_of_string data)) as (mac & E & ?).
  exists mac. unfold crypto.hmac_sha1. by rewrite E.
Qed.

Lemma hmac_sha256_Ok key data :
  ∃ mac, crypto.hmac_sha256 key data = Ok mac ∧ length mac = 32%nat ∧ bytes_ok mac.
Proof.
  destruct (HMAC_sha256_ok key (bytes_of_string data)) as (mac & E & ?).
  exists mac. unfold crypto.hmac_sha256. by rewrite E.
Qed.

Lemma long_term_key_Ok u r p : ∃ k, crypto.long_term_key u r p = Ok k.
Proof.
  unfold crypto.long_term_key, crypto.sha256.
  destruct (EVP_sha256_ok (bytes_of_string (u +:+ ":" +:+ r +:+ ":" +:+ p)))
    as (k & -> & _). by exists k.
Qed.

Lemma constant_time_compare_eq a b :
  crypto.constant_time_compare a b = bool_decide (a = b).
Proof.
  unfold crypto.constant_time_compare. destruct (Nat.eqb_spec (length a) (length b)) as [E|E].
  - simpl. apply CRYPTO_memcmp_eq in E. case_bool_decide; apply Z.eqb_eq || apply Z.eqb_neq; tauto.
  - simpl. symmetry. apply bool_decide_false. by intros ->.
Qed.

Lemma constant_time_compare_str_eq a b :
  crypto.constant_time_compare_str a b = bool_decide (a = b).
Proof.
  unfold crypto.constant_time_compare_str. rewrite <-!length_bytes_of_string.
  fold (crypto.constant_time_compare (bytes_of_string a) (bytes_of_string b)).
  rewrite constant_time_compare_eq. apply bool_decide_ext. split; [|by intros ->].
  apply bytes_of_string_inj.
Qed.

Lemma base64_encode_empty l : crypto.base64_encode l = "" ↔ l = [].
Proof.
  split; [|by intros ->]. destruct l as [|b l]; [done|]. simpl.
  intros E. by apply BIO_base64_write_nonempty in E.
Qed.

Lemma base64_encode_ascii l c : str_in c (crypto.base64_encode l) → ascii_byte c < 128.
Proof. destruct l as [|b l]; [done|]. apply BIO_base64_write_ascii. Qed.
End lemmas.

(** ** A concrete instance

    A checksum stands for the MACs and digests; base64 is the real encoding
    (RFC 4648).  Only used to evaluate the model. *)
Module toy.
Definition checksum (l : bytes) : Z := foldl (λ h b, u32 (h * 31 + b + 7)) 17 l.
Definition mac (n : nat) (key data : bytes) : bytes :=
  map (λ i, byte_of (checksum key * 3 + checksum data + Z.of_nat i * 97) 0) (seq 0 n).

Definition b64_char (n : Z) : ascii :=
  default "="%char (String.get (Z.to_nat n) crypto.base64_valid).
Fixpoint b64 (l : bytes) : string :=
  match l with
  | [] => ""
  | [a] =>
      String (b64_char (a / 4)) (String (b64_char (a mod 4 * 16)) "==")
  | [a; b] =>
      String (b64_char (a / 4)) (String (b64_char (a mod 4 * 16 + b / 16))
        (String (b64_char (b mod 16 * 4)) "="))
  | a :: b :: c :: l =>
      String (b64_char (a / 4)) (String (b64_char (a mod 4 * 16 + b / 16))
        (String (b64_char (b mod 16 * 4 + c / 64)) (String (b64_char (c mod 64)) (b64 l))))
  end.
Definition memcmp (a b : bytes) : Z := if decide (a = b) then 0 else 1.

Lemma mac_spec n key data : length (mac n key data) = n ∧ bytes_ok (mac n key data).
Proof.
  unfold mac. rewrite length_map, length_seq. split; [done|].
  apply Forall_map, Forall_true. intros i. by apply byte_of_ok.
Qed.

Lemma get_ascii k s c : forallb (λ b, b <? 128) (bytes_of_string s) = true →
  String.get k s = Some c → ascii_byte c < 128.
Proof.
  revert k. induction s as [|d s IH]; intros k; [by destruct k|].
  cbn [bytes_of_string forallb]. intros [Hd Hs]%andb_true_iff.
  destruct k as [|k]; cbn [String.get]; [intros [= ->]; by apply Z.ltb_lt|by apply IH].
Qed.

Lemma b64_char_ascii n : ascii_byte (b64_char n) < 128.
Proof.
  unfold b64_char. destruct (String.get _ _) as [c|] eqn:E; [|by vm_compute].
  eapply get_ascii; [|exact E]. by vm_compute.
Qed.

Lemma b64_ascii l c : str_in c (b64 l) → ascii_byte c < 128.
Proof.
  enough (Hn : ∀ n l, (length l <= n)%nat → str_in c (b64 l) → ascii_byte c < 128) by (by eapply Hn).
  clear l. intros n. pose proof b64_char_ascii as Hb. assert (He : ascii_byte "=" < 128) by done.
  induction n as [|n IH]; intros [|a [|b [|d l]]] Hl; cbn [length] in Hl; cbn [b64]; try lia; try done.
  - intros [-> | [-> | [-> | [-> | []]]]]; auto.
  - intros [-> | [-> | [-> | [-> | []]]]]; auto.
  - intros [-> | [-> | [-> | [-> | Hin]]]]; auto. apply (IH l); [lia|done].
Qed.
End toy.

#[local] Instance ToyOpenSSL : OpenSSL := {|
  HMAC_sha1 key data := Some (toy.mac 20 key data);
  HMAC_sha256 key data := Some (toy.mac 32 key data);
  EVP_sha256 data := Some (toy.mac 32 [] data);
  EVP_md5 data := toy.mac 16 [] data;
  BIO_base64_write := toy.b64;
  BIO_base64_read _ := None;
  CRYPTO_memcmp := toy.memcmp;
|}.

#[local] Instance ToyOpenSSLSpec : OpenSSLSpec.
Proof.
  split.
  - intros. eexists. split; [done|]. apply toy.mac_spec.
  - intros. eexists. split; [done|]. apply toy.mac_spec.
  - intros. eexists. split; [done|]. apply toy.mac_spec.
  - intros b [|c [|d l]]; done.
  - apply toy.b64_ascii.
  - intros a b _. simpl. unfold toy.memcmp. case_decide; split; by intros.
Defined.
