(* ===== verification/Message.v ===== *)
(** * STUN/TURN messages: data and parsers (src/turn_server/src/message)

    The enumerations of parser.hpp, [parse] (parser.cpp), the ChannelData
    parser and the XOR address codec.  [parse] works on a pointer and a size:
    every [data[i]] is a read of the buffer that fails when it is outside, so
    that memory safety is a theorem.  The attribute loop has the size of the
    buffer as fuel; [parse_no_failure] shows it is enough. *)

From S2P Require Export Text.

Module MessageClass.
Inductive MessageClass :=
  | Request
  | Indication
  | SuccessResponse
  | ErrorResponse.
End MessageClass.
Abbreviation MessageClass := MessageClass.MessageClass.

Module Method.
Inductive Method :=
  | Allocate
  | Refresh
  | Send
  | Data
  | CreatePermission
  | ChannelBind
  | Unknown.
End Method.
Abbreviation Method := Method.Method.

(** An enumeration with a fixed underlying type holds any value of it: [Other]
    is a value that is no enumerator. *)
Module AttrType.
Inductive AttrType :=
  | MappedAddress
  | Username
  | MessageIntegrity
  | ErrorCode
  | UnknownAttributes
  | ChannelNumber
  | Lifetime
  | XorPeerAddress
  | Data
  | Realm
  | Nonce
  | XorRelayedAddress
  | RequestedTransport
  | MessageIntegritySha256
  | PasswordAlgorithm
  | XorMappedAddress
  | PasswordAlgorithms
  | Software
  | Fingerprint
  | Other (code : Z).
End AttrType.
Abbreviation AttrType := AttrType.AttrType.

#[export] Instance MessageClass_eq_dec : EqDecision MessageClass.
Proof. solve_decision. Defined.
#[export] Instance Method_eq_dec : EqDecision Method.
Proof. solve_decision. Defined.
#[export] Instance AttrType_eq_dec : EqDecision AttrType.
Proof. solve_decision. Defined.

Definition class_code (c : MessageClass) : Z :=
  match c with
  | MessageClass.Request => 0x00
  | MessageClass.Indication => 0x01
  | MessageClass.SuccessResponse => 0x02
  | MessageClass.ErrorResponse => 0x03
  end.

Definition method_code (m : Method) : Z :=
  match m with
  | Method.Allocate => 0x003
  | Method.Refresh => 0x004
  | Method.Send => 0x006
  | Method.Data => 0x007
  | Method.CreatePermission => 0x008
  | Method.ChannelBind => 0x009
  | Method.Unknown => 0xFFF
  end.

Definition attr_type_code (t : AttrType) : Z :=
  match t with
  | AttrType.MappedAddress => 0x0001
  | AttrType.Username => 0x0006
  | AttrType.MessageIntegrity => 0x0008
  | AttrType.ErrorCode => 0x0009
  | AttrType.UnknownAttributes => 0x000A
  | AttrType.ChannelNumber => 0x000C
  | AttrType.Lifetime => 0x000D
  | AttrType.XorPeerAddress => 0x0012
  | AttrType.Data => 0x0013
  | AttrType.Realm => 0x0014
  | AttrType.Nonce => 0x0015
  | AttrType.XorRelayedAddress => 0x0016
  | AttrType.RequestedTransport => 0x0019
  | AttrType.MessageIntegritySha256 => 0x001C
  | AttrType.PasswordAlgorithm => 0x001D
  | AttrType.XorMappedAddress => 0x0020
  | AttrType.PasswordAlgorithms => 0x8002
  | AttrType.Software => 0x8022
  | AttrType.Fingerprint => 0x8028
  | AttrType.Other code => code
  end.

Definition attr_enumerators : list AttrType :=
  [AttrType.MappedAddress; AttrType.Username; AttrType.MessageIntegrity;
   AttrType.ErrorCode; AttrType.UnknownAttributes; AttrType.ChannelNumber;
   AttrType.Lifetime; AttrType.XorPeerAddress; AttrType.Data; AttrType.Realm;
   AttrType.Nonce; AttrType.XorRelayedAddress; AttrType.RequestedTransport;
   AttrType.MessageIntegritySha256; AttrType.PasswordAlgorithm;
   AttrType.XorMappedAddress; AttrType.PasswordAlgorithms; AttrType.Software;
   AttrType.Fingerprint].

(** [static_cast<AttrType>(type_raw)]. *)
Definition attr_type_of (code : Z) : AttrType :=
  default (AttrType.Other code)
    (List.find (λ t, attr_type_code t =? code) attr_enumerators).

Record Attribute := mkAttribute { attr_type : AttrType; attr_value : bytes }.

Record TurnMessage := mkTurnMessage {
  msg_class : MessageClass;
  method : Method;
  msg_length : Z;
  transaction_id : bytes;
  attributes : list Attribute;
}.

Definition findAttr (msg : TurnMessage) (t : AttrType) : option Attribute :=
  List.find (λ a, bool_decide (attr_type a = t)) (attributes msg).

(** ** The XOR address codec (xor_codec.hpp) *)

Definition kMagicCookie : Z := 0x2112A442.
Definition xor_port (port : Z) : Z := port .^ u16 (kMagicCookie .>> 16).
Definition xor_addr_v4 (addr : Z) : Z := addr .^ kMagicCookie.

(** ** Message types *)

Definition decodeMethod (msg_type : Z) : Method :=
  let m := ((msg_type .& 0x3E00) .>> 2) .| ((msg_type .& 0x00E0) .>> 1)
           .| (msg_type .& 0x000F) in
  if m =? 0x003 then Method.Allocate
  else if m =? 0x004 then Method.Refresh
  else if m =? 0x006 then Method.Send
  else if m =? 0x007 then Method.Data
  else if m =? 0x008 then Method.CreatePermission
  else if m =? 0x009 then Method.ChannelBind
  else Method.Unknown.

Definition decodeClass (msg_type : Z) : MessageClass :=
  let c := ((msg_type .>> 7) .& 0x02) .| ((msg_type .>> 4) .& 0x01) in
  if c =? 0 then MessageClass.Request
  else if c =? 1 then MessageClass.Indication
  else if c =? 2 then MessageClass.SuccessResponse
  else if c =? 3 then MessageClass.ErrorResponse
  else MessageClass.Request.

(** ** Parsing a STUN message *)

Module ParseResult.
Inductive ParseResult :=
  | Ok
  | TooShort
  | BadMagicCookie
  | BadLength
  | NotTurnMessage.
End ParseResult.
Abbreviation ParseResult := ParseResult.ParseResult.

#[export] Instance ParseResult_eq_dec : EqDecision ParseResult.
Proof. solve_decision. Defined.

(** The [while] loop: [len] is [out.length], [acc] the attributes so far. *)
Fixpoint parse_attrs (fuel : nat) (data : bytes) (len offset : nat)
    (acc : list Attribute) : result (list Attribute) :=
  match fuel with
  | O => Err OutOfFuel
  | S fuel =>
      if (offset + 4 <=? 20 + len)%nat then
        t0 ← rd data offset; t1 ← rd data (offset + 1);
        l0 ← rd data (offset + 2); l1 ← rd data (offset + 3);
        let attr_len := Z.to_nat (be16 l0 l1) in
        let offset := (offset + 4)%nat in
        if (length data <? offset + attr_len)%nat then mret acc else
        value ← rd_range data offset attr_len;
        let attr := mkAttribute (attr_type_of (be16 t0 t1)) value in
        parse_attrs fuel data len (offset + attr_len + pad4 attr_len) (acc ++ [attr])
      else mret acc
  end.

(** [parse(data, size, out)]: the result and what [out] holds afterwards. *)
Definition parse (data : bytes) (out : TurnMessage) : result (ParseResult * TurnMessage) :=
  let size := length data in
  if (size <? 20)%nat then mret (ParseResult.TooShort, out) else
  d0 ← rd data 0;
  if negb (d0 .& 0xC0 =? 0x00) then mret (ParseResult.NotTurnMessage, out) else
  d1 ← rd data 1; d2 ← rd data 2; d3 ← rd data 3;
  let msg_type := be16 d0 d1 in
  let out := mkTurnMessage (decodeClass msg_type) (decodeMethod msg_type)
               (be16 d2 d3) (transaction_id out) (attributes out) in
  if (size <? 20 + Z.to_nat (msg_length out))%nat
  then mret (ParseResult.BadLength, out) else
  d4 ← rd data 4; d5 ← rd data 5; d6 ← rd data 6; d7 ← rd data 7;
  let cookie := be32 d4 d5 d6 d7 in
  if negb (cookie =? kMagicCookie) then mret (ParseResult.BadMagicCookie, out) else
  tid ← rd_range data 8 12;
  attrs ← parse_attrs (S size) data (Z.to_nat (msg_length out)) 20 [];
  mret (ParseResult.Ok,
        mkTurnMessage (msg_class out) (method out) (msg_length out) tid attrs).

(** ** ChannelData *)

Definition is_channel_data (data : bytes) : result bool :=
  if (length data <? 1)%nat then mret false else
  d0 ← rd data 0; mret (d0 .& 0xC0 =? 0x40).

Module ChannelDataResult.
Inductive ChannelDataResult := Ok | TooShort | InvalidChannel.
End ChannelDataResult.
Abbreviation ChannelDataResult := ChannelDataResult.ChannelDataResult.

#[export] Instance ChannelDataResult_eq_dec : EqDecision ChannelDataResult.
Proof. solve_decision. Defined.

Record ChannelDataMessage := mkChannelData { channel_number : Z; ch_data : bytes }.

Definition parse_channel_data (raw : bytes) (out : ChannelDataMessage) :
    result (ChannelDataResult * ChannelDataMessage) :=
  let size := length raw in
  if (size <? 4)%nat then mret (ChannelDataResult.TooShort, out) else
  r0 ← rd raw 0; r1 ← rd raw 1; r2 ← rd raw 2; r3 ← rd raw 3;
  let ch := be16 r0 r1 in
  let len := Z.to_nat (be16 r2 r3) in
  if (ch <? 0x4000) || (0x4FFF <? ch) then mret (ChannelDataResult.InvalidChannel, out) else
  if (size <? 4 + len)%nat then mret (ChannelDataResult.TooShort, out) else
  data ← rd_range raw 4 len;
  mret (ChannelDataResult.Ok, mkChannelData ch data).

(** A value of the type, for a variable that is declared without a value. *)
Definition empty_message : TurnMessage :=
  mkTurnMessage MessageClass.Request Method.Unknown 0 (replicate 12 0) [].
