(* ===== verification/Builder.v ===== *)
(** * Building STUN/TURN messages (src/turn_server/src/message/builder.cpp)

    A [MessageBuilder] is the header and the bytes of the attributes added so
    far; its methods return the builder, so a chain of calls is a chain of
    applications.  Lengths are cast to 16 bits where the code casts them. *)

From S2P Require Export Message.

(** [encodeType]: the bits of method and class interleaved. *)
Definition encodeType (method : Method) (msg_class : MessageClass) : Z :=
  let m := method_code method in
  let c := class_code msg_class in
  let m_high := (m .& 0x0F80) .<< 2 in
  let m_mid := (m .& 0x0070) .<< 1 in
  let m_low := m .& 0x000F in
  let c_high := (c .& 0x02) .<< 7 in
  let c_low := (c .& 0x01) .<< 4 in
  m_high .| c_high .| m_mid .| c_low .| m_low.

Record MessageBuilder := mkBuilder {
  msg_type_ : Z;
  transaction_id_ : bytes;
  attrs_buf_ : bytes;
}.

Definition newBuilder (method : Method) (msg_class : MessageClass) (tid : bytes) : MessageBuilder :=
  mkBuilder (encodeType method msg_class) tid [].

(** [appendAttrRaw(type, value, len)] with [value] at least [len] bytes long. *)
Definition appendAttrRaw (type : Z) (value : bytes) (len : Z) (b : MessageBuilder) : MessageBuilder :=
  let n := Z.to_nat len in
  mkBuilder (msg_type_ b) (transaction_id_ b)
    (attrs_buf_ b ++ [byte_of type 8; byte_of type 0; byte_of len 8; byte_of len 0]
       ++ take n value ++ replicate (pad4 n) 0x00).

Definition addAttr (type : AttrType) (value : bytes) (b : MessageBuilder) : MessageBuilder :=
  appendAttrRaw (attr_type_code type) value (u16 (Z.of_nat (length value))) b.

Definition addErrorCode (code : Z) (reason : string) (b : MessageBuilder) : MessageBuilder :=
  let buf := [0x00; 0x00; u8 (code / 100) .& 0x07; u8 (code mod 100)]
               ++ bytes_of_string reason in
  addAttr AttrType.ErrorCode buf b.

Definition addLifetime (seconds : Z) (b : MessageBuilder) : MessageBuilder :=
  addAttr AttrType.Lifetime
    [byte_of seconds 24; byte_of seconds 16; byte_of seconds 8; byte_of seconds 0] b.

Definition appendXorAddress (type : AttrType) (ipv4 port : Z) (b : MessageBuilder) : MessageBuilder :=
  let xport := xor_port port in
  let xaddr := xor_addr_v4 ipv4 in
  addAttr type
    [0x00; 0x01; byte_of xport 8; byte_of xport 0;
     byte_of xaddr 24; byte_of xaddr 16; byte_of xaddr 8; byte_of xaddr 0] b.

Definition addXorMappedAddress (ipv4 port : Z) (b : MessageBuilder) : MessageBuilder :=
  appendXorAddress AttrType.XorMappedAddress ipv4 port b.
Definition addXorRelayedAddress (ipv4 port : Z) (b : MessageBuilder) : MessageBuilder :=
  appendXorAddress AttrType.XorRelayedAddress ipv4 port b.
Definition addXorPeerAddress (ipv4 port : Z) (b : MessageBuilder) : MessageBuilder :=
  appendXorAddress AttrType.XorPeerAddress ipv4 port b.

Definition build (b : MessageBuilder) : bytes :=
  let attrs_len := u16 (Z.of_nat (length (attrs_buf_ b))) in
  [byte_of (msg_type_ b) 8; byte_of (msg_type_ b) 0;
   byte_of attrs_len 8; byte_of attrs_len 0; 0x21; 0x12; 0xA4; 0x42]
    ++ transaction_id_ b ++ attrs_buf_ b.

(** A call [b.f(x).g(y)] reads from left to right as in the code. *)
Notation "b |> f" := (f b) (at level 53, left associativity, only parsing) : zaza_scope.

Definition make_error (tid : bytes) (code : Z) (reason : string) : bytes :=
  newBuilder Method.Allocate MessageClass.ErrorResponse tid
    |> addErrorCode code reason |> build.

Definition make400 (tid : bytes) : bytes :=
  newBuilder Method.Allocate MessageClass.ErrorResponse tid
    |> addErrorCode 400 "Bad Request" |> build.

Definition make401 (tid : bytes) (realm nonce : string) : bytes :=
  newBuilder Method.Allocate MessageClass.ErrorResponse tid
    |> addErrorCode 401 "Unauthorized"
    |> addAttr AttrType.Realm (bytes_of_string realm)
    |> addAttr AttrType.Nonce (bytes_of_string nonce)
    |> build.

Definition make438 (tid : bytes) (realm nonce : string) : bytes :=
  newBuilder Method.Allocate MessageClass.ErrorResponse tid
    |> addErrorCode 438 "Stale Nonce"
    |> addAttr AttrType.Realm (bytes_of_string realm)
    |> addAttr AttrType.Nonce (bytes_of_string nonce)
    |> build.

Definition make_data_indication (tid : bytes) (peer_ipv4 peer_port : Z) (payload : bytes) : bytes :=
  newBuilder Method.Data MessageClass.Indication tid
    |> addXorPeerAddress peer_ipv4 peer_port
    |> addAttr AttrType.Data payload
    |> build.

Definition make_channel_data (channel_number : Z) (data : bytes) : bytes :=
  let len := u16 (Z.of_nat (length data)) in
  [byte_of channel_number 8; byte_of channel_number 0; byte_of len 8; byte_of len 0]
    ++ data ++ replicate (pad4 (Z.to_nat len)) 0x00.

(** ** The attributes of a builder

    [attr_bytes] is what one attribute looks like on the wire; a builder holds
    [attrs] when its buffer is their concatenation. *)
Definition attr_bytes (a : Attribute) : bytes :=
  put16 (attr_type_code (attr_type a)) ++ put16 (Z.of_nat (length (attr_value a)))
    ++ attr_value a ++ replicate (pad4 (length (attr_value a))) 0.

Definition attrs_bytes (l : list Attribute) : bytes := concat (map attr_bytes l).

(** An attribute that a message can carry. *)
Definition attr_ok (a : Attribute) : Prop :=
  attr_type_of (attr_type_code (attr_type a)) = attr_type a ∧
  0 ≤ attr_type_code (attr_type a) < 65536 ∧
  Z.of_nat (length (attr_value a)) < 65536 ∧
  bytes_ok (attr_value a).

Definition has_attrs (b : MessageBuilder) (l : list Attribute) : Prop :=
  attrs_buf_ b = attrs_bytes l.

Definition decode_message (b : MessageBuilder) (l : list Attribute) : TurnMessage :=
  mkTurnMessage (decodeClass (msg_type_ b)) (decodeMethod (msg_type_ b))
    (Z.of_nat (length (attrs_buf_ b))) (transaction_id_ b) l.

(** A builder fed attribute by attribute. *)
Definition add_attrs (b : MessageBuilder) (l : list Attribute) : MessageBuilder :=
  foldl (λ b a, addAttr (attr_type a) (attr_value a) b) b l.
