(* ===== verification/MessageFacts.v ===== *)
(** * Facts about the message parsers and builders

    The attribute loop never reads outside the buffer and never runs out of
    fuel; what it returns on the bytes a builder wrote; the message types as
    16-bit codes.  Used by the properties of Codec.v, the credentials and the
    dispatcher. *)

From S2P Require Export Builder.

(** ** Types as codes *)

Lemma attr_type_code_of code : attr_type_code (attr_type_of code) = code.
Proof.
  unfold attr_type_of.
  destruct (List.find _ _) as [t|] eqn:E; [|done].
  apply find_some in E as [_ E]. by apply Z.eqb_eq in E.
Qed.

Lemma attr_type_of_of code : attr_type_of (attr_type_code (attr_type_of code)) = attr_type_of code.
Proof. by rewrite attr_type_code_of. Qed.

Definition all_methods : list Method :=
  [Method.Allocate; Method.Refresh; Method.Send; Method.Data;
   Method.CreatePermission; Method.ChannelBind; Method.Unknown].
Definition all_classes : list MessageClass :=
  [MessageClass.Request; MessageClass.Indication; MessageClass.SuccessResponse;
   MessageClass.ErrorResponse].

Lemma elem_of_all_methods m : m ∈ all_methods.
Proof. destruct m; compute_done. Qed.
Lemma elem_of_all_classes c : c ∈ all_classes.
Proof. destruct c; compute_done. Qed.

Lemma decodeMethod_encodeType m c : decodeMethod (encodeType m c) = m.
Proof. by destruct m, c. Qed.
Lemma decodeClass_encodeType m c : decodeClass (encodeType m c) = c.
Proof. by destruct m, c. Qed.
Lemma encodeType_bound m c : 0 ≤ encodeType m c < 0x4000.
Proof. by destruct m, c. Qed.

(** ** Reading a buffer *)

Lemma rd_range_Ok data off n :
  (off + n ≤ length data)%nat → rd_range data off n = Ok (slice data off n).
Proof. intros ?. unfold rd_range. by rewrite (proj2 (Nat.leb_le _ _)). Qed.

(** Rewrites the next [rd] that is in range. *)
Ltac read_ok :=
  match goal with
  | |- context [rd ?d ?i ≫= _] =>
      let b := fresh "b" in let Hb := fresh "Hb" in let Hl := fresh "Hl" in
      destruct (rd_lt d i) as (b & Hb & Hl); [lia|]; rewrite Hb; cbn [mbind result_bind]
  end.

(** ** The attribute loop *)

Lemma parse_attrs_unfold fuel data len off acc :
  parse_attrs (S fuel) data len off acc =
    if (off + 4 <=? 20 + len)%nat then
      t0 ← rd data off; t1 ← rd data (off + 1);
      l0 ← rd data (off + 2); l1 ← rd data (off + 3);
      let attr_len := Z.to_nat (be16 l0 l1) in
      if (length data <? off + 4 + attr_len)%nat then mret acc else
      value ← rd_range data (off + 4) attr_len;
      parse_attrs fuel data len (off + 4 + attr_len + pad4 attr_len)
        (acc ++ [mkAttribute (attr_type_of (be16 t0 t1)) value])
    else mret acc.
Proof. done. Qed.

Lemma parse_attrs_Ok fuel data len off acc :
  bytes_ok data → (20 + len ≤ length data)%nat →
  (0 < fuel)%nat → (20 + len < off + 4 * fuel)%nat →
  ∃ l, parse_attrs fuel data len off acc = Ok (acc ++ l) ∧ Forall attr_ok l.
Proof.
  intros Hok Hlen. revert off acc.
  induction fuel as [|fuel IH]; intros off acc Hfuel Hoff; [lia|].
  rewrite parse_attrs_unfold. destruct (Nat.leb_spec (off + 4) (20 + len)).
  2: { exists []. by rewrite app_nil_r. }
  do 4 read_ok. cbv zeta. case_match eqn:Hsz; brefl.
  { exists []. by rewrite app_nil_r. }
  rewrite rd_range_Ok by lia. cbn [mbind result_bind].
  edestruct IH as (l & -> & Hl4); [lia|lia|].
  eexists (_ :: l). rewrite <-app_assoc. split; [done|]. constructor; [|done].
  assert (byte_ok b ∧ byte_ok b0 ∧ byte_ok b1 ∧ byte_ok b2) as (?&?&?&?)
    by (repeat split; eapply bytes_ok_lookup; eauto).
  pose proof (be16_bound b b0 ltac:(done) ltac:(done)).
  pose proof (be16_bound b1 b2 ltac:(done) ltac:(done)).
  split_and!; cbn [attr_type attr_value]; rewrite ?attr_type_code_of; try tauto.
  - rewrite length_slice by lia. lia.
  - by apply bytes_ok_slice.
Qed.

Lemma length_attr_bytes a :
  length (attr_bytes a) =
    (4 + length (attr_value a) + pad4 (length (attr_value a)))%nat.
Proof. unfold attr_bytes. rewrite !length_app, length_replicate. simpl. lia. Qed.

Lemma lookup_drop_app (data : bytes) off x rest i b :
  drop off data = x ++ rest → x !! i = Some b → data !! (off + i)%nat = Some b.
Proof. intros E Hx. by rewrite <-lookup_drop, E, lookup_app_l_Some with (1 := Hx). Qed.

Lemma drop_app_skip (data : bytes) off x rest :
  drop off data = x ++ rest → drop (off + length x) data = rest.
Proof. intros E. by rewrite <-drop_drop, E, drop_app_length. Qed.

(** One round of the loop on the bytes of an attribute. *)
Lemma parse_attrs_step fuel data len off acc a rest :
  drop off data = attr_bytes a ++ rest → attr_ok a →
  (off + length (attr_bytes a) ≤ 20 + len)%nat →
  parse_attrs (S fuel) data len off acc =
    parse_attrs fuel data len (off + length (attr_bytes a)) (acc ++ [a]).
Proof.
  intros E (Hty & Htc & Hvl & Hvo) Hlen.
  pose proof (length_attr_bytes a) as Hab. set (v := attr_value a) in *.
  assert (Hd : (off + length (attr_bytes a) ≤ length data)%nat).
  { apply (f_equal length) in E. rewrite length_drop, length_app in E. lia. }
  rewrite parse_attrs_unfold.
  destruct (Nat.leb_spec (off + 4) (20 + len)); [|lia].
  assert (Hrd : ∀ i b, attr_bytes a !! i = Some b → rd data (off + i) = Ok b).
  { intros i b Hi. apply rd_Ok. eapply lookup_drop_app; eauto. }
  pose proof (Hrd 0%nat _ eq_refl) as R0. rewrite Nat.add_0_r in R0.
  rewrite R0, (Hrd 1%nat _ eq_refl), (Hrd 2%nat _ eq_refl), (Hrd 3%nat _ eq_refl).
  cbn [mbind result_bind]. cbv zeta. fold v. rewrite !be16_put16 by lia.
  rewrite Nat2Z.id. destruct (Nat.ltb_spec (length data) (off + 4 + length v)); [lia|].
  rewrite rd_range_Ok by lia. cbn [mbind result_bind].
  rewrite Hab. f_equal; [lia|]. repeat f_equal.
  rewrite Hty. replace (slice data (off + 4) (length v)) with v; [by destruct a|].
  unfold slice. rewrite <-drop_drop, E. unfold attr_bytes. fold v.
  rewrite <-!app_assoc. simpl. by rewrite drop_0, take_app_length.
Qed.

Lemma attrs_bytes_app l1 l2 : attrs_bytes (l1 ++ l2) = attrs_bytes l1 ++ attrs_bytes l2.
Proof. unfold attrs_bytes. by rewrite map_app, concat_app. Qed.

Lemma parse_attrs_bytes fuel data len off acc l rest :
  drop off data = attrs_bytes l ++ rest → Forall attr_ok l →
  (20 + len = off + length (attrs_bytes l))%nat → (length l < fuel)%nat →
  parse_attrs fuel data len off acc = Ok (acc ++ l).
Proof.
  intros E Hok. revert fuel off acc E. induction Hok as [|a l Ha Hl IH]; intros fuel off acc E Hlen Hf.
  - destruct fuel as [|fuel]; [simpl in *; lia|]. rewrite parse_attrs_unfold.
    simpl in Hlen. destruct (Nat.leb_spec (off + 4) (20 + len)); [lia|]. by rewrite app_nil_r.
  - destruct fuel as [|fuel]; [simpl in *; lia|].
    unfold attrs_bytes in *. cbn [map concat length] in *. rewrite length_app in Hlen.
    rewrite <-app_assoc in E.
    rewrite (parse_attrs_step _ _ _ _ _ _ _ E Ha) by lia.
    rewrite IH; [by rewrite <-app_assoc| |lia|lia].
    by apply drop_app_skip.
Qed.

(** ** The header *)

Lemma land_192_64 b : byte_ok b → b < 64 → b .& 192 = 0.
Proof.
  unfold byte_ok. intros Hb Hb64. apply Z.eqb_eq.
  apply (forall_range (λ b, b .& 192 =? 0) 64); [by vm_compute|lia].
Qed.

Lemma has_attrs_new m c tid : has_attrs (newBuilder m c tid) [].
Proof. done. Qed.

Lemma has_attrs_addAttr b l t v :
  Z.of_nat (length v) < 65536 → has_attrs b l →
  has_attrs (addAttr t v b) (l ++ [mkAttribute t v]).
Proof.
  unfold has_attrs. intros Hv Hb.
  unfold addAttr, appendAttrRaw, u16. cbn [attrs_buf_]. rewrite Hb, attrs_bytes_app.
  rewrite Z.mod_small by lia. rewrite Nat2Z.id, firstn_all. f_equal.
  unfold attrs_bytes. cbn [map concat]. by rewrite app_nil_r.
Qed.

Lemma header_addAttr b t v :
  msg_type_ (addAttr t v b) = msg_type_ b ∧
  transaction_id_ (addAttr t v b) = transaction_id_ b.
Proof. done. Qed.

Lemma length_attrs_le l : (length l ≤ length (attrs_bytes l))%nat.
Proof.
  induction l as [|a l IH]; [done|]. unfold attrs_bytes in *. cbn [map concat length].
  rewrite length_app, length_attr_bytes. lia.
Qed.

(** What a builder wrote is parsed back, whatever follows it in the buffer. *)
Lemma parse_build_app b l tail out :
  has_attrs b l → Forall attr_ok l →
  0 ≤ msg_type_ b < 0x4000 → length (transaction_id_ b) = 12%nat →
  Z.of_nat (length (attrs_buf_ b)) < 65536 →
  parse (build b ++ tail) out = Ok (ParseResult.Ok, decode_message b l).
Proof.
  intros Hb Hok Hty Htid Hlen. destruct b as [ty tid buf]. unfold has_attrs in Hb.
  cbn [msg_type_ transaction_id_ attrs_buf_] in *. subst buf.
  unfold decode_message. cbn [msg_type_ transaction_id_ attrs_buf_].
  set (buf := attrs_bytes l) in *. set (len := Z.of_nat (length buf)) in *.
  unfold build. cbn [msg_type_ transaction_id_ attrs_buf_]. fold len.
  unfold u16. rewrite Z.mod_small by lia.
  set (data := (_ ++ tid ++ buf) ++ tail).
  assert (Hsz : length data = (20 + length buf + length tail)%nat).
  { unfold data. rewrite !length_app, Htid. simpl. lia. }
  assert (Hb8 : byte_ok (byte_of ty 8) ∧ byte_of ty 8 < 64).
  { split; [by apply byte_of_ok|]. rewrite byte_of_val by lia. dlia. }
  unfold parse. rewrite Hsz. destruct (Nat.ltb_spec (20 + length buf + length tail) 20); [lia|].
  change (rd data 0) with (Ok (byte_of ty 8)). change (rd data 1) with (Ok (byte_of ty 0)).
  change (rd data 2) with (Ok (byte_of len 8)). change (rd data 3) with (Ok (byte_of len 0)).
  change (rd data 4) with (Ok 0x21). change (rd data 5) with (Ok 0x12).
  change (rd data 6) with (Ok 0xA4). change (rd data 7) with (Ok 0x42).
  cbn [mbind result_bind]. rewrite land_192_64 by tauto. cbn [negb Z.eqb].
  cbv zeta. cbn [msg_length msg_class method transaction_id attributes].
  rewrite !be16_put16 by lia.
  change (be32 33 18 164 66 =? kMagicCookie) with true.
  assert (Hto : Z.to_nat len = length buf) by (unfold len; lia). rewrite !Hto.
  destruct (Nat.ltb_spec (20 + length buf + length tail) (20 + length buf)); [lia|].
  rewrite rd_range_Ok by lia. cbn [negb mbind result_bind].
  rewrite (parse_attrs_bytes _ data _ 20 [] l tail); [| |done|done|].
  - cbn [mbind result_bind]. repeat f_equal. unfold slice, data. cbn [app drop].
    rewrite <-app_assoc. by apply take_app_length'.
  - unfold data. rewrite <-!app_assoc. cbn [app drop].
    rewrite drop_app_ge by lia. by rewrite Htid, Nat.sub_diag, drop_0.
  - pose proof (length_attrs_le l) as Hl. fold buf in Hl. lia.
Qed.

Lemma parse_build b l out :
  has_attrs b l → Forall attr_ok l →
  0 ≤ msg_type_ b < 0x4000 → length (transaction_id_ b) = 12%nat →
  Z.of_nat (length (attrs_buf_ b)) < 65536 →
  parse (build b) out = Ok (ParseResult.Ok, decode_message b l).
Proof. intros. rewrite <-(app_nil_r (build b)). by apply parse_build_app. Qed.

Lemma add_attrs_spec b l : Forall attr_ok l →
  attrs_buf_ (add_attrs b l) = attrs_buf_ b ++ attrs_bytes l ∧
  msg_type_ (add_attrs b l) = msg_type_ b ∧
  transaction_id_ (add_attrs b l) = transaction_id_ b.
Proof.
  intros Hok. revert b. induction Hok as [|a l (_&_&Hv&_) _ IH]; intros b; cbn [add_attrs foldl].
  - unfold attrs_bytes. cbn. by rewrite app_nil_r.
  - fold (add_attrs (addAttr (attr_type a) (attr_value a) b) l).
    destruct (IH (addAttr (attr_type a) (attr_value a) b)) as (->&->&->).
    split_and!; [|done..]. unfold addAttr, appendAttrRaw, u16. cbn [attrs_buf_].
    rewrite Z.mod_small, Nat2Z.id, firstn_all by lia. rewrite <-app_assoc. f_equal.
Qed.

Lemma parse_build_attrs m c tid (l : list Attribute) tail out :
  let b := add_attrs (newBuilder m c tid) l in
  length tid = 12%nat → Forall attr_ok l →
  Z.of_nat (length (attrs_bytes l)) < 65536 →
  parse (build b ++ tail) out =
    Ok (ParseResult.Ok,
        mkTurnMessage c m (Z.of_nat (length (attrs_bytes l))) tid l).
Proof.
  cbv zeta. intros Htid Hok Hlen.
  destruct (add_attrs_spec (newBuilder m c tid) l Hok) as (Hb&Ht&Hi).
  cbn [newBuilder attrs_buf_ app] in Hb. pose proof (encodeType_bound m c).
  rewrite (parse_build_app _ l); [|done|done|by rewrite Ht|by rewrite Hi|by rewrite Hb].
  unfold decode_message. rewrite Ht, Hi, Hb. cbn [msg_type_ transaction_id_ newBuilder].
  by rewrite decodeClass_encodeType, decodeMethod_encodeType.
Qed.
