(* ===== verification/Replies.v ===== *)
(** * Replies as lists of attributes

    Every message the server makes is a builder fed with attributes:
    [is_reply] says which, and gives what the receiver parses.  The error
    replies and the challenges of 401 and 438 replies. *)

From S2P Require Export MessageFacts.

(** A message of the method, class and transaction with these attributes,
    small enough for an integrity attribute to follow. *)
Definition is_reply (r : bytes) (m : Method) (c : MessageClass) (tid : bytes) (l : list Attribute) : Prop :=
  r = build (add_attrs (newBuilder m c tid) l) ∧ Forall attr_ok l ∧
  Z.of_nat (length (attrs_bytes l)) + 36 < 65536.

(** The error code and reason of an ERROR-CODE attribute value. *)
Definition error_code_of (v : bytes) : option (Z * string) :=
  match v with
  | _ :: _ :: c :: n :: reason => Some (c * 100 + n, string_of_bytes reason)
  | _ => None
  end.

(** The value that [addErrorCode] writes. *)
Definition error_value (code : Z) (reason : string) : bytes :=
  [0x00; 0x00; u8 (code / 100) .& 0x07; u8 (code mod 100)] ++ bytes_of_string reason.

(** The challenge attributes of a 401 or 438 reply. *)
Definition challenge (realm nonce : string) : list Attribute :=
  [mkAttribute AttrType.Realm (bytes_of_string realm);
   mkAttribute AttrType.Nonce (bytes_of_string nonce)].

(** ** Lemmas *)

Lemma is_reply_parse r m c tid l out : length tid = 12%nat → is_reply r m c tid l →
  parse r out = Ok (ParseResult.Ok, mkTurnMessage c m (Z.of_nat (length (attrs_bytes l))) tid l).
Proof.
  intros Htid (->&Hok&Hl). rewrite <-(app_nil_r (build _)). apply parse_build_attrs; [done..|lia].
Qed.

Lemma land_7_small x : 0 ≤ x < 8 → x .& 7 = x.
Proof. intros Hx. rewrite (Z.land_ones _ 3) by lia. by apply Z.mod_small. Qed.

Lemma error_value_digits code : 0 ≤ code < 800 →
  u8 (code / 100) .& 7 = code / 100 ∧ u8 (code mod 100) = code mod 100.
Proof. intros Hc. unfold u8. rewrite !Z.mod_small, land_7_small by dlia. done. Qed.

Lemma error_code_of_value code reason :
  0 ≤ code < 800 → error_code_of (error_value code reason) = Some (code, reason).
Proof.
  intros Hc. unfold error_value. cbn [error_code_of app].
  destruct (error_value_digits code Hc) as [-> ->]. rewrite string_of_bytes_of_string.
  do 2 f_equal. dlia.
Qed.

Lemma length_error_value code reason : length (error_value code reason) = (4 + String.length reason)%nat.
Proof. unfold error_value. by rewrite length_app, length_bytes_of_string. Qed.

Lemma error_value_ok code reason : 0 ≤ code < 800 → Z.of_nat (String.length reason) < 1000 →
  attr_ok (mkAttribute AttrType.ErrorCode (error_value code reason)).
Proof.
  intros Hc Hr. destruct (error_value_digits code Hc) as [Hd Hm].
  split_and!; cbn [attr_type attr_value]; try done; [rewrite length_error_value; lia|].
  unfold error_value. rewrite Hd, Hm. apply Forall_app; split; [|apply bytes_of_string_ok].
  repeat (constructor; [unfold byte_ok; dlia|]). constructor.
Qed.

Lemma string_attr_ok t s :
  attr_type_of (attr_type_code t) = t → 0 ≤ attr_type_code t < 65536 →
  Z.of_nat (String.length s) < 65536 → attr_ok (mkAttribute t (bytes_of_string s)).
Proof.
  intros ? [] ?. split_and!; cbn [attr_type attr_value]; try done.
  - by rewrite length_bytes_of_string.
  - apply bytes_of_string_ok.
Qed.

Lemma length_attrs_cons a l :
  length (attrs_bytes (a :: l)) =
    (4 + length (attr_value a) + pad4 (length (attr_value a)) + length (attrs_bytes l))%nat.
Proof. unfold attrs_bytes. cbn [map concat]. by rewrite length_app, length_attr_bytes. Qed.

Lemma is_reply_error tid code reason : 0 ≤ code < 800 → Z.of_nat (String.length reason) < 1000 →
  is_reply (make_error tid code reason) Method.Allocate MessageClass.ErrorResponse tid
    [mkAttribute AttrType.ErrorCode (error_value code reason)].
Proof.
  intros Hc Hr. split; [done|]. split; [constructor; [by apply error_value_ok|constructor]|].
  rewrite length_attrs_cons. cbn [attr_value]. rewrite length_error_value.
  change (length (attrs_bytes [])) with 0%nat. pose proof (pad4_lt (4 + String.length reason)). lia.
Qed.

(** The replies of [challenge_reply], whatever the method. *)
Lemma is_reply_challenge m tid code reason realm nonce :
  0 ≤ code < 800 → Z.of_nat (String.length reason) < 1000 →
  Z.of_nat (String.length realm) < 1000 → Z.of_nat (String.length nonce) < 1000 →
  is_reply (newBuilder m MessageClass.ErrorResponse tid
      |> addErrorCode code reason
      |> addAttr AttrType.Realm (bytes_of_string realm)
      |> addAttr AttrType.Nonce (bytes_of_string nonce) |> build)
    m MessageClass.ErrorResponse tid
    (mkAttribute AttrType.ErrorCode (error_value code reason) :: challenge realm nonce).
Proof.
  intros Hc Hr Hre Hno. split; [done|]. unfold challenge. split.
  - constructor; [by apply error_value_ok|].
    constructor; [|constructor; [|constructor]]; apply string_attr_ok; try done; lia.
  - rewrite !length_attrs_cons. cbn [attr_value]. rewrite length_error_value, !length_bytes_of_string.
    change (length (attrs_bytes [])) with 0%nat. pose proof (pad4_lt (4 + String.length reason)).
    pose proof (pad4_lt (String.length realm)). pose proof (pad4_lt (String.length nonce)). lia.
Qed.
