(* ===== verification/Codec.v ===== *)
(** * The codec's properties

    What the message parsers and builders of the TURN server guarantee
    together: memory safety and acceptance of [parse], the round trips of
    messages, error codes, ChannelData and message types. *)

From S2P Require Export Replies.

(** A buffer that starts with a STUN message (RFC 5389, section 6). *)
Definition is_stun (data : bytes) : Prop :=
  ∃ d0 d1 d2 d3 rest,
    data = [d0; d1; d2; d3; 0x21; 0x12; 0xA4; 0x42] ++ rest ∧
    d0 < 64 ∧ (12 + Z.to_nat (be16 d2 d3) ≤ length rest)%nat.

Lemma land_192_zero b : byte_ok b → (b .& 192 =? 0) = (b <? 64).
Proof.
  unfold byte_ok. intros Hb. apply eqb_prop.
  apply (forall_range (λ b, eqb (b .& 192 =? 0) (b <? 64)) 256); [by vm_compute|lia].
Qed.

Lemma be32_inj a b c d a' b' c' d' :
  bytes_ok [a; b; c; d] → bytes_ok [a'; b'; c'; d'] →
  be32 a b c d = be32 a' b' c' d' → a = a' ∧ b = b' ∧ c = c' ∧ d = d'.
Proof.
  unfold bytes_ok. rewrite !Forall_cons. intros (?&?&?&?&_) (?&?&?&?&_).
  rewrite !be32_val by done. unfold byte_ok in *. lia.
Qed.

(** [parse] on a buffer of at least eight bytes, its reads done. *)
Lemma parse_header d0 d1 d2 d3 d4 d5 d6 d7 rest out :
  let data := [d0; d1; d2; d3; d4; d5; d6; d7] ++ rest in
  let c := decodeClass (be16 d0 d1) in
  let m := decodeMethod (be16 d0 d1) in
  let len := be16 d2 d3 in
  parse data out =
    if (length data <? 20)%nat then Ok (ParseResult.TooShort, out) else
    if negb (d0 .& 192 =? 0) then Ok (ParseResult.NotTurnMessage, out) else
    let out := mkTurnMessage c m len (transaction_id out) (attributes out) in
    if (length data <? 20 + Z.to_nat len)%nat then Ok (ParseResult.BadLength, out) else
    if negb (be32 d4 d5 d6 d7 =? kMagicCookie) then Ok (ParseResult.BadMagicCookie, out) else
    tid ← rd_range data 8 12;
    attrs ← parse_attrs (S (length data)) data (Z.to_nat len) 20 [];
    mret (ParseResult.Ok, mkTurnMessage c m len tid attrs).
Proof. done. Qed.

Lemma parse_short data out :
  (length data < 20)%nat → parse data out = Ok (ParseResult.TooShort, out).
Proof. intros H. unfold parse. by rewrite (proj2 (Nat.ltb_lt _ _) H). Qed.

Lemma split_header (data : bytes) : (20 ≤ length data)%nat →
  ∃ d0 d1 d2 d3 d4 d5 d6 d7 rest,
    data = [d0; d1; d2; d3; d4; d5; d6; d7] ++ rest ∧ (12 ≤ length rest)%nat.
Proof.
  intros H. do 8 (destruct data as [|? data]; [simpl in H; lia|]).
  do 9 eexists. split; [reflexivity|]. simpl in H. lia.
Qed.

Lemma parse_total data out : bytes_ok data →
  ∃ r out', parse data out = Ok (r, out') ∧
    (r = ParseResult.Ok → Forall attr_ok (attributes out') ∧
       length (transaction_id out') = 12%nat).
Proof.
  intros Hok. destruct (decide (length data < 20)%nat).
  { do 2 eexists. split; [by apply parse_short|done]. }
  destruct (split_header data) as (d0&d1&d2&d3&d4&d5&d6&d7&rest&->&Hr); [lia|].
  rewrite parse_header. set (data := _ ++ rest) in *. cbv zeta.
  do 4 (case_match; [do 2 eexists; split; [reflexivity|done]|]). brefl.
  rewrite rd_range_Ok by lia. cbn [mbind result_bind].
  edestruct (parse_attrs_Ok (S (length data)) data (Z.to_nat (be16 d2 d3)) 20 [])
    as (l & -> & Hl); [done|lia..|].
  do 2 eexists. split; [reflexivity|]. intros _. split; [done|].
  simpl. apply length_slice. lia.
Qed.

Lemma parse_channel_data_eq c0 c1 l0 l1 rest out :
  let raw := c0 :: c1 :: l0 :: l1 :: rest in
  let ch := be16 c0 c1 in
  let len := Z.to_nat (be16 l0 l1) in
  parse_channel_data raw out =
    if (ch <? 0x4000) || (0x4FFF <? ch) then Ok (ChannelDataResult.InvalidChannel, out) else
    if (4 + length rest <? 4 + len)%nat then Ok (ChannelDataResult.TooShort, out) else
    Ok (ChannelDataResult.Ok, mkChannelData ch (take len rest)).
Proof.
  cbv zeta. unfold parse_channel_data. cbn [length]. rsimpl.
  change (rd (c0 :: c1 :: l0 :: l1 :: rest) 0) with (Ok c0).
  change (rd (c0 :: c1 :: l0 :: l1 :: rest) 1) with (Ok c1).
  change (rd (c0 :: c1 :: l0 :: l1 :: rest) 2) with (Ok l0).
  change (rd (c0 :: c1 :: l0 :: l1 :: rest) 3) with (Ok l1). rsimpl.
  case_match; [done|]. change (S (S (S (S (length rest))))) with (4 + length rest)%nat.
  destruct (Nat.ltb_spec (4 + length rest) (4 + Z.to_nat (be16 l0 l1))); [done|].
  rewrite rd_range_Ok by (cbn [length]; lia). done.
Qed.

(** ** Properties *)

(** [parse] accepts the buffers that start with a STUN header, and no others. *)
Lemma parse_accepts data out : bytes_ok data →
  (∃ msg, parse data out = Ok (ParseResult.Ok, msg)) ↔ is_stun data.
Proof.
  intros Hok. destruct (decide (length data < 20)%nat) as [Hs|Hs].
  { rewrite parse_short by done. split; [by intros [? [=]]|].
    intros (d0&d1&d2&d3&rest&->&_&Hl). simpl in Hs. lia. }
  destruct (split_header data) as (d0&d1&d2&d3&d4&d5&d6&d7&rest&->&Hr); [lia|].
  destruct (parse_total _ out Hok) as (r&out'&Hp&_).
  assert (Hb : byte_ok d0 ∧ bytes_ok [d4; d5; d6; d7]).
  { unfold bytes_ok in *. rewrite Forall_app, !Forall_cons in Hok.
    rewrite !Forall_cons. tauto. }
  destruct Hb as [Hd0 Hb]. revert Hp. rewrite parse_header. cbv zeta.
  rewrite land_192_zero by done.
  assert (Hm : (be32 d4 d5 d6 d7 =? kMagicCookie) = true ↔
    d4 = 0x21 ∧ d5 = 0x12 ∧ d6 = 0xA4 ∧ d7 = 0x42).
  { rewrite Z.eqb_eq. change kMagicCookie with (be32 0x21 0x12 0xA4 0x42).
    split; [|by intros (->&->&->&->)]. apply be32_inj; [done|]. compute_done. }
  change (length ([_; _; _; _; _; _; _; _] ++ rest)) with (8 + length rest)%nat.
  intros Hp. split.
  - intros [msg Hmsg]. clear Hp. do 4 (case_match; [done|]). brefl.
    destruct (proj1 Hm ltac:(by apply Z.eqb_eq)) as (->&->&->&->).
    exists d0, d1, d2, d3, rest. split_and!; [done|done|lia].
  - intros (?&?&?&?&?&[= -> -> -> -> -> -> -> -> ->]&Hlt&Hlen).
    exists out'. rewrite Hp. do 2 f_equal.
    do 3 (case_match; brefl; [lia|]).
    rewrite (proj2 Hm) in Hp by done.
    rewrite rd_range_Ok in Hp by (rewrite length_app; cbn [length]; lia).
    cbn [negb mbind result_bind] in Hp.
    destruct (parse_attrs _ _ _ _ _); rsimpl; by simplify_eq.
Qed.

(** C24: on every buffer [parse] returns: it reads no byte outside the buffer
    and its attribute loop terminates; it accepts exactly the buffers that start
    with a STUN header (two zero bits, the magic cookie, and at least as many
    bytes after the header as its length field says); and every attribute of an
    accepted message has a 16-bit type, a value of fewer than 65536 bytes and a
    transaction id of twelve bytes. *)
Theorem parse_no_failure data out : bytes_ok data →
  (∃ r out', parse data out = Ok (r, out') ∧
    (r = ParseResult.Ok → Forall attr_ok (attributes out') ∧
       length (transaction_id out') = 12%nat)) ∧
  ((∃ msg, parse data out = Ok (ParseResult.Ok, msg)) ↔ is_stun data).
Proof. intros Hok. split; [by apply parse_total|by apply parse_accepts]. Qed.

Lemma parse_no_failure_witness :
  (∃ r out',
    parse [0; 3; 0; 4; 0x21; 0x12; 0xA4; 0x42; 1;2;3;4;5;6;7;8;9;10;11;12; 0; 13; 255; 255]
      empty_message = Ok (r, out') ∧
    (r = ParseResult.Ok → Forall attr_ok (attributes out') ∧
       length (transaction_id out') = 12%nat)) ∧
  let data := build (newBuilder Method.Refresh MessageClass.Request (replicate 12 7)) in
  (∃ msg, parse data empty_message = Ok (ParseResult.Ok, msg)) ↔ is_stun data.
Proof. split; apply parse_no_failure; compute_done. Defined.

(** C23: a message written by a builder is parsed back to the method, class,
    transaction id and attributes it was built from, whatever follows it in
    the buffer and whatever the output variable held before. *)
Theorem parse_build_roundtrip m c tid (l : list Attribute) tail out :
  let b := add_attrs (newBuilder m c tid) l in
  length tid = 12%nat → Forall attr_ok l →
  Z.of_nat (length (attrs_bytes l)) < 65536 →
  parse (build b ++ tail) out =
    Ok (ParseResult.Ok,
        mkTurnMessage c m (Z.of_nat (length (attrs_bytes l))) tid l).
Proof. apply parse_build_attrs. Qed.

Lemma parse_build_roundtrip_witness :
  let l := [mkAttribute AttrType.Lifetime [0; 0; 2; 88];
            mkAttribute AttrType.Username [97; 58; 98];
            mkAttribute (AttrType.Other 0x7FFF) []] in
  let b := add_attrs (newBuilder Method.Refresh MessageClass.Request (replicate 12 7)) l in
  parse (build b ++ [1; 2; 3]) empty_message =
    Ok (ParseResult.Ok,
        mkTurnMessage MessageClass.Request Method.Refresh
          (Z.of_nat (length (attrs_bytes l))) (replicate 12 7) l).
Proof.
  apply parse_build_roundtrip; [done| |done].
  repeat constructor; compute_done.
Defined.

(** Every 14-bit message type whose method is known is the encoding of the
    method and class it decodes to, and every method and class is decoded from
    its encoding. *)
Theorem message_type_bijection :
  (∀ m c, decodeMethod (encodeType m c) = m ∧ decodeClass (encodeType m c) = c) ∧
  (∀ t, 0 ≤ t < 0x4000 → decodeMethod t ≠ Method.Unknown →
     encodeType (decodeMethod t) (decodeClass t) = t).
Proof.
  split; [intros m c; by rewrite decodeMethod_encodeType, decodeClass_encodeType|].
  intros t Ht Hm. apply Z.eqb_eq.
  apply (forall_range (λ t, bool_decide (decodeMethod t = Method.Unknown)
    || (encodeType (decodeMethod t) (decodeClass t) =? t)) (Z.to_nat 16384)) in Ht; [|by vm_compute].
  by rewrite (bool_decide_false _ Hm) in Ht.
Qed.

Lemma message_type_bijection_witness :
  encodeType (decodeMethod 0x0113) (decodeClass 0x0113) = 0x0113.
Proof. apply message_type_bijection; [lia|by vm_compute]. Defined.

(** An error reply carries the code and the reason it was made with, the
    transaction id of the request, the method Allocate whatever the request
    was, and a 401 or 438 reply also the realm and the nonce. *)
Lemma error_reply_roundtrip tid code reason realm nonce out :
  length tid = 12%nat → 0 ≤ code < 800 →
  Z.of_nat (String.length reason) < 1000 →
  Z.of_nat (String.length realm) < 1000 → Z.of_nat (String.length nonce) < 1000 →
  let decodes msg c r l :=
    ∃ n v, parse msg out = Ok (ParseResult.Ok,
       mkTurnMessage MessageClass.ErrorResponse Method.Allocate n tid
         (mkAttribute AttrType.ErrorCode v :: l)) ∧
       error_code_of v = Some (c, r) in
  decodes (make_error tid code reason) code reason [] ∧
  decodes (make400 tid) 400 "Bad Request" [] ∧
  decodes (make401 tid realm nonce) 401 "Unauthorized" (challenge realm nonce) ∧
  decodes (make438 tid realm nonce) 438 "Stale Nonce" (challenge realm nonce).
Proof.
  intros Htid Hc Hr Hre Hno. cbv zeta.
  assert (H : ∀ msg c r l, 0 ≤ c < 800 →
    is_reply msg Method.Allocate MessageClass.ErrorResponse tid
      (mkAttribute AttrType.ErrorCode (error_value c r) :: l) →
    ∃ n v, parse msg out = Ok (ParseResult.Ok,
       mkTurnMessage MessageClass.ErrorResponse Method.Allocate n tid
         (mkAttribute AttrType.ErrorCode v :: l)) ∧ error_code_of v = Some (c, r)).
  { intros msg c r l Hcr Hrep. do 2 eexists. split; [by apply is_reply_parse|by apply error_code_of_value]. }
  split_and!; (eapply H; [done|]).
  - by apply is_reply_error.
  - by apply (is_reply_error _ 400).
  - by apply (is_reply_challenge _ _ 401).
  - by apply (is_reply_challenge _ _ 438).
Qed.

(** ChannelData of fewer than 65536 bytes on a channel in 0x4000-0x4FFF is
    framed to a multiple of four bytes and parsed back, whatever follows; a
    channel outside the range is refused, and a frame cut short is reported
    as too short. *)
Lemma channel_data_roundtrip ch data tail out :
  0 ≤ ch < 65536 → Z.of_nat (length data) < 65536 →
  (length (make_channel_data ch data) mod 4 = 0)%nat ∧
  parse_channel_data (make_channel_data ch data ++ tail) out =
    Ok (if decide (0x4000 ≤ ch ≤ 0x4FFF)
        then (ChannelDataResult.Ok, mkChannelData ch data)
        else (ChannelDataResult.InvalidChannel, out)) ∧
  ∀ n, (4 ≤ n < 4 + length data)%nat → 0x4000 ≤ ch ≤ 0x4FFF →
    parse_channel_data (take n (make_channel_data ch data)) out =
      Ok (ChannelDataResult.TooShort, out).
Proof.
  intros Hch Hlen. unfold make_channel_data, u16. rewrite Z.mod_small by lia.
  cbv zeta. rewrite Nat2Z.id. set (pad := replicate _ _).
  assert (Hp : length pad = pad4 (length data)) by apply length_replicate.
  split_and!.
  - rewrite !length_app, Hp. cbn [length].
    change 4%nat with (1 * 4)%nat at 1. rewrite Nat.add_comm, Nat.Div0.mod_add.
    apply pad4_mod.
  - cbn [app]. rewrite parse_channel_data_eq. rewrite !be16_put16, Nat2Z.id by lia.
    rewrite <-app_assoc, length_app, take_app_length.
    destruct (Z.ltb_spec ch 0x4000), (Z.ltb_spec 0x4FFF ch); cbn [orb];
      case_decide; try lia; try done.
    destruct (Nat.ltb_spec (4 + (length data + length (pad ++ tail))) (4 + length data)); [lia|done].
  - intros n Hn Hr. destruct n as [|[|[|[|n]]]]; [lia..|]. cbn [app take].
    rewrite parse_channel_data_eq. rewrite !be16_put16, Nat2Z.id by lia.
    destruct (Z.ltb_spec ch 0x4000), (Z.ltb_spec 0x4FFF ch); try lia. cbn [orb].
    rewrite length_take, length_app.
    destruct (Nat.ltb_spec (4 + n `min` (length data + length pad)) (4 + length data)); [done|lia].
Qed.

