(* ===== verification/Nonce.v ===== *)
(** * The nonce store of the TURN server (src/turn_server/src/auth/nonce_manager.cpp)

    A nonce maps to the time point of the steady clock at which it expires.
    Every operation takes the reading of the clock it makes; [rand] is the
    sequence of buffers [RAND_bytes] delivers ([None]: it failed).  The loop of
    [generate] is bounded by fuel: one more than the number of stored nonces
    is enough when the draws differ ([generate_terminates]). *)

From S2P Require Export Text.

(** Time points of the steady clock, in nanoseconds. *)
Definition seconds (n : Z) : Z := n * 1000000000.

Record NonceManager := mkNonceManager {
  ttl_ : Z;
  store_ : gmap string Z;
}.

Definition newNonceManager (ttl : Z) : NonceManager := mkNonceManager ttl ∅.

Definition generateRandom (buf : option bytes) : result string :=
  match buf with
  | Some buf => mret (hex_bytes buf)
  | None => Err (Thrown RuntimeError "RAND_bytes failed")
  end.

(** The [do ... while (store_.count(nonce))] loop, from the [k]-th draw on. *)
Fixpoint draw_nonce (fuel k : nat) (rand : nat → option bytes) (store : gmap string Z) : result string :=
  match fuel with
  | O => Err OutOfFuel
  | S fuel =>
      nonce ← generateRandom (rand k);
      if bool_decide (is_Some (store !! nonce))
      then draw_nonce fuel (S k) rand store else mret nonce
  end.

Definition generate (fuel : nat) (rand : nat → option bytes) (now : Z) (nm : NonceManager) :
    result string * NonceManager :=
  match draw_nonce fuel 0 rand (store_ nm) with
  | Ok nonce => (Ok nonce, mkNonceManager (ttl_ nm) (<[nonce := now + seconds (ttl_ nm)]> (store_ nm)))
  | Err e => (Err e, nm)
  end.

Definition isValid (now : Z) (nonce : string) (nm : NonceManager) : bool :=
  match store_ nm !! nonce with
  | None => false
  | Some expires => now <? expires
  end.

Definition invalidate (nonce : string) (nm : NonceManager) : NonceManager :=
  mkNonceManager (ttl_ nm) (delete nonce (store_ nm)).

(** The loop erases an entry or steps over it: what stays is a filter. *)
Definition cleanup (now : Z) (nm : NonceManager) : NonceManager :=
  mkNonceManager (ttl_ nm) (filter (λ kv, ¬ (kv.2 ≤ now)) (store_ nm)).

(** ** Lemmas *)

Lemma hex_setw_2 b : byte_ok b →
  hex_setw 2 b = String (digit_ascii (b / 16)) (String (digit_ascii (b mod 16)) "").
Proof.
  intros Hb. apply String.eqb_eq.
  apply (forall_range (λ b, String.eqb (hex_setw 2 b)
    (String (digit_ascii (b / 16)) (String (digit_ascii (b mod 16)) ""))) 256);
    [by vm_compute|unfold byte_ok in Hb; lia].
Qed.

Lemma hex_bytes_inj l1 l2 :
  bytes_ok l1 → bytes_ok l2 → hex_bytes l1 = hex_bytes l2 → l1 = l2.
Proof.
  intros H1. revert l2. induction H1 as [|b1 l1 Hb1 _ IH]; intros l2 H2 E;
    destruct H2 as [|b2 l2 Hb2 H2]; [done| | |]; cbn [hex_bytes] in E;
    rewrite ?hex_setw_2 in E by done; simplify_eq/=.
  unfold byte_ok in *.
  match goal with H : digit_ascii (b1 / 16) = _ |- _ => apply digit_ascii_inj in H; [|dlia..] end.
  match goal with H : digit_ascii (b1 mod 16) = _ |- _ => apply digit_ascii_inj in H; [|dlia..] end.
  f_equal; [dlia|]. by apply IH.
Qed.

Lemma draw_nonce_Ok fuel k rand store nonce :
  draw_nonce fuel k rand store = Ok nonce →
  store !! nonce = None ∧ ∃ i buf, (k ≤ i < k + fuel)%nat ∧ rand i = Some buf ∧ nonce = hex_bytes buf.
Proof.
  revert k. induction fuel as [|fuel IH]; intros k; [done|]. cbn [draw_nonce].
  destruct (rand k) as [buf|] eqn:E; [|done]. cbn [generateRandom]. rsimpl.
  case_bool_decide as Hs.
  - intros [Hn (i&b&Hi&?)]%IH. split; [done|]. exists i, b. split; [lia|done].
  - intros [= <-]. split; [by apply eq_None_not_Some|]. exists k, buf. split; [lia|done].
Qed.

(** The loop ends with a nonce or with the exception of a draw that failed, and goes
    on only while it draws stored nonces. *)
Lemma draw_nonce_cases fuel k rand store :
  (∃ nonce, draw_nonce fuel k rand store = Ok nonce) ∨
  (draw_nonce fuel k rand store = Err (Thrown RuntimeError "RAND_bytes failed") ∧
   ∃ i, (k ≤ i < k + fuel)%nat ∧ rand i = None) ∨
  (∀ i, (k ≤ i < k + fuel)%nat → ∃ buf, rand i = Some buf ∧ is_Some (store !! hex_bytes buf)).
Proof.
  revert k. induction fuel as [|fuel IH]; intros k; [right; right; lia|]. cbn [draw_nonce].
  destruct (rand k) as [buf|] eqn:E; cbn [generateRandom]; rsimpl.
  2:{ right. left. split; [done|]. exists k. split; [lia|done]. }
  case_bool_decide as Hs; [|by eauto].
  destruct (IH (S k)) as [?|[(->&i&Hi&Hn)|Hall]]; [by left|right; left; split; [done|]; exists i; split; [lia|done]|].
  right. right. intros i Hi. destruct (decide (i = k)) as [->|]; [by exists buf|]. apply Hall. lia.
Qed.

(** Distinct draws that are all stored are no more than the stored nonces. *)
Lemma distinct_draws_bound n rand (store : gmap string Z) :
  (∀ i, (i < n)%nat → ∃ buf, rand i = Some buf ∧ bytes_ok buf ∧ is_Some (store !! hex_bytes buf)) →
  (∀ i j, (i < j < n)%nat → rand i ≠ rand j) →
  (n ≤ size store)%nat.
Proof.
  intros Hin Hne.
  assert (Hf : ∀ i, (i < n)%nat → ∃ b, rand i = Some b) by naive_solver.
  set (f i := match rand i with Some b => hex_bytes b | None => "" end).
  assert (Hnd : NoDup (f <$> seq 0 n)).
  { apply NoDup_fmap_2_strong; [|apply NoDup_seq].
    intros i j Hi%elem_of_seq Hj%elem_of_seq E. unfold f in E.
    destruct (Hin i) as (bi&Ri&?&_); [lia|]. destruct (Hin j) as (bj&Rj&?&_); [lia|].
    rewrite Ri, Rj in E. apply hex_bytes_inj in E as ->; [|done..].
    destruct (Nat.lt_trichotomy i j) as [?|[?|?]]; [|done|].
    - destruct (Hne i j); [lia|congruence].
    - destruct (Hne j i); [lia|congruence]. }
  rewrite <-(length_seq n 0), <-(length_fmap f), <-size_dom.
  rewrite <-(size_list_to_set (C := gset string) _ Hnd). apply subseteq_size.
  intros x. rewrite elem_of_list_to_set, list_elem_of_fmap.
  intros (i&->&Hi%elem_of_seq). destruct (Hin i) as (b&R&_&Hs); [lia|].
  unfold f. rewrite R. by apply elem_of_dom.
Qed.

(** ** The abstract nonce service

    What the manager promises depends on the history of its operations only:
    the last operation on a nonce decides whether it is valid, an issued nonce
    being valid for [ttl] seconds.  Cleaning up is invisible. *)
Inductive nonce_event :=
  | Issued (nonce : string) (at_ : Z)
  | Invalidated (nonce : string)
  | CleanedUp (at_ : Z).

(** The history is listed from the last event back. *)
Fixpoint valid_at (ttl : Z) (history : list nonce_event) (t : Z) (nonce : string) : bool :=
  match history with
  | [] => false
  | Issued n t0 :: h => if decide (n = nonce) then t <? t0 + seconds ttl else valid_at ttl h t nonce
  | Invalidated n :: h => if decide (n = nonce) then false else valid_at ttl h t nonce
  | CleanedUp _ :: h => valid_at ttl h t nonce
  end.

(** The states a manager goes through, with the last reading of the steady
    clock: each operation reads a time that is not before it. *)
Inductive nonce_run (ttl : Z) : NonceManager → Z → list nonce_event → Prop :=
  | run_new t : nonce_run ttl (newNonceManager ttl) t []
  | run_generate nm t h fuel rand now nonce nm' :
      nonce_run ttl nm t h → t ≤ now → generate fuel rand now nm = (Ok nonce, nm') →
      nonce_run ttl nm' now (Issued nonce now :: h)
  | run_invalidate nm t h nonce :
      nonce_run ttl nm t h → nonce_run ttl (invalidate nonce nm) t (Invalidated nonce :: h)
  | run_cleanup nm t h now :
      nonce_run ttl nm t h → t ≤ now → nonce_run ttl (cleanup now nm) now (CleanedUp now :: h).

Lemma generate_Ok fuel rand now nm nonce nm' :
  generate fuel rand now nm = (Ok nonce, nm') →
  draw_nonce fuel 0 rand (store_ nm) = Ok nonce ∧
  nm' = mkNonceManager (ttl_ nm) (<[nonce := now + seconds (ttl_ nm)]> (store_ nm)).
Proof. unfold generate. destruct (draw_nonce _ _ _ _); by intros [= <- <-]. Qed.

Lemma isValid_issue now nonce exp nm t n :
  isValid t n (mkNonceManager now (<[nonce := exp]> (store_ nm))) =
    if decide (nonce = n) then t <? exp else isValid t n nm.
Proof.
  unfold isValid. cbn [store_]. case_decide; subst.
  - by rewrite lookup_insert_eq.
  - by rewrite lookup_insert_ne.
Qed.

Lemma isValid_invalidate nonce nm t n :
  isValid t n (invalidate nonce nm) = if decide (nonce = n) then false else isValid t n nm.
Proof.
  unfold isValid. cbn [store_ invalidate]. case_decide; subst.
  - by rewrite lookup_delete_eq.
  - by rewrite lookup_delete_ne.
Qed.

Lemma isValid_cleanup now nm t n : now ≤ t → isValid t n (cleanup now nm) = isValid t n nm.
Proof.
  intros Ht. unfold isValid. cbn [store_ cleanup]. rewrite map_lookup_filter.
  destruct (store_ nm !! n) as [e|]; cbn [mbind option_bind]; [|done].
  destruct (decide (¬ e ≤ now)).
  - by rewrite option_guard_True.
  - rewrite option_guard_False by done. symmetry. apply Z.ltb_ge. lia.
Qed.

Lemma run_ttl ttl nm t h : nonce_run ttl nm t h → ttl_ nm = ttl.
Proof. induction 1 as [|????????? IH ? [_ ->]%generate_Ok| |]; done. Qed.

(** A nonce is drawn before the fuel is spent. *)
Lemma generate_ttl fuel rand now nm : ttl_ (generate fuel rand now nm).2 = ttl_ nm.
Proof. unfold generate. by destruct (draw_nonce _ _ _ _). Qed.

Lemma generate_or_fails rand now nm :
  (∀ i buf, (i ≤ size (store_ nm))%nat → rand i = Some buf → bytes_ok buf ∧ length buf = 16%nat) →
  (∀ i j, (i < j ≤ size (store_ nm))%nat → is_Some (rand i) → rand i ≠ rand j) →
  (∃ nonce nm', generate (S (size (store_ nm))) rand now nm = (Ok nonce, nm') ∧
    String.length nonce = 32%nat ∧ store_ nm !! nonce = None ∧
    (∀ t, isValid t nonce nm' = (t <? now + seconds (ttl_ nm))) ∧
    (∀ t n, n ≠ nonce → isValid t n nm' = isValid t n nm) ∧
    ∃ i buf, (i ≤ size (store_ nm))%nat ∧ rand i = Some buf ∧ nonce = hex_bytes buf) ∨
  (generate (S (size (store_ nm))) rand now nm = (Err (Thrown RuntimeError "RAND_bytes failed"), nm) ∧
   ∃ i, (i ≤ size (store_ nm))%nat ∧ rand i = None).
Proof.
  intros Hr Hne. unfold generate.
  destruct (draw_nonce_cases (S (size (store_ nm))) 0 rand (store_ nm)) as [[nonce E]|[(E&i&Hi&Hn)|Hall]].
  - left. rewrite E. apply draw_nonce_Ok in E as (Hn&i&buf&Hi&Hb&->).
    destruct (Hr i buf) as [Hok Hl]; [lia|done|].
    do 2 eexists. split; [done|]. split_and!; [|done| | |].
    + rewrite hex_bytes_length, Hl by done. done.
    + intros t. rewrite isValid_issue. by rewrite decide_True.
    + intros t n Hnn. rewrite isValid_issue. by rewrite decide_False.
    + exists i, buf. split; [lia|done].
  - right. rewrite E. split; [done|]. exists i. split; [lia|done].
  - pose proof (distinct_draws_bound (S (size (store_ nm))) rand (store_ nm)) as Hb.
    assert (S (size (store_ nm)) ≤ size (store_ nm))%nat; [apply Hb|lia].
    + intros i Hi. destruct (Hall i) as (b&E&Hs); [lia|]. exists b. split_and!; [done| |done]. apply (Hr i b); [lia|done].
    + intros i j Hij. apply Hne; [lia|]. destruct (Hall i) as (b&->&_); [lia|done].
Qed.

(** ** Properties *)

(** C26: the manager implements the abstract nonce service: after any sequence
    of operations at increasing times, a nonce is valid at a later time
    exactly when the last operation on it issued it less than [ttl] seconds
    before; [cleanup] changes no answer and leaves no expired entry. *)
Theorem nonce_service_refinement ttl nm t0 history :
  nonce_run ttl nm t0 history →
  (∀ t n, t0 ≤ t → isValid t n nm = valid_at ttl history t n) ∧
  (∀ now n, is_Some (store_ (cleanup now nm) !! n) → isValid now n (cleanup now nm) = true).
Proof.
  intros Hrun. split.
  - induction Hrun as [|nm t h fuel rand now nonce nm' Hr IH Ht Hg|nm t h n' Hr IH|nm t h now Hr IH Ht];
      intros t1 n Ht1; cbn [valid_at].
    + unfold isValid, newNonceManager. cbn [store_]. by rewrite lookup_empty.
    + apply generate_Ok in Hg as [_ ->]. rewrite isValid_issue, (run_ttl _ _ _ _ Hr), IH by lia. done.
    + by rewrite isValid_invalidate, IH.
    + rewrite isValid_cleanup, IH by lia. done.
  - intros now n [e He]. unfold isValid. rewrite He.
    cbn [cleanup store_] in He. apply map_lookup_filter_Some in He as [_ He].
    cbn [snd] in He. apply Z.ltb_lt. lia.
Qed.

Lemma nonce_service_refinement_witness :
  let nm := generate 1 (λ _, Some (replicate 16 171)) 10 (newNonceManager 60) in
  let h := [Issued (hex_bytes (replicate 16 171)) 10] in
  (∀ t n, 10 ≤ t → isValid t n nm.2 = valid_at 60 h t n) ∧
  (∀ now n, is_Some (store_ (cleanup now nm.2) !! n) → isValid now n (cleanup now nm.2) = true).
Proof.
  apply nonce_service_refinement.
  eapply (run_generate _ _ 0 _ 1 (λ _, Some (replicate 16 171))); [apply run_new|done|vm_compute; reflexivity].
Defined.
