(* ===== verification/Credentials.v ===== *)
(** * Credentials and message integrity (src/turn_server/src/auth)

    [HmacValidator] is the time-limited username scheme of the TURN REST API:
    the username is [expiry:user] and the password the HMAC of it under the
    shared secret.  [LongTermCred] authenticates a request: it looks for the
    integrity attribute in the raw bytes (the loop has the size of the buffer
    as fuel) and compares the MAC of what precedes it.

    A function that fills an output parameter and returns a bool returns an
    option.  [now] is the system clock in seconds, [steady] the steady clock. *)

From S2P Require Export MessageFacts Crypto Nonce.

Module HmacValidator.
Section HmacValidator.
Context `{OpenSSL}.

Record HmacValidator := mkHmacValidator { shared_secret_ : string }.

Record HmacCredentials := mkHmacCredentials { username : string; password : string }.

Definition parseExpiry (user : string) : option Z :=
  match str_find colon user with
  | None => None
  | Some pos => match stoll (str_take pos user) with Ok expiry => Some expiry | Err _ => None end
  end.

Definition computeHmac (hv : HmacValidator) (user : string) : result string :=
  raw ← crypto.hmac_sha1_str (shared_secret_ hv) user;
  mret (crypto.base64_encode raw).

Definition getPassword (hv : HmacValidator) (user : string) : result string :=
  if bool_decide (str_find colon user = None) then mret "" else computeHmac hv user.

Definition validate (hv : HmacValidator) (now : Z) (user pass : string) : result bool :=
  match parseExpiry user with
  | None => mret false
  | Some expiry =>
      if expiry <? now then mret false else
      expected ← computeHmac hv user;
      mret (crypto.constant_time_compare_str expected pass)
  end.

(** The sum of two [int64_t]: overflow is undefined. *)
Definition add_i64 (x y : Z) : result Z :=
  if (- 2 ^ 63 <=? x + y) && (x + y <? 2 ^ 63) then mret (x + y) else Err Undefined.

Definition generate (hv : HmacValidator) (now : Z) (user_id : string) (ttl_seconds : Z) :
    result HmacCredentials :=
  expiry ← add_i64 now ttl_seconds;
  let user := to_string expiry +:+ ":" +:+ user_id in
  pass ← computeHmac hv user;
  mret (mkHmacCredentials user pass).
End HmacValidator.
End HmacValidator.

Module AuthResult.
Inductive AuthResult :=
  | Ok
  | MissingCredentials
  | StaleNonce
  | BadIntegrity
  | WrongCredentials
  | CredentialsExpired.
End AuthResult.
Abbreviation AuthResult := AuthResult.AuthResult.

#[export] Instance AuthResult_eq_dec : EqDecision AuthResult.
Proof. solve_decision. Defined.

(** The [while] loop of the two verify functions: the offset of the first
    attribute with this type. *)
Fixpoint find_mi (fuel : nat) (code : Z) (raw : bytes) (attrs_len offset : nat) :
    result (option nat) :=
  match fuel with
  | O => Err OutOfFuel
  | S fuel =>
      if (offset + 4 <=? 20 + attrs_len)%nat && (offset + 4 <=? length raw)%nat then
        t0 ← rd raw offset; t1 ← rd raw (offset + 1);
        l0 ← rd raw (offset + 2); l1 ← rd raw (offset + 3);
        let len := Z.to_nat (be16 l0 l1) in
        if be16 t0 t1 =? code then mret (Some offset) else
        find_mi fuel code raw attrs_len (offset + (4 + len) + pad4 len)
      else mret None
  end.

Module LongTermCred.
Section LongTermCred.
Context `{OpenSSL}.

(** [buf[2] = (len >> 8) & 0xFF; buf[3] = len & 0xFF]. *)
Definition set_length (len : Z) (buf : bytes) : bytes :=
  <[3%nat := byte_of len 0]> (<[2%nat := byte_of len 8]> buf).

Definition verifyMessageIntegrity (realm_ : string) (raw_msg : bytes) (username password : string) :
    result bool :=
  let raw_len := length raw_msg in
  if (raw_len <? 20)%nat then mret false else
  r2 ← rd raw_msg 2; r3 ← rd raw_msg 3;
  let attrs_len := Z.to_nat (be16 r2 r3) in
  found ← find_mi (S raw_len) (attr_type_code AttrType.MessageIntegritySha256) raw_msg attrs_len 20;
  match found with
  | None => mret false
  | Some mi_pos =>
      if (raw_len <? mi_pos + 4 + 32)%nat then mret false else
      let adjusted_len := u16 (Z.of_nat (mi_pos - 20 + 4 + 32)) in
      buf ← rd_range raw_msg 0 (mi_pos + 4 + 32);
      let buf := set_length adjusted_len buf in
      let buf := take (mi_pos + 4) buf ++ replicate 32 0x00 in
      key ← crypto.long_term_key username realm_ password;
      computed ← crypto.hmac_sha256 key (string_of_bytes buf);
      expected ← rd_range raw_msg (mi_pos + 4) 32;
      mret (crypto.constant_time_compare computed expected)
  end.

Definition verifyMessageIntegrityMd5 (realm_ : string) (raw_msg : bytes) (username password : string) :
    result bool :=
  let raw_len := length raw_msg in
  if (raw_len <? 20)%nat then mret false else
  r2 ← rd raw_msg 2; r3 ← rd raw_msg 3;
  let attrs_len := Z.to_nat (be16 r2 r3) in
  found ← find_mi (S raw_len) (attr_type_code AttrType.MessageIntegrity) raw_msg attrs_len 20;
  match found with
  | None => mret false
  | Some mi_pos =>
      if (raw_len <? mi_pos + 4 + 20)%nat then mret false else
      let adjusted_len := u16 (Z.of_nat (mi_pos - 20 + 4 + 20)) in
      buf ← rd_range raw_msg 0 mi_pos;
      let buf := set_length adjusted_len buf in
      let key := crypto.long_term_key_md5 username realm_ password in
      computed ← crypto.hmac_sha1 key (string_of_bytes buf);
      expected ← rd_range raw_msg (mi_pos + 4) 20;
      mret (crypto.constant_time_compare computed expected)
  end.

(** The object: its realm, and the two objects it refers to. *)
Record LongTermCred := mkLongTermCred {
  realm_ : string;
  nonce_manager_ : NonceManager;
  hmac_validator_ : HmacValidator.HmacValidator;
}.

Definition authenticate (ltc : LongTermCred) (steady now : Z)
    (msg : TurnMessage) (raw_msg : bytes) (allocated_username : string) : result AuthResult :=
  if bool_decide (msg_class msg = MessageClass.Indication) then mret AuthResult.Ok else
  let username_attr := findAttr msg AttrType.Username in
  let realm_attr := findAttr msg AttrType.Realm in
  let nonce_attr := findAttr msg AttrType.Nonce in
  let mi_sha256 := findAttr msg AttrType.MessageIntegritySha256 in
  let mi_md5 := findAttr msg AttrType.MessageIntegrity in
  let has_mi := bool_decide (is_Some mi_sha256) || bool_decide (is_Some mi_md5) in
  match username_attr, realm_attr, nonce_attr, has_mi with
  | Some username_attr, Some _, Some nonce_attr, true =>
      let username := string_of_bytes (attr_value username_attr) in
      let nonce := string_of_bytes (attr_value nonce_attr) in
      if negb (isValid steady nonce (nonce_manager_ ltc)) then mret AuthResult.StaleNonce else
      match str_find colon username with
      | None => mret AuthResult.BadIntegrity
      | Some pos =>
          match stoll (str_take pos username) with
          | Err (Thrown _ _) => mret AuthResult.BadIntegrity
          | Err e => Err e
          | Ok expiry =>
              if expiry <? now then mret AuthResult.CredentialsExpired else
              password ← HmacValidator.getPassword (hmac_validator_ ltc) username;
              if str_empty password then mret AuthResult.BadIntegrity else
              verified ← match mi_sha256 with
                | Some _ => verifyMessageIntegrity (realm_ ltc) raw_msg username password
                | None => verifyMessageIntegrityMd5 (realm_ ltc) raw_msg username password
                end;
              if negb verified then mret AuthResult.BadIntegrity else
              if negb (bool_decide (method msg = Method.Allocate))
                 && negb (str_empty allocated_username)
                 && negb (bool_decide (username = allocated_username))
              then mret AuthResult.WrongCredentials
              else mret AuthResult.Ok
          end
      end
  | _, _, _, _ => mret AuthResult.MissingCredentials
  end.

(** [makeChallenge]: the realm and a fresh nonce. *)
Definition makeChallenge (fuel : nat) (rand : nat → option bytes) (now : Z) (ltc : LongTermCred) :
    result (string * string) * LongTermCred :=
  match generate fuel rand now (nonce_manager_ ltc) with
  | (Ok nonce, nm) => (Ok (realm_ ltc, nonce), mkLongTermCred (realm_ ltc) nm (hmac_validator_ ltc))
  | (Err e, nm) => (Err e, mkLongTermCred (realm_ ltc) nm (hmac_validator_ ltc))
  end.
End LongTermCred.
End LongTermCred.
