(* ===== verification/CredentialFacts.v ===== *)
(** * Facts about message integrity

    The search for the integrity attribute stays inside the buffer, ends, and
    finds the first attribute of the type; what the two verify functions
    compute on a message that is a header, attributes and an integrity
    attribute, whatever follows. *)

From S2P Require Export Credentials.

Lemma find_mi_unfold fuel code raw attrs_len off :
  find_mi (S fuel) code raw attrs_len off =
    if (off + 4 <=? 20 + attrs_len)%nat && (off + 4 <=? length raw)%nat then
      t0 ← rd raw off; t1 ← rd raw (off + 1);
      l0 ← rd raw (off + 2); l1 ← rd raw (off + 3);
      let len := Z.to_nat (be16 l0 l1) in
      if be16 t0 t1 =? code then mret (Some off) else
      find_mi fuel code raw attrs_len (off + (4 + len) + pad4 len)
    else mret None.
Proof. done. Qed.

Lemma find_mi_total fuel code raw attrs_len off :
  (length raw < off + 4 * fuel)%nat → (0 < fuel)%nat →
  ∃ o, find_mi fuel code raw attrs_len off = Ok o ∧
    ∀ p, o = Some p → (off ≤ p ∧ p + 4 ≤ length raw)%nat.
Proof.
  revert off. induction fuel as [|fuel IH]; intros off Hf H0; [lia|].
  rewrite find_mi_unfold. destruct (Nat.leb_spec (off + 4) (length raw)).
  2: { rewrite andb_false_r. by exists None. }
  rewrite andb_true_r. case_match; [|by exists None].
  do 4 read_ok. cbv zeta. case_match.
  { eexists. split; [done|]. intros p [= <-]. lia. }
  set (off' := (off + _ + _)%nat).
  destruct (IH off') as (o & -> & Ho); [unfold off'; lia..|].
  exists o. split; [done|]. intros p Hp. specialize (Ho p Hp). unfold off' in Ho. lia.
Qed.

(** Attributes of other types are skipped. *)
Lemma find_mi_attrs fuel code raw attrs_len off l len rest :
  drop off raw = attrs_bytes l ++ put16 code ++ put16 len ++ rest →
  Forall attr_ok l → Forall (λ a, attr_type_code (attr_type a) ≠ code) l →
  0 ≤ code < 65536 → (off + length (attrs_bytes l) + 4 ≤ 20 + attrs_len)%nat →
  (length l < fuel)%nat →
  find_mi fuel code raw attrs_len off = Ok (Some (off + length (attrs_bytes l))%nat).
Proof.
  intros E Hok Hne Hc Ha. revert fuel off E Ha.
  induction Hok as [|a l (Hty & Htc & Hvl & Hvo) Hl IH]; intros fuel off E Ha Hf;
    destruct fuel as [|fuel]; cbn [length] in Hf; try lia; rewrite find_mi_unfold.
  - unfold attrs_bytes in *. cbn [map concat length app] in *.
    assert (Hlen : (off + 4 ≤ length raw)%nat).
    { apply (f_equal length) in E. rewrite length_drop in E. cbn [length app put16] in E. lia. }
    destruct (Nat.leb_spec (off + 4) (20 + attrs_len)), (Nat.leb_spec (off + 4) (length raw)); try lia.
    cbn [andb].
    assert (Hrd : ∀ i b, (put16 code ++ put16 len) !! i = Some b → rd raw (off + i) = Ok b).
    { intros i b Hi. apply rd_Ok. rewrite app_assoc in E. eapply lookup_drop_app; eauto. }
    pose proof (Hrd 0%nat _ eq_refl) as R0. rewrite Nat.add_0_r in R0 |- *.
    rewrite R0, (Hrd 1%nat _ eq_refl), (Hrd 2%nat _ eq_refl), (Hrd 3%nat _ eq_refl).
    rsimpl. rewrite be16_put16 by lia. by rewrite Z.eqb_refl.
  - unfold attrs_bytes in *. cbn [map concat] in *. rewrite length_app in Ha |- *.
    rewrite <-app_assoc in E. pose proof (length_attr_bytes a) as Hab.
    assert (Hlen : (off + length (attr_bytes a) ≤ length raw)%nat).
    { apply (f_equal length) in E. rewrite length_drop, length_app in E. lia. }
    destruct (Nat.leb_spec (off + 4) (20 + attrs_len)), (Nat.leb_spec (off + 4) (length raw)); try lia.
    cbn [andb].
    assert (Hrd : ∀ i b, attr_bytes a !! i = Some b → rd raw (off + i) = Ok b).
    { intros i b Hi. apply rd_Ok. eapply lookup_drop_app; eauto. }
    pose proof (Hrd 0%nat _ eq_refl) as R0. rewrite Nat.add_0_r in R0.
    rewrite R0, (Hrd 1%nat _ eq_refl), (Hrd 2%nat _ eq_refl), (Hrd 3%nat _ eq_refl).
    rsimpl. rewrite !be16_put16 by lia. rewrite Nat2Z.id.
    apply Forall_cons in Hne as [Hne Hnel].
    destruct (Z.eqb_spec (attr_type_code (attr_type a)) code); [done|]. cbv zeta.
    replace (off + (4 + length (attr_value a)) + pad4 (length (attr_value a)))%nat
      with (off + length (attr_bytes a))%nat by lia.
    rewrite IH; [f_equal; f_equal; lia|done| |lia|lia].
    by apply drop_app_skip.
Qed.

(** ** The two MACs *)

(** A STUN header with a given length field. *)
Definition header (ty len : Z) (tid : bytes) : bytes :=
  [byte_of ty 8; byte_of ty 0; byte_of len 8; byte_of len 0; 0x21; 0x12; 0xA4; 0x42] ++ tid.

Lemma build_header b :
  build b = header (msg_type_ b) (u16 (Z.of_nat (length (attrs_buf_ b)))) (transaction_id_ b)
              ++ attrs_buf_ b.
Proof. unfold build, header. by rewrite <-app_assoc. Qed.

Lemma set_length_header n ty len tid l :
  LongTermCred.set_length n (header ty len tid ++ l) = header ty n tid ++ l.
Proof. done. Qed.

Lemma length_header ty len tid : length tid = 12%nat → length (header ty len tid) = 20%nat.
Proof. intros H. unfold header. by rewrite length_app, H. Qed.

Lemma rd_range_prefix a b n : n = length a → rd_range (a ++ b) 0 n = Ok a.
Proof.
  intros ->. rewrite rd_range_Ok by (rewrite length_app; lia). by rewrite slice_prefix.
Qed.

Lemma rd_range_mid a b c off n : off = length a → n = length b → rd_range (a ++ b ++ c) off n = Ok b.
Proof.
  intros -> ->. rewrite rd_range_Ok by (rewrite !length_app; lia).
  unfold slice. by rewrite drop_app_length, take_app_length.
Qed.

Lemma drop_header ty len tid rest : length tid = 12%nat → drop 20 (header ty len tid ++ rest) = rest.
Proof. intros H. by rewrite drop_app_length' by (by rewrite length_header). Qed.

(** The text that the MACs cover: the header says that the integrity attribute
    is the last one; the SHA-256 form also covers that attribute, zeroed. *)
Definition md5_text (ty : Z) (tid : bytes) (l : list Attribute) : bytes :=
  header ty (Z.of_nat (length (attrs_bytes l) + 24)) tid ++ attrs_bytes l.
Definition sha256_text (ty : Z) (tid : bytes) (l : list Attribute) (len : Z) : bytes :=
  header ty (Z.of_nat (length (attrs_bytes l) + 36)) tid ++ attrs_bytes l ++
    put16 (attr_type_code AttrType.MessageIntegritySha256) ++ put16 len ++ replicate 32 0.

(** A message that carries attributes [l], then an attribute of the integrity
    type with length field [mlen] and the MAC, then anything. *)
Definition sealed (t : AttrType) (ty len : Z) (tid : bytes) (l : list Attribute)
    (mlen : Z) (mac rest : bytes) : bytes :=
  header ty len tid ++ attrs_bytes l ++ put16 (attr_type_code t) ++ put16 mlen ++ mac ++ rest.

Definition sealed_ok (t : AttrType) (len : Z) (tid : bytes) (l : list Attribute) : Prop :=
  length tid = 12%nat ∧ Forall attr_ok l ∧
  Forall (λ a, attr_type_code (attr_type a) ≠ attr_type_code t) l ∧
  Z.of_nat (length (attrs_bytes l)) + 4 ≤ len < 65536 ∧
  Z.of_nat (length (attrs_bytes l)) + 36 < 65536.

Lemma find_mi_sealed t ty len tid l mlen mac rest :
  sealed_ok t len tid l → 0 ≤ attr_type_code t < 65536 →
  let raw := sealed t ty len tid l mlen mac rest in
  (20 ≤ length raw)%nat ∧ rd raw 2 = Ok (byte_of len 8) ∧ rd raw 3 = Ok (byte_of len 0) ∧
  find_mi (S (length raw)) (attr_type_code t) raw (Z.to_nat (be16 (byte_of len 8) (byte_of len 0))) 20 =
    Ok (Some (20 + length (attrs_bytes l))%nat).
Proof.
  intros (Htid & Hok & Hne & Hlen & Hl) Ht. cbv zeta.
  pose proof (length_attrs_le l). rewrite be16_put16 by lia.
  assert (Hraw : (20 + length (attrs_bytes l) ≤ length (sealed t ty len tid l mlen mac rest))%nat).
  { unfold sealed. rewrite !length_app, length_header by done. lia. }
  split_and!; [lia|done|done|].
  apply (find_mi_attrs _ _ _ _ _ l mlen (mac ++ rest)); try done; try lia.
  unfold sealed. by rewrite drop_header.
Qed.

(** A message built attribute by attribute, with the integrity attribute last. *)
Lemma sealed_build m c tid l mac tail out :
  let b := add_attrs (newBuilder m c tid)
             (l ++ [mkAttribute AttrType.MessageIntegrity mac]) in
  let len := Z.of_nat (length (attrs_bytes l)) + 24 in
  length tid = 12%nat → Forall attr_ok l → length mac = 20%nat → bytes_ok mac → len < 65536 →
  parse (build b ++ tail) out = Ok (ParseResult.Ok,
    mkTurnMessage c m len tid
      (l ++ [mkAttribute AttrType.MessageIntegrity mac])) ∧
  build b ++ tail =
    sealed AttrType.MessageIntegrity (encodeType m c) len tid l 20 mac tail.
Proof.
  cbv zeta. intros Htid Hok Hmac Hmb Hlen.
  set (a := mkAttribute AttrType.MessageIntegrity mac).
  assert (Ha : Forall attr_ok (l ++ [a])).
  { apply Forall_app. split; [done|]. constructor; [|done].
    split_and!; cbn [a attr_type attr_value]; [done..|lia|done]. }
  assert (Hal : attr_bytes a = put16 8 ++ put16 20 ++ mac).
  { unfold attr_bytes, a. cbn [attr_type attr_value attr_type_code]. rewrite Hmac.
    change (pad4 20) with 0%nat. cbn [replicate]. by rewrite app_nil_r. }
  assert (Hl : attrs_bytes (l ++ [a]) = attrs_bytes l ++ put16 8 ++ put16 20 ++ mac).
  { rewrite attrs_bytes_app. unfold attrs_bytes at 2. cbn [map concat]. by rewrite app_nil_r, Hal. }
  assert (Hll : length (attrs_bytes (l ++ [a])) = (length (attrs_bytes l) + 24)%nat).
  { rewrite Hl, !length_app, Hmac. unfold put16. cbn [length]. lia. }
  split.
  - rewrite parse_build_attrs; [|done..|lia]. rewrite Hll. do 3 f_equal. lia.
  - rewrite build_header. destruct (add_attrs_spec (newBuilder m c tid) _ Ha)
      as (->&->&->). cbn [newBuilder attrs_buf_ msg_type_ transaction_id_ app].
    rewrite Hll, u16_small, Hl by lia. unfold sealed.
    rewrite Nat2Z.inj_add. by rewrite <-!app_assoc.
Qed.

Section mac.
Context `{OpenSSLSpec}.

Lemma verify_md5_sealed realm u p ty len tid l mlen mac rest :
  sealed_ok AttrType.MessageIntegrity len tid l → length mac = 20%nat →
  LongTermCred.verifyMessageIntegrityMd5 realm
      (sealed AttrType.MessageIntegrity ty len tid l mlen mac rest) u p =
    Ok (bool_decide (crypto.hmac_sha1 (crypto.long_term_key_md5 u realm p)
                       (string_of_bytes (md5_text ty tid l)) = Ok mac)).
Proof.
  intros Hs Hmac.
  destruct (find_mi_sealed _ ty _ _ _ mlen mac rest Hs) as (H20&R2&R3&Hf); [done|].
  destruct Hs as (Htid & Hok & Hne & Hlen & Hl).
  unfold LongTermCred.verifyMessageIntegrityMd5. set (raw := sealed _ _ _ _ _ _ _ _) in *.
  destruct (Nat.ltb_spec (length raw) 20); [lia|].
  rewrite R2, R3. rsimpl. cbv zeta. rewrite Hf. cbn [mbind result_bind].
  assert (Hr : length raw = (44 + length (attrs_bytes l) + length rest)%nat).
  { unfold raw, sealed. rewrite !length_app, length_header, Hmac by done.
    unfold put16. cbn [length]. lia. }
  destruct (Nat.ltb_spec (length raw) (20 + length (attrs_bytes l) + 4 + 20)); [lia|].
  replace (20 + length (attrs_bytes l) - 20 + 4 + 20)%nat with (length (attrs_bytes l) + 24)%nat by lia.
  rewrite u16_small by lia. unfold raw, sealed. rewrite app_assoc, rd_range_prefix.
  2: { by rewrite length_app, length_header. }
  cbn [mbind result_bind]. rewrite set_length_header. fold (md5_text ty tid l).
  destruct (hmac_sha1_Ok (crypto.long_term_key_md5 u realm p) (string_of_bytes (md5_text ty tid l)))
    as (m & -> & _). cbn [mbind result_bind].
  replace (_ ++ put16 _ ++ _) with
    ((((header ty len tid ++ attrs_bytes l) ++ put16 (attr_type_code AttrType.MessageIntegrity))
       ++ put16 mlen) ++ mac ++ rest) by by rewrite <-!app_assoc.
  rewrite rd_range_mid; [|rewrite !length_app, length_header by done; unfold put16; cbn [length]; lia|done].
  cbn [mbind result_bind]. rewrite constant_time_compare_eq. do 2 f_equal. apply bool_decide_ext.
  split; [by intros ->|by intros [=]].
Qed.

Lemma verify_sha256_sealed realm u p ty len tid l mlen mac rest :
  sealed_ok AttrType.MessageIntegritySha256 len tid l → length mac = 32%nat →
  LongTermCred.verifyMessageIntegrity realm
      (sealed AttrType.MessageIntegritySha256 ty len tid l mlen mac rest) u p =
    Ok (bool_decide ((key ← crypto.long_term_key u realm p;
          crypto.hmac_sha256 key (string_of_bytes (sha256_text ty tid l mlen))) = Ok mac)).
Proof.
  intros Hs Hmac.
  destruct (find_mi_sealed _ ty _ _ _ mlen mac rest Hs) as (H20&R2&R3&Hf); [done|].
  destruct Hs as (Htid & Hok & Hne & Hlen & Hl).
  unfold LongTermCred.verifyMessageIntegrity. set (raw := sealed _ _ _ _ _ _ _ _) in *.
  destruct (Nat.ltb_spec (length raw) 20); [lia|].
  rewrite R2, R3. rsimpl. cbv zeta. rewrite Hf. cbn [mbind result_bind].
  assert (Hr : length raw = (56 + length (attrs_bytes l) + length rest)%nat).
  { unfold raw, sealed. rewrite !length_app, length_header, Hmac by done.
    unfold put16. cbn [length]. lia. }
  destruct (Nat.ltb_spec (length raw) (20 + length (attrs_bytes l) + 4 + 32)); [lia|].
  replace (20 + length (attrs_bytes l) - 20 + 4 + 32)%nat with (length (attrs_bytes l) + 36)%nat by lia.
  rewrite u16_small by lia.
  set (pre := (attrs_bytes l ++ put16 (attr_type_code AttrType.MessageIntegritySha256)) ++ put16 mlen).
  assert (Hpre : length pre = (length (attrs_bytes l) + 4)%nat).
  { unfold pre. rewrite !length_app. unfold put16. cbn [length]. lia. }
  assert (E : raw = (header ty len tid ++ pre ++ mac) ++ rest).
  { unfold raw, sealed, pre. by rewrite <-!app_assoc. }
  rewrite E, rd_range_prefix by (rewrite !length_app, length_header, Hpre, Hmac by done; lia).
  cbn [mbind result_bind]. rewrite set_length_header.
  set (adj := header ty (Z.of_nat (length (attrs_bytes l) + 36)) tid).
  rewrite (app_assoc adj pre mac), take_app_length'
    by (unfold adj; rewrite length_app, length_header, Hpre by done; lia).
  replace ((adj ++ pre) ++ replicate 32 0) with (sha256_text ty tid l mlen).
  2: { unfold sha256_text, pre, adj. by rewrite <-!app_assoc. }
  destruct (long_term_key_Ok u realm p) as (key & ->). cbn [mbind result_bind].
  destruct (hmac_sha256_Ok key (string_of_bytes (sha256_text ty tid l mlen))) as (m & -> & _).
  cbn [mbind result_bind].
  rewrite (app_assoc _ pre mac), <-(app_assoc _ mac rest), rd_range_mid.
  - cbn [mbind result_bind]. rewrite constant_time_compare_eq. do 2 f_equal. apply bool_decide_ext.
    split; [by intros ->|by intros [=]].
  - rewrite length_app, length_header, Hpre by done. lia.
  - done.
Qed.

(** Both functions return on any buffer. *)
Lemma verify_total realm raw u p :
  (∃ b, LongTermCred.verifyMessageIntegrity realm raw u p = Ok b) ∧
  (∃ b, LongTermCred.verifyMessageIntegrityMd5 realm raw u p = Ok b).
Proof.
  unfold LongTermCred.verifyMessageIntegrity, LongTermCred.verifyMessageIntegrityMd5.
  destruct (Nat.ltb_spec (length raw) 20); [split; by exists false|].
  destruct (rd_lt raw 2) as (r2&->&_); [lia|]. destruct (rd_lt raw 3) as (r3&->&_); [lia|].
  rsimpl. cbv zeta.
  split; match goal with |- context [find_mi ?f ?c ?d ?n ?o] =>
      destruct (find_mi_total f c d n o) as ([pos|]&->&Hp); [lia..| |by exists false] end;
    cbn [mbind result_bind]; destruct (Hp pos eq_refl); case_match; brefl; try (by eexists).
  - rewrite !rd_range_Ok by lia. cbn [mbind result_bind].
    destruct (long_term_key_Ok u realm p) as (key & ->). cbn [mbind result_bind].
    edestruct hmac_sha256_Ok as (m & -> & _). cbn [mbind result_bind].
    by eexists.
  - rewrite !rd_range_Ok by lia. cbn [mbind result_bind].
    edestruct hmac_sha1_Ok as (m & -> & _). cbn [mbind result_bind].
    by eexists.
Qed.
End mac.
