(* ===== verification/Auth.v ===== *)
(** * Properties of authentication

    Generated credentials are accepted until they expire and no others; the
    integrity check compares the MAC of exactly the text before the integrity
    attribute; [authenticate] returns on every packet, accepts only requests
    that carry a valid nonce, an unexpired username and the right MAC, and
    decides a signed request as specified on every branch. *)

From S2P Require Export CredentialFacts.

#[local] Existing Instance ToyOpenSSL.
#[local] Existing Instance ToyOpenSSLSpec.

(** A packet with an integrity attribute at [pos] whose MAC is the HMAC-SHA1 of
    the packet up to it, with the length field adjusted. *)
Definition md5_mac_at `{OpenSSL} (raw : bytes) (key : bytes) (pos : nat) : Prop :=
  (20 ≤ pos ∧ pos + 24 ≤ length raw)%nat ∧
  crypto.hmac_sha1 key (string_of_bytes
    (LongTermCred.set_length (u16 (Z.of_nat (pos - 20 + 24))) (take pos raw))) =
    Ok (slice raw (pos + 4) 20).

Definition sha256_mac_at `{OpenSSL} (raw : bytes) (key : bytes) (pos : nat) : Prop :=
  (20 ≤ pos ∧ pos + 36 ≤ length raw)%nat ∧
  crypto.hmac_sha256 key (string_of_bytes
    (take (pos + 4) (LongTermCred.set_length (u16 (Z.of_nat (pos - 20 + 36))) (take (pos + 36) raw))
       ++ replicate 32 0)) =
    Ok (slice raw (pos + 4) 32).

(** The value of an attribute as a string. *)
Definition attr_string (msg : TurnMessage) (t : AttrType) : option string :=
  string_of_bytes ∘ attr_value <$> findAttr msg t.

(** The attributes of a signed request. *)
Definition request_attrs (u r n : string) (extra : list Attribute) : list Attribute :=
  mkAttribute AttrType.Username (bytes_of_string u) ::
  mkAttribute AttrType.Realm (bytes_of_string r) ::
  mkAttribute AttrType.Nonce (bytes_of_string n) :: extra.

(** What [authenticate] owes a request signed with [mac]. *)
Definition decision `{OpenSSL} (ltc : LongTermCred.LongTermCred) (steady now : Z) (m : Method)
    (u n : string) (text mac : bytes) (allocated : string) : AuthResult :=
  if negb (isValid steady n (LongTermCred.nonce_manager_ ltc)) then AuthResult.StaleNonce else
  match HmacValidator.parseExpiry u with
  | None => AuthResult.BadIntegrity
  | Some expiry =>
      if expiry <? now then AuthResult.CredentialsExpired else
      let expected :=
        password ← HmacValidator.computeHmac (LongTermCred.hmac_validator_ ltc) u;
        crypto.hmac_sha1 (crypto.long_term_key_md5 u (LongTermCred.realm_ ltc) password)
          (string_of_bytes text) in
      if negb (bool_decide (expected = Ok mac)) then AuthResult.BadIntegrity else
      if bool_decide (m ≠ Method.Allocate ∧ allocated ≠ "" ∧ u ≠ allocated)
      then AuthResult.WrongCredentials else AuthResult.Ok
  end.

Section facts.
Context `{OpenSSLSpec}.

Lemma computeHmac_Ok hv u : ∃ p, HmacValidator.computeHmac hv u = Ok p ∧ p ≠ "".
Proof.
  unfold HmacValidator.computeHmac, crypto.hmac_sha1_str.
  edestruct hmac_sha1_Ok as (mac & -> & Hl & _). rsimpl.
  eexists. split; [done|]. rewrite base64_encode_empty. by destruct mac.
Qed.

Lemma getPassword_parse hv u e :
  HmacValidator.parseExpiry u = Some e →
  HmacValidator.getPassword hv u = HmacValidator.computeHmac hv u.
Proof.
  unfold HmacValidator.parseExpiry, HmacValidator.getPassword.
  destruct (str_find colon u); [|done]. by rewrite bool_decide_false.
Qed.

Lemma stoll_error s e : stoll s = Err e → ∃ k w, e = Thrown k w.
Proof. unfold stoll, sto. intros. repeat case_match; simplify_eq; eauto. Qed.

Lemma verify_md5_true realm raw u p :
  LongTermCred.verifyMessageIntegrityMd5 realm raw u p = Ok true →
  ∃ pos, md5_mac_at raw (crypto.long_term_key_md5 u realm p) pos.
Proof.
  unfold LongTermCred.verifyMessageIntegrityMd5.
  destruct (Nat.ltb_spec (length raw) 20); [done|].
  destruct (rd_lt raw 2) as (r2&->&_); [lia|]. destruct (rd_lt raw 3) as (r3&->&_); [lia|].
  rsimpl. cbv zeta. edestruct find_mi_total as ([pos|]&->&Hp); [lia..| |done].
  cbn [mbind result_bind]. destruct (Hp pos eq_refl).
  destruct (Nat.ltb_spec (length raw) (pos + 4 + 20)); [done|].
  rewrite !rd_range_Ok by lia. cbn [mbind result_bind].
  destruct (crypto.hmac_sha1 _ _) as [mac|] eqn:E; cbn [mbind result_bind]; [|done].
  rewrite constant_time_compare_eq. intros [= Hm%bool_decide_eq_true_1]. exists pos. split; [lia|].
  rewrite <-Hm, <-E. unfold slice. rewrite drop_0.
  by replace (pos - 20 + 4 + 20)%nat with (pos - 20 + 24)%nat by lia.
Qed.

Lemma verify_sha256_true realm raw u p :
  LongTermCred.verifyMessageIntegrity realm raw u p = Ok true →
  ∃ key pos, crypto.long_term_key u realm p = Ok key ∧ sha256_mac_at raw key pos.
Proof.
  unfold LongTermCred.verifyMessageIntegrity.
  destruct (Nat.ltb_spec (length raw) 20); [done|].
  destruct (rd_lt raw 2) as (r2&->&_); [lia|]. destruct (rd_lt raw 3) as (r3&->&_); [lia|].
  rsimpl. cbv zeta. edestruct find_mi_total as ([pos|]&->&Hp); [lia..| |done].
  cbn [mbind result_bind]. destruct (Hp pos eq_refl).
  destruct (Nat.ltb_spec (length raw) (pos + 4 + 32)); [done|].
  rewrite !rd_range_Ok by lia. cbn [mbind result_bind].
  destruct (crypto.long_term_key _ _ _) as [key|]; cbn [mbind result_bind]; [|done].
  destruct (crypto.hmac_sha256 _ _) as [mac|] eqn:E; cbn [mbind result_bind]; [|done].
  rewrite constant_time_compare_eq. intros [= Hm%bool_decide_eq_true_1].
  exists key, pos. split; [done|]. split; [lia|].
  rewrite <-Hm, <-E. unfold slice. rewrite drop_0.
  replace (pos - 20 + 4 + 32)%nat with (pos - 20 + 36)%nat by lia.
  by replace (pos + 4 + 32)%nat with (pos + 36)%nat by lia.
Qed.

Lemma findAttr_app c m len tid l1 l2 t :
  findAttr (mkTurnMessage c m len tid (l1 ++ l2)) t =
    match findAttr (mkTurnMessage c m len tid l1) t with
    | Some a => Some a
    | None => findAttr (mkTurnMessage c m len tid l2) t
    end.
Proof.
  unfold findAttr. cbn [attributes]. induction l1 as [|a l1 IH]; [done|]. cbn [app List.find].
  by case_bool_decide.
Qed.

Lemma findAttr_None c m len tid l t :
  Forall (λ a, attr_type a ≠ t) l → findAttr (mkTurnMessage c m len tid l) t = None.
Proof.
  unfold findAttr. cbn [attributes]. induction 1 as [|a l Ha _ IH]; [done|]. cbn [List.find].
  by rewrite bool_decide_false.
Qed.

End facts.

Section properties.
Context `{OpenSSLSpec}.

Lemma authenticate_returns ltc steady now msg raw allocated :
  ∃ r, LongTermCred.authenticate ltc steady now msg raw allocated = Ok r ∧
   (r = AuthResult.Ok → msg_class msg ≠ MessageClass.Indication →
    ∃ u n e p,
      attr_string msg AttrType.Username = Some u ∧ attr_string msg AttrType.Nonce = Some n ∧
      is_Some (findAttr msg AttrType.Realm) ∧
      isValid steady n (LongTermCred.nonce_manager_ ltc) = true ∧
      HmacValidator.parseExpiry u = Some e ∧ now ≤ e ∧
      HmacValidator.computeHmac (LongTermCred.hmac_validator_ ltc) u = Ok p ∧
      (method msg = Method.Allocate ∨ allocated = "" ∨ u = allocated) ∧
      ((∃ key pos, crypto.long_term_key u (LongTermCred.realm_ ltc) p = Ok key ∧
          sha256_mac_at raw key pos) ∨
       (∃ pos, md5_mac_at raw (crypto.long_term_key_md5 u (LongTermCred.realm_ ltc) p) pos))).
Proof.
  unfold LongTermCred.authenticate. case_bool_decide as Hi; [by eexists|]. rsimpl.
  unfold attr_string.
  destruct (findAttr msg AttrType.Username) as [ua|]; [|by eexists].
  destruct (findAttr msg AttrType.Realm) as [ra|]; [|by eexists].
  destruct (findAttr msg AttrType.Nonce) as [na|]; [|by eexists].
  destruct (_ || _) eqn:Hmi; [|by eexists].
  cbn [fmap option_fmap option_map compose]. cbv zeta.
  set (u := string_of_bytes (attr_value ua)). set (n := string_of_bytes (attr_value na)).
  destruct (isValid steady n _) eqn:Hv; cbn [negb]; [|by eexists].
  destruct (str_find colon u) as [i|] eqn:Hf; [|by eexists].
  destruct (stoll _) as [e|] eqn:He.
  2: { apply stoll_error in He as (?&?&->). by eexists. }
  destruct (Z.ltb_spec e now); [by eexists|].
  assert (Hpe : HmacValidator.parseExpiry u = Some e).
  { unfold HmacValidator.parseExpiry. by rewrite Hf, He. }
  rewrite (getPassword_parse _ _ _ Hpe).
  destruct (computeHmac_Ok (LongTermCred.hmac_validator_ ltc) u) as (p&Hp&Hne).
  rewrite Hp. cbn [mbind result_bind]. destruct p as [|c p]; [done|]. cbn [str_empty].
  set (pw := String c p) in *.
  destruct (verify_total (LongTermCred.realm_ ltc) raw u pw) as [[b1 E1] [b2 E2]].
  match goal with |- context [?v ≫= _] => assert (Hver : ∃ b, v = Ok b ∧ (b = true →
    (∃ key pos, crypto.long_term_key u (LongTermCred.realm_ ltc) pw = Ok key ∧
       sha256_mac_at raw key pos) ∨
    (∃ pos, md5_mac_at raw (crypto.long_term_key_md5 u (LongTermCred.realm_ ltc) pw) pos))) end.
  { case_match.
    - exists b1. split; [done|]. intros ->. left. by eapply verify_sha256_true.
    - exists b2. split; [done|]. intros ->. right. by eapply verify_md5_true. }
  destruct Hver as (b & -> & Hb). cbn [mbind result_bind].
  destruct b; cbn [negb]; [|by eexists].
  case_match eqn:Hw; [by eexists|]. eexists. split; [done|]. intros _ _.
  exists u, n, e, pw. split_and!; try done; [|by apply Hb].
  destruct (decide (method msg = Method.Allocate)) as [->|?]; [by left|]. right.
  rewrite bool_decide_false in Hw by done. destruct allocated; [by left|right].
  cbn [str_empty negb andb] in Hw. by case_bool_decide.
Qed.

Lemma authenticate_decides ltc steady now m tid u r n extra mac tail out allocated :
  let l := request_attrs u r n extra in
  let b := add_attrs (newBuilder m MessageClass.Request tid)
             (l ++ [mkAttribute AttrType.MessageIntegrity mac]) in
  let raw := build b ++ tail in
  length tid = 12%nat → Forall attr_ok l → length mac = 20%nat → bytes_ok mac →
  Forall (λ a, attr_type a ≠ AttrType.MessageIntegrity ∧
               attr_type a ≠ AttrType.MessageIntegritySha256) extra →
  Z.of_nat (length (attrs_bytes l)) + 36 < 65536 →
  ∃ msg, parse raw out = Ok (ParseResult.Ok, msg) ∧
    LongTermCred.authenticate ltc steady now msg raw allocated =
      Ok (decision ltc steady now m u n
            (md5_text (encodeType m MessageClass.Request) tid l) mac allocated).
Proof.
  cbv zeta. intros Htid Hok Hmac Hmb Hex Hlen.
  set (l := request_attrs u r n extra) in *.
  destruct (sealed_build m MessageClass.Request tid l mac tail out Htid Hok Hmac Hmb) as [Hp Hs]; [lia|].
  eexists. split; [exact Hp|]. rewrite Hs. clear Hp Hs.
  set (msg := mkTurnMessage _ _ _ _ _). set (raw := sealed _ _ _ _ _ _ _ _).
  assert (Hu : findAttr msg AttrType.Username = Some (mkAttribute AttrType.Username (bytes_of_string u)))
    by done.
  assert (Hr : findAttr msg AttrType.Realm = Some (mkAttribute AttrType.Realm (bytes_of_string r)))
    by done.
  assert (Hn : findAttr msg AttrType.Nonce = Some (mkAttribute AttrType.Nonce (bytes_of_string n)))
    by done.
  assert (Hl : Forall (λ a, attr_type a ≠ AttrType.MessageIntegrity ∧
               attr_type a ≠ AttrType.MessageIntegritySha256) l) by (repeat constructor; done).
  assert (H256 : findAttr msg AttrType.MessageIntegritySha256 = None).
  { unfold msg. rewrite findAttr_app, findAttr_None; [done|]. eapply Forall_impl; [done|]. by intros ? []. }
  assert (Hmd5 : findAttr msg AttrType.MessageIntegrity =
      Some (mkAttribute AttrType.MessageIntegrity mac)).
  { unfold msg. rewrite findAttr_app, findAttr_None; [done|]. eapply Forall_impl; [done|]. by intros ? []. }
  assert (Hseal : sealed_ok AttrType.MessageIntegrity (Z.of_nat (length (attrs_bytes l)) + 24) tid l).
  { split_and!; [done..| |lia|lia|lia]. rewrite Forall_forall in Hok, Hl |- *.
    intros a Ha E. destruct (Hok a Ha) as (Ht&_). destruct (Hl a Ha) as [Hm _].
    apply Hm. by rewrite <-Ht, E. }
  unfold LongTermCred.authenticate. rewrite Hu, Hr, Hn, H256, Hmd5.
  change (msg_class msg) with MessageClass.Request. change (method msg) with m.
  rsimpl. cbn [bool_decide orb decide decide_rel MessageClass_eq_dec].
  rewrite (bool_decide_false (is_Some None)) by (by intros []).
  rewrite (bool_decide_true (is_Some (Some _))) by eauto. cbn [orb attr_value].
  rewrite bool_decide_false by done. rewrite !string_of_bytes_of_string.
  unfold decision. destruct (isValid _ _ _); cbn [negb]; [|done].
  unfold HmacValidator.parseExpiry. destruct (str_find colon u) as [i|] eqn:Hf; [|done].
  destruct (stoll _) as [e|] eqn:He.
  2: { apply stoll_error in He as (?&?&->). done. }
  destruct (Z.ltb_spec e now); [done|].
  rewrite (getPassword_parse _ _ e) by (unfold HmacValidator.parseExpiry; by rewrite Hf, He).
  destruct (computeHmac_Ok (LongTermCred.hmac_validator_ ltc) u) as (p&Hp&Hne).
  rewrite Hp. cbn [mbind result_bind]. destruct p as [|c p]; [done|]. cbn [str_empty].
  unfold raw. rewrite verify_md5_sealed by done. cbn [mbind result_bind].
  destruct (bool_decide (_ = Ok mac)); cbn [negb]; [|done].
  do 2 case_bool_decide; destruct allocated; cbn [str_empty negb andb]; case_bool_decide; naive_solver.
Qed.

(** The expiry in a username. *)
Lemma parseExpiry_username e uid : - 2 ^ 63 ≤ e < 2 ^ 63 →
  HmacValidator.parseExpiry (to_string e +:+ ":" +:+ uid) = Some e.
Proof.
  intros He. unfold HmacValidator.parseExpiry. change (":" +:+ uid) with (String colon uid).
  rewrite str_find_app, str_take_app by apply to_string_no_colon.
  rewrite <-(str_app_nil_r (to_string _)). by rewrite stoll_to_string_app.
Qed.

(** Credentials and their check. *)
Lemma generate_lifetime hv t0 uid ttl :
  - 2 ^ 63 ≤ t0 + ttl < 2 ^ 63 →
  ∃ c, HmacValidator.generate hv t0 uid ttl = Ok c ∧
    HmacValidator.username c = to_string (t0 + ttl) +:+ ":" +:+ uid ∧
    HmacValidator.getPassword hv (HmacValidator.username c) = Ok (HmacValidator.password c) ∧
    ∀ t pass, HmacValidator.validate hv t (HmacValidator.username c) pass =
      Ok (bool_decide (t ≤ t0 + ttl ∧ pass = HmacValidator.password c)).
Proof.
  intros Hr. unfold HmacValidator.generate, HmacValidator.add_i64.
  destruct (Z.leb_spec (- 2 ^ 63) (t0 + ttl)), (Z.ltb_spec (t0 + ttl) (2 ^ 63)); try lia.
  cbn [andb]. rsimpl. set (u := _ +:+ _).
  pose proof (parseExpiry_username (t0 + ttl) uid Hr : HmacValidator.parseExpiry u = _) as Hp.
  destruct (computeHmac_Ok hv u) as (p & Hc & Hne). rewrite Hc. cbn [mbind result_bind].
  eexists. split; [done|]. cbn [HmacValidator.username HmacValidator.password]. split_and!.
  - done.
  - by rewrite (getPassword_parse _ _ _ Hp).
  - intros t pass. unfold HmacValidator.validate. rewrite Hp.
    destruct (Z.ltb_spec (t0 + ttl) t).
    + rewrite bool_decide_false by lia. done.
    + rewrite Hc. rsimpl. rewrite constant_time_compare_str_eq. f_equal. apply bool_decide_ext.
      split; [by intros ->|by intros [_ ->]].
Qed.

(** Credentials generated at [t0] for [ttl] seconds (no overflow) carry the
    user id and validate, until [t0 + ttl] included, with their own password
    and no other; the password is the one the TURN server derives from the
    username. *)
Theorem credentials_lifetime hv t0 uid ttl :
  - 2 ^ 63 ≤ t0 + ttl < 2 ^ 63 →
  ∃ c, HmacValidator.generate hv t0 uid ttl = Ok c ∧
    HmacValidator.username c = to_string (t0 + ttl) +:+ ":" +:+ uid ∧
    HmacValidator.getPassword hv (HmacValidator.username c) = Ok (HmacValidator.password c) ∧
    ∀ t pass, HmacValidator.validate hv t (HmacValidator.username c) pass =
      Ok (bool_decide (t ≤ t0 + ttl ∧ pass = HmacValidator.password c)).
Proof. apply generate_lifetime. Qed.

(** C25: the integrity check of a message accepts its MAC exactly when it is
    the HMAC of the attributes before the integrity attribute under a header
    whose length ends with that attribute: neither the length field of the
    message nor anything after the MAC has an influence. *)
Theorem integrity_covers_prefix realm u p ty len tid l mlen mac rest :
  (sealed_ok AttrType.MessageIntegrity len tid l → length mac = 20%nat →
   LongTermCred.verifyMessageIntegrityMd5 realm
      (sealed AttrType.MessageIntegrity ty len tid l mlen mac rest) u p =
    Ok (bool_decide (crypto.hmac_sha1 (crypto.long_term_key_md5 u realm p)
                       (string_of_bytes (md5_text ty tid l)) = Ok mac))) ∧
  (sealed_ok AttrType.MessageIntegritySha256 len tid l → length mac = 32%nat →
   LongTermCred.verifyMessageIntegrity realm
      (sealed AttrType.MessageIntegritySha256 ty len tid l mlen mac rest) u p =
    Ok (bool_decide ((key ← crypto.long_term_key u realm p;
          crypto.hmac_sha256 key (string_of_bytes (sha256_text ty tid l mlen))) = Ok mac))).
Proof. split; [apply verify_md5_sealed|apply verify_sha256_sealed]. Qed.

(** C3: on every parsed packet [authenticate] returns, and when it accepts,
    the packet is an indication or carries a realm, a nonce that is valid now,
    a username whose expiry has not passed, and the MAC of the packet under the
    key of that username, the server's realm and the password derived from the
    shared secret.  The username is also that of the owner of the allocation that
    the caller found, if it found one, except in an Allocate request, for which
    the owner is not compared. *)
Theorem authenticate_sound ltc steady now msg raw allocated :
  ∃ r, LongTermCred.authenticate ltc steady now msg raw allocated = Ok r ∧
   (r = AuthResult.Ok → msg_class msg ≠ MessageClass.Indication →
    ∃ u n e p,
      attr_string msg AttrType.Username = Some u ∧ attr_string msg AttrType.Nonce = Some n ∧
      is_Some (findAttr msg AttrType.Realm) ∧
      isValid steady n (LongTermCred.nonce_manager_ ltc) = true ∧
      HmacValidator.parseExpiry u = Some e ∧ now ≤ e ∧
      HmacValidator.computeHmac (LongTermCred.hmac_validator_ ltc) u = Ok p ∧
      (method msg = Method.Allocate ∨ allocated = "" ∨ u = allocated) ∧
      ((∃ key pos, crypto.long_term_key u (LongTermCred.realm_ ltc) p = Ok key ∧
          sha256_mac_at raw key pos) ∨
       (∃ pos, md5_mac_at raw (crypto.long_term_key_md5 u (LongTermCred.realm_ ltc) p) pos))).
Proof. apply authenticate_returns. Qed.
End properties.

(** ** The properties at concrete inputs *)

Lemma credentials_lifetime_witness :
  let hv := HmacValidator.mkHmacValidator "s3cret" in
  ∃ c, HmacValidator.generate hv 1000 "alice" 600 = Ok c ∧
    HmacValidator.username c = to_string (1000 + 600) +:+ ":" +:+ "alice" ∧
    HmacValidator.getPassword hv (HmacValidator.username c) = Ok (HmacValidator.password c) ∧
    ∀ t pass, HmacValidator.validate hv t (HmacValidator.username c) pass =
      Ok (bool_decide (t ≤ 1000 + 600 ∧ pass = HmacValidator.password c)).
Proof. apply credentials_lifetime. lia. Defined.

Lemma integrity_covers_prefix_witness :
  let l := [mkAttribute AttrType.Username [97; 58; 98]] in
  LongTermCred.verifyMessageIntegrityMd5 "realm"
      (sealed AttrType.MessageIntegrity 3 32 (replicate 12 7) l 20 (replicate 20 5) [1; 2]) "a:b" "pw" =
    Ok (bool_decide (crypto.hmac_sha1 (crypto.long_term_key_md5 "a:b" "realm" "pw")
                       (string_of_bytes (md5_text 3 (replicate 12 7) l)) = Ok (replicate 20 5))).
Proof.
  apply (proj1 (integrity_covers_prefix "realm" "a:b" "pw" 3 32 (replicate 12 7)
    [mkAttribute AttrType.Username [97; 58; 98]] 20 (replicate 20 5) [1; 2])); [|done].
  split_and!; [done| | |done..]; repeat constructor; compute_done.
Defined.

(** An object to authenticate with: one nonce, valid until its hour is over. *)
Definition example_ltc : LongTermCred.LongTermCred :=
  LongTermCred.mkLongTermCred "chat" (mkNonceManager 3600 {["abcd" := seconds 3600]})
    (HmacValidator.mkHmacValidator "s3cret").

(** A Refresh of the owner of the allocation, signed with its credentials. *)
Definition refresh_attrs : list Attribute := request_attrs "1600:alice" "chat" "abcd" [].
Definition refresh_raw : bytes :=
  let tid := replicate 12 7 in
  let password := toy.b64 (toy.mac 20 (bytes_of_string "s3cret") (bytes_of_string "1600:alice")) in
  build (add_attrs (newBuilder Method.Refresh MessageClass.Request tid)
    (refresh_attrs ++ [mkAttribute AttrType.MessageIntegrity
       (toy.mac 20 (crypto.long_term_key_md5 "1600:alice" "chat" password)
          (md5_text (encodeType Method.Refresh MessageClass.Request) tid refresh_attrs))])).
Definition refresh_msg : TurnMessage :=
  match parse refresh_raw empty_message with Ok (_, m) => m | Err _ => empty_message end.

(** It is accepted, and carries what an accepted packet does; anybody else's
    allocation is refused to it. *)
Lemma authenticate_sound_witness :
  parse refresh_raw empty_message = Ok (ParseResult.Ok, refresh_msg) ∧
  LongTermCred.authenticate example_ltc 5 1000 refresh_msg refresh_raw "1600:bob" = Ok AuthResult.WrongCredentials ∧
  LongTermCred.authenticate example_ltc 5 1000 refresh_msg refresh_raw "1600:alice" = Ok AuthResult.Ok ∧
  ∃ u n e p,
    attr_string refresh_msg AttrType.Username = Some u ∧ attr_string refresh_msg AttrType.Nonce = Some n ∧
    is_Some (findAttr refresh_msg AttrType.Realm) ∧
    isValid 5 n (LongTermCred.nonce_manager_ example_ltc) = true ∧
    HmacValidator.parseExpiry u = Some e ∧ 1000 ≤ e ∧
    HmacValidator.computeHmac (LongTermCred.hmac_validator_ example_ltc) u = Ok p ∧
    (method refresh_msg = Method.Allocate ∨ "1600:alice" = "" ∨ u = "1600:alice") ∧
    ((∃ key pos, crypto.long_term_key u (LongTermCred.realm_ example_ltc) p = Ok key ∧
        sha256_mac_at refresh_raw key pos) ∨
     (∃ pos, md5_mac_at refresh_raw (crypto.long_term_key_md5 u (LongTermCred.realm_ example_ltc) p) pos)).
Proof.
  assert (Hacc : LongTermCred.authenticate example_ltc 5 1000 refresh_msg refresh_raw "1600:alice" = Ok AuthResult.Ok)
    by (by vm_compute).
  assert (Href : LongTermCred.authenticate example_ltc 5 1000 refresh_msg refresh_raw "1600:bob" =
    Ok AuthResult.WrongCredentials) by (by vm_compute).
  assert (Hp : parse refresh_raw empty_message = Ok (ParseResult.Ok, refresh_msg)) by (by vm_compute).
  destruct (authenticate_sound example_ltc 5 1000 refresh_msg refresh_raw "1600:alice") as (r&Hr&Hcarries).
  rewrite Hacc in Hr. injection Hr as <-.
  exact (conj Hp (conj Href (conj Hacc (Hcarries eq_refl ltac:(vm_compute; discriminate))))).
Defined.

(** Accepted, refused for its MAC, refused for its nonce. *)
Example decision_ex :
  let text := md5_text 4 (replicate 12 7) [] in
  let good := toy.mac 20 (toy.mac 16 [] (bytes_of_string ("1600:alice:chat:" +:+
    toy.b64 (toy.mac 20 (bytes_of_string "s3cret") (bytes_of_string "1600:alice"))))) text in
  decision example_ltc 5 1000 Method.Refresh "1600:alice" "abcd" text good "" = AuthResult.Ok ∧
  decision example_ltc 5 1000 Method.Refresh "1600:alice" "abcd" text [] "" = AuthResult.BadIntegrity ∧
  decision example_ltc 5 1000 Method.Refresh "1600:alice" "ab" text good "" = AuthResult.StaleNonce.
Proof. by vm_compute. Qed.
