(* ===== verification/Allocation.v ===== *)
(** * Allocations (src/turn_server/src/allocation/allocation.hpp, permission_table)

    The data of one TURN allocation with its lookups, and the filter on peer
    addresses.  The conversions between IPv4 addresses and text are Boost's:
    the class [BoostAddress], of which only [BoostAddressSpec] is assumed.
    [dotted] is an instance to evaluate with. *)

From Stdlib Require Import Ascii.
From S2P Require Export MessageFacts Nonce.

(** ** Endpoints (transport/transport.hpp) *)
Record Endpoint := mkEndpoint { ep_address : string; ep_port : Z }.

#[export] Instance Endpoint_eq_dec : EqDecision Endpoint.
Proof. solve_decision. Defined.

(** [operator==]. *)
Definition endpoint_eqb (a b : Endpoint) : bool :=
  bool_decide (ep_address a = ep_address b) && (ep_port a =? ep_port b).

Definition endpointKey (ep : Endpoint) : string :=
  ep_address ep +:+ ":" +:+ to_string (ep_port ep).

#[global] Arguments endpointKey : simpl never.

(** ** Addresses *)
Class BoostAddress := {
  make_address_v4 : string → option Z;      (* None: the error code is set *)
  v4_to_string : Z → string;
}.

Class BoostAddressSpec `{BoostAddress} := {
  make_address_v4_to_string ip : 0 ≤ ip < 2 ^ 32 → make_address_v4 (v4_to_string ip) = Some ip;
  make_address_v4_bound s ip : make_address_v4 s = Some ip → 0 ≤ ip < 2 ^ 32;
}.

Definition kDeniedRanges : list (Z * Z) :=
  [(0x0A000000, 0x0AFFFFFF); (0xAC100000, 0xAC1FFFFF)].

Definition isDeniedAddress `{BoostAddress} (address : string) : bool :=
  match make_address_v4 address with
  | None => false
  | Some ip => existsb (λ '(lo, hi), (lo <=? ip) && (ip <=? hi)) kDeniedRanges
  end.

(** ** Allocations *)
Record Permission := mkPermission { perm_address : string; perm_expiresAt : Z }.

Record ChannelBinding := mkChannelBinding {
  channelNumber : Z;
  peer : Endpoint;
  ch_expiresAt : Z;
}.

Record Allocation := mkAllocation {
  id : Z;
  clientAddr : Endpoint;
  relayedAddr : Endpoint;
  username : string;
  realm : string;
  expiresAt : Z;
  permissions : gmap string Permission;
  channels : gmap Z ChannelBinding;
}.

Definition kDefaultLifetime : Z := 600.
Definition kMaxLifetime : Z := 3600.
Definition kPermissionTTL : Z := 300.
Definition kChannelTTL : Z := 600.

Definition set_expiresAt (t : Z) (a : Allocation) : Allocation :=
  mkAllocation (id a) (clientAddr a) (relayedAddr a) (username a) (realm a) t
    (permissions a) (channels a).
Definition set_permission (addr : string) (p : Permission) (a : Allocation) : Allocation :=
  mkAllocation (id a) (clientAddr a) (relayedAddr a) (username a) (realm a) (expiresAt a)
    (<[addr := p]> (permissions a)) (channels a).
Definition set_channel (num : Z) (c : ChannelBinding) (a : Allocation) : Allocation :=
  mkAllocation (id a) (clientAddr a) (relayedAddr a) (username a) (realm a) (expiresAt a)
    (permissions a) (<[num := c]> (channels a)).

Definition isExpired (now : Z) (a : Allocation) : bool := expiresAt a <=? now.

Definition hasPermission (now : Z) (peerAddress : string) (a : Allocation) : bool :=
  match permissions a !! peerAddress with
  | None => false
  | Some p => now <? perm_expiresAt p
  end.

(** The loop of [findChannelByPeer]; [clk k] is the reading of the clock at the
    [k]-th channel. *)
Fixpoint find_channel (clk : nat → Z) (k : nat) (ep : Endpoint) (l : list (Z * ChannelBinding)) :
    option ChannelBinding :=
  match l with
  | [] => None
  | (_, ch) :: l =>
      if endpoint_eqb (peer ch) ep && (clk k <? ch_expiresAt ch) then Some ch
      else find_channel clk (S k) ep l
  end.

Definition findChannelByPeer `{!IterOrder Z ChannelBinding} (clk : nat → Z) (ep : Endpoint)
    (a : Allocation) : option ChannelBinding :=
  find_channel clk 0 ep (iter (channels a)).

Definition findChannelByNumber (now num : Z) (a : Allocation) : option ChannelBinding :=
  match channels a !! num with
  | None => None
  | Some ch => if ch_expiresAt ch <=? now then None else Some ch
  end.

(** ** Lemmas *)

Lemma endpoint_eqb_eq a b : endpoint_eqb a b = bool_decide (a = b).
Proof.
  destruct a as [aa ap], b as [ba bp]. unfold endpoint_eqb. cbn.
  destruct (Z.eqb_spec ap bp), (decide (aa = ba)) as [?|Hne];
    [rewrite !bool_decide_true by congruence; done|..];
    rewrite ?andb_false_r, ?(bool_decide_false (aa = ba)), ?bool_decide_false by congruence; done.
Qed.

(** Two endpoints with the same key are the same. *)
Lemma endpointKey_inj a b : endpointKey a = endpointKey b → a = b.
Proof.
  unfold endpointKey. intros E. change (":" +:+ ?s) with (String colon s) in E.
  apply str_split_last in E as [Ha Hp]; [|apply to_string_no_colon..].
  apply to_string_inj in Hp. destruct a, b. simpl in *. congruence.
Qed.

Lemma v4_to_string_inj `{BoostAddressSpec} ip1 ip2 :
  0 ≤ ip1 < 2 ^ 32 → 0 ≤ ip2 < 2 ^ 32 → v4_to_string ip1 = v4_to_string ip2 → ip1 = ip2.
Proof.
  intros H1 H2 E. apply make_address_v4_to_string in H1, H2. rewrite E in H1. congruence.
Qed.

Lemma find_channel_Some clk k ep l ch :
  find_channel clk k ep l = Some ch →
  peer ch = ep ∧ (∃ num, (num, ch) ∈ l) ∧
  ∃ i, (k ≤ i < k + length l)%nat ∧ clk i < ch_expiresAt ch.
Proof.
  revert k. induction l as [|[n c] l IH]; intros k; [done|]. cbn [find_channel].
  rewrite endpoint_eqb_eq. case_bool_decide as Hp; cbn [andb].
  - destruct (Z.ltb_spec (clk k) (ch_expiresAt c)).
    + intros [= <-]. split; [done|]. split; [exists n; constructor|].
      exists k. cbn [length]. split; [lia|done].
    + intros (?&(m&?)&i&?&?)%IH. split; [done|]. split; [exists m; by constructor|].
      exists i. cbn [length]. split; [lia|done].
  - intros (?&(m&?)&i&?&?)%IH. split; [done|]. split; [exists m; by constructor|].
    exists i. cbn [length]. split; [lia|done].
Qed.

Lemma find_channel_None clk k ep l :
  find_channel clk k ep l = None →
  ∀ num ch, (num, ch) ∈ l → peer ch = ep → ∃ i, (k ≤ i < k + length l)%nat ∧ ch_expiresAt ch ≤ clk i.
Proof.
  revert k. induction l as [|[n c] l IH]; intros k; [by intros _ ?? ?%not_elem_of_nil|].
  cbn [find_channel length]. case_match eqn:E; [done|].
  intros HN num ch [[= -> ->]|Hin]%elem_of_cons Hp.
  - rewrite endpoint_eqb_eq, bool_decide_true in E by done. cbn [andb] in E. brefl.
    exists k. split; [lia|done].
  - destruct (IH _ HN num ch Hin Hp) as (i&?&?). exists i. split; [lia|done].
Qed.
