(* ===== verification/Dotted.v ===== *)
(** * Dotted-quad addresses: an instance of [BoostAddress] to evaluate with

    [format] prints the four bytes separated by dots, [read] reads four
    numbers below 256; the laws of [BoostAddressSpec] hold of them. *)

From Stdlib Require Import Ascii.
From S2P Require Export Allocation.

Module dotted.
Definition dot : ascii := "."%char.

Definition format (ip : Z) : string :=
  to_string (byte_of ip 24) +:+ String dot (to_string (byte_of ip 16) +:+
    String dot (to_string (byte_of ip 8) +:+ String dot (to_string (byte_of ip 0)))).

(** A number below 256, and what follows the separator after it. *)
Definition read_byte (s : string) : option (Z * string) :=
  match strtol s with
  | Some n =>
      if (0 <=? n) && (n <? 256)
      then Some (n, match str_find dot s with Some i => str_drop (S i) s | None => "" end)
      else None
  | None => None
  end.

Definition read (s : string) : option Z :=
  '(a, s) ← read_byte s; '(b, s) ← read_byte s; '(c, s) ← read_byte s; '(d, _) ← read_byte s;
  Some (a * 2 ^ 24 + b * 2 ^ 16 + c * 2 ^ 8 + d).

Lemma to_string_no_dot n : 0 ≤ n → ¬ str_in dot (to_string n).
Proof.
  intros Hn. unfold to_string. destruct (Z.ltb_spec n 0); [lia|].
  intros [m [Hm Hc%(f_equal ascii_byte)]]%digits_in; [|lia].
  rewrite digit_ascii_val in Hc by lia.
  change (ascii_byte dot) with 46 in Hc. destruct (Z.ltb_spec m 10); lia.
Qed.

Lemma str_drop_S_app s1 c s2 : str_drop (S (String.length s1)) (s1 +:+ String c s2) = s2.
Proof. induction s1 as [|a s1 IH]; [done|]. simpl in *. destruct s1; done. Qed.

Lemma read_byte_dot n s : 0 ≤ n < 256 → read_byte (to_string n +:+ String dot s) = Some (n, s).
Proof.
  intros Hn. unfold read_byte. rewrite strtol_to_string by done.
  destruct (Z.leb_spec 0 n), (Z.ltb_spec n 256); try lia. cbn [andb].
  rewrite str_find_app by (apply to_string_no_dot; lia). by rewrite str_drop_S_app.
Qed.

Lemma read_byte_end n : 0 ≤ n < 256 → read_byte (to_string n) = Some (n, "").
Proof.
  intros Hn. unfold read_byte. rewrite <-(str_app_nil_r (to_string n)) at 1.
  rewrite strtol_to_string by done.
  destruct (Z.leb_spec 0 n), (Z.ltb_spec n 256); try lia. cbn [andb].
  by rewrite (proj2 (str_find_None dot (to_string n))) by (apply to_string_no_dot; lia).
Qed.

Lemma read_format ip : 0 ≤ ip < 2 ^ 32 → read (format ip) = Some ip.
Proof.
  intros Hip. assert (Hb : ∀ k, 0 ≤ k → 0 ≤ byte_of ip k < 256) by (intros; by apply byte_of_ok).
  unfold read, format. do 3 (rewrite read_byte_dot by (apply Hb; lia); cbn [mbind option_bind]).
  rewrite read_byte_end by (apply Hb; lia). cbn [mbind option_bind]. f_equal. rewrite !byte_of_val by lia. dlia.
Qed.

Lemma read_byte_bound s n s' : read_byte s = Some (n, s') → 0 ≤ n < 256.
Proof. unfold read_byte. intros. repeat case_match; simplify_eq; brefl; lia. Qed.

Lemma read_bound s ip : read s = Some ip → 0 ≤ ip < 2 ^ 32.
Proof.
  unfold read. destruct (read_byte s) as [[a s1]|] eqn:Ha; [|done]. cbn [mbind option_bind].
  destruct (read_byte s1) as [[b s2]|] eqn:Hb; [|done]. cbn [mbind option_bind].
  destruct (read_byte s2) as [[c s3]|] eqn:Hc; [|done]. cbn [mbind option_bind].
  destruct (read_byte s3) as [[d s4]|] eqn:Hd; [|done]. intros [= <-].
  apply read_byte_bound in Ha, Hb, Hc, Hd. lia.
Qed.
End dotted.

#[local] Instance DottedAddress : BoostAddress :=
  {| make_address_v4 := dotted.read; v4_to_string := dotted.format |}.

#[local] Instance DottedAddressSpec : BoostAddressSpec.
Proof. split; [apply dotted.read_format|apply dotted.read_bound]. Defined.

Example dotted_ex : v4_to_string 0x0A000001 = "10.0.0.1" ∧
  make_address_v4 "192.168.1.20" = Some 0xC0A80114 ∧ make_address_v4 "localhost" = None ∧
  isDeniedAddress "10.0.0.1" = true ∧ isDeniedAddress "192.168.1.20" = false.
Proof. by vm_compute. Qed.
