(* ===== verification/AllocationManager.v ===== *)
(** * The allocation manager (src/turn_server/src/allocation/allocation_manager.cpp)

    The tables [by_client_] and [by_relay_] hold shared pointers to the same
    objects: the model has a heap of allocations and tables of pointers into
    it, and following a pointer to no object is undefined.  Every handler is a
    computation on the manager whose events are the calls of the two send
    callbacks.

    The clock is read where the code reads it: one argument per reading, or
    [clk k] for the [k]-th round of a loop.  [dist hi k] is the [k]-th draw of
    the uniform distribution on [0..hi]. *)

From S2P Require Export Allocation.

Abbreviation ptr := nat.

Record AllocationManager := mkAllocationManager {
  relay_address_ : string;
  relay_port_min_ : Z;
  relay_port_max_ : Z;
  max_alloc_per_user_ : Z;
  next_id_ : Z;
  by_client_ : gmap string ptr;
  by_relay_ : gmap string ptr;
  used_ports_ : gmap Z bool;
  client_send_ : bool;                 (* the callbacks are set *)
  peer_send_ : bool;
  heap : gmap ptr Allocation;
  heap_next : ptr;                     (* every object lies below *)
}.

Inductive Sent :=
  | ToClient (data : bytes) (to : Endpoint)
  | ToPeer (data : bytes) (to : Endpoint).

Definition newAllocationManager (relay_address : string) (port_min port_max max_per_user : Z) :
    AllocationManager :=
  mkAllocationManager relay_address port_min port_max max_per_user 1 ∅ ∅ ∅ false false ∅ 0%nat.

Definition setClientSendCallback (am : AllocationManager) : AllocationManager :=
  mkAllocationManager (relay_address_ am) (relay_port_min_ am) (relay_port_max_ am)
    (max_alloc_per_user_ am) (next_id_ am) (by_client_ am) (by_relay_ am) (used_ports_ am)
    true (peer_send_ am) (heap am) (heap_next am).
Definition setPeerSendCallback (am : AllocationManager) : AllocationManager :=
  mkAllocationManager (relay_address_ am) (relay_port_min_ am) (relay_port_max_ am)
    (max_alloc_per_user_ am) (next_id_ am) (by_client_ am) (by_relay_ am) (used_ports_ am)
    (client_send_ am) true (heap am) (heap_next am).

Definition with_tables (bc br : gmap string ptr) (up : gmap Z bool) (am : AllocationManager) :
    AllocationManager :=
  mkAllocationManager (relay_address_ am) (relay_port_min_ am) (relay_port_max_ am)
    (max_alloc_per_user_ am) (next_id_ am) bc br up
    (client_send_ am) (peer_send_ am) (heap am) (heap_next am).
Definition with_heap (next : Z) (h : gmap ptr Allocation) (n : ptr) (am : AllocationManager) :
    AllocationManager :=
  mkAllocationManager (relay_address_ am) (relay_port_min_ am) (relay_port_max_ am)
    (max_alloc_per_user_ am) next (by_client_ am) (by_relay_ am) (used_ports_ am)
    (client_send_ am) (peer_send_ am) h n.

Section AllocationManager.
Context `{BoostAddress} `{!IterOrder string ptr} `{!IterOrder Z ChannelBinding}.

Abbreviation M := (eff AllocationManager Sent).

(** ** Pointers *)

(** [*p], and [*p = a] for an object in place. *)
Definition deref (p : ptr) : M Allocation :=
  am ← get; match heap am !! p with Some a => mret a | None => lift (Err Undefined) end.
Definition store (p : ptr) (a : Allocation) : M () :=
  am ← get; put (with_heap (next_id_ am) (<[p := a]> (heap am)) (heap_next am) am).

(** [make_shared], which takes the next id with it ([next_id_++]). *)
Definition make_shared (mk : Z → Allocation) : M ptr :=
  am ← get;
  let p := heap_next am in
  put (with_heap (u64 (next_id_ am + 1)) (<[p := mk (next_id_ am)]> (heap am)) (S p) am);;
  mret p.

(** ** Ports *)

Definition set_used (up : gmap Z bool) : M () :=
  am ← get; put (with_tables (by_client_ am) (by_relay_ am) up am).

(** The loop: [used_ports_[port]] enters [false] for a port it does not hold. *)
Fixpoint allocatePort_loop (attempts k : nat) (dist : nat → Z) : M (option Z) :=
  match attempts with
  | O => mret None
  | S attempts =>
      am ← get;
      let port := u16 (relay_port_min_ am + dist k) in
      let used := default false (used_ports_ am !! port) in
      set_used (<[port := used]> (used_ports_ am));;
      if negb used then
        am ← get; set_used (<[port := true]> (used_ports_ am));; mret (Some port)
      else allocatePort_loop attempts (S k) dist
  end.

Definition allocatePort (dist : Z → nat → Z) : M (option Z) :=
  am ← get;
  let range := u16 (relay_port_max_ am - relay_port_min_ am + 1) in
  allocatePort_loop 1000 0 (dist (u16 (range - 1))).

Definition releasePort (port : Z) : M () :=
  am ← get; set_used (delete port (used_ports_ am)).

Definition requestedLifetime (msg : TurnMessage) : result Z :=
  match findAttr msg AttrType.Lifetime with
  | None => mret kDefaultLifetime
  | Some lt =>
      if (length (attr_value lt) <? 4)%nat then mret kDefaultLifetime else
      v0 ← rd (attr_value lt) 0; v1 ← rd (attr_value lt) 1;
      v2 ← rd (attr_value lt) 2; v3 ← rd (attr_value lt) 3;
      let requested := be32 v0 v1 v2 v3 in
      if requested =? 0 then mret 0 else mret (Z.min requested kMaxLifetime)
  end.

(** ** Lookups *)

Definition findByClient (am : AllocationManager) (client : Endpoint) : option ptr :=
  by_client_ am !! endpointKey client.
Definition findByRelay (am : AllocationManager) (relay : Endpoint) : option ptr :=
  by_relay_ am !! endpointKey relay.

(** ** Allocate *)

Fixpoint count_user (user : string) (l : list (string * ptr)) (user_count : Z) : M Z :=
  match l with
  | [] => mret user_count
  | (_, p) :: l =>
      a ← deref p;
      count_user user l (if bool_decide (username a = user) then u32 (user_count + 1) else user_count)
  end.

Definition address_or_zero (addr : string) : Z := default 0 (make_address_v4 addr).

Definition handleAllocate (dist : Z → nat → Z) (now : Z) (msg : TurnMessage) (client : Endpoint)
    (user rlm : string) : M bytes :=
  let tid := transaction_id msg in
  am ← get;
  if bool_decide (is_Some (by_client_ am !! endpointKey client))
  then mret (make_error tid 437 "Allocation Mismatch") else
  let rt := findAttr msg AttrType.RequestedTransport in
  bad ← match rt with
    | None => mret true
    | Some a =>
        if (length (attr_value a) <? 4)%nat then mret true else
        v0 ← lift (rd (attr_value a) 0); mret (negb (v0 =? 17))
    end;
  if (bad : bool) then
    mret (if bool_decide (is_Some rt)
          then make_error tid 442 "Unsupported Transport Protocol"
          else make_error tid 400 "Bad Request") else
  user_count ← count_user user (iter (by_client_ am)) 0;
  if max_alloc_per_user_ am <=? user_count
  then mret (make_error tid 486 "Allocation Quota Reached") else
  port_opt ← allocatePort dist;
  match port_opt with
  | None => mret (make_error tid 508 "Insufficient Capacity")
  | Some relay_port =>
      lifetime ← lift (requestedLifetime msg);
      let lifetime := if lifetime =? 0 then kDefaultLifetime else lifetime in
      let relayed := mkEndpoint (relay_address_ am) relay_port in
      p ← make_shared (λ n,
        mkAllocation n client relayed user rlm (now + seconds lifetime) ∅ ∅);
      am ← get;
      put (with_tables (<[endpointKey client := p]> (by_client_ am))
             (<[endpointKey relayed := p]> (by_relay_ am)) (used_ports_ am) am);;
      mret (newBuilder Method.Allocate MessageClass.SuccessResponse tid
              |> addXorRelayedAddress (address_or_zero (relay_address_ am)) relay_port
              |> addXorMappedAddress (address_or_zero (ep_address client)) (ep_port client)
              |> addLifetime lifetime |> build)
  end.

(** ** Refresh *)

Definition handleRefresh (now : Z) (msg : TurnMessage) (client : Endpoint) (user : string) : M bytes :=
  let tid := transaction_id msg in
  am ← get;
  match by_client_ am !! endpointKey client with
  | None => mret (make_error tid 437 "Allocation Mismatch")
  | Some p =>
      alloc ← deref p;
      if negb (bool_decide (username alloc = user))
      then mret (make_error tid 441 "Wrong Credentials") else
      lifetime ← lift (requestedLifetime msg);
      if lifetime =? 0 then
        am ← get;
        put (with_tables (by_client_ am)
               (delete (endpointKey (relayedAddr alloc)) (by_relay_ am)) (used_ports_ am) am);;
        releasePort (ep_port (relayedAddr alloc));;
        am ← get;
        put (with_tables (delete (endpointKey client) (by_client_ am)) (by_relay_ am)
               (used_ports_ am) am);;
        mret (newBuilder Method.Refresh MessageClass.SuccessResponse tid |> addLifetime 0 |> build)
      else
        store p (set_expiresAt (now + seconds lifetime) alloc);;
        mret (newBuilder Method.Refresh MessageClass.SuccessResponse tid
                |> addLifetime lifetime |> build)
  end.

(** ** Permissions *)

(** The address and the port of a peer attribute, still XORed. *)
Definition read_xaddr (value : bytes) : result Z :=
  v4 ← rd value 4; v5 ← rd value 5; v6 ← rd value 6; v7 ← rd value 7;
  mret (be32 v4 v5 v6 v7).
Definition read_xport (value : bytes) : result Z :=
  v2 ← rd value 2; v3 ← rd value 3; mret (be16 v2 v3).

(** The loop over the attributes; [None] when it ends, [Some e] when it returns
    the error [e]. *)
Fixpoint createPermission_loop (clk : nat → Z) (k : nat) (tid : bytes) (p : ptr)
    (attrs : list Attribute) (found_peer : bool) : M (bool * option bytes) :=
  match attrs with
  | [] => mret (found_peer, None)
  | attr :: attrs =>
      if negb (bool_decide (attr_type attr = AttrType.XorPeerAddress))
      then createPermission_loop clk (S k) tid p attrs found_peer else
      if (length (attr_value attr) <? 8)%nat
      then createPermission_loop clk (S k) tid p attrs found_peer else
      _ ← lift (read_xport (attr_value attr));
      xaddr ← lift (read_xaddr (attr_value attr));
      let ip := xaddr .^ kMagicCookie in
      let peer_address := v4_to_string ip in
      if isDeniedAddress peer_address
      then mret (found_peer, Some (make_error tid 403 "Forbidden")) else
      let perm := mkPermission peer_address (clk k + seconds kPermissionTTL) in
      alloc ← deref p;
      store p (set_permission peer_address perm alloc);;
      createPermission_loop clk (S k) tid p attrs true
  end.

Definition handleCreatePermission (clk : nat → Z) (msg : TurnMessage) (client : Endpoint) : M bytes :=
  let tid := transaction_id msg in
  am ← get;
  match by_client_ am !! endpointKey client with
  | None => mret (make_error tid 437 "Allocation Mismatch")
  | Some p =>
      out ← createPermission_loop clk 0 tid p (attributes msg) false;
      match out with
      | (_, Some err) => mret err
      | (found_peer, None) =>
          if negb found_peer then mret (make_error tid 400 "Bad Request") else
          mret (newBuilder Method.CreatePermission MessageClass.SuccessResponse tid |> build)
      end
  end.

(** ** Channels *)

(** The peer endpoint of an attribute of at least eight bytes. *)
Definition read_peer (value : bytes) : result Endpoint :=
  xaddr ← read_xaddr value; xport ← read_xport value;
  let ip := xaddr .^ kMagicCookie in
  let port := xport .^ u16 (kMagicCookie .>> 16) in
  mret (mkEndpoint (v4_to_string ip) port).

(** The search for another channel bound to this peer. *)
Definition bound_elsewhere (num : Z) (ep : Endpoint) (l : list (Z * ChannelBinding)) : bool :=
  existsb (λ '(n, ch), negb (n =? num) && endpoint_eqb (peer ch) ep) l.

Definition handleChannelBind (now1 now2 : Z) (msg : TurnMessage) (client : Endpoint) : M bytes :=
  let tid := transaction_id msg in
  let bad := make_error tid 400 "Bad Request" in
  am ← get;
  match by_client_ am !! endpointKey client with
  | None => mret (make_error tid 437 "Allocation Mismatch")
  | Some p =>
      match findAttr msg AttrType.ChannelNumber, findAttr msg AttrType.XorPeerAddress with
      | Some ch_attr, Some peer_attr =>
          if (length (attr_value ch_attr) <? 2)%nat || (length (attr_value peer_attr) <? 8)%nat
          then mret bad else
          c0 ← lift (rd (attr_value ch_attr) 0); c1 ← lift (rd (attr_value ch_attr) 1);
          let channel_num := be16 c0 c1 in
          if (channel_num <? 0x4000) || (0x4FFF <? channel_num) then mret bad else
          peer_ep ← lift (read_peer (attr_value peer_attr));
          if isDeniedAddress (ep_address peer_ep) then mret (make_error tid 403 "Forbidden") else
          alloc ← deref p;
          let existing_bad := match channels alloc !! channel_num with
            | Some b => negb (endpoint_eqb (peer b) peer_ep) | None => false end in
          if (existing_bad : bool) then mret bad else
          if bound_elsewhere channel_num peer_ep (iter (channels alloc)) then mret bad else
          let binding := mkChannelBinding channel_num peer_ep (now1 + seconds kChannelTTL) in
          store p (set_channel channel_num binding alloc);;
          let perm := mkPermission (ep_address peer_ep) (now2 + seconds kPermissionTTL) in
          alloc ← deref p;
          store p (set_permission (ep_address peer_ep) perm alloc);;
          mret (newBuilder Method.ChannelBind MessageClass.SuccessResponse tid |> build)
      | _, _ => mret bad
      end
  end.

(** ** Data *)

Definition call_client_send (data : bytes) (to : Endpoint) : M () :=
  am ← get; if client_send_ am then emit (ToClient data to) else mret ().
Definition call_peer_send (data : bytes) (to : Endpoint) : M () :=
  am ← get; if peer_send_ am then emit (ToPeer data to) else mret ().

Definition zero_tid : bytes := replicate 12 0.

Definition handleSend (now : Z) (msg : TurnMessage) (client : Endpoint) : M () :=
  am ← get;
  match by_client_ am !! endpointKey client with
  | None => mret ()
  | Some p =>
      alloc ← deref p;
      match findAttr msg AttrType.XorPeerAddress with
      | None => mret ()
      | Some peer_attr =>
          if (length (attr_value peer_attr) <? 8)%nat then mret () else
          peer_ep ← lift (read_peer (attr_value peer_attr));
          if negb (hasPermission now (ep_address peer_ep) alloc) then mret () else
          match findAttr msg AttrType.Data with
          | None => mret ()
          | Some data_attr =>
              match by_relay_ am !! endpointKey peer_ep with
              | Some q =>
                  peer_alloc ← deref q;
                  let sender_ip := address_or_zero (ep_address (relayedAddr alloc)) in
                  let indication := make_data_indication zero_tid sender_ip
                    (ep_port (relayedAddr alloc)) (attr_value data_attr) in
                  call_client_send indication (clientAddr peer_alloc)
              | None => call_peer_send (attr_value data_attr) peer_ep
              end
          end
      end
  end.

Definition handlePeerData (now : Z) (clk : nat → Z) (data : bytes) (peer_ep relay_addr : Endpoint) :
    M () :=
  am ← get;
  match by_relay_ am !! endpointKey relay_addr with
  | None => mret ()
  | Some p =>
      alloc ← deref p;
      if negb (hasPermission now (ep_address peer_ep) alloc) then mret () else
      if negb (client_send_ am) then mret () else
      match findChannelByPeer clk peer_ep alloc with
      | Some ch =>
          call_client_send (make_channel_data (channelNumber ch) data) (clientAddr alloc)
      | None =>
          let peer_ip := address_or_zero (ep_address peer_ep) in
          call_client_send (make_data_indication zero_tid peer_ip (ep_port peer_ep) data)
            (clientAddr alloc)
      end
  end.
End AllocationManager.
