(* ===== verification/AllocationFacts.v ===== *)
(** * The invariant of the allocation manager, and its lemmas

    The two tables agree and point to live objects, a port is in use exactly
    when an allocation is relayed on it, nobody has more allocations than the
    quota, and no allocation holds a permission or a channel for an address
    that is filtered.  Each change the handlers make to the manager keeps it. *)

From S2P Require Export AllocationManager.

Section inv.
Context `{BoostAddress} `{!IterOrder string ptr} `{!IterOrder Z ChannelBinding}.

Abbreviation M := (eff AllocationManager Sent).

(** ** The invariant *)

Record alloc_inv (a : Allocation) : Prop := {
  inv_permission addr p : permissions a !! addr = Some p →
    perm_address p = addr ∧ isDeniedAddress addr = false;
  inv_channel n c : channels a !! n = Some c →
    channelNumber c = n ∧ 0x4000 ≤ n ≤ 0x4FFF ∧ isDeniedAddress (ep_address (peer c)) = false;
  inv_channel_peer n1 n2 c1 c2 :
    channels a !! n1 = Some c1 → channels a !! n2 = Some c2 → peer c1 = peer c2 → n1 = n2;
}.

(** A port of the configured range, which may wrap around 65535. *)
Definition port_in_range (am : AllocationManager) (port : Z) : Prop :=
  0 ≤ port < 65536 ∧
  u16 (port - relay_port_min_ am) ≤ u16 (relay_port_max_ am - relay_port_min_ am).

(** The entry belongs to an allocation of the user. *)
Definition owned_by (am : AllocationManager) (user : string) (kp : string * ptr) : Prop :=
  ∃ a, heap am !! kp.2 = Some a ∧ username a = user.

#[export] Instance owned_by_dec am user kp : Decision (owned_by am user kp).
Proof.
  unfold owned_by. destruct (heap am !! kp.2) as [a|].
  - destruct (decide (username a = user)); [left; eauto|right; intros (?&[= <-]&?); done].
  - right; by intros (?&?&_).
Defined.

Definition user_allocs (am : AllocationManager) (user : string) : nat :=
  size (filter (owned_by am user) (by_client_ am)).

Record am_inv (am : AllocationManager) : Prop := {
  inv_heap p : is_Some (heap am !! p) → (p < heap_next am)%nat;
  inv_client k p : by_client_ am !! k = Some p → ∃ a, heap am !! p = Some a ∧
    k = endpointKey (clientAddr a) ∧ by_relay_ am !! endpointKey (relayedAddr a) = Some p;
  inv_relay k p : by_relay_ am !! k = Some p → ∃ a, heap am !! p = Some a ∧
    k = endpointKey (relayedAddr a) ∧ by_client_ am !! endpointKey (clientAddr a) = Some p ∧
    ep_address (relayedAddr a) = relay_address_ am ∧
    port_in_range am (ep_port (relayedAddr a)) ∧
    used_ports_ am !! ep_port (relayedAddr a) = Some true;
  inv_used port b : used_ports_ am !! port = Some b →
    b = true ∧ is_Some (by_relay_ am !! endpointKey (mkEndpoint (relay_address_ am) port));
  inv_quota user : Z.of_nat (user_allocs am user) ≤ max_alloc_per_user_ am;
  inv_quota_u32 : 0 ≤ max_alloc_per_user_ am < 2 ^ 32;
  inv_alloc p a : heap am !! p = Some a → alloc_inv a;
}.

(** The configuration, which no handler changes. *)
Definition same_config (am am' : AllocationManager) : Prop :=
  relay_address_ am' = relay_address_ am ∧ relay_port_min_ am' = relay_port_min_ am ∧
  relay_port_max_ am' = relay_port_max_ am ∧ max_alloc_per_user_ am' = max_alloc_per_user_ am ∧
  client_send_ am' = client_send_ am ∧ peer_send_ am' = peer_send_ am.

(** The allocation of a client. *)
Definition alloc_of (am : AllocationManager) (client : Endpoint) : option Allocation :=
  p ← findByClient am client; heap am !! p.

(** ** Steps of the handlers *)

Lemma wp_deref p a (Q : Allocation → AllocationManager → list Sent → Prop) am :
  heap am !! p = Some a → Q a am [] → wp (deref p) Q am.
Proof. intros Ha HQ. unfold wp, deref, mbind, eff_bind, get. by rewrite Ha. Qed.

Lemma wp_store p a (Q : () → AllocationManager → list Sent → Prop) am :
  Q () (with_heap (next_id_ am) (<[p := a]> (heap am)) (heap_next am) am) [] →
  wp (store p a) Q am.
Proof. done. Qed.

Lemma with_tables_id am : with_tables (by_client_ am) (by_relay_ am) (used_ports_ am) am = am.
Proof. by destruct am. Qed.

(** ** The changes *)

Lemma inv_new addr pmin pmax q : 0 ≤ q < 2 ^ 32 → am_inv (newAllocationManager addr pmin pmax q).
Proof.
  intros Hq. split; cbn.
  - intros p [a Ha]. by rewrite lookup_empty in Ha.
  - intros k p. by rewrite lookup_empty.
  - intros k p. by rewrite lookup_empty.
  - intros k p. by rewrite lookup_empty.
  - intros user. unfold user_allocs. cbn. rewrite map_filter_empty, map_size_empty. lia.
  - done.
  - intros p a. by rewrite lookup_empty.
Qed.

(** Changing an object in place, but not its addresses and owner. *)
Lemma inv_store am p a a' :
  am_inv am → heap am !! p = Some a →
  clientAddr a' = clientAddr a → relayedAddr a' = relayedAddr a → username a' = username a →
  alloc_inv a' → am_inv (with_heap (next_id_ am) (<[p := a']> (heap am)) (heap_next am) am).
Proof.
  intros I Ha Hc Hr Hu Hi.
  assert (Hl : ∀ q b, heap am !! q = Some b → ∃ b', <[p := a']> (heap am) !! q = Some b' ∧
    clientAddr b' = clientAddr b ∧ relayedAddr b' = relayedAddr b ∧ username b' = username b).
  { intros q b Hb. destruct (decide (p = q)) as [->|].
    - exists a'. rewrite lookup_insert_eq. by simplify_eq.
    - exists b. by rewrite lookup_insert_ne. }
  split; cbn.
  - intros q. rewrite lookup_insert_is_Some. intros [->|[_ ?]]; apply (inv_heap _ I); eauto.
  - intros k q Hk. destruct (inv_client _ I k q Hk) as (b&Hb&->&?).
    destruct (Hl q b Hb) as (b'&?&E1&E2&_). exists b'. by rewrite E1, E2.
  - intros k q Hk. destruct (inv_relay _ I k q Hk) as (b&Hb&->&?&?&?&?).
    destruct (Hl q b Hb) as (b'&?&E1&E2&_). exists b'. by rewrite E1, E2.
  - apply (inv_used _ I).
  - intros user. etransitivity; [|apply (inv_quota _ I user)].
    unfold user_allocs. cbn. apply Nat2Z.inj_le, map_subseteq_size.
    apply map_filter_strong_subseteq_ext.
    intros k q. unfold owned_by. cbn. intros [(b&Hb&<-) Hk]. split; [|done].
    destruct (decide (p = q)) as [->|].
    + rewrite lookup_insert_eq in Hb. simplify_eq. eauto.
    + rewrite lookup_insert_ne in Hb by done. eauto.
  - apply (inv_quota_u32 _ I).
  - intros q b. destruct (decide (p = q)) as [->|].
    + rewrite lookup_insert_eq. by intros [= <-].
    + rewrite lookup_insert_ne by done. apply (inv_alloc _ I).
Qed.

(** Removing the allocation of a client with its port. *)
Lemma inv_remove am client p a :
  am_inv am → by_client_ am !! endpointKey client = Some p → heap am !! p = Some a →
  am_inv (with_tables (delete (endpointKey client) (by_client_ am))
            (delete (endpointKey (relayedAddr a)) (by_relay_ am))
            (delete (ep_port (relayedAddr a)) (used_ports_ am)) am).
Proof.
  intros I Hp Ha. destruct (inv_client _ I _ _ Hp) as (a'&?&Ec%endpointKey_inj&Hr). simplify_eq.
  destruct (inv_relay _ I _ _ Hr) as (a'&?&_&_&Haddr&_&Hu). simplify_eq.
  split; cbn.
  - apply (inv_heap _ I).
  - intros k q. rewrite lookup_delete_Some. intros [Hne Hk].
    destruct (inv_client _ I k q Hk) as (b&Hb&->&Hrb). exists b. split_and!; [done..|].
    rewrite lookup_delete_ne; [done|]. intros E%endpointKey_inj. rewrite <-E in Hrb. simplify_eq.
  - intros k q. rewrite lookup_delete_Some. intros [Hne Hk].
    destruct (inv_relay _ I k q Hk) as (b&Hb&->&Hcb&Hab&Hrange&Hub). exists b.
    split_and!; [done|done| |done|done|].
    + rewrite lookup_delete_ne; [done|]. intros E%endpointKey_inj. rewrite <-E in Hcb. simplify_eq.
    + rewrite lookup_delete_ne; [done|]. intros E. apply Hne. f_equal.
      destruct (relayedAddr a), (relayedAddr b). cbn in *. congruence.
  - intros port b. rewrite lookup_delete_Some. intros [Hne Hk].
    destruct (inv_used _ I _ _ Hk) as [-> [q Hq]]. split; [done|]. exists q.
    rewrite lookup_delete_ne; [done|]. intros E%endpointKey_inj. apply Hne. by rewrite E.
  - intros user. etransitivity; [|apply (inv_quota _ I user)].
    unfold user_allocs. cbn. apply Nat2Z.inj_le, map_subseteq_size, map_filter_strong_subseteq_ext.
    intros k q. rewrite lookup_delete_Some. naive_solver.
  - apply (inv_quota_u32 _ I).
  - apply (inv_alloc _ I).
Qed.

(** A new allocation, on a port that is not in use. *)
Definition added (am : AllocationManager) (n : Z) (a : Allocation) : AllocationManager :=
  with_tables (<[endpointKey (clientAddr a) := heap_next am]> (by_client_ am))
    (<[endpointKey (relayedAddr a) := heap_next am]> (by_relay_ am))
    (<[ep_port (relayedAddr a) := true]> (used_ports_ am))
    (with_heap n (<[heap_next am := a]> (heap am)) (S (heap_next am)) am).

Lemma heap_fresh am : am_inv am → heap am !! heap_next am = None.
Proof.
  intros I. destruct (heap am !! heap_next am) eqn:E; [|done].
  pose proof (inv_heap _ I (heap_next am) ltac:(eauto)). lia.
Qed.

Lemma unused_relay am a :
  am_inv am → used_ports_ am !! ep_port (relayedAddr a) = None →
  by_relay_ am !! endpointKey (relayedAddr a) = None.
Proof.
  intros I Hu. destruct (by_relay_ am !! _) eqn:E; [|done].
  destruct (inv_relay _ I _ _ E) as (b&_&Ek%endpointKey_inj&_&_&_&?). congruence.
Qed.

Lemma user_allocs_added am n a user : am_inv am →
  by_client_ am !! endpointKey (clientAddr a) = None →
  user_allocs (added am n a) user =
    if decide (username a = user) then S (user_allocs am user) else user_allocs am user.
Proof.
  intros I Hc. unfold user_allocs, added. cbn [by_client_ with_tables with_heap].
  set (am' := with_tables _ _ _ _).
  assert (Ho : filter (owned_by am' user) (by_client_ am) = filter (owned_by am user) (by_client_ am)).
  { apply map_filter_ext. intros k q Hq. unfold owned_by. cbn.
    destruct (inv_client _ I _ _ Hq) as (b&Hb&_).
    rewrite lookup_insert_ne; [done|]. intros <-. by rewrite heap_fresh in Hb. }
  rewrite map_filter_insert. assert (Hown : owned_by am' user (endpointKey (clientAddr a), heap_next am)
    ↔ username a = user).
  { unfold owned_by, am'. cbn. rewrite lookup_insert_eq. naive_solver. }
  destruct (decide (owned_by _ _ _)), (decide (username a = user)); try tauto.
  - rewrite map_size_insert_None, Ho; [done|]. apply map_lookup_filter_None. by left.
  - by rewrite delete_id, Ho.
Qed.

Lemma inv_add am n a :
  am_inv am → by_client_ am !! endpointKey (clientAddr a) = None →
  used_ports_ am !! ep_port (relayedAddr a) = None →
  ep_address (relayedAddr a) = relay_address_ am →
  port_in_range am (ep_port (relayedAddr a)) →
  Z.of_nat (user_allocs am (username a)) < max_alloc_per_user_ am →
  alloc_inv a → am_inv (added am n a).
Proof.
  intros I Hc Hu Haddr Hport Hq Ha.
  pose proof (heap_fresh am I) as Hf. pose proof (unused_relay am a I Hu) as Hr.
  assert (Hold : ∀ q b, heap am !! q = Some b → <[heap_next am := a]> (heap am) !! q = Some b).
  { intros q b Hb. rewrite lookup_insert_ne; [done|]. intros <-. by rewrite Hf in Hb. }
  split; cbn.
  - intros q. rewrite lookup_insert_is_Some. intros [<-|[_ Hq']]; [lia|].
    apply (inv_heap _ I) in Hq'. lia.
  - intros k q. rewrite lookup_insert_Some. intros [[<- <-]|[Hne Hk]].
    { exists a. by rewrite !lookup_insert_eq. }
    destruct (inv_client _ I k q Hk) as (b&Hb&->&Hrb). exists b. split_and!; [auto|done|].
    rewrite lookup_insert_ne; [done|]. intros E. by rewrite E, Hrb in Hr.
  - intros k q. rewrite lookup_insert_Some. intros [[<- <-]|[Hne Hk]].
    { exists a. by rewrite !lookup_insert_eq. }
    destruct (inv_relay _ I k q Hk) as (b&Hb&->&Hcb&Hab&Hrange&Hub). exists b.
    split_and!; [auto|done| |done|apply Hrange..|].
    + rewrite lookup_insert_ne; [done|]. intros E. by rewrite E, Hcb in Hc.
    + rewrite lookup_insert_ne; [done|]. intros E. by rewrite E, Hub in Hu.
  - intros port b. rewrite lookup_insert_Some. intros [[<- <-]|[Hne Hk]].
    { split; [done|]. exists (heap_next am). rewrite <-Haddr.
      destruct (relayedAddr a). by rewrite lookup_insert_eq. }
    destruct (inv_used _ I _ _ Hk) as [-> Hs]. split; [done|].
    rewrite lookup_insert_is_Some. destruct (decide (endpointKey (relayedAddr a) =
      endpointKey (mkEndpoint (relay_address_ am) port))); auto.
  - intros user. rewrite user_allocs_added by done. cbn. case_decide; subst; [lia|].
    apply (inv_quota _ I).
  - apply (inv_quota_u32 _ I).
  - intros q b. rewrite lookup_insert_Some. intros [[<- <-]|[_ ?]]; [done|]. by apply (inv_alloc _ I q).
Qed.
End inv.
