(* ===== verification/AllocationHandlers.v ===== *)
(** * What the handlers of the allocation manager do

    Ports, lifetimes and peer addresses as plain functions, and the total
    correctness ([wp]) of each handler from a state that satisfies the
    invariant: which reply, which change, which data sent. *)

From S2P Require Export AllocationFacts.

(** ** Specifications *)

(** The lifetime a message asks for, capped. *)
Definition lifetime_of (msg : TurnMessage) : Z :=
  match findAttr msg AttrType.Lifetime with
  | Some (mkAttribute _ (v0 :: v1 :: v2 :: v3 :: _)) => Z.min (be32 v0 v1 v2 v3) kMaxLifetime
  | _ => kDefaultLifetime
  end.

(** An allocation never gets a zero lifetime. *)
Definition granted_lifetime (msg : TurnMessage) : Z :=
  if lifetime_of msg =? 0 then kDefaultLifetime else lifetime_of msg.

(** A request for a relay over UDP. *)
Definition wants_udp (a : Attribute) : bool :=
  match attr_value a with v0 :: _ :: _ :: _ :: _ => v0 =? 17 | _ => false end.

(** The endpoint in an XOR peer address. *)
Definition peer_of `{BoostAddress} (value : bytes) : option Endpoint :=
  match value with
  | _ :: _ :: p0 :: p1 :: a0 :: a1 :: a2 :: a3 :: _ =>
      Some (mkEndpoint (v4_to_string (xor_addr_v4 (be32 a0 a1 a2 a3))) (xor_port (be16 p0 p1)))
  | _ => None
  end.

Definition success_reply (m : Method) (tid : bytes) : bytes :=
  build (newBuilder m MessageClass.SuccessResponse tid).
Definition lifetime_reply (m : Method) (tid : bytes) (lifetime : Z) : bytes :=
  build (addLifetime lifetime (newBuilder m MessageClass.SuccessResponse tid)).
Definition allocate_reply `{BoostAddress} (tid : bytes) (relayed client : Endpoint) (lifetime : Z) : bytes :=
  newBuilder Method.Allocate MessageClass.SuccessResponse tid
    |> addXorRelayedAddress (address_or_zero (ep_address relayed)) (ep_port relayed)
    |> addXorMappedAddress (address_or_zero (ep_address client)) (ep_port client)
    |> addLifetime lifetime |> build.

(** ** Reading attributes *)

Lemma requestedLifetime_Ok msg : requestedLifetime msg = Ok (lifetime_of msg).
Proof.
  unfold requestedLifetime, lifetime_of.
  destruct (findAttr msg AttrType.Lifetime) as [[t v]|]; [|done]. cbn [attr_value].
  destruct v as [|v0 [|v1 [|v2 [|v3 v]]]]; [done..|]. cbn [length Nat.ltb Nat.leb rd lookup list_lookup].
  change (rd (v0 :: v1 :: v2 :: v3 :: v) 0) with (Ok v0).
  change (rd (v0 :: v1 :: v2 :: v3 :: v) 1) with (Ok v1).
  change (rd (v0 :: v1 :: v2 :: v3 :: v) 2) with (Ok v2).
  change (rd (v0 :: v1 :: v2 :: v3 :: v) 3) with (Ok v3). rsimpl.
  destruct (Z.eqb_spec (be32 v0 v1 v2 v3) 0) as [->|]; done.
Qed.

Lemma lifetime_of_bound msg : Forall attr_ok (attributes msg) → 0 ≤ lifetime_of msg ≤ kMaxLifetime.
Proof.
  intros Hok. unfold lifetime_of. destruct (findAttr msg AttrType.Lifetime) as [[t v]|] eqn:E; [|done].
  apply find_some in E as [Hin _].
  rewrite Forall_forall in Hok. apply list_elem_of_In, Hok in Hin as (_&_&_&Hb). cbn [attr_value] in Hb.
  destruct v as [|v0 [|v1 [|v2 [|v3 v]]]]; [done..|]. unfold bytes_ok in Hb.
  rewrite !Forall_cons in Hb. destruct Hb as (?&?&?&?&_).
  pose proof (be32_bound v0 v1 v2 v3 ltac:(done) ltac:(done) ltac:(done) ltac:(done)). unfold kMaxLifetime. lia.
Qed.

Section peer.
Context `{BoostAddress}.

Lemma read_peer_Ok value :
  (length value <? 8)%nat = false → ∃ ep, read_peer value = Ok ep ∧ peer_of value = Some ep.
Proof.
  intros Hl. destruct value as [|x0 [|x1 [|p0 [|p1 [|a0 [|a1 [|a2 [|a3 v]]]]]]]]; try done.
  eexists. split; [|done]. reflexivity.
Qed.

Lemma read_xaddr_Ok value :
  (length value <? 8)%nat = false →
  ∃ xport xaddr ep, read_xport value = Ok xport ∧ read_xaddr value = Ok xaddr ∧
    peer_of value = Some ep ∧ v4_to_string (xaddr .^ kMagicCookie) = ep_address ep.
Proof.
  intros Hl. destruct value as [|x0 [|x1 [|p0 [|p1 [|a0 [|a1 [|a2 [|a3 v]]]]]]]]; try done.
  do 3 eexists. split_and!; reflexivity.
Qed.

Lemma peer_of_short value : (length value <? 8)%nat = true → peer_of value = None.
Proof. by destruct value as [|x0 [|x1 [|p0 [|p1 [|a0 [|a1 [|a2 [|a3 v]]]]]]]]. Qed.
End peer.

Section handlers.
Context `{BoostAddressSpec} `{!IterOrder string ptr} `{!IterOrder Z ChannelBinding}.

(** ** Lookups through the invariant *)

Lemma alloc_of_Some am client p :
  am_inv am → by_client_ am !! endpointKey client = Some p →
  ∃ a, heap am !! p = Some a ∧ alloc_of am client = Some a ∧ clientAddr a = client.
Proof.
  intros I Hp. destruct (inv_client _ I _ _ Hp) as (a&Ha&E%endpointKey_inj&_).
  exists a. unfold alloc_of, findByClient. rewrite Hp. cbn. by rewrite Ha.
Qed.

Lemma alloc_of_None am client : by_client_ am !! endpointKey client = None → alloc_of am client = None.
Proof. intros E. unfold alloc_of, findByClient. by rewrite E. Qed.

Lemma alloc_of_ptr am client a : alloc_of am client = Some a →
  ∃ p, by_client_ am !! endpointKey client = Some p ∧ heap am !! p = Some a.
Proof. unfold alloc_of, findByClient. intros (p&?&?)%bind_Some. eauto. Qed.

(** ** Counting *)

Lemma wp_count_user user l n am :
  (∀ kp, kp ∈ l → is_Some (heap am !! kp.2)) →
  0 ≤ n → n + Z.of_nat (length (filter (owned_by am user) l)) < 2 ^ 32 →
  wp (count_user user l n)
    (λ r am' ev, am' = am ∧ ev = [] ∧ r = n + Z.of_nat (length (filter (owned_by am user) l))) am.
Proof.
  revert n. induction l as [|[k p] l IH]; intros n Hl Hn Hb; cbn [count_user].
  - wp_step. cbn. split_and!; [done..|lia].
  - destruct (Hl (k, p)) as [a Ha]; [by left|].
    assert (Hf : filter (owned_by am user) ((k, p) :: l) =
      if decide (username a = user) then (k, p) :: filter (owned_by am user) l
      else filter (owned_by am user) l).
    { rewrite filter_cons. destruct (decide (owned_by _ _ _)) as [(b&Hb'&Hu)|Hno], (decide (username a = user)).
      - done.
      - cbn in Hb', Ha. congruence.
      - destruct Hno. exists a. done.
      - done. }
    apply wp_bind, (wp_deref p a); [done|]. rewrite Hf in Hb |- *.
    assert (Hl' : ∀ kp, kp ∈ l → is_Some (heap am !! kp.2)) by (intros; apply Hl; by right).
    destruct (decide (username a = user)) as [Hu|Hu]; cbn [length] in Hb.
    + rewrite bool_decide_true by done. unfold u32. rewrite Z.mod_small by lia.
      eapply wp_mono; [apply IH; [done|lia..]|].
      intros r am' ev (->&->&->). cbn [length]. split_and!; [done..|lia].
    + rewrite bool_decide_false by done. by apply IH.
Qed.

Lemma count_iter am user :
  length (filter (owned_by am user) (iter (by_client_ am))) = user_allocs am user.
Proof.
  rewrite iter_filter_length. unfold user_allocs. rewrite map_filter_alt.
  rewrite <-length_map_to_list, map_to_list_to_map; [done|].
  apply (sublist_NoDup _ ((map_to_list (by_client_ am)).*1)); [apply NoDup_fst_map_to_list|].
  apply fmap_sublist, sublist_filter.
Qed.

Lemma wp_count am user : am_inv am →
  wp (count_user user (iter (by_client_ am)) 0)
    (λ r am' ev, am' = am ∧ ev = [] ∧ r = Z.of_nat (user_allocs am user)) am.
Proof.
  intros I. rewrite <-count_iter. apply wp_count_user.
  - intros [k p] Hin%elem_of_iter. destruct (inv_client _ I _ _ Hin) as (a&Ha&_). eauto.
  - done.
  - pose proof (inv_quota _ I user). pose proof (inv_quota_u32 _ I). rewrite count_iter. lia.
Qed.

(** ** Ports *)

(** The port of the [k]-th draw. *)
Definition drawn_port (am : AllocationManager) (dist : Z → nat → Z) (k : nat) : Z :=
  u16 (relay_port_min_ am + dist (u16 (relay_port_max_ am - relay_port_min_ am)) k).

Definition draws_ok (am : AllocationManager) (dist : Z → nat → Z) : Prop :=
  let hi := u16 (relay_port_max_ am - relay_port_min_ am) in ∀ k, 0 ≤ dist hi k ≤ hi.

Lemma drawn_port_in_range am dist k : draws_ok am dist → port_in_range am (drawn_port am dist k).
Proof.
  intros Hd. specialize (Hd k). unfold port_in_range, drawn_port.
  set (hi := u16 (relay_port_max_ am - relay_port_min_ am)) in *.
  assert (0 ≤ hi < 65536) by (unfold hi, u16; apply Z.mod_pos_bound; lia).
  split; [unfold u16; apply Z.mod_pos_bound; lia|].
  unfold u16 at 1 2. rewrite Zminus_mod_idemp_l.
  replace (relay_port_min_ am + dist hi k - relay_port_min_ am) with (dist hi k) by lia.
  rewrite Z.mod_small; lia.
Qed.

Lemma wp_allocatePort_loop n k am dist : am_inv am →
  let port i := u16 (relay_port_min_ am + dist i) in
  wp (allocatePort_loop n k dist) (λ o am' ev, ev = [] ∧
    match o with
    | None => am' = am ∧ ∀ i, (k ≤ i < k + n)%nat → used_ports_ am !! port i = Some true
    | Some p => used_ports_ am !! p = None ∧ (∃ i, (k ≤ i < k + n)%nat ∧ p = port i) ∧
        am' = with_tables (by_client_ am) (by_relay_ am) (<[p := true]> (used_ports_ am)) am
    end) am.
Proof.
  intros I. cbv zeta. revert k. induction n as [|n IH]; intros k; cbn [allocatePort_loop].
  { wp_step. split; [done|]. split; [done|lia]. }
  wp_steps. set (port := u16 (relay_port_min_ am + dist k)) in *.
  destruct (used_ports_ am !! port) as [b|] eqn:Hu; cbn [default from_option].
  - destruct (inv_used _ I _ _ Hu) as [-> _]. cbn [negb].
    unfold set_used. wp_steps. rewrite insert_id, with_tables_id by done.
    eapply wp_mono; [apply (IH (S k))|]. intros o am' ev [-> Ho]. split; [done|].
    destruct o as [p|].
    + destruct Ho as (?&(i&?&?)&?). split_and!; [done| |done]. exists i. split; [lia|done].
    + destruct Ho as [? Ha]. split; [done|]. intros i Hi.
      destruct (decide (i = k)) as [->|]; [done|]. apply Ha. lia.
  - cbn [negb]. unfold set_used. wp_steps. split; [done|]. split_and!; [done| |].
    + exists k. split; [lia|done].
    + cbn. by rewrite insert_insert_eq.
Qed.

Lemma wp_allocatePort am dist : am_inv am →
  wp (allocatePort dist) (λ o am' ev, ev = [] ∧
    match o with
    | None => am' = am ∧ ∀ k, (k < 1000)%nat → used_ports_ am !! drawn_port am dist k = Some true
    | Some p => used_ports_ am !! p = None ∧ (∃ k, (k < 1000)%nat ∧ p = drawn_port am dist k) ∧
        am' = with_tables (by_client_ am) (by_relay_ am) (<[p := true]> (used_ports_ am)) am
    end) am.
Proof.
  intros I. unfold allocatePort. wp_steps.
  replace (u16 (u16 (relay_port_max_ am - relay_port_min_ am + 1) - 1))
    with (u16 (relay_port_max_ am - relay_port_min_ am)).
  2: { unfold u16. rewrite Zminus_mod_idemp_l. f_equal. lia. }
  eapply wp_mono; [by apply wp_allocatePort_loop|]. intros o am' ev [-> Ho]. split; [done|].
  destruct o as [p|].
  - destruct Ho as (?&(i&?&?)&?). split_and!; [done| |done]. exists i. split; [lia|done].
  - destruct Ho as [? Ha]. split; [done|]. intros i Hi. apply Ha. lia.
Qed.

(** ** The view of the clients

    What a change of the manager does to the allocation of each client. *)
Definition updates (am am' : AllocationManager) (client : Endpoint) (o : option Allocation) : Prop :=
  am_inv am' ∧ same_config am am' ∧
  ∀ c, alloc_of am' c = if decide (c = client) then o else alloc_of am c.

Lemma same_config_refl am : same_config am am.
Proof. done. Qed.

Lemma updates_store am client p a a' :
  am_inv am → by_client_ am !! endpointKey client = Some p → heap am !! p = Some a →
  clientAddr a' = clientAddr a → relayedAddr a' = relayedAddr a → username a' = username a →
  alloc_inv a' →
  updates am (with_heap (next_id_ am) (<[p := a']> (heap am)) (heap_next am) am) client (Some a').
Proof.
  intros I Hp Ha Hc Hr Hu Hi. split; [by apply (inv_store am p a)|]. split; [done|].
  intros c. unfold alloc_of, findByClient. cbn. case_decide as Hd.
  - subst. rewrite Hp. cbn. by rewrite lookup_insert_eq.
  - destruct (by_client_ am !! endpointKey c) as [q|] eqn:Hq; [|done]. cbn.
    rewrite lookup_insert_ne; [done|]. intros ->.
    destruct (inv_client _ I _ _ Hp) as (b&?&E1%endpointKey_inj&_).
    destruct (inv_client _ I _ _ Hq) as (b'&?&E2%endpointKey_inj&_). simplify_eq.
Qed.

Lemma updates_remove am client p a :
  am_inv am → by_client_ am !! endpointKey client = Some p → heap am !! p = Some a →
  updates am (with_tables (delete (endpointKey client) (by_client_ am))
            (delete (endpointKey (relayedAddr a)) (by_relay_ am))
            (delete (ep_port (relayedAddr a)) (used_ports_ am)) am) client None.
Proof.
  intros I Hp Ha. split; [by apply (inv_remove am client p)|]. split; [done|].
  intros c. unfold alloc_of, findByClient. cbn. case_decide as Hd.
  - subst. by rewrite lookup_delete_eq.
  - rewrite lookup_delete_ne; [done|]. by intros E%endpointKey_inj.
Qed.

Lemma updates_add am n a :
  am_inv am → by_client_ am !! endpointKey (clientAddr a) = None →
  used_ports_ am !! ep_port (relayedAddr a) = None →
  ep_address (relayedAddr a) = relay_address_ am →
  port_in_range am (ep_port (relayedAddr a)) →
  Z.of_nat (user_allocs am (username a)) < max_alloc_per_user_ am →
  alloc_inv a → updates am (added am n a) (clientAddr a) (Some a).
Proof.
  intros I Hc Hu Haddr Hport Hq Ha. split; [by apply inv_add|]. split; [done|].
  intros c. unfold alloc_of, findByClient. cbn. case_decide as Hd.
  - subst. rewrite lookup_insert_eq. cbn. by rewrite lookup_insert_eq.
  - rewrite lookup_insert_ne by (by intros ?%endpointKey_inj).
    destruct (by_client_ am !! endpointKey c) as [q|] eqn:E; [|done]. cbn.
    destruct (inv_client _ I _ _ E) as (b&Hb&_). rewrite lookup_insert_ne; [done|].
    intros <-. by rewrite (heap_fresh am I) in Hb.
Qed.

Lemma alloc_inv_empty n client relayed user rlm t :
  alloc_inv (mkAllocation n client relayed user rlm t ∅ ∅).
Proof. split; cbn; intros *; rewrite lookup_empty; done. Qed.

(** ** Allocate and refresh *)

Definition allocate_post (dist : Z → nat → Z) (now : Z) (msg : TurnMessage) (client : Endpoint)
    (user rlm : string) (am : AllocationManager) (r : bytes) (am' : AllocationManager) : Prop :=
  let tid := transaction_id msg in
  let refused code reason := am' = am ∧ r = make_error tid code reason in
  if bool_decide (is_Some (alloc_of am client)) then refused 437 "Allocation Mismatch" else
  match findAttr msg AttrType.RequestedTransport with
  | None => refused 400 "Bad Request"
  | Some a =>
      if negb (wants_udp a) then refused 442 "Unsupported Transport Protocol" else
      if max_alloc_per_user_ am <=? Z.of_nat (user_allocs am user)
      then refused 486 "Allocation Quota Reached" else
      (refused 508 "Insufficient Capacity" ∧
         ∀ k, (k < 1000)%nat → is_Some (used_ports_ am !! drawn_port am dist k)) ∨
      ∃ k, (k < 1000)%nat ∧
        let port := drawn_port am dist k in
        let relayed := mkEndpoint (relay_address_ am) port in
        used_ports_ am !! port = None ∧ used_ports_ am' = <[port := true]> (used_ports_ am) ∧
        r = allocate_reply tid relayed client (granted_lifetime msg) ∧
        updates am am' client (Some (mkAllocation (next_id_ am) client relayed user rlm
          (now + seconds (granted_lifetime msg)) ∅ ∅))
  end.

Lemma wp_transport_check (rt : option Attribute) am :
  wp (match rt with
    | None => mret true
    | Some a =>
        if (length (attr_value a) <? 4)%nat then mret true else
        v0 ← lift (rd (attr_value a) 0); mret (negb (v0 =? 17))
    end) (λ bad (am' : AllocationManager) (ev : list Sent), am' = am ∧ ev = [] ∧
      bad = match rt with None => true | Some a => negb (wants_udp a) end) am.
Proof.
  destruct rt as [[t v]|]; [|by wp_step]. cbn [attr_value]. unfold wants_udp. cbn [attr_value].
  destruct v as [|v0 [|v1 [|v2 [|v3 v]]]]; cbn [length Nat.ltb Nat.leb]; [by wp_step..|].
  change (rd (v0 :: _) 0) with (Ok v0). by wp_steps.
Qed.

Lemma is_Some_alloc_of am client : am_inv am →
  is_Some (alloc_of am client) ↔ is_Some (by_client_ am !! endpointKey client).
Proof.
  intros I. destruct (by_client_ am !! endpointKey client) as [p|] eqn:E.
  - destruct (alloc_of_Some am client p I E) as (a&_&->&_). split; eauto.
  - by rewrite (alloc_of_None am client E).
Qed.

Lemma wp_handleAllocate dist now msg client user rlm am :
  am_inv am → draws_ok am dist →
  wp (handleAllocate dist now msg client user rlm)
    (λ r am' ev, ev = [] ∧ allocate_post dist now msg client user rlm am r am') am.
Proof.
  intros I Hd. unfold handleAllocate, allocate_post. wp_steps.
  rewrite (bool_decide_ext _ _ (is_Some_alloc_of am client I)).
  case_bool_decide as Hc; [by wp_step|]. apply eq_None_not_Some in Hc.
  wp_step. eapply wp_mono; [apply wp_transport_check|]. intros bad am1 ev1 (->&->&->).
  destruct (findAttr msg AttrType.RequestedTransport) as [a|]; [|by wp_step].
  rewrite (bool_decide_true (is_Some (Some a))) by eauto.
  destruct (wants_udp a); cbn [negb]; [|by wp_step].
  wp_step. eapply wp_mono; [by apply wp_count|]. intros n am2 ev2 (->&->&->).
  destruct (Z.leb_spec (max_alloc_per_user_ am) (Z.of_nat (user_allocs am user))); [by wp_step|].
  wp_step. eapply wp_mono; [by apply wp_allocatePort|]. intros o am3 ev3 [-> Ho].
  destruct o as [port|].
  2: { destruct Ho as [-> Hall]. wp_step. split; [done|]. left. split; [done|]. intros k Hk.
       rewrite Hall by done. eauto. }
  destruct Ho as (Hu&(k&Hk&->)&->). rewrite requestedLifetime_Ok.
  wp_steps. unfold make_shared. wp_steps. split; [done|]. right. exists k. split; [done|].
  split; [done|]. split; [done|]. split; [done|].
  apply (updates_add am (u64 (next_id_ am + 1))
    (mkAllocation (next_id_ am) client (mkEndpoint (relay_address_ am) (drawn_port am dist k)) user rlm
          (now + seconds (granted_lifetime msg)) ∅ ∅)); try done.
  - by apply drawn_port_in_range.
Qed.

Definition refresh_post (now : Z) (msg : TurnMessage) (client : Endpoint) (user : string)
    (am : AllocationManager) (r : bytes) (am' : AllocationManager) : Prop :=
  let tid := transaction_id msg in
  match alloc_of am client with
  | None => am' = am ∧ r = make_error tid 437 "Allocation Mismatch"
  | Some a =>
      if decide (username a ≠ user) then am' = am ∧ r = make_error tid 441 "Wrong Credentials" else
      if decide (lifetime_of msg = 0) then
        r = lifetime_reply Method.Refresh tid 0 ∧ updates am am' client None ∧
        used_ports_ am' = delete (ep_port (relayedAddr a)) (used_ports_ am)
      else
        r = lifetime_reply Method.Refresh tid (lifetime_of msg) ∧
        updates am am' client (Some (set_expiresAt (now + seconds (lifetime_of msg)) a)) ∧
        used_ports_ am' = used_ports_ am
  end.

Lemma wp_handleRefresh now msg client user am : am_inv am →
  wp (handleRefresh now msg client user)
    (λ r am' ev, ev = [] ∧ refresh_post now msg client user am r am') am.
Proof.
  intros I. unfold handleRefresh, refresh_post. wp_steps.
  destruct (by_client_ am !! endpointKey client) as [p|] eqn:Hp.
  2: { rewrite (alloc_of_None am client Hp). by wp_step. }
  destruct (alloc_of_Some am client p I Hp) as (a&Ha&->&_).
  wp_step. apply (wp_deref p a); [done|]. case_decide as Hu.
  { rewrite bool_decide_false by done. cbn [negb]. by wp_step. }
  rewrite bool_decide_true by done. cbn [negb].
  rewrite requestedLifetime_Ok. wp_steps.
  destruct (Z.eqb_spec (lifetime_of msg) 0), (decide (lifetime_of msg = 0)); try done.
  - unfold releasePort, set_used. wp_steps. split_and!; [done|done| |done].
    by apply (updates_remove am client p).
  - wp_step. apply wp_store. wp_steps. split_and!; [done|done| |done].
    apply (updates_store am client p a); try done.
    destruct (inv_alloc _ I _ _ Ha) as [H1 H2 H3]. by split.
Qed.

(** ** Permissions *)

(** The peers that a request names, and those before a filtered one. *)
Definition named_peers (l : list Attribute) : list Endpoint :=
  omap (λ a, if decide (attr_type a = AttrType.XorPeerAddress) then peer_of (attr_value a) else None) l.
Definition denied (ep : Endpoint) : bool := isDeniedAddress (ep_address ep).
Fixpoint before_denied (l : list Endpoint) : list Endpoint :=
  match l with
  | [] => []
  | ep :: l => if denied ep then [] else ep :: before_denied l
  end.

(** The allocation with permissions for the addresses of [peers], and nothing
    else changed. *)
Definition permitted (clk : nat → Z) (peers : list Endpoint) (a a' : Allocation) : Prop :=
  id a' = id a ∧ clientAddr a' = clientAddr a ∧ relayedAddr a' = relayedAddr a ∧
  username a' = username a ∧ realm a' = realm a ∧ expiresAt a' = expiresAt a ∧
  channels a' = channels a ∧
  ∀ addr,
    (addr ∈ ep_address <$> peers → ∃ k,
      permissions a' !! addr = Some (mkPermission addr (clk k + seconds kPermissionTTL))) ∧
    (addr ∉ ep_address <$> peers → permissions a' !! addr = permissions a !! addr).

Lemma alloc_inv_set_permission a addr t :
  alloc_inv a → isDeniedAddress addr = false → alloc_inv (set_permission addr (mkPermission addr t) a).
Proof.
  intros [H1 H2 H3] Hd. split; [|done..]. intros addr' q. cbn.
  rewrite lookup_insert_Some. intros [[<- <-]|[_ ?]]; [done|by apply H1].
Qed.

Lemma permitted_refl clk a : permitted clk [] a a.
Proof. split_and!; try done. intros addr. split; [|done]. cbn. by intros ?%not_elem_of_nil. Qed.

Lemma permitted_cons clk k ep peers a a' :
  permitted clk peers (set_permission (ep_address ep)
    (mkPermission (ep_address ep) (clk k + seconds kPermissionTTL)) a) a' →
  permitted clk (ep :: peers) a a'.
Proof.
  intros (?&?&?&?&?&?&?&Hp). split_and!; try done.
  intros addr. destruct (Hp addr) as [Hin Hout]. rewrite fmap_cons, elem_of_cons. split.
  - intros [->|?]; [|auto]. destruct (decide (ep_address ep ∈ ep_address <$> peers)) as [?|Hn]; [auto|].
    rewrite (Hout Hn). cbn. rewrite lookup_insert_eq. eauto.
  - intros Hn0. assert (Hne : addr ≠ ep_address ep) by tauto.
    assert (Hn : addr ∉ ep_address <$> peers) by tauto. rewrite (Hout Hn). cbn. by rewrite lookup_insert_ne.
Qed.

Lemma wp_createPermission_loop clk k tid p attrs found am a :
  heap am !! p = Some a → alloc_inv a →
  let peers := named_peers attrs in
  wp (createPermission_loop clk k tid p attrs found) (λ out am' ev, ev = [] ∧
    out.2 = (if existsb denied peers then Some (make_error tid 403 "Forbidden") else None) ∧
    (out.2 = None → out.1 = found || negb (bool_decide (peers = []))) ∧
    ∃ a', am' = with_heap (next_id_ am) (<[p := a']> (heap am)) (heap_next am) am ∧
      alloc_inv a' ∧ permitted clk (before_denied peers) a a') am.
Proof.
  cbv zeta. revert k found am a. induction attrs as [|[t v] attrs IH]; intros k found am a Ha I;
    cbn [createPermission_loop named_peers omap list_omap].
  { wp_step. split_and!; [done|done|by rewrite orb_false_r|].
    exists a. split_and!; [|done|apply permitted_refl].
    rewrite insert_id by done. by destruct am. }
  cbn [attr_type attr_value]. destruct (decide (t = AttrType.XorPeerAddress)) as [->|Ht].
  2: { rewrite bool_decide_false by done. cbn [negb]. by apply IH. }
  rewrite bool_decide_true by done. cbn [negb].
  destruct (length v <? 8)%nat eqn:Hl.
  { rewrite (peer_of_short _ Hl). by apply IH. }
  destruct (read_xaddr_Ok v Hl) as (xport&xaddr&ep&->&->&->&Haddr). wp_steps. rewrite Haddr.
  cbn [existsb before_denied denied]. fold (denied ep).
  destruct (denied ep) eqn:Hd; cbn [orb].
  { wp_step. split_and!; [done|done|done|]. exists a. split_and!; [|done|apply permitted_refl].
    rewrite insert_id by done. by destruct am. }
  apply wp_bind, (wp_deref p a); [done|]. apply wp_bind, wp_store.
  set (a1 := set_permission _ _ a).
  eapply wp_mono; [apply (IH (S k) true _ a1)|].
  - cbn. by rewrite lookup_insert_eq.
  - by apply alloc_inv_set_permission.
  - intros out am' ev (->&Ho&Hf&a'&->&I'&Hp). split_and!; [done|done| |].
    + intros Hn. rewrite (Hf Hn), (bool_decide_false (_ :: _ = [])) by done. by rewrite orb_true_r.
    + exists a'. split_and!; [|done|by eapply permitted_cons]. cbn. by rewrite insert_insert_eq.
Qed.

Definition permission_post (clk : nat → Z) (msg : TurnMessage) (client : Endpoint)
    (am : AllocationManager) (r : bytes) (am' : AllocationManager) : Prop :=
  let tid := transaction_id msg in
  let peers := named_peers (attributes msg) in
  match alloc_of am client with
  | None => am' = am ∧ r = make_error tid 437 "Allocation Mismatch"
  | Some a =>
      r = (if existsb denied peers then make_error tid 403 "Forbidden"
           else if bool_decide (peers = []) then make_error tid 400 "Bad Request"
           else success_reply Method.CreatePermission tid) ∧
      ∃ a', updates am am' client (Some a') ∧ permitted clk (before_denied peers) a a' ∧
        used_ports_ am' = used_ports_ am
  end.

Lemma wp_handleCreatePermission clk msg client am : am_inv am →
  wp (handleCreatePermission clk msg client)
    (λ r am' ev, ev = [] ∧ permission_post clk msg client am r am') am.
Proof.
  intros I. unfold handleCreatePermission, permission_post. wp_steps.
  destruct (by_client_ am !! endpointKey client) as [p|] eqn:Hp.
  2: { rewrite (alloc_of_None am client Hp). by wp_step. }
  destruct (alloc_of_Some am client p I Hp) as (a&Ha&->&_).
  apply wp_bind. eapply wp_mono.
  { apply (wp_createPermission_loop clk 0 _ p _ false am a Ha). by apply (inv_alloc _ I p). }
  intros [f err] am' ev (->&Hout&Hf&a'&->&I'&Hperm). cbn in Hout, Hf.
  assert (Hup : updates am (with_heap (next_id_ am) (<[p := a']> (heap am)) (heap_next am) am)
    client (Some a')) by (destruct Hperm as (?&?&?&?&_); by apply (updates_store am client p a)).
  rewrite Hout. destruct (existsb denied _) eqn:Hex; [wp_step; split_and!; eauto|].
  rewrite Hf by done. case_bool_decide; cbn [negb]; wp_step; split_and!; eauto.
Qed.

(** ** Channels *)

(** The channel number of an attribute. *)
Definition channel_of (value : bytes) : option Z :=
  match value with c0 :: c1 :: _ => Some (be16 c0 c1) | _ => None end.
Definition channel_attr (msg : TurnMessage) : option Z :=
  findAttr msg AttrType.ChannelNumber ≫= channel_of ∘ attr_value.
Definition peer_attr (msg : TurnMessage) : option Endpoint :=
  findAttr msg AttrType.XorPeerAddress ≫= peer_of ∘ attr_value.

(** The channel may be bound to the peer: it is not bound to another one and
    the peer is not bound to another channel. *)
Definition channel_free (a : Allocation) (n : Z) (ep : Endpoint) : Prop :=
  (∀ b, channels a !! n = Some b → peer b = ep) ∧
  (∀ m b, channels a !! m = Some b → peer b = ep → m = n).

Definition with_channel (now1 now2 : Z) (n : Z) (ep : Endpoint) (a : Allocation) : Allocation :=
  set_permission (ep_address ep) (mkPermission (ep_address ep) (now2 + seconds kPermissionTTL))
    (set_channel n (mkChannelBinding n ep (now1 + seconds kChannelTTL)) a).

Definition channel_post (now1 now2 : Z) (msg : TurnMessage) (client : Endpoint)
    (am : AllocationManager) (r : bytes) (am' : AllocationManager) : Prop :=
  let tid := transaction_id msg in
  let refused code reason := am' = am ∧ r = make_error tid code reason in
  match alloc_of am client with
  | None => refused 437 "Allocation Mismatch"
  | Some a =>
      match channel_attr msg, peer_attr msg with
      | Some n, Some ep =>
          if (n <? 0x4000) || (0x4FFF <? n) then refused 400 "Bad Request" else
          if denied ep then refused 403 "Forbidden" else
          (¬ channel_free a n ep ∧ refused 400 "Bad Request") ∨
          (channel_free a n ep ∧ r = success_reply Method.ChannelBind tid ∧
           updates am am' client (Some (with_channel now1 now2 n ep a)) ∧
           used_ports_ am' = used_ports_ am)
      | _, _ => refused 400 "Bad Request"
      end
  end.

Lemma alloc_inv_with_channel now1 now2 n ep a :
  alloc_inv a → 0x4000 ≤ n ≤ 0x4FFF → denied ep = false → channel_free a n ep →
  alloc_inv (with_channel now1 now2 n ep a).
Proof.
  intros I Hn Hd [Hf1 Hf2]. apply alloc_inv_set_permission; [|done].
  destruct I as [I1 I2 I3]. split; cbn; [done| |].
  - intros m c. rewrite lookup_insert_Some. intros [[<- <-]|[_ ?]]; [done|by apply I2].
  - intros m1 m2 c1 c2. rewrite !lookup_insert_Some.
    intros [[<- <-]|[? ?]] [[<- <-]|[? ?]] E; cbn in *; try done.
    + symmetry. by apply (Hf2 m2 c2).
    + by apply (Hf2 m1 c1).
    + by apply (I3 m1 m2 c1 c2).
Qed.

Lemma bound_elsewhere_spec n ep a :
  bound_elsewhere n ep (iter (channels a)) = true ↔
  ∃ m b, channels a !! m = Some b ∧ peer b = ep ∧ m ≠ n.
Proof.
  unfold bound_elsewhere. rewrite existsb_exists. split.
  - intros ([m b]&Hin%list_elem_of_In%elem_of_iter&[Hne He]%andb_true_iff).
    rewrite endpoint_eqb_eq in He. apply bool_decide_eq_true_1 in He. brefl. eauto.
  - intros (m&b&Hm&He&Hne). exists (m, b). split; [by apply list_elem_of_In, elem_of_iter|].
    apply andb_true_iff. rewrite endpoint_eqb_eq, bool_decide_true by done.
    split; [|done]. by apply negb_true_iff, Z.eqb_neq.
Qed.

Lemma channel_free_spec n ep a :
  channel_free a n ep ↔
  match channels a !! n with Some b => negb (endpoint_eqb (peer b) ep) | None => false end = false ∧
  bound_elsewhere n ep (iter (channels a)) = false.
Proof.
  unfold channel_free. rewrite <-(not_true_iff_false (bound_elsewhere _ _ _)), bound_elsewhere_spec.
  split.
  - intros [H1 H2]. split.
    + destruct (channels a !! n) as [b|]; [|done]. rewrite endpoint_eqb_eq.
      by rewrite bool_decide_true by auto.
    + intros (m&b&?&?&?). eauto.
  - intros [H1 H2]. split.
    + intros b Hb. rewrite Hb, endpoint_eqb_eq in H1.
      apply negb_false_iff in H1. by apply bool_decide_eq_true_1 in H1.
    + intros m b ??. destruct (decide (m = n)); [done|]. destruct H2. eauto.
Qed.

Lemma wp_handleChannelBind now1 now2 msg client am : am_inv am →
  wp (handleChannelBind now1 now2 msg client)
    (λ r am' ev, ev = [] ∧ channel_post now1 now2 msg client am r am') am.
Proof.
  intros I. unfold handleChannelBind, channel_post, channel_attr, peer_attr. wp_steps.
  destruct (by_client_ am !! endpointKey client) as [p|] eqn:Hp.
  2: { rewrite (alloc_of_None am client Hp). by wp_step. }
  destruct (alloc_of_Some am client p I Hp) as (a&Ha&->&_).
  destruct (findAttr msg AttrType.ChannelNumber) as [[t v]|]; [|by wp_step].
  destruct (findAttr msg AttrType.XorPeerAddress) as [[t' v']|].
  2: { cbn [mbind option_bind compose attr_value]. destruct (channel_of v); by wp_step. }
  cbn [mbind option_bind compose attr_value].
  destruct v as [|c0 [|c1 v]]; [cbn [length Nat.ltb Nat.leb orb]; by wp_step..|].
  change (length (c0 :: c1 :: v) <? 2)%nat with false. cbn [orb channel_of].
  destruct (length v' <? 8)%nat eqn:Hl; [rewrite (peer_of_short _ Hl); by wp_step|].
  destruct (read_peer_Ok v' Hl) as (ep&Hep&->).
  change (rd (c0 :: c1 :: v) 0) with (Ok c0). change (rd (c0 :: c1 :: v) 1) with (Ok c1). wp_steps.
  set (n := be16 c0 c1) in *. destruct (_ || _) eqn:Hn; [by wp_step|].
  rewrite Hep. wp_steps. fold (denied ep).
  destruct (denied ep) eqn:Hd; [by wp_step|].
  apply wp_bind, (wp_deref p a); [done|].
  pose proof (channel_free_spec n ep a) as Hf.
  destruct (match channels a !! n with Some _ => _ | None => false end) eqn:He.
  { wp_step. split_and!; [done|]. left. split; [|done]. intros [? _]%Hf. done. }
  destruct (bound_elsewhere _ _ _) eqn:Hb.
  { wp_step. split_and!; [done|]. left. split; [|done]. intros [_ ?]%Hf. done. }
  apply orb_false_iff in Hn as [Hn1 Hn2]. brefl.
  assert (Hfree : channel_free a n ep) by (by apply Hf).
  apply wp_bind, wp_store. eapply wp_bind, wp_deref; [cbn; apply lookup_insert_eq|].
  apply wp_bind, wp_store. wp_step. split; [done|]. right. split_and!; [done|done| |done].
  cbn. rewrite insert_insert_eq. apply (updates_store am client p a); try done.
  apply alloc_inv_with_channel; [by apply (inv_alloc _ I p)|lia|done..].
Qed.

(** ** Data *)

Definition relay_alloc (am : AllocationManager) (relay : Endpoint) : option Allocation :=
  p ← findByRelay am relay; heap am !! p.

(** What a Send indication makes the server send: to the client that owns the
    relay address the peer is, as a Data indication from the sender's relay
    address; else to the peer itself. *)
Definition send_events (now : Z) (msg : TurnMessage) (client : Endpoint) (am : AllocationManager) :
    list Sent :=
  match alloc_of am client, peer_attr msg, findAttr msg AttrType.Data with
  | Some a, Some ep, Some d =>
      if hasPermission now (ep_address ep) a then
        match relay_alloc am ep with
        | Some b =>
            if client_send_ am then
              [ToClient (make_data_indication zero_tid (address_or_zero (ep_address (relayedAddr a)))
                           (ep_port (relayedAddr a)) (attr_value d)) (clientAddr b)]
            else []
        | None => if peer_send_ am then [ToPeer (attr_value d) ep] else []
        end
      else []
  | _, _, _ => []
  end.

Lemma relay_alloc_Some am ep q : am_inv am → by_relay_ am !! endpointKey ep = Some q →
  ∃ b, heap am !! q = Some b ∧ relay_alloc am ep = Some b ∧ relayedAddr b = ep ∧
    alloc_of am (clientAddr b) = Some b.
Proof.
  intros I Hq. destruct (inv_relay _ I _ _ Hq) as (b&Hb&E%endpointKey_inj&Hc&_).
  exists b. unfold relay_alloc, findByRelay, alloc_of, findByClient. rewrite Hq, Hc. cbn.
  by rewrite Hb.
Qed.

Lemma wp_handleSend now msg client am : am_inv am →
  wp (handleSend now msg client) (λ _ am' ev, am' = am ∧ ev = send_events now msg client am) am.
Proof.
  intros I. unfold handleSend, send_events, peer_attr. wp_steps.
  destruct (by_client_ am !! endpointKey client) as [p|] eqn:Hp.
  2: { rewrite (alloc_of_None am client Hp). by wp_step. }
  destruct (alloc_of_Some am client p I Hp) as (a&Ha&->&_).
  apply wp_bind, (wp_deref p a); [done|].
  destruct (findAttr msg AttrType.XorPeerAddress) as [[t v]|]; [|by wp_step].
  cbn [mbind option_bind compose attr_value].
  destruct (length v <? 8)%nat eqn:Hl; [rewrite (peer_of_short _ Hl); by wp_step|].
  destruct (read_peer_Ok v Hl) as (ep&->&->). wp_steps.
  destruct (findAttr msg AttrType.Data) as [d|]; [|by destruct (hasPermission _ _ _); cbn [negb]; wp_step].
  destruct (hasPermission now (ep_address ep) a); cbn [negb]; [|by wp_step].
  destruct (by_relay_ am !! endpointKey ep) as [q|] eqn:Hq.
  - destruct (relay_alloc_Some am ep q I Hq) as (b&Hb&->&_&_).
    apply wp_bind, (wp_deref q b); [done|]. unfold call_client_send. wp_steps.
    by destruct (client_send_ am); wp_step.
  - unfold relay_alloc, findByRelay. rewrite Hq. cbn [mbind option_bind].
    unfold call_peer_send. wp_steps. by destruct (peer_send_ am); wp_step.
Qed.

(** What data from a peer makes the server send to the client of the relay. *)
Definition peer_data_events (now : Z) (clk : nat → Z) (data : bytes) (ep relay : Endpoint)
    (am : AllocationManager) : list Sent :=
  match relay_alloc am relay with
  | Some a =>
      if hasPermission now (ep_address ep) a && client_send_ am then
        [ToClient (match findChannelByPeer clk ep a with
                   | Some ch => make_channel_data (channelNumber ch) data
                   | None => make_data_indication zero_tid (address_or_zero (ep_address ep))
                               (ep_port ep) data
                   end) (clientAddr a)]
      else []
  | None => []
  end.

Lemma wp_handlePeerData now clk data ep relay am : am_inv am →
  wp (handlePeerData now clk data ep relay)
    (λ _ am' ev, am' = am ∧ ev = peer_data_events now clk data ep relay am) am.
Proof.
  intros I. unfold handlePeerData, peer_data_events. wp_steps.
  destruct (by_relay_ am !! endpointKey relay) as [p|] eqn:Hp.
  2: { unfold relay_alloc, findByRelay. rewrite Hp. by wp_step. }
  destruct (relay_alloc_Some am relay p I Hp) as (a&Ha&->&_&_).
  apply wp_bind, (wp_deref p a); [done|].
  destruct (hasPermission now (ep_address ep) a); cbn [negb andb]; [|by wp_step].
  destruct (client_send_ am) eqn:Hs; cbn [negb]; [|by wp_step].
  destruct (findChannelByPeer clk ep a) as [ch|]; unfold call_client_send; wp_steps;
    rewrite Hs; by wp_step.
Qed.
End handlers.
