(* ===== verification/Relay.v ===== *)
(** * Properties of the allocation manager

    Every reachable manager has consistent tables, one relay port per
    allocation, no user above the quota and no filtered permission; each
    handler returns from a reachable state with the specified reply and changes
    nothing but the allocation of its client; what one client sends to the
    relay address of another arrives there, from the sender's relay address. *)

From S2P Require Export AllocationHandlers Dotted.

#[local] Existing Instance DottedAddress.
#[local] Existing Instance DottedAddressSpec.

(** The attribute value of an XOR address. *)
Definition xor_value (ip port : Z) : bytes :=
  [0; 1] ++ put16 (xor_port port) ++ put32 (xor_addr_v4 ip).

Section reachable.
Context `{BoostAddress} `{!IterOrder string ptr} `{!IterOrder Z ChannelBinding}.

(** One request handled. *)
Inductive am_step (am : AllocationManager) : AllocationManager → Prop :=
  | step_allocate dist now msg client user rlm r am' ev :
      draws_ok am dist →
      handleAllocate dist now msg client user rlm am = (Ok r, am', ev) → am_step am am'
  | step_refresh now msg client user r am' ev :
      handleRefresh now msg client user am = (Ok r, am', ev) → am_step am am'
  | step_permission clk msg client r am' ev :
      handleCreatePermission clk msg client am = (Ok r, am', ev) → am_step am am'
  | step_channel now1 now2 msg client r am' ev :
      handleChannelBind now1 now2 msg client am = (Ok r, am', ev) → am_step am am'
  | step_send now msg client r am' ev :
      handleSend now msg client am = (Ok r, am', ev) → am_step am am'
  | step_peer_data now clk data ep relay r am' ev :
      handlePeerData now clk data ep relay am = (Ok r, am', ev) → am_step am am'
  | step_callbacks : am_step am (setPeerSendCallback (setClientSendCallback am)).

(** The states of a manager with a quota of 32 bits. *)
Definition reachable (am : AllocationManager) : Prop :=
  ∃ addr pmin pmax q, 0 ≤ q < 2 ^ 32 ∧
    rtc am_step (newAllocationManager addr pmin pmax q) am.
End reachable.

Section facts.
Context `{BoostAddressSpec} `{!IterOrder string ptr} `{!IterOrder Z ChannelBinding}.

Lemma updates_inv am am' client o : updates am am' client o → am_inv am'.
Proof. by intros [? _]. Qed.

Lemma allocate_post_inv dist now msg client user rlm am r am' :
  am_inv am → allocate_post dist now msg client user rlm am r am' → am_inv am'.
Proof.
  intros I. unfold allocate_post. case_bool_decide; [by intros [-> _]|].
  destruct (findAttr _ _); [|by intros [-> _]]. case_match; [by intros [-> _]|].
  case_match; [by intros [-> _]|]. intros [[[-> _] _]|(k&_&_&_&_&?)]; [done|].
  by eapply updates_inv.
Qed.

Lemma refresh_post_inv now msg client user am r am' :
  am_inv am → refresh_post now msg client user am r am' → am_inv am'.
Proof.
  intros I. unfold refresh_post. destruct (alloc_of am client); [|by intros [-> _]].
  case_decide; [by intros [-> _]|]. case_decide; intros (_&?&_); by eapply updates_inv.
Qed.

Lemma permission_post_inv clk msg client am r am' :
  am_inv am → permission_post clk msg client am r am' → am_inv am'.
Proof.
  intros I. unfold permission_post. destruct (alloc_of am client); [|by intros [-> _]].
  intros (_&a'&?&_). by eapply updates_inv.
Qed.

Lemma channel_post_inv now1 now2 msg client am r am' :
  am_inv am → channel_post now1 now2 msg client am r am' → am_inv am'.
Proof.
  intros I. unfold channel_post. destruct (alloc_of am client); [|by intros [-> _]].
  destruct (channel_attr msg), (peer_attr msg); try by intros [-> _].
  case_match; [by intros [-> _]|]. case_match; [by intros [-> _]|].
  intros [[_ [-> _]]|(_&_&?&_)]; [done|]. by eapply updates_inv.
Qed.

Lemma am_step_inv am am' : am_inv am → am_step am am' → am_inv am'.
Proof.
  intros I Hs. destruct Hs as [?????? r am' ev Hd E|???? r am' ev E|??? r am' ev E|
    ???? r am' ev E|??? r am' ev E|????? r am' ev E|].
  - pose proof (wp_handleAllocate dist now msg client user rlm am I Hd) as W.
    unfold wp in W. rewrite E in W. destruct W as [_ W]. by eapply allocate_post_inv.
  - pose proof (wp_handleRefresh now msg client user am I) as W.
    unfold wp in W. rewrite E in W. destruct W as [_ W]. by eapply refresh_post_inv.
  - pose proof (wp_handleCreatePermission clk msg client am I) as W.
    unfold wp in W. rewrite E in W. destruct W as [_ W]. by eapply permission_post_inv.
  - pose proof (wp_handleChannelBind now1 now2 msg client am I) as W.
    unfold wp in W. rewrite E in W. destruct W as [_ W]. by eapply channel_post_inv.
  - pose proof (wp_handleSend now msg client am I) as W.
    unfold wp in W. rewrite E in W. by destruct W as [-> _].
  - pose proof (wp_handlePeerData now clk data ep relay am I) as W.
    unfold wp in W. rewrite E in W. by destruct W as [-> _].
  - destruct I. by split.
Qed.

Lemma reachable_inv am : reachable am → am_inv am.
Proof.
  intros (addr&pmin&pmax&q&Hq&Hr). pose proof (inv_new addr pmin pmax q Hq) as I.
  induction Hr as [|am1 am2 am3 Hs _ IH]; [done|]. apply IH. by eapply am_step_inv.
Qed.

(** ** XOR addresses *)

Lemma peer_of_xor_value ip port :
  0 ≤ ip < 2 ^ 32 → 0 ≤ port < 65536 →
  peer_of (xor_value ip port) = Some (mkEndpoint (v4_to_string ip) port).
Proof.
  intros Hip Hport. unfold xor_value, peer_of. cbn [app put16 put32].
  assert (Hx : 0 ≤ xor_port port < 65536) by (by apply (lxor_bound _ _ 16)).
  assert (Ha : 0 ≤ xor_addr_v4 ip < 2 ^ 32) by (by apply (lxor_bound _ _ 32)).
  rewrite be32_put32, be16_put16 by done. unfold xor_addr_v4, xor_port.
  by rewrite !lxor_involutive.
Qed.

Lemma xor_value_ok t ip port :
  attr_type_of (attr_type_code t) = t → 0 ≤ attr_type_code t < 65536 →
  attr_ok (mkAttribute t (xor_value ip port)).
Proof.
  intros ? []. split_and!; cbn [attr_type attr_value]; try done.
  unfold xor_value. apply Forall_app. split; [compute_done|].
  apply Forall_app. split; [apply put16_ok|apply put32_ok].
Qed.

Lemma parse_data_indication tid ip port payload out :
  length tid = 12%nat → bytes_ok payload → Z.of_nat (length payload) < 65000 →
  parse (make_data_indication tid ip port payload) out = Ok (ParseResult.Ok,
    mkTurnMessage MessageClass.Indication Method.Data
      (Z.of_nat (length (attrs_bytes [mkAttribute AttrType.XorPeerAddress (xor_value ip port);
         mkAttribute AttrType.Data payload]))) tid
      [mkAttribute AttrType.XorPeerAddress (xor_value ip port); mkAttribute AttrType.Data payload]).
Proof.
  intros Htid Hp Hl.
  change (make_data_indication tid ip port payload) with
    (build (add_attrs (newBuilder Method.Data MessageClass.Indication tid)
      [mkAttribute AttrType.XorPeerAddress (xor_value ip port); mkAttribute AttrType.Data payload])).
  rewrite <-(app_nil_r (build _)). apply parse_build_attrs; [done| |].
  - constructor; [by apply xor_value_ok|]. constructor; [|constructor].
    split_and!; cbn [attr_type attr_value]; try done. lia.
  - unfold attrs_bytes. cbn [map concat]. rewrite !length_app, !length_attr_bytes.
    cbn [attr_value length]. pose proof (pad4_lt (length payload)).
    change (length (xor_value ip port)) with 8%nat. change (pad4 8) with 0%nat. lia.
Qed.

Lemma address_or_zero_v4 ip : 0 ≤ ip < 2 ^ 32 → address_or_zero (v4_to_string ip) = ip.
Proof. intros Hip. unfold address_or_zero. by rewrite make_address_v4_to_string. Qed.
End facts.

Section properties.
Context `{BoostAddressSpec} `{!IterOrder string ptr} `{!IterOrder Z ChannelBinding}.

(** C2: in every reachable state of the allocation manager, clients do not
    share a relay address, the ports in use are exactly those of the live
    allocations and lie in the configured range, no user has more allocations
    than the quota, and an allocation holds permissions and channels only for
    addresses that are not filtered, on channel numbers 0x4000-0x4FFF, with no
    two channels to one peer. *)
Theorem allocations_safe am : reachable am →
  (∀ c a, alloc_of am c = Some a → clientAddr a = c ∧
     ep_address (relayedAddr a) = relay_address_ am ∧ port_in_range am (ep_port (relayedAddr a))) ∧
  (∀ c1 c2 a1 a2, alloc_of am c1 = Some a1 → alloc_of am c2 = Some a2 →
     relayedAddr a1 = relayedAddr a2 → c1 = c2) ∧
  (∀ port, is_Some (used_ports_ am !! port) ↔
     ∃ c a, alloc_of am c = Some a ∧ ep_port (relayedAddr a) = port) ∧
  (∀ user, Z.of_nat (user_allocs am user) ≤ max_alloc_per_user_ am) ∧
  (∀ c a, alloc_of am c = Some a →
     (∀ addr p, permissions a !! addr = Some p → isDeniedAddress addr = false) ∧
     (∀ n b, channels a !! n = Some b →
        0x4000 ≤ n ≤ 0x4FFF ∧ isDeniedAddress (ep_address (peer b)) = false) ∧
     (∀ n1 n2 b1 b2, channels a !! n1 = Some b1 → channels a !! n2 = Some b2 →
        peer b1 = peer b2 → n1 = n2)).
Proof.
  intros I%reachable_inv.
  assert (Hc : ∀ c a, alloc_of am c = Some a → ∃ p, heap am !! p = Some a ∧
     by_relay_ am !! endpointKey (relayedAddr a) = Some p ∧ clientAddr a = c).
  { intros c a (p&Hp&Ha)%alloc_of_ptr.
    destruct (inv_client _ I _ _ Hp) as (a'&?&E%endpointKey_inj&?). simplify_eq. eauto. }
  split_and!.
  - intros c a (p&Ha&Hr&<-)%Hc. destruct (inv_relay _ I _ _ Hr) as (a'&?&_&_&?&?&_). by simplify_eq.
  - intros c1 c2 a1 a2 (p1&H1&Hr1&<-)%Hc (p2&H2&Hr2&<-)%Hc E. rewrite E in Hr1. by simplify_eq.
  - intros port. split.
    + intros [b Hb]. destruct (inv_used _ I _ _ Hb) as [_ [p Hp]].
      destruct (relay_alloc_Some am _ p I Hp) as (a&_&_&E&Ha).
      exists (clientAddr a), a. by rewrite E.
    + intros (c&a&(p&Ha&Hr&_)%Hc&<-). destruct (inv_relay _ I _ _ Hr) as (a'&?&_&_&_&_&?).
      simplify_eq. eauto.
  - apply (inv_quota _ I).
  - intros c a (p&Ha&_)%Hc. destruct (inv_alloc _ I _ _ Ha) as [I1 I2 I3]. split_and!.
    + intros addr q ?. by apply (I1 addr q).
    + intros n b ?. by apply (I2 n b).
    + done.
Qed.

(** C21: an Allocate request on a reachable manager returns the reply the
    specification names on every branch; when it succeeds, the client has a
    new allocation on a port that nobody used, with the requested lifetime
    capped and never zero, and no other client's allocation changes. *)
Theorem handleAllocate_correct dist now msg client user rlm am :
  reachable am → draws_ok am dist →
  ∃ r am', handleAllocate dist now msg client user rlm am = (Ok r, am', []) ∧
    allocate_post dist now msg client user rlm am r am'.
Proof.
  intros I%reachable_inv Hd.
  destruct (wp_run _ _ _ (wp_handleAllocate dist now msg client user rlm am I Hd))
    as (r&am'&ev&E&->&?). eauto.
Qed.

(** A Refresh request by the owner extends the allocation to the requested
    lifetime, or frees it and its port when the lifetime is zero; anyone else
    is refused and nothing changes. *)
Lemma handleRefresh_correct now msg client user am : reachable am →
  ∃ r am', handleRefresh now msg client user am = (Ok r, am', []) ∧
    refresh_post now msg client user am r am'.
Proof.
  intros I%reachable_inv.
  destruct (wp_run _ _ _ (wp_handleRefresh now msg client user am I)) as (r&am'&ev&E&->&?). eauto.
Qed.

(** A CreatePermission request installs, for 300 seconds, a permission for
    every peer address it names before the first filtered one, and changes
    nothing else; the reply is 403 when a filtered address is named, 400 when
    no peer is, success otherwise. *)
Lemma handleCreatePermission_correct clk msg client am : reachable am →
  ∃ r am', handleCreatePermission clk msg client am = (Ok r, am', []) ∧
    permission_post clk msg client am r am'.
Proof.
  intros I%reachable_inv.
  destruct (wp_run _ _ _ (wp_handleCreatePermission clk msg client am I)) as (r&am'&ev&E&->&?). eauto.
Qed.

(** A ChannelBind request binds exactly the channels that are valid, free
    for the peer, and towards addresses that are not filtered, and installs
    the permission with the binding; else it is refused with no change. *)
Lemma handleChannelBind_correct now1 now2 msg client am : reachable am →
  ∃ r am', handleChannelBind now1 now2 msg client am = (Ok r, am', []) ∧
    channel_post now1 now2 msg client am r am'.
Proof.
  intros I%reachable_inv.
  destruct (wp_run _ _ _ (wp_handleChannelBind now1 now2 msg client am I)) as (r&am'&ev&E&->&?). eauto.
Qed.

(** C22: data crosses the server only under a live permission: a Send
    indication and data from a peer change no state and produce at most one
    datagram, as specified. *)
Theorem data_relayed_with_permission now clk msg client data ep relay am : reachable am →
  handleSend now msg client am = (Ok (), am, send_events now msg client am) ∧
  handlePeerData now clk data ep relay am = (Ok (), am, peer_data_events now clk data ep relay am) ∧
  (send_events now msg client am ≠ [] → ∃ a peer_ep, alloc_of am client = Some a ∧
     peer_attr msg = Some peer_ep ∧ hasPermission now (ep_address peer_ep) a = true) ∧
  (peer_data_events now clk data ep relay am ≠ [] → ∃ a, relay_alloc am relay = Some a ∧
     hasPermission now (ep_address ep) a = true).
Proof.
  intros I%reachable_inv. split_and!.
  - by destruct (wp_run _ _ _ (wp_handleSend now msg client am I)) as ([]&am'&ev&E&->&<-).
  - by destruct (wp_run _ _ _ (wp_handlePeerData now clk data ep relay am I)) as ([]&am'&ev&E&->&<-).
  - unfold send_events. destruct (alloc_of am client) as [a|]; [|done].
    destruct (peer_attr msg) as [e|]; [|done]. destruct (findAttr msg _); [|done].
    destruct (hasPermission now (ep_address e) a) eqn:Hp; [|done]. eauto.
  - unfold peer_data_events. destruct (relay_alloc am relay) as [a|]; [|done].
    destruct (hasPermission now (ep_address ep) a) eqn:Hp; [|done]. eauto.
Qed.

(** When client A, with a live permission for the relay address of client
    B, sends B's relay address a payload in a Send indication, the server sends
    exactly one datagram, to B; B decodes the payload from it, and as the peer
    the relay address of A. *)
Lemma relay_between_clients now ip c1 c2 a1 a2 payload n tid am out :
  reachable am → relay_address_ am = v4_to_string ip → 0 ≤ ip < 2 ^ 32 →
  client_send_ am = true →
  alloc_of am c1 = Some a1 → alloc_of am c2 = Some a2 →
  hasPermission now (v4_to_string ip) a1 = true →
  bytes_ok payload → Z.of_nat (length payload) < 65000 →
  let msg := mkTurnMessage MessageClass.Indication Method.Send n tid
    [mkAttribute AttrType.XorPeerAddress (xor_value ip (ep_port (relayedAddr a2)));
     mkAttribute AttrType.Data payload] in
  ∃ packet m, handleSend now msg c1 am = (Ok (), am, [ToClient packet c2]) ∧
    parse packet out = Ok (ParseResult.Ok, m) ∧
    msg_class m = MessageClass.Indication ∧ method m = Method.Data ∧
    peer_attr m = Some (relayedAddr a1) ∧
    attr_value <$> findAttr m AttrType.Data = Some payload.
Proof.
  cbv zeta. intros I%reachable_inv Haddr Hip Hs H1 H2 Hperm Hb Hl. set (msg := mkTurnMessage _ _ _ _ _).
  assert (Hport : ∀ c a, alloc_of am c = Some a → ∃ p, heap am !! p = Some a ∧ clientAddr a = c ∧
    by_relay_ am !! endpointKey (relayedAddr a) = Some p ∧
    relayedAddr a = mkEndpoint (v4_to_string ip) (ep_port (relayedAddr a)) ∧
    0 ≤ ep_port (relayedAddr a) < 65536).
  { intros c a (p&Hp&Ha)%alloc_of_ptr.
    destruct (inv_client _ I _ _ Hp) as (a'&?&E%endpointKey_inj&Hr). simplify_eq.
    destruct (inv_relay _ I _ _ Hr) as (a''&?&_&_&?&[? _]&_). simplify_eq.
    exists p. split_and!; try done; try lia. rewrite <-Haddr.
    match goal with |- ?r = _ => destruct r end. cbn in *. by subst. }
  destruct (Hport c1 a1 H1) as (p1&Hp1&_&_&E1&B1). destruct (Hport c2 a2 H2) as (p2&Hp2&Hc2&Hr2&E2&B2).
  assert (Hpeer : peer_attr msg = Some (relayedAddr a2)).
  { unfold peer_attr. change (findAttr msg AttrType.XorPeerAddress) with
      (Some (mkAttribute AttrType.XorPeerAddress (xor_value ip (ep_port (relayedAddr a2))))).
    cbn [mbind option_bind compose attr_value]. rewrite peer_of_xor_value by done. by rewrite <-E2. }
  assert (Hev : send_events now msg c1 am =
    [ToClient (make_data_indication zero_tid ip (ep_port (relayedAddr a1)) payload) c2]).
  { unfold send_events. rewrite H1, Hpeer.
    change (findAttr msg AttrType.Data) with (Some (mkAttribute AttrType.Data payload)). cbn [attr_value].
    replace (ep_address (relayedAddr a2)) with (v4_to_string ip) by (by rewrite E2).
    replace (ep_address (relayedAddr a1)) with (v4_to_string ip) by (by rewrite E1).
    rewrite Hperm. unfold relay_alloc, findByRelay. rewrite Hr2. cbn [mbind option_bind].
    rewrite Hp2, Hs, address_or_zero_v4, Hc2 by done. done. }
  do 2 eexists. split_and!.
  - destruct (wp_run _ _ _ (wp_handleSend now msg c1 am I)) as ([]&am'&ev&E&->&->). by rewrite E, Hev.
  - by apply parse_data_indication.
  - done.
  - done.
  - unfold peer_attr. cbn [findAttr attributes List.find attr_type]. rewrite bool_decide_true by done.
    cbn [mbind option_bind compose attr_value]. rewrite peer_of_xor_value by done. by rewrite <-E1.
  - done.
Qed.
End properties.

(** ** The properties at concrete inputs

    A server on 192.168.1.20 with two clients; the first one may send to the
    relay address. *)
Section reachable_runs.
Context `{BoostAddressSpec} `{!IterOrder string ptr} `{!IterOrder Z ChannelBinding}.

Lemma reachable_new addr pmin pmax q : 0 ≤ q < 2 ^ 32 →
  reachable (newAllocationManager addr pmin pmax q).
Proof. intros. exists addr, pmin, pmax, q. by split; [|apply rtc_refl]. Qed.

Lemma reachable_step am am' : reachable am → am_step am am' → reachable am'.
Proof. intros (addr&pmin&pmax&q&?&?) Hs. exists addr, pmin, pmax, q. split; [done|]. by eapply rtc_r. Qed.

Lemma reachable_allocate dist now msg client user rlm am : reachable am → draws_ok am dist →
  reachable (out_state (handleAllocate dist now msg client user rlm am)).
Proof.
  intros Hr Hd. destruct (wp_run _ _ _ (wp_handleAllocate dist now msg client user rlm am
    (reachable_inv am Hr) Hd)) as (r&am'&ev&E&_). rewrite E. by eapply reachable_step, step_allocate.
Qed.

Lemma reachable_permission clk msg client am : reachable am →
  reachable (out_state (handleCreatePermission clk msg client am)).
Proof.
  intros Hr. destruct (wp_run _ _ _ (wp_handleCreatePermission clk msg client am
    (reachable_inv am Hr))) as (r&am'&ev&E&_). rewrite E. by eapply reachable_step, step_permission.
Qed.

Lemma reachable_callbacks am : reachable am →
  reachable (setPeerSendCallback (setClientSendCallback am)).
Proof. intros Hr. by eapply reachable_step, step_callbacks. Qed.
End reachable_runs.

Module example.
#[local] Instance clients_order : IterOrder string ptr := list_order string ptr.
#[local] Instance channels_order : IterOrder Z ChannelBinding := list_order Z ChannelBinding.

Definition request (m : Method) (l : list Attribute) : TurnMessage :=
  mkTurnMessage MessageClass.Request m 0 (replicate 12 1) l.
Definition c1 : Endpoint := mkEndpoint "10.1.1.1" 1111.
Definition c2 : Endpoint := mkEndpoint "10.1.1.2" 2222.
Definition allocate_msg : TurnMessage :=
  request Method.Allocate [mkAttribute AttrType.RequestedTransport [17; 0; 0; 0]].
Definition peer_value : bytes := xor_value 0xC0A80114 0.
Definition permission_msg : TurnMessage :=
  request Method.CreatePermission [mkAttribute AttrType.XorPeerAddress peer_value].

(** The [k]-th draw is [k]. *)
Definition draws (hi : Z) (k : nat) : Z := Z.min hi (Z.of_nat k).

Definition am0 : AllocationManager :=
  setPeerSendCallback (setClientSendCallback (newAllocationManager "192.168.1.20" 49152 65535 10)).
Definition am1 : AllocationManager := out_state (handleAllocate draws 5 allocate_msg c1 "9:a" "chat" am0).
Definition am2 : AllocationManager := out_state (handleAllocate draws 6 allocate_msg c2 "9:b" "chat" am1).
Definition am3 : AllocationManager := out_state (handleCreatePermission (λ _, 7) permission_msg c1 am2).
Definition alloc (c : Endpoint) : Allocation :=
  default (mkAllocation 0 c c "" "" 0 ∅ ∅) (alloc_of am3 c).

Lemma draws_draws_ok am : draws_ok am draws.
Proof.
  unfold draws_ok, draws. cbv zeta. set (hi := u16 _).
  assert (0 ≤ hi) by (unfold hi, u16; apply Z.mod_pos_bound; lia). lia.
Qed.

Lemma am3_reachable : reachable am3.
Proof.
  apply reachable_permission, reachable_allocate, draws_draws_ok.
  apply reachable_allocate, draws_draws_ok. apply reachable_callbacks, reachable_new. lia.
Qed.

Lemma allocations_safe_witness :
  alloc_of am3 c1 = Some (alloc c1) ∧
  ∀ b2 a2, alloc_of am3 b2 = Some a2 → relayedAddr (alloc c1) = relayedAddr a2 → c1 = b2.
Proof.
  assert (E : alloc_of am3 c1 = Some (alloc c1)) by (vm_compute; reflexivity).
  split; [exact E|]. intros b2 a2. exact (proj1 (proj2 (allocations_safe am3 am3_reachable)) c1 b2 _ a2 E).
Defined.

Lemma handleAllocate_correct_witness :
  ∃ r am', handleAllocate draws 5 allocate_msg c1 "9:a" "chat" am0 = (Ok r, am', []) ∧
    allocate_post draws 5 allocate_msg c1 "9:a" "chat" am0 r am'.
Proof.
  apply handleAllocate_correct; [|apply draws_draws_ok].
  apply reachable_callbacks, reachable_new. lia.
Defined.

Lemma handleRefresh_correct_witness :
  ∃ r am', handleRefresh 9 (request Method.Refresh []) c1 "9:a" am3 = (Ok r, am', []) ∧
    refresh_post 9 (request Method.Refresh []) c1 "9:a" am3 r am'.
Proof. apply handleRefresh_correct, am3_reachable. Defined.

Lemma handleCreatePermission_correct_witness :
  ∃ r am', handleCreatePermission (λ _, 9) permission_msg c2 am3 = (Ok r, am', []) ∧
    permission_post (λ _, 9) permission_msg c2 am3 r am'.
Proof. apply handleCreatePermission_correct, am3_reachable. Defined.

Definition bind_msg : TurnMessage :=
  request Method.ChannelBind [mkAttribute AttrType.ChannelNumber [0x40; 1; 0; 0];
    mkAttribute AttrType.XorPeerAddress peer_value].
Lemma handleChannelBind_correct_witness :
  ∃ r am', handleChannelBind 9 9 bind_msg c2 am3 = (Ok r, am', []) ∧
    channel_post 9 9 bind_msg c2 am3 r am'.
Proof. apply handleChannelBind_correct, am3_reachable. Defined.

Lemma data_relayed_with_permission_witness :
  handleSend 9 permission_msg c1 am3 = (Ok (), am3, send_events 9 permission_msg c1 am3).
Proof.
  exact (proj1 (data_relayed_with_permission 9 (λ _, 9) permission_msg c1 [1] c2 c1 am3 am3_reachable)).
Defined.

(** The ports drawn are 49152 for the first client; the second one draws it
    again before a free one. *)
Example ports_ex : ep_port (relayedAddr (alloc c1)) = 49152 ∧ ep_port (relayedAddr (alloc c2)) = 49153 ∧
  hasPermission 9 "192.168.1.20" (alloc c1) = true ∧
  hasPermission (7 + seconds 300) "192.168.1.20" (alloc c1) = false.
Proof. by vm_compute. Qed.
End example.
