(* ===== verification/Dispatcher.v ===== *)
(** * The dispatcher of the TURN server (src/turn_server/src/core/turn_dispatcher.cpp)

    Every packet that any of the four transports of main.cpp receives goes to
    [onPacket]: ChannelData is relayed, a STUN message is parsed, authenticated
    and handed to the allocation manager, and the reply is signed and sent back.
    The server runs these one after the other, on one thread.

    The computation works on the dispatcher's objects and emits the datagrams
    sent and the lines logged.  What it reads from outside (clocks, random
    numbers) is the record [Inputs].  [send] of the transport is an event here: what
    becomes of it is in Udp ([on_datagram]), Streams ([session_send]) and Dtls. *)

From S2P Require Export AllocationManager Credentials.

(** The transports that main.cpp creates. *)
Inductive Transport := UdpTransport | TcpTransport | TlsTransport | DtlsTransport.
#[export] Instance Transport_eq_dec : EqDecision Transport.
Proof. solve_decision. Defined.

Inductive Event :=
  | Send (transport : Transport) (data : bytes) (to : Endpoint)
  | LogInfo (line : string)
  | LogError (line : string).

Record TurnDispatcher := mkTurnDispatcher {
  long_term_cred_ : LongTermCred.LongTermCred;
  alloc_manager_ : AllocationManager;
  current_transport_ : option Transport;
}.

(** The readings made while a packet is handled: the steady clock by the nonce
    check, the challenge and the allocations, the system clock by the username
    check, the draws of [RAND_bytes] and of the port numbers. *)
Record Inputs := mkInputs {
  in_steady : Z;
  in_challenge : Z;
  in_now : Z;
  in_clk : nat → Z;
  in_rand : nat → option bytes;
  in_dist : Z → nat → Z;
}.

Section TurnDispatcher.
Context `{OpenSSL} `{BoostAddress} `{!IterOrder string ptr} `{!IterOrder Z ChannelBinding}.

Abbreviation M := (eff TurnDispatcher Event).

Definition newTurnDispatcher (rlm shared_secret relay_address : string) (port_min port_max : Z) :
    TurnDispatcher :=
  mkTurnDispatcher
    (LongTermCred.mkLongTermCred rlm (newNonceManager 3600) (HmacValidator.mkHmacValidator shared_secret))
    (setPeerSendCallback (setClientSendCallback
      (newAllocationManager relay_address port_min port_max 10)))
    None.

(** The two callbacks given to the allocation manager. *)
Definition callback (current : option Transport) (ev : Sent) : list Event :=
  match current, ev with
  | Some t, ToClient data to => [Send t data to]
  | Some t, ToPeer data to => [Send t data to]
  | None, _ => []
  end.

(** A call of a method of [alloc_manager_]. *)
Definition alloc_call {A} (m : eff AllocationManager Sent A) : M A := λ s,
  let '(r, am, ev) := m (alloc_manager_ s) in
  (r, mkTurnDispatcher (long_term_cred_ s) am (current_transport_ s),
   concat (map (callback (current_transport_ s)) ev)).

Definition challenge_call (env : Inputs) : M (string * string) := λ s,
  let nm := LongTermCred.nonce_manager_ (long_term_cred_ s) in
  let '(r, ltc) := LongTermCred.makeChallenge (S (size (store_ nm))) (in_rand env) (in_challenge env)
                     (long_term_cred_ s) in
  (r, mkTurnDispatcher ltc (alloc_manager_ s) (current_transport_ s), []).

Definition set_transport (t : Transport) : M () :=
  s ← get; put (mkTurnDispatcher (long_term_cred_ s) (alloc_manager_ s) (Some t)).

Definition send (transport : Transport) (to : Endpoint) (data : bytes) : M () :=
  emit (Send transport data to).

Definition signResponse (ltc : LongTermCred.LongTermCred) (resp : bytes) (user password : string) :
    result bytes :=
  if (length resp <? 20)%nat then mret resp else
  r0 ← rd resp 0; r1 ← rd resp 1;
  let type := be16 r0 r1 in
  if negb (bool_decide (decodeClass type = MessageClass.SuccessResponse)) then mret resp else
  let key := crypto.long_term_key_md5 user (LongTermCred.realm_ ltc) password in
  let mi_pos := length resp in
  let adjusted_len := u16 (Z.of_nat (mi_pos - 20 + 4 + 20)) in
  let buf := LongTermCred.set_length adjusted_len resp in
  mi ← crypto.hmac_sha1 key (string_of_bytes buf);
  let res := LongTermCred.set_length adjusted_len resp in
  mret (res ++ [0x00; 0x08] ++ [0x00; 0x14] ++ mi).

Definition endpoint_text (ep : Endpoint) : string := ep_address ep +:+ ":" +:+ to_string (ep_port ep).

(** The reply that carries a challenge. *)
Definition challenge_reply (msg : TurnMessage) (code : Z) (reason rlm nonce : string) : bytes :=
  newBuilder (method msg) MessageClass.ErrorResponse (transaction_id msg)
    |> addErrorCode code reason
    |> addAttr AttrType.Realm (bytes_of_string rlm)
    |> addAttr AttrType.Nonce (bytes_of_string nonce)
    |> build.

(** The log line of an Allocate request parses the reply for its class, which
    has no value when the parser stops before it reads one. *)
Definition log_allocate (resp : bytes) (user : string) (from : Endpoint) : M () :=
  if (2 <=? length resp)%nat then
    '(res, r) ← lift (parse resp empty_message);
    if bool_decide (res = ParseResult.TooShort) || bool_decide (res = ParseResult.NotTurnMessage)
    then lift (Err Undefined) else
    if bool_decide (msg_class r = MessageClass.SuccessResponse)
    then emit (LogInfo ("[turn] allocate success user=" +:+ user +:+ " client=" +:+ endpoint_text from))
    else emit (LogError ("[turn] allocate failed user=" +:+ user +:+ " client=" +:+ endpoint_text from))
  else mret ().

Definition handleStun (env : Inputs) (msg : TurnMessage) (raw : bytes) (from : Endpoint)
    (transport : Transport) : M () :=
  set_transport transport;;
  if bool_decide (msg_class msg = MessageClass.Indication) then
    if bool_decide (method msg = Method.Send) then alloc_call (handleSend (in_clk env 0) msg from)
    else mret ()
  else
  s ← get;
  allocated_username ←
    (if bool_decide (method msg ≠ Method.Allocate) then
       match findByClient (alloc_manager_ s) from with
       | Some p => alloc ← alloc_call (deref p); mret (username alloc)
       | None => mret ""
       end
     else mret "");
  auth_result ← lift (LongTermCred.authenticate (long_term_cred_ s) (in_steady env) (in_now env)
                        msg raw allocated_username);
  match auth_result with
  | AuthResult.MissingCredentials =>
      '(rlm, nonce) ← challenge_call env;
      send transport from (challenge_reply msg 401 "Unauthorized" rlm nonce)
  | AuthResult.StaleNonce =>
      '(rlm, nonce) ← challenge_call env;
      send transport from (challenge_reply msg 438 "Stale Nonce" rlm nonce)
  | AuthResult.BadIntegrity | AuthResult.CredentialsExpired =>
      '(rlm, nonce) ← challenge_call env;
      emit (LogError ("[turn] auth failed (bad integrity/expired) from " +:+ endpoint_text from));;
      send transport from (challenge_reply msg 401 "Unauthorized" rlm nonce)
  | AuthResult.WrongCredentials =>
      emit (LogError ("[turn] auth failed (wrong credentials) from " +:+ endpoint_text from));;
      send transport from (make_error (transaction_id msg) 441 "Wrong Credentials")
  | AuthResult.Ok =>
      let user := match findAttr msg AttrType.Username with
        | Some a => string_of_bytes (attr_value a) | None => "" end in
      password ← lift (HmacValidator.getPassword
                         (LongTermCred.hmac_validator_ (long_term_cred_ s)) user);
      resp ← match method msg with
        | Method.Allocate =>
            resp ← alloc_call (handleAllocate (in_dist env) (in_clk env 0) msg from user
                                 (LongTermCred.realm_ (long_term_cred_ s)));
            log_allocate resp user from;;
            mret resp
        | Method.Refresh => alloc_call (handleRefresh (in_clk env 0) msg from user)
        | Method.CreatePermission => alloc_call (handleCreatePermission (in_clk env) msg from)
        | Method.ChannelBind => alloc_call (handleChannelBind (in_clk env 0) (in_clk env 1) msg from)
        | _ => mret (make_error (transaction_id msg) 400 "Bad Request")
        end;
      if bool_decide (resp ≠ []) then
        signed ← lift (signResponse (long_term_cred_ s) resp user password);
        send transport from signed
      else mret ()
  end.

(** The first channel bound to [relayed], in the order of the map; 0 if none. *)
Fixpoint channel_to (relayed : Endpoint) (l : list (Z * ChannelBinding)) : Z :=
  match l with
  | [] => 0
  | (num, bind) :: l => if endpoint_eqb (peer bind) relayed then num else channel_to relayed l
  end.

Definition handleChannelData (env : Inputs) (data : bytes) (from : Endpoint) (transport : Transport) :
    M () :=
  '(r, ch) ← lift (parse_channel_data data (mkChannelData 0 []));
  if negb (bool_decide (r = ChannelDataResult.Ok)) then mret () else
  s ← get;
  match findByClient (alloc_manager_ s) from with
  | None => mret ()
  | Some p =>
      alloc ← alloc_call (deref p);
      match channels alloc !! channel_number ch with
      | None => mret ()
      | Some binding =>
          let ep := peer binding in
          if negb (hasPermission (in_clk env 0) (ep_address ep) alloc)
          then emit (LogError ("[turn] channel data denied: no permission for " +:+ ep_address ep)) else
          match findByRelay (alloc_manager_ s) ep with
          | Some q =>
              peer_alloc ← alloc_call (deref q);
              let peer_channel := channel_to (relayedAddr alloc) (iter (channels peer_alloc)) in
              if negb (peer_channel =? 0) then
                send transport (clientAddr peer_alloc) (make_channel_data peer_channel (ch_data ch))
              else
                match make_address_v4 (ep_address (relayedAddr alloc)) with
                | Some ip =>
                    send transport (clientAddr peer_alloc)
                      (make_data_indication zero_tid ip (ep_port (relayedAddr alloc)) (ch_data ch))
                | None => mret ()
                end
          | None => send transport ep (ch_data ch)
          end
      end
  end.

Definition onPacket (env : Inputs) (data : bytes) (from : Endpoint) (transport : Transport) : M () :=
  if (length data =? 0)%nat then mret () else
  d0 ← lift (rd data 0);
  if d0 .& 0xC0 =? 0x40 then handleChannelData env data from transport else
  if d0 .& 0xC0 =? 0x00 then
    '(res, msg) ← lift (parse data empty_message);
    if negb (bool_decide (res = ParseResult.Ok))
    then emit (LogError ("[turn] parse failed from " +:+ endpoint_text from))
    else handleStun env msg data from transport
  else mret ().
End TurnDispatcher.
