(* ===== verification/DispatcherFacts.v ===== *)
(** * What the dispatcher does with a packet

    [stun_post] and [channel_data_events] specify the handling of a STUN
    message and of ChannelData; the lemmas show that the code returns and meets
    them from every state that satisfies the invariant. *)

From S2P Require Export Dispatcher Relay Codec CredentialFacts Auth.

(** ** Specifications *)

(** The datagrams among the events. *)
Definition datagrams (ev : list Event) : list (Transport * bytes * Endpoint) :=
  omap (λ e, match e with Send t data to => Some (t, data, to) | _ => None end) ev.

Definition disp_inv `{BoostAddress} (d : TurnDispatcher) : Prop :=
  am_inv (alloc_manager_ d) ∧ client_send_ (alloc_manager_ d) = true ∧
  peer_send_ (alloc_manager_ d) = true.

(** The readings are what the libraries document: port draws in range, and
    distinct blocks of 16 random bytes. *)
Definition inputs_ok (env : Inputs) (d : TurnDispatcher) : Prop :=
  let n := size (store_ (LongTermCred.nonce_manager_ (long_term_cred_ d))) in
  draws_ok (alloc_manager_ d) (in_dist env) ∧
  (∀ i, (i ≤ n)%nat → ∃ buf, in_rand env i = Some buf ∧ bytes_ok buf ∧ length buf = 16%nat) ∧
  (∀ i j, (i < j ≤ n)%nat → in_rand env i ≠ in_rand env j).

(** The same, but [RAND_bytes] may fail. *)
Definition inputs_sound (env : Inputs) (d : TurnDispatcher) : Prop :=
  let n := size (store_ (LongTermCred.nonce_manager_ (long_term_cred_ d))) in
  draws_ok (alloc_manager_ d) (in_dist env) ∧
  (∀ i buf, (i ≤ n)%nat → in_rand env i = Some buf → bytes_ok buf ∧ length buf = 16%nat) ∧
  (∀ i j, (i < j ≤ n)%nat → is_Some (in_rand env i) → in_rand env i ≠ in_rand env j).

(** The exception of a failed [RAND_bytes]: nothing is sent, and nothing changes but
    the transport that was noted. *)
Definition rand_failed (env : Inputs) (t : Transport) (d : TurnDispatcher) (e : error) (d' : TurnDispatcher)
    (ev : list Event) : Prop :=
  e = Thrown RuntimeError "RAND_bytes failed" ∧
  (∃ i, (i ≤ size (store_ (LongTermCred.nonce_manager_ (long_term_cred_ d))))%nat ∧ in_rand env i = None) ∧
  d' = mkTurnDispatcher (long_term_cred_ d) (alloc_manager_ d) (Some t) ∧ datagrams ev = [].

(** The owner of the sender's allocation, where the code looks it up. *)
Definition owner (d : TurnDispatcher) (msg : TurnMessage) (from : Endpoint) : string :=
  if bool_decide (method msg ≠ Method.Allocate) then
    match alloc_of (alloc_manager_ d) from with Some a => username a | None => "" end
  else "".

Definition user_of (msg : TurnMessage) : string := default "" (attr_string msg AttrType.Username).

(** A fresh nonce, the hexadecimal text of a block that was drawn, is stored, and
    nothing else changes. *)
Definition challenged (env : Inputs) (t : Transport) (nonce : string) (d d' : TurnDispatcher) : Prop :=
  let nm := LongTermCred.nonce_manager_ (long_term_cred_ d) in
  let nm' := LongTermCred.nonce_manager_ (long_term_cred_ d') in
  alloc_manager_ d' = alloc_manager_ d ∧ current_transport_ d' = Some t ∧
  LongTermCred.realm_ (long_term_cred_ d') = LongTermCred.realm_ (long_term_cred_ d) ∧
  LongTermCred.hmac_validator_ (long_term_cred_ d') = LongTermCred.hmac_validator_ (long_term_cred_ d) ∧
  String.length nonce = 32%nat ∧ store_ nm !! nonce = None ∧
  (∀ time, isValid time nonce nm' = (time <? in_challenge env + seconds (ttl_ nm))) ∧
  (∀ time n, n ≠ nonce → isValid time n nm' = isValid time n nm) ∧ ttl_ nm' = ttl_ nm ∧
  ∃ i buf, (i ≤ size (store_ nm))%nat ∧ in_rand env i = Some buf ∧ nonce = hex_bytes buf.

Section spec.
Context `{OpenSSL} `{BoostAddress} `{!IterOrder string ptr} `{!IterOrder Z ChannelBinding}.

(** The work of the method, by the allocation manager. *)
Definition handled (env : Inputs) (msg : TurnMessage) (from : Endpoint) (user rlm : string)
    (am : AllocationManager) (resp : bytes) (am' : AllocationManager) : Prop :=
  match method msg with
  | Method.Allocate => allocate_post (in_dist env) (in_clk env 0) msg from user rlm am resp am'
  | Method.Refresh => refresh_post (in_clk env 0) msg from user am resp am'
  | Method.CreatePermission => permission_post (in_clk env) msg from am resp am'
  | Method.ChannelBind => channel_post (in_clk env 0) (in_clk env 1) msg from am resp am'
  | _ => am' = am ∧ resp = make_error (transaction_id msg) 400 "Bad Request"
  end.

Definition stun_post (env : Inputs) (msg : TurnMessage) (raw : bytes) (from : Endpoint) (t : Transport)
    (d d' : TurnDispatcher) (ev : list Event) : Prop :=
  let ltc := long_term_cred_ d in
  let am := alloc_manager_ d in
  let challenge_with code reason := ∃ nonce, challenged env t nonce d d' ∧
    datagrams ev = [(t, challenge_reply msg code reason (LongTermCred.realm_ ltc) nonce, from)] in
  if bool_decide (msg_class msg = MessageClass.Indication) then
    d' = mkTurnDispatcher ltc am (Some t) ∧
    ev = if bool_decide (method msg = Method.Send)
         then concat (map (callback (Some t)) (send_events (in_clk env 0) msg from am)) else []
  else
  ∃ res, LongTermCred.authenticate ltc (in_steady env) (in_now env) msg raw (owner d msg from) = Ok res ∧
  match res with
  | AuthResult.MissingCredentials => challenge_with 401 "Unauthorized"
  | AuthResult.StaleNonce => challenge_with 438 "Stale Nonce"
  | AuthResult.BadIntegrity | AuthResult.CredentialsExpired => challenge_with 401 "Unauthorized"
  | AuthResult.WrongCredentials =>
      d' = mkTurnDispatcher ltc am (Some t) ∧
      datagrams ev = [(t, make_error (transaction_id msg) 441 "Wrong Credentials", from)]
  | AuthResult.Ok =>
      ∃ password resp am' signed,
        HmacValidator.getPassword (LongTermCred.hmac_validator_ ltc) (user_of msg) = Ok password ∧
        handled env msg from (user_of msg) (LongTermCred.realm_ ltc) am resp am' ∧
        signResponse ltc resp (user_of msg) password = Ok signed ∧
        d' = mkTurnDispatcher ltc am' (Some t) ∧ datagrams ev = [(t, signed, from)]
  end.

(** Where ChannelData goes, and as what. *)
Definition channel_data_events (now : Z) (data : bytes) (from : Endpoint) (t : Transport)
    (am : AllocationManager) (ch : ChannelDataMessage) : list (Transport * bytes * Endpoint) :=
  match alloc_of am from with
  | Some a =>
      match channels a !! channel_number ch with
      | Some binding =>
          let ep := peer binding in
          if hasPermission now (ep_address ep) a then
            match relay_alloc am ep with
            | Some b =>
                let n := channel_to (relayedAddr a) (iter (channels b)) in
                if n =? 0 then
                  match make_address_v4 (ep_address (relayedAddr a)) with
                  | Some ip => [(t, make_data_indication zero_tid ip (ep_port (relayedAddr a)) (ch_data ch),
                                 clientAddr b)]
                  | None => []
                  end
                else [(t, make_channel_data n (ch_data ch), clientAddr b)]
            | None => [(t, ch_data ch, ep)]
            end
          else []
      | None => []
      end
  | None => []
  end.
End spec.

(** ** Replies *)

Section replies.
Context `{BoostAddress}.

Lemma is_reply_success m tid :
  is_reply (success_reply m tid) m MessageClass.SuccessResponse tid [].
Proof. split_and!; [done|constructor|done]. Qed.

Lemma lifetime_ok lifetime : attr_ok (mkAttribute AttrType.Lifetime (put32 lifetime)).
Proof. split_and!; try done. apply put32_ok. Qed.

Lemma is_reply_lifetime m tid lifetime :
  is_reply (lifetime_reply m tid lifetime) m MessageClass.SuccessResponse tid
    [mkAttribute AttrType.Lifetime (put32 lifetime)].
Proof. split_and!; [done|constructor; [apply lifetime_ok|constructor]|done]. Qed.

Definition allocate_attrs (relayed client : Endpoint) (lifetime : Z) : list Attribute :=
  [mkAttribute AttrType.XorRelayedAddress
     (xor_value (address_or_zero (ep_address relayed)) (ep_port relayed));
   mkAttribute AttrType.XorMappedAddress
     (xor_value (address_or_zero (ep_address client)) (ep_port client));
   mkAttribute AttrType.Lifetime (put32 lifetime)].

Lemma is_reply_allocate tid relayed client lifetime :
  is_reply (allocate_reply tid relayed client lifetime) Method.Allocate MessageClass.SuccessResponse tid
    (allocate_attrs relayed client lifetime).
Proof.
  split_and!; [done| |done].
  constructor; [by apply xor_value_ok|]. constructor; [by apply xor_value_ok|].
  constructor; [apply lifetime_ok|constructor].
Qed.
End replies.

(** A reply that the server signs: no integrity attribute in it yet. *)
Definition unsigned_reply (r : bytes) (msg : TurnMessage) : Prop :=
  ∃ m c l, is_reply r m c (transaction_id msg) l ∧
    Forall (λ a, attr_type a ≠ AttrType.MessageIntegrity) l ∧
    (c = MessageClass.ErrorResponse ∧ m = Method.Allocate ∨
     c = MessageClass.SuccessResponse ∧ m = method msg).

Section replies.
Context `{OpenSSLSpec} `{BoostAddressSpec} `{!IterOrder string ptr} `{!IterOrder Z ChannelBinding}.

Lemma unsigned_error msg code reason : 0 ≤ code < 800 → Z.of_nat (String.length reason) < 1000 →
  unsigned_reply (make_error (transaction_id msg) code reason) msg.
Proof.
  intros. do 3 eexists. split; [by apply is_reply_error|]. split; [by repeat constructor|by left].
Qed.

Lemma unsigned_success m msg l r : method msg = m →
  is_reply r m MessageClass.SuccessResponse (transaction_id msg) l →
  Forall (λ a, attr_type a ≠ AttrType.MessageIntegrity) l → unsigned_reply r msg.
Proof. intros <- ??. do 3 eexists. split; [done|]. split; [done|by right]. Qed.

Lemma handled_unsigned env msg from user rlm am resp am' :
  handled env msg from user rlm am resp am' → unsigned_reply resp msg.
Proof.
  unfold handled. destruct (method msg) eqn:Hm.
  - unfold allocate_post. case_bool_decide; [by intros [_ ->]; apply unsigned_error|].
    destruct (findAttr _ _); [|by intros [_ ->]; apply unsigned_error].
    do 2 (case_match; [by intros [_ ->]; apply unsigned_error|]).
    intros [[[_ ->] _]|(k&_&_&_&->&_)]; [by apply unsigned_error|].
    eapply unsigned_success; [done|apply is_reply_allocate|by repeat constructor].
  - unfold refresh_post. destruct (alloc_of am from); [|by intros [_ ->]; apply unsigned_error].
    case_decide; [by intros [_ ->]; apply unsigned_error|].
    case_decide; intros (->&_); eapply unsigned_success;
      [done|apply is_reply_lifetime|by repeat constructor|done|apply is_reply_lifetime|by repeat constructor].
  - intros [_ ->]. by apply unsigned_error.
  - intros [_ ->]. by apply unsigned_error.
  - unfold permission_post. destruct (alloc_of am from); [|by intros [_ ->]; apply unsigned_error].
    intros [-> _]. case_match; [by apply unsigned_error|]. case_bool_decide; [by apply unsigned_error|].
    eapply unsigned_success; [done|apply is_reply_success|constructor].
  - unfold channel_post. destruct (alloc_of am from); [|by intros [_ ->]; apply unsigned_error].
    destruct (channel_attr msg), (peer_attr msg); try by intros [_ ->]; apply unsigned_error.
    do 2 (case_match; [by intros [_ ->]; apply unsigned_error|]).
    intros [[_ [_ ->]]|(_&->&_)]; [by apply unsigned_error|].
    eapply unsigned_success; [done|apply is_reply_success|constructor].
  - intros [_ ->]. by apply unsigned_error.
Qed.

Lemma handled_config env msg from user rlm am resp am' :
  handled env msg from user rlm am resp am' → same_config am am'.
Proof.
  unfold handled. destruct (method msg); try by intros [-> _].
  - unfold allocate_post. case_bool_decide; [by intros [-> _]|].
    destruct (findAttr _ _); [|by intros [-> _]]. do 2 (case_match; [by intros [-> _]|]).
    by intros [[[-> _] _]|(k&_&_&_&_&_&?&_)].
  - unfold refresh_post. destruct (alloc_of am from); [|by intros [-> _]].
    case_decide; [by intros [-> _]|]. case_decide; by intros (_&(_&?&_)&_).
  - unfold permission_post. destruct (alloc_of am from); [|by intros [-> _]].
    by intros (_&a'&(_&?&_)&_).
  - unfold channel_post. destruct (alloc_of am from); [|by intros [-> _]].
    destruct (channel_attr msg), (peer_attr msg); try by intros [-> _].
    do 2 (case_match; [by intros [-> _]|]). by intros [(_&->&_)|(_&_&(_&?&_)&_)].
Qed.

Lemma handled_inv env msg from user rlm am resp am' :
  am_inv am → handled env msg from user rlm am resp am' → am_inv am'.
Proof.
  unfold handled. intros I. destruct (method msg); try by intros [-> _].
  - by apply allocate_post_inv.
  - by apply refresh_post_inv.
  - by apply permission_post_inv.
  - by apply channel_post_inv.
Qed.
End replies.

(** ** Signing *)
Section signing.
Context `{OpenSSLSpec}.

Lemma is_reply_bytes r m c tid l : is_reply r m c tid l →
  r = header (encodeType m c) (Z.of_nat (length (attrs_bytes l))) tid ++ attrs_bytes l.
Proof.
  intros (->&Hok&Hl). destruct (add_attrs_spec (newBuilder m c tid) l Hok) as (Hb&Ht&Hi).
  rewrite build_header, Hb, Ht, Hi. cbn [newBuilder attrs_buf_ msg_type_ transaction_id_ app].
  by rewrite u16_small by lia.
Qed.

Lemma signResponse_unfold ltc r m c tid l user password :
  length tid = 12%nat → is_reply r m c tid l →
  signResponse ltc r user password =
    if negb (bool_decide (c = MessageClass.SuccessResponse)) then Ok r else
    mi ← crypto.hmac_sha1 (crypto.long_term_key_md5 user (LongTermCred.realm_ ltc) password)
           (string_of_bytes (md5_text (encodeType m c) tid l));
    Ok (md5_text (encodeType m c) tid l ++ [0x00; 0x08] ++ [0x00; 0x14] ++ mi).
Proof.
  intros Htid Hr. pose proof Hr as (_&_&Hl). rewrite (is_reply_bytes r m c tid l Hr).
  set (ty := encodeType m c). set (len := Z.of_nat (length (attrs_bytes l))).
  assert (Hlen : length (header ty len tid ++ attrs_bytes l) = (20 + length (attrs_bytes l))%nat).
  { by rewrite length_app, length_header. }
  unfold signResponse. rewrite Hlen.
  destruct (Nat.ltb_spec (20 + length (attrs_bytes l)) 20); [lia|].
  change (rd (header ty len tid ++ _) 0) with (Ok (byte_of ty 8)).
  change (rd (header ty len tid ++ _) 1) with (Ok (byte_of ty 0)). rsimpl. cbv zeta.
  pose proof (encodeType_bound m c). rewrite be16_put16 by (unfold ty; lia).
  replace (decodeClass ty) with c by (unfold ty; by rewrite decodeClass_encodeType). case_match; [done|].
  replace (20 + length (attrs_bytes l) - 20 + 4 + 20)%nat with (length (attrs_bytes l) + 24)%nat by lia.
  rewrite u16_small by lia. by rewrite set_length_header.
Qed.

Lemma signResponse_error ltc r m tid l user password :
  length tid = 12%nat → is_reply r m MessageClass.ErrorResponse tid l →
  signResponse ltc r user password = Ok r.
Proof. intros Htid Hr. by rewrite (signResponse_unfold _ _ _ _ _ _ _ _ Htid Hr). Qed.

Lemma signResponse_success ltc r m tid l user password :
  length tid = 12%nat → is_reply r m MessageClass.SuccessResponse tid l →
  ∃ mac, crypto.hmac_sha1 (crypto.long_term_key_md5 user (LongTermCred.realm_ ltc) password)
           (string_of_bytes (md5_text (encodeType m MessageClass.SuccessResponse) tid l)) = Ok mac ∧
    length mac = 20%nat ∧ bytes_ok mac ∧
    signResponse ltc r user password =
      Ok (build (add_attrs (newBuilder m MessageClass.SuccessResponse tid)
            (l ++ [mkAttribute AttrType.MessageIntegrity mac]))).
Proof.
  intros Htid Hr. rewrite (signResponse_unfold _ _ _ _ _ _ _ _ Htid Hr).
  rewrite bool_decide_true by done. cbn [negb].
  destruct (hmac_sha1_Ok (crypto.long_term_key_md5 user (LongTermCred.realm_ ltc) password)
    (string_of_bytes (md5_text (encodeType m MessageClass.SuccessResponse) tid l))) as (mac&->&Hl&Hb).
  exists mac. split_and!; [done..|]. cbn [mbind result_bind]. f_equal.
  destruct Hr as (_&Hok&Hlen).
  destruct (sealed_build m MessageClass.SuccessResponse tid l mac [] empty_message)
    as [_ E]; [done..|lia|]. rewrite app_nil_r in E. rewrite E.
  unfold sealed, md5_text. rewrite app_nil_r, Nat2Z.inj_add, <-app_assoc. done.
Qed.

Lemma signResponse_Ok ltc r msg user password :
  length (transaction_id msg) = 12%nat → unsigned_reply r msg →
  ∃ signed, signResponse ltc r user password = Ok signed.
Proof.
  intros Htid (m&c&l&Hr&_&[[-> _]|[-> _]]).
  - rewrite (signResponse_error _ _ _ _ _ _ _ Htid Hr). eauto.
  - destruct (signResponse_success ltc r m _ l user password Htid Hr) as (mac&_&_&_&->). eauto.
Qed.
End signing.

(** ** The handlers *)
Section handlers.
Context `{OpenSSLSpec} `{BoostAddressSpec} `{!IterOrder string ptr} `{!IterOrder Z ChannelBinding}.

Lemma wp_alloc_call {A} (m : eff AllocationManager Sent A) (Q : A → TurnDispatcher → list Event → Prop) d :
  wp m (λ a am ev, Q a (mkTurnDispatcher (long_term_cred_ d) am (current_transport_ d))
    (concat (map (callback (current_transport_ d)) ev))) (alloc_manager_ d) →
  wp (alloc_call m) Q d.
Proof. unfold wp, alloc_call. by destruct (m (alloc_manager_ d)) as [[[a|e] am] ev]. Qed.

(** A challenge is made, or [RAND_bytes] fails. *)
Lemma challenge_cases env t d : inputs_sound env d →
  let d1 := mkTurnDispatcher (long_term_cred_ d) (alloc_manager_ d) (Some t) in
  wp (challenge_call env) (λ out d' ev, ev = [] ∧
    out.1 = LongTermCred.realm_ (long_term_cred_ d) ∧ challenged env t out.2 d d') d1 ∨
  (challenge_call env d1 = (Err (Thrown RuntimeError "RAND_bytes failed"), d1, []) ∧
   ∃ i, (i ≤ size (store_ (LongTermCred.nonce_manager_ (long_term_cred_ d))))%nat ∧ in_rand env i = None).
Proof.
  intros (Hd&Hok&Hne). cbv zeta. set (nm := LongTermCred.nonce_manager_ (long_term_cred_ d)) in *.
  unfold wp, challenge_call, LongTermCred.makeChallenge. cbn [long_term_cred_]. fold nm.
  destruct (generate_or_fails (in_rand env) (in_challenge env) nm Hok Hne)
    as [(nonce&nm'&E&Hl&Hf&Hv&Ho&Hdraw)|[E Hnone]].
  - left. pose proof (generate_ttl (S (size (store_ nm))) (in_rand env) (in_challenge env) nm) as Httl.
    rewrite E in Httl |- *. cbn in *. split_and!; done.
  - right. rewrite E. split; [|exact Hnone]. by destruct d as [[] ? ?].
Qed.

Lemma inputs_ok_sound env d : inputs_ok env d → inputs_sound env d.
Proof.
  intros (Hd&Hr&Hne). split; [done|]. split; [|by auto]. intros i buf Hi E. destruct (Hr i Hi) as (b&E'&?&?). by simplify_eq.
Qed.

(** A log line of an Allocate request. *)
Lemma wp_log_allocate resp user from msg d :
  length (transaction_id msg) = 12%nat → unsigned_reply resp msg →
  wp (log_allocate resp user from) (λ _ d' ev, d' = d ∧ datagrams ev = []) d.
Proof.
  intros Htid (m&c&l&Hr&_). unfold log_allocate. case_match; [|by wp_step].
  rewrite (is_reply_parse resp m c _ l empty_message Htid Hr). wp_steps.
  rewrite !bool_decide_false by done. cbn [orb]. case_match; by wp_step.
Qed.

Lemma getPassword_Ok hv user : ∃ p, HmacValidator.getPassword hv user = Ok p.
Proof.
  unfold HmacValidator.getPassword. case_bool_decide; [by eexists|].
  destruct (computeHmac_Ok hv user) as (p&->&_). eauto.
Qed.

Lemma handle_method_wp env msg from user rlm d :
  disp_inv d → draws_ok (alloc_manager_ d) (in_dist env) → length (transaction_id msg) = 12%nat →
  wp (match method msg with
        | Method.Allocate =>
            resp ← alloc_call (handleAllocate (in_dist env) (in_clk env 0) msg from user rlm);
            log_allocate resp user from;;
            mret resp
        | Method.Refresh => alloc_call (handleRefresh (in_clk env 0) msg from user)
        | Method.CreatePermission => alloc_call (handleCreatePermission (in_clk env) msg from)
        | Method.ChannelBind => alloc_call (handleChannelBind (in_clk env 0) (in_clk env 1) msg from)
        | _ => mret (make_error (transaction_id msg) 400 "Bad Request")
        end) (λ resp d' ev, datagrams ev = [] ∧ ∃ am',
          handled env msg from user rlm (alloc_manager_ d) resp am' ∧
          d' = mkTurnDispatcher (long_term_cred_ d) am' (current_transport_ d)) d.
Proof.
  intros [I _] Hd Htid. unfold handled. destruct (method msg) eqn:Hm.
  - apply wp_bind, wp_alloc_call.
    eapply wp_mono; [by apply wp_handleAllocate|]. intros resp am' ev (->&Hp). cbn [map concat].
    wp_step. eapply wp_mono.
    { apply (wp_log_allocate resp user from msg); [done|].
      apply (handled_unsigned env msg from user rlm (alloc_manager_ d) resp am').
      unfold handled. by rewrite Hm. }
    intros [] d' ev (->&Hev). wp_step. rewrite app_nil_r. split; [done|]. eauto.
  - apply wp_alloc_call. eapply wp_mono; [by apply wp_handleRefresh|]. intros resp am' ev (->&?). eauto.
  - wp_step. split; [done|]. exists (alloc_manager_ d). split; [done|]. by destruct d.
  - wp_step. split; [done|]. exists (alloc_manager_ d). split; [done|]. by destruct d.
  - apply wp_alloc_call. eapply wp_mono; [by apply wp_handleCreatePermission|].
    intros resp am' ev (->&?). eauto.
  - apply wp_alloc_call. eapply wp_mono; [by apply wp_handleChannelBind|].
    intros resp am' ev (->&?). eauto.
  - wp_step. split; [done|]. exists (alloc_manager_ d). split; [done|]. by destruct d.
Qed.

Lemma wp_owner msg from d t : am_inv (alloc_manager_ d) →
  wp (if bool_decide (method msg ≠ Method.Allocate) then
       match findByClient (alloc_manager_ d) from with
       | Some p => alloc ← alloc_call (deref p); mret (username alloc)
       | None => mret ""
       end
     else mret "") (λ u d' ev, u = owner d msg from ∧ ev = [] ∧
       d' = mkTurnDispatcher (long_term_cred_ d) (alloc_manager_ d) (Some t))
    (mkTurnDispatcher (long_term_cred_ d) (alloc_manager_ d) (Some t)).
Proof.
  intros I. unfold owner. case_bool_decide; [|by wp_step].
  unfold findByClient. destruct (by_client_ (alloc_manager_ d) !! endpointKey from) as [p|] eqn:Hp.
  - destruct (alloc_of_Some _ from p I Hp) as (a&Ha&->&_).
    apply wp_bind, wp_alloc_call, (wp_deref p a); [done|]. by wp_step.
  - rewrite (alloc_of_None _ from Hp). by wp_step.
Qed.

Lemma datagrams_app l1 l2 : datagrams (l1 ++ l2) = datagrams l1 ++ datagrams l2.
Proof. unfold datagrams. apply omap_app. Qed.

(** Whether a result of [authenticate] is answered by a challenge. *)
Definition challenges (res : AuthResult) : bool :=
  match res with AuthResult.Ok | AuthResult.WrongCredentials => false | _ => true end.

Lemma handleStun_answers env msg raw from t d :
  disp_inv d → draws_ok (alloc_manager_ d) (in_dist env) → length (transaction_id msg) = 12%nat →
  (∀ res, msg_class msg ≠ MessageClass.Indication →
     LongTermCred.authenticate (long_term_cred_ d) (in_steady env) (in_now env) msg raw (owner d msg from) = Ok res →
     challenges res = true →
     wp (challenge_call env) (λ out d' ev, ev = [] ∧
       out.1 = LongTermCred.realm_ (long_term_cred_ d) ∧ challenged env t out.2 d d')
       (mkTurnDispatcher (long_term_cred_ d) (alloc_manager_ d) (Some t))) →
  wp (handleStun env msg raw from t) (λ _ d' ev, stun_post env msg raw from t d d' ev) d.
Proof.
  intros Hinv Hin Htid Hch. pose proof Hinv as [I _].
  unfold handleStun, stun_post, set_transport. wp_steps. case_bool_decide as Hi.
  { case_bool_decide; [|by wp_step]. apply wp_alloc_call. cbn [alloc_manager_].
    eapply wp_mono; [by apply wp_handleSend|]. by intros [] am' ev [-> ->]. }
  wp_steps. eapply wp_mono; [by apply (wp_owner msg from d t)|]. intros u d1 ev1 (->&->&->).
  destruct (authenticate_returns (long_term_cred_ d) (in_steady env) (in_now env) msg raw (owner d msg from))
    as (res&Hres&_). cbn [long_term_cred_ alloc_manager_]. rewrite Hres. wp_steps. cbn [app].
  specialize (Hch res Hi Hres).
  destruct res; try (specialize (Hch eq_refl)).
  - destruct (getPassword_Ok (LongTermCred.hmac_validator_ (long_term_cred_ d)) (user_of msg)) as (p&Hp).
    replace (match findAttr msg AttrType.Username with
      | Some a => string_of_bytes (attr_value a) | None => "" end) with (user_of msg)
      by (unfold user_of, attr_string; by destruct (findAttr msg AttrType.Username)).
    rewrite Hp. wp_steps. eapply wp_mono; [by apply handle_method_wp|].
    intros resp d' ev (Hev&am'&Hh&->). cbn [alloc_manager_ long_term_cred_ current_transport_] in *.
    pose proof (handled_unsigned _ _ _ _ _ _ _ _ Hh) as Hun.
    destruct (signResponse_Ok (long_term_cred_ d) resp msg (user_of msg) p Htid Hun) as (signed&Hs).
    rewrite bool_decide_true. 2: { destruct Hun as (?&?&?&[-> _]&_). done. }
    rewrite Hs. unfold send. wp_steps. exists AuthResult.Ok. split; [done|].
    exists p, resp, am', signed. split_and!; [done..|].
    cbn [app]. by rewrite datagrams_app, Hev.
  - wp_step. eapply wp_mono; [exact Hch|]. intros [rlm nonce] d' ev (->&Hrlm&Hc). cbn in Hrlm. subst rlm. unfold send. wp_steps.
    exists AuthResult.MissingCredentials. split; [done|]. by exists nonce.
  - wp_step. eapply wp_mono; [exact Hch|]. intros [rlm nonce] d' ev (->&Hrlm&Hc). cbn in Hrlm. subst rlm. unfold send. wp_steps.
    exists AuthResult.StaleNonce. split; [done|]. by exists nonce.
  - wp_step. eapply wp_mono; [exact Hch|]. intros [rlm nonce] d' ev (->&Hrlm&Hc). cbn in Hrlm. subst rlm. unfold send. wp_steps.
    exists AuthResult.BadIntegrity. split; [done|]. by exists nonce.
  - unfold send. wp_steps. by exists AuthResult.WrongCredentials.
  - wp_step. eapply wp_mono; [exact Hch|]. intros [rlm nonce] d' ev (->&Hrlm&Hc). cbn in Hrlm. subst rlm. unfold send. wp_steps.
    exists AuthResult.CredentialsExpired. split; [done|]. by exists nonce.
Qed.

(** A challenge that cannot be made. *)
Lemma handleStun_fails env msg raw from t d res e :
  let d1 := mkTurnDispatcher (long_term_cred_ d) (alloc_manager_ d) (Some t) in
  disp_inv d → msg_class msg ≠ MessageClass.Indication →
  LongTermCred.authenticate (long_term_cred_ d) (in_steady env) (in_now env) msg raw (owner d msg from) = Ok res →
  challenges res = true → challenge_call env d1 = (Err e, d1, []) →
  handleStun env msg raw from t d = (Err e, d1, []).
Proof.
  cbv zeta. set (d1 := mkTurnDispatcher _ _ _). intros [I _] Hi Hres Hc Ech. unfold handleStun, set_transport.
  rewrite (bind_Ok _ _ () d d1 [] eq_refl), (bool_decide_false _ Hi), bind_get.
  destruct (wp_run _ _ _ (wp_owner msg from d t I)) as (u&d2&l&E&->&->&->). fold d1 in E.
  rewrite (bind_Ok _ _ _ _ _ _ E). cbn [long_term_cred_ d1]. rewrite Hres, bind_lift.
  assert (Hb : ∀ f : string * string → eff TurnDispatcher Event (), (challenge_call env ≫= f) d1 = (Err e, d1, []))
    by (intros f; unfold mbind, eff_bind; by rewrite Ech).
  fold d1. by destruct res; try done; rewrite Hb.
Qed.

(** Every message is handled as specified, unless [RAND_bytes] fails. *)
Lemma handleStun_cases env msg raw from t d :
  disp_inv d → inputs_sound env d → length (transaction_id msg) = 12%nat →
  match handleStun env msg raw from t d with
  | (Ok _, d', ev) => stun_post env msg raw from t d d' ev
  | (Err e, d', ev) => rand_failed env t d e d' ev
  end.
Proof.
  intros Hinv Hin Htid.
  destruct (challenge_cases env t d Hin) as [Hch|[Ech Hnone]].
  { pose proof (handleStun_answers env msg raw from t d Hinv (proj1 Hin) Htid ltac:(by intros)) as W. unfold wp in W.
    by destruct (handleStun env msg raw from t d) as [[[]?]?]. }
  destruct (authenticate_returns (long_term_cred_ d) (in_steady env) (in_now env) msg raw (owner d msg from)) as (res&Hres&_).
  destruct (decide (msg_class msg ≠ MessageClass.Indication ∧ challenges res = true)) as [[Hi Hc]|Hno].
  - rewrite (handleStun_fails env msg raw from t d res _ Hinv Hi Hres Hc Ech). by split_and!.
  - pose proof (handleStun_answers env msg raw from t d Hinv (proj1 Hin) Htid
      ltac:(intros res' Hi Hres' Hc; rewrite Hres in Hres'; simplify_eq; destruct Hno; by split)) as W. unfold wp in W.
    by destruct (handleStun env msg raw from t d) as [[[]?]?].
Qed.

Lemma rand_succeeds env t d e d' ev : inputs_ok env d → ¬ rand_failed env t d e d' ev.
Proof. intros (_&Hr&_) (_&(i&Hi&Hnone)&_). destruct (Hr i Hi) as (b&E&_). by rewrite Hnone in E. Qed.

Lemma wp_handleStun env msg raw from t d :
  disp_inv d → inputs_ok env d → length (transaction_id msg) = 12%nat →
  wp (handleStun env msg raw from t) (λ _ d' ev, stun_post env msg raw from t d d' ev) d.
Proof.
  intros Hinv Hin Htid. pose proof (handleStun_cases env msg raw from t d Hinv (inputs_ok_sound _ _ Hin) Htid) as W.
  unfold wp. destruct (handleStun env msg raw from t d) as [[[[]|e] d'] ev]; [done|by destruct (rand_succeeds env t d e d' ev Hin)].
Qed.

Lemma findByRelay_alloc am ep : am_inv am →
  match findByRelay am ep with
  | Some q => ∃ b, heap am !! q = Some b ∧ relay_alloc am ep = Some b
  | None => relay_alloc am ep = None
  end.
Proof.
  intros I. destruct (findByRelay am ep) as [q|] eqn:Hq.
  - destruct (relay_alloc_Some am ep q I Hq) as (b&?&?&_). eauto.
  - unfold relay_alloc. by rewrite Hq.
Qed.

Lemma wp_handleChannelData env data from t d : disp_inv d →
  (∃ r ch, parse_channel_data data (mkChannelData 0 []) = Ok (r, ch)) →
  wp (handleChannelData env data from t) (λ _ d' ev, d' = d ∧ ∃ r ch,
    parse_channel_data data (mkChannelData 0 []) = Ok (r, ch) ∧
    datagrams ev = if bool_decide (r = ChannelDataResult.Ok)
      then channel_data_events (in_clk env 0) data from t (alloc_manager_ d) ch else []) d.
Proof.
  intros [I _] (r&ch&Hp). unfold handleChannelData, channel_data_events. rewrite Hp. wp_steps.
  case_bool_decide as Hr; cbn [negb].
  2: { wp_step. split; [done|]. exists r, ch. by rewrite bool_decide_false. }
  subst r. wp_steps. unfold findByClient.
  destruct (by_client_ (alloc_manager_ d) !! endpointKey from) as [p|] eqn:Hc.
  2: { rewrite (alloc_of_None _ from Hc). wp_step. eauto. }
  destruct (alloc_of_Some _ from p I Hc) as (a&Ha&->&_).
  assert (Hd : mkTurnDispatcher (long_term_cred_ d) (alloc_manager_ d) (current_transport_ d) = d)
    by by destruct d.
  apply wp_bind, wp_alloc_call, (wp_deref p a); [done|]. rewrite Hd.
  destruct (channels a !! channel_number ch) as [b|] eqn:Hb.
  2: { wp_step. split; [done|]. do 2 eexists. split; [done|]. by rewrite bool_decide_true, Hb. }
  destruct (hasPermission _ _ _) eqn:Hperm; cbn [negb].
  2: { wp_step. split; [done|]. do 2 eexists. split; [done|].
       by rewrite bool_decide_true, Hb, Hperm. }
  pose proof (findByRelay_alloc (alloc_manager_ d) (peer b) I) as Hrel.
  destruct (findByRelay _ _) as [q|].
  2: { unfold send. wp_step. split; [done|]. do 2 eexists. split; [done|].
       by rewrite bool_decide_true, Hb, Hperm, Hrel. }
  destruct Hrel as (pa&Hpa&Hrel). apply wp_bind, wp_alloc_call, (wp_deref q pa); [done|]. rewrite Hd.
  destruct (Z.eqb_spec (channel_to (relayedAddr a) (iter (channels pa))) 0) as [E|E]; cbn [negb].
  - destruct (make_address_v4 _) as [ip|] eqn:Hip; unfold send; wp_step; (split; [done|]);
      do 2 eexists; (split; [done|]); by rewrite bool_decide_true, Hb, Hperm, Hrel, E.
  - unfold send. wp_step. split; [done|]. do 2 eexists. split; [done|].
    rewrite bool_decide_true, Hb, Hperm, Hrel by done. by rewrite (proj2 (Z.eqb_neq _ _) E).
Qed.
End handlers.
