(* ===== verification/Server.v ===== *)
(** * Properties of the TURN server

    The server handles every packet without failing; a request gets exactly
    one answer, to its sender; a request that is not authenticated gets an
    error and changes no allocation; a success response is signed; a signed
    Allocate request that meets the conditions gets its relay address; and
    ChannelData arrives at the other client. *)

From S2P Require Export DispatcherFacts.

#[local] Existing Instance ToyOpenSSL.
#[local] Existing Instance ToyOpenSSLSpec.
#[local] Existing Instance DottedAddress.
#[local] Existing Instance DottedAddressSpec.

Section server.
Context `{OpenSSL} `{BoostAddress} `{!IterOrder string ptr} `{!IterOrder Z ChannelBinding}.

(** The states of the dispatcher: it starts and handles packets one by one. *)
Inductive served : TurnDispatcher → Prop :=
  | served_start rlm secret addr pmin pmax : served (newTurnDispatcher rlm secret addr pmin pmax)
  | served_packet env data from t d d' ev :
      served d → inputs_sound env d → bytes_ok data →
      onPacket env data from t d = (Ok (), d', ev) → served d'.
End server.

Section facts.
Context `{OpenSSLSpec} `{BoostAddressSpec} `{!IterOrder string ptr} `{!IterOrder Z ChannelBinding}.

Lemma stun_post_inv env msg raw from t d d' ev :
  disp_inv d → stun_post env msg raw from t d d' ev → disp_inv d'.
Proof.
  intros Hinv. pose proof Hinv as (I&Hc&Hp). unfold stun_post.
  case_bool_decide; [by intros [-> _]|]. intros (res&_&Hres).
  assert (Hch : ∀ nonce, challenged env t nonce d d' → disp_inv d').
  { intros nonce (E&_). unfold disp_inv. by rewrite E. }
  destruct res.
  - destruct Hres as (p&resp&am'&signed&_&Hh&_&->&_).
    pose proof (handled_inv _ _ _ _ _ _ _ _ I Hh) as I'. split; [done|]. cbn.
    destruct (handled_config _ _ _ _ _ _ _ _ Hh) as (_&_&_&_&->&->). done.
  - destruct Hres as (nonce&?&_). eauto.
  - destruct Hres as (nonce&?&_). eauto.
  - destruct Hres as (nonce&?&_). eauto.
  - by destruct Hres as [-> _].
  - destruct Hres as (nonce&?&_). eauto.
Qed.

Lemma parse_accepted data msg out : bytes_ok data → parse data out = Ok (ParseResult.Ok, msg) →
  (∃ d0 rest, data = d0 :: rest ∧ d0 .& 192 = 0) ∧
  Forall attr_ok (attributes msg) ∧ length (transaction_id msg) = 12%nat.
Proof.
  intros Hok Hp. split.
  - destruct (decide (length data < 20)%nat) as [Hs|Hs]; [by rewrite parse_short in Hp|].
    destruct (split_header data) as (d0&d1&d2&d3&d4&d5&d6&d7&rest&->&Hr); [lia|].
    eexists _, _. split; [done|]. rewrite parse_header in Hp. cbv zeta in Hp.
    case_match; [done|]. case_match eqn:E; [done|]. brefl. done.
  - destruct (parse_total data out Hok) as (r&m&E&Hm). rewrite Hp in E. simplify_eq. by apply Hm.
Qed.

(** A STUN message goes to [handleStun]. *)
Lemma onPacket_stun env data msg from t d : bytes_ok data →
  parse data empty_message = Ok (ParseResult.Ok, msg) →
  onPacket env data from t d = handleStun env msg data from t d.
Proof.
  intros Hok Hp. destruct (parse_accepted data msg _ Hok Hp) as ((d0&rest&->&Hd0)&_).
  unfold onPacket. cbn [length Nat.eqb]. change (rd (d0 :: rest) 0) with (Ok d0).
  rewrite bind_lift, Hd0. cbn [Z.eqb]. rewrite Hp, bind_lift.
  by rewrite bool_decide_true by done.
Qed.

(** A packet changes nothing, or is a STUN message handled as specified, or is one
    for whose challenge [RAND_bytes] failed. *)
Lemma onPacket_cases env data from t d : disp_inv d → inputs_sound env d → bytes_ok data →
  match onPacket env data from t d with
  | (Ok _, d', ev) => d' = d ∨ ∃ msg, stun_post env msg data from t d d' ev
  | (Err e, d', ev) => rand_failed env t d e d' ev
  end.
Proof.
  intros Hinv Hin Hok. unfold onPacket. destruct data as [|d0 data]; cbn [length Nat.eqb]; [by left|].
  change (rd (d0 :: data) 0) with (Ok d0). rewrite bind_lift.
  destruct (d0 .& 192 =? 64).
  { enough (wp (handleChannelData env (d0 :: data) from t) (λ _ d' _, d' = d) d) as W.
    { unfold wp in W. destruct (handleChannelData _ _ _ _ _) as [[[]?]?]; [by left|done]. }
    eapply wp_mono; [apply wp_handleChannelData; [done|]|by intros _ d' ev [-> _]].
    destruct data as [|d1 [|d2 [|d3 data]]]; [by do 2 eexists..|].
    rewrite parse_channel_data_eq. do 2 (case_match; [by do 2 eexists|]). by do 2 eexists. }
  destruct (d0 .& 192 =? 0); [|by left].
  destruct (parse_total (d0 :: data) empty_message Hok) as (r&msg&->&Hm). rewrite bind_lift.
  case_bool_decide as Hr; cbn [negb]; [|by left].
  pose proof (handleStun_cases env msg (d0 :: data) from t d Hinv Hin ltac:(by apply Hm)) as W.
  destruct (handleStun _ _ _ _ _ _) as [[[]?]?]; [|exact W]. right. by exists msg.
Qed.

Lemma wp_onPacket_cases env data from t d : disp_inv d → inputs_ok env d → bytes_ok data →
  wp (onPacket env data from t) (λ _ d' ev, d' = d ∨ ∃ msg, stun_post env msg data from t d d' ev) d.
Proof.
  intros Hinv Hin Hok. pose proof (onPacket_cases env data from t d Hinv (inputs_ok_sound _ _ Hin) Hok) as W.
  unfold wp. destruct (onPacket env data from t d) as [[[|e] d'] ev]; [exact W|by destruct (rand_succeeds env t d e d' ev Hin)].
Qed.

Lemma onPacket_inv env data from t d : disp_inv d → inputs_sound env d → bytes_ok data →
  disp_inv (out_state (onPacket env data from t d)).
Proof.
  intros Hinv Hin Hok. pose proof (onPacket_cases env data from t d Hinv Hin Hok) as W.
  destruct (onPacket env data from t d) as [[[[]|e] d'] ev]; cbn.
  - destruct W as [->|[msg Hpost]]; [done|by eapply stun_post_inv].
  - by destruct W as (_&_&->&_).
Qed.

Lemma wp_onPacket env data from t d : disp_inv d → inputs_ok env d → bytes_ok data →
  wp (onPacket env data from t) (λ _ d' _, disp_inv d') d.
Proof.
  intros Hinv Hin Hok. eapply wp_mono; [by apply wp_onPacket_cases|].
  intros [] d' ev [->|[msg Hpost]]; [done|by eapply stun_post_inv].
Qed.

Lemma served_inv d : served d → disp_inv d.
Proof.
  induction 1 as [rlm secret addr pmin pmax|env data from t d d' ev _ IH Hin Hok E].
  - split; [|done]. cbn. destruct (inv_new addr pmin pmax 10 ltac:(lia)). by split.
  - pose proof (onPacket_inv env data from t d IH Hin Hok) as W. by rewrite E in W.
Qed.

Lemma served_next env data from t d d' ev : served d → inputs_ok env d → bytes_ok data →
  onPacket env data from t d = (Ok (), d', ev) → served d'.
Proof. intros Hs Hin%inputs_ok_sound Hok E. by eapply served_packet. Qed.

(** What a parsed message makes the server do. *)
Lemma onPacket_post env data msg from t d :
  served d → inputs_ok env d → bytes_ok data →
  parse data empty_message = Ok (ParseResult.Ok, msg) →
  ∃ d' ev, onPacket env data from t d = (Ok (), d', ev) ∧ stun_post env msg data from t d d' ev ∧
    length (transaction_id msg) = 12%nat.
Proof.
  intros Hd%served_inv Hin Hok Hp. destruct (parse_accepted data msg _ Hok Hp) as (_&_&Htid).
  rewrite (onPacket_stun env data msg from t d Hok Hp).
  destruct (wp_run _ _ _ (wp_handleStun env msg data from t d Hd Hin Htid)) as ([]&d'&ev&E&?). eauto 6.
Qed.

(** ** Bytes that clients build *)

Lemma attr_bytes_ok a : attr_ok a → bytes_ok (attr_bytes a).
Proof.
  intros (_&_&_&Hb). unfold attr_bytes.
  apply Forall_app. split; [apply put16_ok|]. apply Forall_app. split; [apply put16_ok|].
  apply Forall_app. split; [done|]. apply Forall_replicate. compute_done.
Qed.

Lemma build_bytes_ok m c tid l : bytes_ok tid → Forall attr_ok l →
  bytes_ok (build (add_attrs (newBuilder m c tid) l)).
Proof.
  intros Htid Hok. destruct (add_attrs_spec (newBuilder m c tid) l Hok) as (Hb&Ht&Hi).
  rewrite build_header, Hb, Ht, Hi. cbn [newBuilder attrs_buf_ app transaction_id_].
  assert (Hz : ∀ x k, 0 ≤ k → byte_ok (byte_of x k)) by apply byte_of_ok.
  unfold header. apply Forall_app. split.
  - apply Forall_app. split; [|done]. repeat (constructor; [done || apply Hz; lia|]). constructor.
  - unfold attrs_bytes. apply Forall_concat, Forall_map. eapply Forall_impl; [done|]. apply attr_bytes_ok.
Qed.

Lemma make_channel_data_ok n payload : bytes_ok payload → bytes_ok (make_channel_data n payload).
Proof.
  intros Hp. unfold make_channel_data.
  assert (Hz : ∀ x k, 0 ≤ k → byte_ok (byte_of x k)) by apply byte_of_ok.
  apply Forall_app. split; [repeat (constructor; [apply Hz; lia|]); constructor|].
  apply Forall_app. split; [done|]. apply Forall_replicate. compute_done.
Qed.

(** ChannelData on a valid channel is parsed, whatever follows. *)
Lemma parse_make_channel_data n payload tail out :
  0x4000 ≤ n ≤ 0x4FFF → Z.of_nat (length payload) < 65536 →
  parse_channel_data (make_channel_data n payload ++ tail) out =
    Ok (ChannelDataResult.Ok, mkChannelData n payload).
Proof.
  intros Hn Hl. unfold make_channel_data, u16. rewrite Z.mod_small by lia. cbv zeta.
  rewrite Nat2Z.id. cbn [app]. rewrite parse_channel_data_eq, !be16_put16, Nat2Z.id by lia.
  destruct (Z.ltb_spec n 0x4000), (Z.ltb_spec 0x4FFF n); try lia. cbn [orb].
  rewrite <-app_assoc, length_app, take_app_length.
  destruct (Nat.ltb_spec (4 + (length payload + length (replicate (pad4 (length payload)) 0 ++ tail)))
    (4 + length payload)); [lia|done].
Qed.

(** ChannelData goes to [handleChannelData]. *)
Lemma onPacket_channel env n payload tail from t d : 0x4000 ≤ n ≤ 0x4FFF →
  onPacket env (make_channel_data n payload ++ tail) from t d =
    handleChannelData env (make_channel_data n payload ++ tail) from t d.
Proof.
  intros Hn. unfold onPacket. set (data := make_channel_data n payload ++ tail).
  change (length data =? 0)%nat with false. cbv iota.
  change (rd data 0) with (Ok (byte_of n 8)). rewrite bind_lift.
  replace (byte_of n 8 .& 192 =? 64) with true; [done|]. symmetry.
  rewrite byte_of_val by lia. assert (0x40 ≤ (n / 2 ^ 8) mod 256 < 0x50) by dlia.
  apply (all_from_spec (λ b, b .& 192 =? 64) 16 0x40); [by vm_compute|lia].
Qed.

(** The channel towards a relay address, in any order of the map. *)
Lemma channel_to_spec a relayed : alloc_inv a →
  match channel_to relayed (iter (channels a)) with
  | 0 => ∀ n b, channels a !! n = Some b → peer b ≠ relayed
  | n => 0x4000 ≤ n ≤ 0x4FFF ∧ ∃ b, channels a !! n = Some b ∧ peer b = relayed
  end.
Proof.
  intros I.
  assert (Hl : ∀ l, (∀ n b, (n, b) ∈ l → channels a !! n = Some b) →
    match channel_to relayed l with
    | 0 => ∀ n b, (n, b) ∈ l → peer b ≠ relayed
    | n => 0x4000 ≤ n ≤ 0x4FFF ∧ ∃ b, channels a !! n = Some b ∧ peer b = relayed
    end).
  { induction l as [|[n b] l IH]; intros Hin; cbn [channel_to]; [by intros ?? ?%not_elem_of_nil|].
    pose proof (Hin n b ltac:(by left)) as Hb. rewrite endpoint_eqb_eq. case_bool_decide as Hp.
    - pose proof (inv_channel a I n b Hb) as (_&Hr&_). destruct n; [lia|eauto..].
    - specialize (IH ltac:(intros; apply Hin; by right)).
      destruct (channel_to relayed l) eqn:E; [|done..].
      intros m c [[= -> ->]|?]%elem_of_cons; [done|by eapply IH]. }
  specialize (Hl (iter (channels a)) ltac:(intros n b; by rewrite elem_of_iter)).
  destruct (channel_to _ _); [|done..]. intros n b Hb. apply (Hl n b). by apply elem_of_iter.
Qed.

(** A message is a reply in one way only. *)
Lemma is_reply_unique r m c l m' c' l' tid : length tid = 12%nat →
  is_reply r m c tid l → is_reply r m' c' tid l' → c = c' ∧ m = m' ∧ l = l'.
Proof.
  intros Htid Hr1 Hr2. pose proof (is_reply_parse _ _ _ _ _ empty_message Htid Hr1) as E.
  rewrite (is_reply_parse _ _ _ _ _ empty_message Htid Hr2) in E. by simplify_eq.
Qed.

Lemma granted_lifetime_bound msg : Forall attr_ok (attributes msg) →
  0 < granted_lifetime msg ≤ kMaxLifetime.
Proof.
  intros Hok%lifetime_of_bound. unfold granted_lifetime.
  destruct (Z.eqb_spec (lifetime_of msg) 0); [done|lia].
Qed.

Lemma decision_Ok ltc steady now u n e password text mac allocated :
  isValid steady n (LongTermCred.nonce_manager_ ltc) = true →
  HmacValidator.parseExpiry u = Some e → now ≤ e →
  HmacValidator.computeHmac (LongTermCred.hmac_validator_ ltc) u = Ok password →
  crypto.hmac_sha1 (crypto.long_term_key_md5 u (LongTermCred.realm_ ltc) password)
    (string_of_bytes text) = Ok mac →
  decision ltc steady now Method.Allocate u n text mac allocated = AuthResult.Ok.
Proof.
  intros Hn He Hnow Hpw Hmac. unfold decision. rewrite Hn, He. cbn [negb].
  destruct (Z.ltb_spec e now); [lia|]. rewrite Hpw. cbn [mbind result_bind].
  rewrite Hmac, bool_decide_true by done. cbn [negb]. by rewrite bool_decide_false by tauto.
Qed.

(** What an authenticated request is answered. *)
Lemma authenticated_reply env data msg from t d :
  served d → inputs_ok env d → bytes_ok data →
  parse data empty_message = Ok (ParseResult.Ok, msg) → msg_class msg ≠ MessageClass.Indication →
  LongTermCred.authenticate (long_term_cred_ d) (in_steady env) (in_now env) msg data
    (owner d msg from) = Ok AuthResult.Ok →
  ∃ d' ev password resp signed, onPacket env data from t d = (Ok (), d', ev) ∧
    datagrams ev = [(t, signed, from)] ∧
    HmacValidator.getPassword (LongTermCred.hmac_validator_ (long_term_cred_ d)) (user_of msg) =
      Ok password ∧
    handled env msg from (user_of msg) (LongTermCred.realm_ (long_term_cred_ d))
      (alloc_manager_ d) resp (alloc_manager_ d') ∧
    ((∃ l, is_reply resp Method.Allocate MessageClass.ErrorResponse (transaction_id msg) l ∧
        signed = resp) ∨
     (∃ l mac, is_reply resp (method msg) MessageClass.SuccessResponse (transaction_id msg) l ∧
        (∀ out, ∃ n, parse signed out = Ok (ParseResult.Ok, mkTurnMessage MessageClass.SuccessResponse
           (method msg) n (transaction_id msg) (l ++ [mkAttribute AttrType.MessageIntegrity mac]))) ∧
        LongTermCred.verifyMessageIntegrityMd5 (LongTermCred.realm_ (long_term_cred_ d)) signed
          (user_of msg) password = Ok true)).
Proof.
  intros Hs Hin Hok Hp Hcl Hauth. destruct (onPacket_post env data msg from t d Hs Hin Hok Hp) as
    (d'&ev&E&Hpost&Htid). unfold stun_post in Hpost. rewrite bool_decide_false in Hpost by done.
  destruct Hpost as (res'&Hauth'&Hres). rewrite Hauth in Hauth'. simplify_eq.
  destruct Hres as (p&resp&am'&signed&Hpw&Hh&Hsig&->&Hev).
  exists (mkTurnDispatcher (long_term_cred_ d) am' (Some t)), ev, p, resp, signed. split_and!; [done..|].
  destruct (handled_unsigned _ _ _ _ _ _ _ _ Hh) as (m&c&l&Hr&Hnmi&[[-> ->]|[-> ->]]).
  - rewrite (signResponse_error _ _ _ _ _ _ _ Htid Hr) in Hsig. simplify_eq. left. eauto.
  - right. destruct (signResponse_success (long_term_cred_ d) resp _ _ l (user_of msg) p Htid Hr)
      as (mac&Hmac&Hl&Hb&Hsig'). rewrite Hsig in Hsig'. simplify_eq.
    destruct Hr as (->&Hok'&Hlen). exists l, mac. split; [done|].
    assert (Hsb : ∀ out, _) by exact (λ out, sealed_build (method msg) MessageClass.SuccessResponse
      (transaction_id msg) l mac [] out Htid Hok' Hl Hb ltac:(lia)).
    setoid_rewrite app_nil_r in Hsb. split.
    + intros out. destruct (Hsb out) as [Hp' _]. eauto.
    + destruct (Hsb empty_message) as [_ ->].
      rewrite verify_md5_sealed; [by rewrite bool_decide_true| |done].
      split; [done|]. split; [done|]. split; [|lia]. rewrite Forall_forall in Hok', Hnmi |- *.
      intros a Ha Ec. destruct (Hok' a Ha) as (Ht&_). apply (Hnmi a Ha). by rewrite <-Ht, Ec.
Qed.
End facts.

Section properties.
Context `{OpenSSLSpec} `{BoostAddressSpec} `{!IterOrder string ptr} `{!IterOrder Z ChannelBinding}.

Lemma server_total env data from t d : served d → inputs_ok env d → bytes_ok data →
  ∃ d' ev, onPacket env data from t d = (Ok (), d', ev).
Proof.
  intros Hs Hin Hok. destruct (wp_run _ _ _ (wp_onPacket env data from t d (served_inv d Hs) Hin Hok))
    as ([]&d'&ev&E&_). eauto.
Qed.

(** C1: the dispatcher never fails: whatever bytes arrive, from anyone, over any
    transport, in any state that packets can lead to, [onPacket] does its work, up
    to the handing over of its datagrams to [transport.send]: no access outside a
    buffer or through a dangling pointer, no endless loop, no exception but one,
    and the allocation tables stay consistent.  The exception is that of
    [RAND_bytes] failing when a nonce is needed, and then nothing is sent and
    nothing changes; it cannot arise when [RAND_bytes] succeeds.  What sending
    does is left to the properties of the transports (over DTLS it does not
    return); the digests of OpenSSL succeed, ports are drawn within the range, and
    the blocks drawn for one nonce differ. *)
Theorem server_never_fails env data from t d :
  served d → inputs_sound env d → bytes_ok data →
  match onPacket env data from t d with
  | (Ok _, d', ev) => served d' ∧ am_inv (alloc_manager_ d')
  | (Err e, d', ev) => rand_failed env t d e d' ev
  end ∧
  (inputs_ok env d → ∃ d' ev, onPacket env data from t d = (Ok (), d', ev)).
Proof.
  intros Hs Hin Hok. pose proof (served_inv d Hs) as Hinv. split; [|by intros; apply server_total].
  pose proof (onPacket_cases env data from t d Hinv Hin Hok) as W.
  pose proof (onPacket_inv env data from t d Hinv Hin Hok) as I.
  destruct (onPacket env data from t d) as [[[[]|e] d'] ev] eqn:E; [|exact W].
  split; [by eapply served_packet|]. apply I.
Qed.

(** The answer to a request. *)
Lemma request_answer env data msg from t d out :
  served d → inputs_ok env d → bytes_ok data →
  parse data empty_message = Ok (ParseResult.Ok, msg) → msg_class msg ≠ MessageClass.Indication →
  Z.of_nat (String.length (LongTermCred.realm_ (long_term_cred_ d))) < 1000 →
  ∃ d' ev r m c n l, onPacket env data from t d = (Ok (), d', ev) ∧ datagrams ev = [(t, r, from)] ∧
    parse r out = Ok (ParseResult.Ok, mkTurnMessage c m n (transaction_id msg) l) ∧
    (c = MessageClass.ErrorResponse ∨ c = MessageClass.SuccessResponse ∧ m = method msg).
Proof.
  intros Hs Hin Hok Hp Hcl Hrl. destruct (onPacket_post env data msg from t d Hs Hin Hok Hp) as
    (d'&ev&E&Hpost&Htid). unfold stun_post in Hpost. rewrite bool_decide_false in Hpost by done.
  destruct Hpost as (res&_&Hres). exists d', ev.
  assert (Hch : ∀ code reason, 0 ≤ code < 800 → Z.of_nat (String.length reason) < 1000 →
    (∃ nonce, challenged env t nonce d d' ∧ datagrams ev = [(t, challenge_reply msg code reason
       (LongTermCred.realm_ (long_term_cred_ d)) nonce, from)]) →
    ∃ r m c n l, datagrams ev = [(t, r, from)] ∧
      parse r out = Ok (ParseResult.Ok, mkTurnMessage c m n (transaction_id msg) l) ∧
      (c = MessageClass.ErrorResponse ∨ c = MessageClass.SuccessResponse ∧ m = method msg)).
  { intros code reason Hc Hr (nonce&(_&_&_&_&Hn&_)&Hev).
    do 5 eexists. split; [exact Hev|]. split; [|by left]. apply is_reply_parse; [done|].
    apply is_reply_challenge; [done..|lia]. }
  enough (∃ r m c n l, datagrams ev = [(t, r, from)] ∧
      parse r out = Ok (ParseResult.Ok, mkTurnMessage c m n (transaction_id msg) l) ∧
      (c = MessageClass.ErrorResponse ∨ c = MessageClass.SuccessResponse ∧ m = method msg))
    as (r&m&c&n&l&?&?&?) by eauto 12.
  destruct res; try (eapply Hch; [| |exact Hres]; done).
  - destruct Hres as (p&resp&am'&signed&_&Hh&Hsig&_&Hev).
    destruct (handled_unsigned _ _ _ _ _ _ _ _ Hh) as (m&c&l&Hr&_&[[-> ->]|[-> ->]]).
    + rewrite (signResponse_error _ _ _ _ _ _ _ Htid Hr) in Hsig. simplify_eq.
      do 5 eexists. split; [exact Hev|]. split; [by apply is_reply_parse|by left].
    + destruct (signResponse_success (long_term_cred_ d) resp _ _ l (user_of msg) p Htid Hr)
        as (mac&_&Hl&Hb&Hsig'). rewrite Hsig in Hsig'. simplify_eq.
      destruct Hr as (_&Hok'&Hlen).
      destruct (sealed_build (method msg) MessageClass.SuccessResponse _ l mac [] out Htid Hok' Hl Hb)
        as [Hparse _]; [lia|]. rewrite app_nil_r in Hparse.
      do 5 eexists. split; [exact Hev|]. split; [exact Hparse|by right].
  - destruct Hres as [_ Hev]. do 5 eexists. split; [exact Hev|]. split; [|by left].
    apply is_reply_parse; [done|]. by apply is_reply_error.
Qed.

(** C15: every STUN message that is not an indication makes the dispatcher hand
    exactly one datagram to the transport it came by, for its sender: a
    well-formed success or error response with the transaction id of the request.
    The realm of the server has fewer than 1000 characters, and [RAND_bytes]
    succeeds.  What the transport does with the datagram is not part of this: UDP
    and the streams send it, over DTLS the sending waits for ever. *)
Theorem request_answered_once env data msg from t d out :
  served d → inputs_ok env d → bytes_ok data →
  parse data empty_message = Ok (ParseResult.Ok, msg) → msg_class msg ≠ MessageClass.Indication →
  Z.of_nat (String.length (LongTermCred.realm_ (long_term_cred_ d))) < 1000 →
  ∃ d' ev r m c n l, onPacket env data from t d = (Ok (), d', ev) ∧ datagrams ev = [(t, r, from)] ∧
    parse r out = Ok (ParseResult.Ok, mkTurnMessage c m n (transaction_id msg) l) ∧
    (c = MessageClass.ErrorResponse ∨ c = MessageClass.SuccessResponse ∧ m = method msg).
Proof. apply request_answer. Qed.

(** What is done with a request whose authentication has the result [res]. *)
Lemma refusal env data msg from t d res :
  served d → inputs_ok env d → bytes_ok data →
  parse data empty_message = Ok (ParseResult.Ok, msg) → msg_class msg ≠ MessageClass.Indication →
  LongTermCred.authenticate (long_term_cred_ d) (in_steady env) (in_now env) msg data
    (owner d msg from) = Ok res →
  ∃ d' ev, onPacket env data from t d = (Ok (), d', ev) ∧
  let challenge_with code reason := ∃ nonce, challenged env t nonce d d' ∧
    datagrams ev = [(t, challenge_reply msg code reason (LongTermCred.realm_ (long_term_cred_ d)) nonce, from)] in
  match res with
  | AuthResult.MissingCredentials => challenge_with 401 "Unauthorized"
  | AuthResult.StaleNonce => challenge_with 438 "Stale Nonce"
  | AuthResult.BadIntegrity | AuthResult.CredentialsExpired => challenge_with 401 "Unauthorized"
  | AuthResult.WrongCredentials =>
      d' = mkTurnDispatcher (long_term_cred_ d) (alloc_manager_ d) (Some t) ∧
      datagrams ev = [(t, make_error (transaction_id msg) 441 "Wrong Credentials", from)]
  | AuthResult.Ok => True
  end.
Proof.
  intros Hs Hin Hok Hp Hcl Hauth. destruct (onPacket_post env data msg from t d Hs Hin Hok Hp) as
    (d'&ev&E&Hpost&Htid). unfold stun_post in Hpost. rewrite bool_decide_false in Hpost by done.
  destruct Hpost as (res'&Hauth'&Hres). rewrite Hauth in Hauth'. simplify_eq.
  exists d', ev. split; [done|]. by destruct res'.
Qed.

(** C18: a request that does not authenticate changes no allocation and is
    answered with the error of its failure, which is handed to its transport: 401
    or 438 with the realm and a fresh nonce, or 441 when another user owns the
    allocation of the sender.  The nonce is the hexadecimal text of a block that
    [RAND_bytes] has just given and was not in the store, so that it was not valid
    at any time; from then on it is valid until its time is over, and every other
    nonce is as valid as before.  [RAND_bytes] succeeds. *)
Theorem unauthenticated_request_refused env data msg from t d res :
  served d → inputs_ok env d → bytes_ok data →
  parse data empty_message = Ok (ParseResult.Ok, msg) → msg_class msg ≠ MessageClass.Indication →
  LongTermCred.authenticate (long_term_cred_ d) (in_steady env) (in_now env) msg data
    (owner d msg from) = Ok res → res ≠ AuthResult.Ok →
  ∃ d' ev r, onPacket env data from t d = (Ok (), d', ev) ∧ datagrams ev = [(t, r, from)] ∧
    alloc_manager_ d' = alloc_manager_ d ∧
    ((res = AuthResult.WrongCredentials ∧
        r = make_error (transaction_id msg) 441 "Wrong Credentials") ∨
     (res ≠ AuthResult.WrongCredentials ∧ ∃ nonce,
        r = challenge_reply msg (if decide (res = AuthResult.StaleNonce) then 438 else 401)
              (if decide (res = AuthResult.StaleNonce) then "Stale Nonce" else "Unauthorized")
              (LongTermCred.realm_ (long_term_cred_ d)) nonce ∧
        String.length nonce = 32%nat ∧
        (∃ i buf, in_rand env i = Some buf ∧ nonce = hex_bytes buf) ∧
        let before := LongTermCred.nonce_manager_ (long_term_cred_ d) in
        let after := LongTermCred.nonce_manager_ (long_term_cred_ d') in
        store_ before !! nonce = None ∧
        (∀ time, isValid time nonce before = false) ∧
        (∀ time, isValid time nonce after = (time <? in_challenge env + seconds (ttl_ before))) ∧
        ∀ time n, n ≠ nonce → isValid time n after = isValid time n before)).
Proof.
  intros Hs Hin Hok Hp Hcl Hauth Hne. destruct (refusal env data msg from t d res Hs Hin Hok Hp Hcl Hauth)
    as (d'&ev&E&Hres). exists d', ev.
  destruct res; try done; try (destruct Hres as (nonce&(Ham&_&_&_&Hl&Hf&Hv&Ho&_&i&buf&_&Hi&Hb)&Hev);
    eexists; split_and!; [done|exact Hev|done|right; split; [done|]; exists nonce; split; [done|]; split; [done|];
      split; [by exists i, buf|]; split; [done|]; split; [|by split];
      intros time; unfold isValid; by rewrite Hf]).
  destruct Hres as [-> Hev]. eexists. split_and!; [done|exact Hev|done|by left].
Qed.

(** C19: an authenticated request is handled by the allocation manager and the
    answer is its reply; a success response is sent with a MESSAGE-INTEGRITY
    attribute appended, and the client's own check of it, with its username,
    realm and password, succeeds. *)
Theorem success_response_signed env data msg from t d :
  served d → inputs_ok env d → bytes_ok data →
  parse data empty_message = Ok (ParseResult.Ok, msg) → msg_class msg ≠ MessageClass.Indication →
  LongTermCred.authenticate (long_term_cred_ d) (in_steady env) (in_now env) msg data
    (owner d msg from) = Ok AuthResult.Ok →
  ∃ d' ev password resp signed, onPacket env data from t d = (Ok (), d', ev) ∧
    datagrams ev = [(t, signed, from)] ∧
    HmacValidator.getPassword (LongTermCred.hmac_validator_ (long_term_cred_ d)) (user_of msg) =
      Ok password ∧
    handled env msg from (user_of msg) (LongTermCred.realm_ (long_term_cred_ d))
      (alloc_manager_ d) resp (alloc_manager_ d') ∧
    ((∃ l, is_reply resp Method.Allocate MessageClass.ErrorResponse (transaction_id msg) l ∧
        signed = resp) ∨
     (∃ l mac, is_reply resp (method msg) MessageClass.SuccessResponse (transaction_id msg) l ∧
        (∀ out, ∃ n, parse signed out = Ok (ParseResult.Ok, mkTurnMessage MessageClass.SuccessResponse
           (method msg) n (transaction_id msg) (l ++ [mkAttribute AttrType.MessageIntegrity mac]))) ∧
        LongTermCred.verifyMessageIntegrityMd5 (LongTermCred.realm_ (long_term_cred_ d)) signed
          (user_of msg) password = Ok true)).
Proof. apply authenticated_reply. Qed.

Lemma mac_size key text mac : crypto.hmac_sha1 key text = Ok mac → length mac = 20%nat ∧ bytes_ok mac.
Proof. intros E. destruct (hmac_sha1_Ok key text) as (m&E'&?&?). rewrite E in E'. by simplify_eq. Qed.

Lemma attrs_with_mac l mac : Forall attr_ok l → length mac = 20%nat → bytes_ok mac →
  Forall attr_ok (l ++ [mkAttribute AttrType.MessageIntegrity mac]).
Proof.
  intros Hok Hl Hb. apply Forall_app. split; [done|]. constructor; [|constructor].
  split_and!; cbn [attr_type attr_value]; [done..|lia|done].
Qed.

(** The Allocate request of a client without an allocation, signed with valid
    credentials and a valid nonce, within its quota: if one of the thousand ports
    drawn is free, the answer is a signed success response with the relay address,
    the client's own address and the lifetime, and the server holds the allocation. *)
Lemma allocate_answer env t d from tid u r n e password mac extra :
  let ltc := long_term_cred_ d in
  let am := alloc_manager_ d in
  let l := request_attrs u r n (mkAttribute AttrType.RequestedTransport [17; 0; 0; 0] :: extra) in
  let data := build (add_attrs (newBuilder Method.Allocate MessageClass.Request tid)
                (l ++ [mkAttribute AttrType.MessageIntegrity mac])) in
  served d → inputs_ok env d → length tid = 12%nat → bytes_ok tid → Forall attr_ok l →
  Forall (λ a, attr_type a ≠ AttrType.MessageIntegrity ∧
               attr_type a ≠ AttrType.MessageIntegritySha256) extra →
  Z.of_nat (length (attrs_bytes l)) + 36 < 65536 →
  isValid (in_steady env) n (LongTermCred.nonce_manager_ ltc) = true →
  HmacValidator.parseExpiry u = Some e → in_now env ≤ e →
  HmacValidator.computeHmac (LongTermCred.hmac_validator_ ltc) u = Ok password →
  crypto.hmac_sha1 (crypto.long_term_key_md5 u (LongTermCred.realm_ ltc) password)
    (string_of_bytes (md5_text (encodeType Method.Allocate MessageClass.Request) tid l)) = Ok mac →
  alloc_of am from = None → Z.of_nat (user_allocs am u) < max_alloc_per_user_ am →
  (∃ k, (k < 1000)%nat ∧ used_ports_ am !! drawn_port am (in_dist env) k = None) →
  ∃ d' ev reply port lifetime mac' a,
    onPacket env data from t d = (Ok (), d', ev) ∧ datagrams ev = [(t, reply, from)] ∧
    (∀ out, ∃ len, parse reply out = Ok (ParseResult.Ok,
      mkTurnMessage MessageClass.SuccessResponse Method.Allocate len tid
        (allocate_attrs (mkEndpoint (relay_address_ am) port) from lifetime ++
           [mkAttribute AttrType.MessageIntegrity mac']))) ∧
    LongTermCred.verifyMessageIntegrityMd5 (LongTermCred.realm_ ltc) reply u password = Ok true ∧
    used_ports_ am !! port = None ∧ port_in_range am port ∧ 0 < lifetime ≤ kMaxLifetime ∧
    alloc_of (alloc_manager_ d') from = Some a ∧
    relayedAddr a = mkEndpoint (relay_address_ am) port ∧ username a = u ∧
    expiresAt a = in_clk env 0 + seconds lifetime.
Proof.
  cbv zeta. intros Hs Hin Htid Htb Hok Hex Hlen Hn He Hnow Hpw Hmac Hnone Hquota Hfree.
  set (l := request_attrs _ _ _ _) in *. set (data := build _).
  destruct (mac_size _ _ _ Hmac) as [Hml Hmb]. pose proof (attrs_with_mac l mac Hok Hml Hmb) as Hall.
  assert (Hdata : bytes_ok data) by (by apply build_bytes_ok).
  pose proof (sealed_build Method.Allocate MessageClass.Request tid l mac [] empty_message
    Htid Hok Hml Hmb ltac:(lia)) as [Hparse _].
  rewrite app_nil_r in Hparse. fold data in Hparse. set (msg := mkTurnMessage _ _ _ _ _) in *.
  destruct (authenticate_decides (long_term_cred_ d) (in_steady env) (in_now env) Method.Allocate tid u r n
    (mkAttribute AttrType.RequestedTransport [17; 0; 0; 0] :: extra) mac [] empty_message
    (owner d msg from)) as (msg'&Hp'&Hauth); [done..| |done|].
  { constructor; [by split|done]. }
  fold l in Hp', Hauth. rewrite app_nil_r in Hp', Hauth. fold data in Hp', Hauth.
  assert (msg' = msg) as -> by (rewrite Hparse in Hp'; congruence). clear Hp'.
  rewrite (decision_Ok _ _ _ _ _ e password) in Hauth by done.
  assert (Hu : user_of msg = u).
  { unfold user_of, attr_string, msg. cbn. apply string_of_bytes_of_string. }
  destruct (authenticated_reply env data msg from t d Hs Hin Hdata Hparse ltac:(done) Hauth)
    as (d'&ev&pw&resp&signed&E&Hev&Hpw'&Hh&Hreply). rewrite Hu in *.
  rewrite (getPassword_parse _ _ _ He), Hpw in Hpw'. simplify_eq.
  unfold handled in Hh. change (method msg) with Method.Allocate in *. cbv iota in Hh.
  unfold allocate_post in Hh. rewrite Hnone, bool_decide_false in Hh by (by intros []).
  change (findAttr msg AttrType.RequestedTransport) with
    (Some (mkAttribute AttrType.RequestedTransport [17; 0; 0; 0])) in Hh.
  cbn [wants_udp attr_value Z.eqb Pos.eqb negb] in Hh.
  destruct (Z.leb_spec (max_alloc_per_user_ (alloc_manager_ d)) (Z.of_nat (user_allocs (alloc_manager_ d) u)));
    [lia|].
  destruct Hh as [[_ Hall']|(k&Hk&Hport&_&->&Hup)].
  { destruct Hfree as (k&Hk&Hf). destruct (Hall' k Hk) as [? Hx]. by rewrite Hf in Hx. }
  set (port := drawn_port _ _ _) in *. set (relayed := mkEndpoint _ port) in *.
  pose proof (is_reply_allocate (transaction_id msg) relayed from (granted_lifetime msg)) as Hrep.
  destruct Hreply as [(l'&Hr&_)|(l'&mac'&Hr&Hsigned&Hver)];
    destruct (is_reply_unique _ _ _ _ _ _ _ _ Htid Hrep Hr) as (?&_&<-); [done|].
  destruct Hup as (_&_&Hview). specialize (Hview from). rewrite decide_True in Hview by done.
  exists d', ev, signed, port, (granted_lifetime msg), mac'. eexists.
  pose proof (granted_lifetime_bound msg Hall) as [??].
  pose proof (drawn_port_in_range (alloc_manager_ d) (in_dist env) k (proj1 Hin)). split_and!; done.
Qed.

(** What becomes of ChannelData for another client. *)
Lemma channel_data_answer env d c1 c2 a1 a2 b n ip payload tail t out out' :
  served d → inputs_ok env d →
  relay_address_ (alloc_manager_ d) = v4_to_string ip → 0 ≤ ip < 2 ^ 32 →
  alloc_of (alloc_manager_ d) c1 = Some a1 → alloc_of (alloc_manager_ d) c2 = Some a2 →
  channels a1 !! n = Some b → peer b = relayedAddr a2 →
  hasPermission (in_clk env 0) (ep_address (relayedAddr a2)) a1 = true →
  bytes_ok payload → bytes_ok tail → Z.of_nat (length payload) < 65000 →
  ∃ ev r, onPacket env (make_channel_data n payload ++ tail) c1 t d = (Ok (), d, ev) ∧
    datagrams ev = [(t, r, c2)] ∧
    ((∃ n' b', channels a2 !! n' = Some b' ∧ peer b' = relayedAddr a1 ∧
        parse_channel_data r out = Ok (ChannelDataResult.Ok, mkChannelData n' payload)) ∨
     ((∀ n' b', channels a2 !! n' = Some b' → peer b' ≠ relayedAddr a1) ∧
        ∃ m, parse r out' = Ok (ParseResult.Ok, m) ∧ msg_class m = MessageClass.Indication ∧
          method m = Method.Data ∧ peer_attr m = Some (relayedAddr a1) ∧
          attr_value <$> findAttr m AttrType.Data = Some payload)).
Proof.
  intros Hs Hin Haddr Hip Hal1 Hal2 Hb Hpeer Hperm Hpb Htb Hl.
  pose proof (served_inv d Hs) as Hinv. pose proof Hinv as (I&_).
  assert (Hal : ∀ c a, alloc_of (alloc_manager_ d) c = Some a → alloc_inv a ∧ clientAddr a = c ∧
    relay_alloc (alloc_manager_ d) (relayedAddr a) = Some a ∧
    ep_address (relayedAddr a) = v4_to_string ip ∧ 0 ≤ ep_port (relayedAddr a) < 65536).
  { intros c a (p&Hp&Ha)%alloc_of_ptr. pose proof (inv_alloc _ I p a Ha).
    destruct (inv_client _ I _ _ Hp) as (a'&?&E%endpointKey_inj&Hr). simplify_eq.
    destruct (relay_alloc_Some _ _ p I Hr) as (a''&?&?&?&?). simplify_eq.
    destruct (inv_relay _ I _ _ Hr) as (a3&?&_&_&?&[? _]&_). simplify_eq.
    split_and!; try done; try lia. congruence. }
  destruct (Hal c1 a1 Hal1) as (I1&_&_&Ea1&Ep1). destruct (Hal c2 a2 Hal2) as (I2&Hc2&Hr2&_&_).
  pose proof (inv_channel a1 I1 n b Hb) as (_&Hn&_).
  rewrite (onPacket_channel env n payload tail c1 t d Hn).
  destruct (wp_run _ _ _ (wp_handleChannelData env (make_channel_data n payload ++ tail) c1 t d Hinv
    ltac:(do 2 eexists; by apply parse_make_channel_data; [|lia]))) as ([]&d'&ev&E&->&r&ch&Hp&Hev).
  rewrite parse_make_channel_data in Hp by (done || lia). injection Hp as <- <-. rewrite bool_decide_true in Hev by done.
  unfold channel_data_events in Hev. cbn [channel_number ch_data] in Hev.
  rewrite Hal1, Hb, Hpeer, Hperm, Hr2, Hc2, Ea1, make_address_v4_to_string in Hev by done. cbv zeta in Hev.
  pose proof (channel_to_spec a2 (relayedAddr a1) I2) as Hto.
  destruct (Z.eqb_spec (channel_to (relayedAddr a1) (iter (channels a2))) 0) as [E0|E0].
  - rewrite E0 in Hto. do 2 eexists. split; [done|]. split; [exact Hev|]. right. split; [done|].
    eexists. split; [apply parse_data_indication; [done..|lia]|]. split; [done|]. split; [done|].
    split; [|done]. unfold peer_attr. cbn [findAttr attributes List.find attr_type].
    rewrite bool_decide_true by done. cbn [mbind option_bind compose attr_value].
    rewrite peer_of_xor_value by done. destruct (relayedAddr a1). cbn in *. by subst.
  - do 2 eexists. split; [done|]. split; [exact Hev|]. left.
    destruct (channel_to _ _) as [|p|p] eqn:E1; [done|destruct Hto as [Hrange (b'&Hb'&Hp')]..];
      (do 2 eexists; split; [done|]; split; [done|]);
      rewrite <-(app_nil_r (make_channel_data _ _)); apply parse_make_channel_data; done || lia.
Qed.
End properties.

(** ** The properties at concrete inputs

    A session: a challenge, two Allocate requests and a ChannelBind. *)
Section runs.
Context `{OpenSSLSpec} `{BoostAddressSpec} `{!IterOrder string ptr} `{!IterOrder Z ChannelBinding}.

Lemma served_run env data from t d : served d → inputs_ok env d → bytes_ok data →
  served (out_state (onPacket env data from t d)).
Proof.
  intros Hs Hin Hok.
  destruct (wp_run _ _ _ (wp_onPacket env data from t d (served_inv d Hs) Hin Hok)) as ([]&d'&ev&E&_).
  rewrite E. by eapply served_next.
Qed.
End runs.

Module session.
#[local] Instance clients_order : IterOrder string ptr := list_order string ptr.
#[local] Instance channels_order : IterOrder Z ChannelBinding := list_order Z ChannelBinding.

Definition c1 : Endpoint := mkEndpoint "10.1.1.1" 1111.
Definition c2 : Endpoint := mkEndpoint "10.1.1.2" 2222.
Definition rand (i : nat) : option bytes := Some (replicate 15 0 ++ [Z.of_nat i]).
Definition env : Inputs := mkInputs 5 5 1000 (λ _, 6) rand example.draws.
Definition tid : bytes := replicate 12 7.
Definition nonce : string := hex_bytes (replicate 16 0).

Definition attrs (u : string) (extra : list Attribute) : list Attribute := request_attrs u "chat" nonce extra.
Definition password (u : string) : string := toy.b64 (toy.mac 20 (bytes_of_string "s3cret") (bytes_of_string u)).
Definition mac (m : Method) (u : string) (extra : list Attribute) : bytes :=
  toy.mac 20 (crypto.long_term_key_md5 u "chat" (password u))
    (md5_text (encodeType m MessageClass.Request) tid (attrs u extra)).
Definition signed (m : Method) (u : string) (extra : list Attribute) : bytes :=
  build (add_attrs (newBuilder m MessageClass.Request tid)
    (attrs u extra ++ [mkAttribute AttrType.MessageIntegrity (mac m u extra)])).

Definition unsigned : bytes := build (newBuilder Method.Allocate MessageClass.Request tid).
Definition udp : list Attribute := [mkAttribute AttrType.RequestedTransport [17; 0; 0; 0]].
Definition bind : list Attribute :=
  [mkAttribute AttrType.ChannelNumber [0x40; 1; 0; 0];
   mkAttribute AttrType.XorPeerAddress (xor_value 0xC0A80114 49153)].

Definition d0 : TurnDispatcher := newTurnDispatcher "chat" "s3cret" "192.168.1.20" 49152 65535.
Definition d1 : TurnDispatcher := out_state (onPacket env unsigned c1 UdpTransport d0).
Definition d2 : TurnDispatcher :=
  out_state (onPacket env (signed Method.Allocate "5000:a" udp) c1 UdpTransport d1).
Definition d3 : TurnDispatcher :=
  out_state (onPacket env (signed Method.Allocate "5000:b" udp) c2 UdpTransport d2).
Definition d4 : TurnDispatcher :=
  out_state (onPacket env (signed Method.ChannelBind "5000:a" bind) c1 UdpTransport d3).
Definition alloc (c : Endpoint) : Allocation :=
  default (mkAllocation 0 c c "" "" 0 ∅ ∅) (alloc_of (alloc_manager_ d4) c).

Lemma env_ok d : (size (store_ (LongTermCred.nonce_manager_ (long_term_cred_ d))) ≤ 255)%nat →
  inputs_ok env d.
Proof.
  intros Hs. split; [apply example.draws_draws_ok|]. split.
  - intros i Hi. eexists. split; [reflexivity|]. split; [|done].
    apply Forall_app. split; [apply Forall_replicate; compute_done|]. constructor; [|constructor].
    unfold byte_ok. lia.
  - intros i j Hij [= Heq]. lia.
Qed.

Lemma d1_served : served d1.
Proof. apply served_run; [apply served_start|apply env_ok; vm_compute; lia|compute_done]. Qed.
Lemma d2_served : served d2.
Proof. apply served_run; [apply d1_served|apply env_ok; vm_compute; lia|compute_done]. Qed.
Lemma d3_served : served d3.
Proof. apply served_run; [apply d2_served|apply env_ok; vm_compute; lia|compute_done]. Qed.
Lemma d4_served : served d4.
Proof. apply served_run; [apply d3_served|apply env_ok; vm_compute; lia|compute_done]. Qed.

Lemma d4_ok : inputs_ok env d4.
Proof. apply env_ok. vm_compute. lia. Qed.

(** The same without random bytes. *)
Definition no_entropy : Inputs := mkInputs 5 5 1000 (λ _, 6) (λ _, None) example.draws.
Lemma no_entropy_sound : inputs_sound no_entropy d4.
Proof. split; [apply example.draws_draws_ok|]. split; [by intros|]. by intros i j _ [? [=]]. Qed.

(** A request that is challenged, with and without random bytes. *)
Lemma server_never_fails_witness :
  (∃ d' ev, onPacket env unsigned c1 TlsTransport d4 = (Ok (), d', ev) ∧ served d' ∧ am_inv (alloc_manager_ d')) ∧
  (∃ d' ev, onPacket no_entropy unsigned c1 TlsTransport d4 =
     (Err (Thrown RuntimeError "RAND_bytes failed"), d', ev) ∧ datagrams ev = []).
Proof.
  pose proof (server_never_fails env unsigned c1 TlsTransport d4 d4_served (inputs_ok_sound _ _ d4_ok) ltac:(compute_done))
    as [H1 H2]. destruct (H2 d4_ok) as (d'&ev&E). rewrite E in H1.
  split; [exact (ex_intro _ d' (ex_intro _ ev (conj E H1)))|].
  pose proof (server_never_fails no_entropy unsigned c1 TlsTransport d4 d4_served no_entropy_sound ltac:(compute_done))
    as [H3 _]. destruct (onPacket no_entropy unsigned c1 TlsTransport d4) as [[[u|e] d0'] ev'] eqn:E';
    [exfalso; apply (f_equal out_result) in E'; vm_compute in E'; discriminate E'|].
  destruct H3 as (He&_&_&Hev). rewrite He. exact (ex_intro _ d0' (ex_intro _ ev' (conj eq_refl Hev))).
Defined.

(** The request of the first packet, parsed. *)
Definition unsigned_msg : TurnMessage :=
  mkTurnMessage MessageClass.Request Method.Allocate 0 tid [].

Lemma request_answered_once_witness :
  ∃ d' ev r m c n l, onPacket env unsigned c2 UdpTransport d4 = (Ok (), d', ev) ∧
    datagrams ev = [(UdpTransport, r, c2)] ∧
    parse r empty_message =
      Ok (ParseResult.Ok, mkTurnMessage c m n (transaction_id unsigned_msg) l) ∧
    (c = MessageClass.ErrorResponse ∨ c = MessageClass.SuccessResponse ∧ m = method unsigned_msg).
Proof.
  apply (request_answered_once env unsigned unsigned_msg);
    [apply d4_served|apply d4_ok|compute_done|reflexivity|done|by vm_compute].
Defined.

(** The nonce of the answer is new, and the one that the clients use stays valid. *)
Lemma unauthenticated_request_refused_witness :
  ∃ d' ev new, onPacket env unsigned c2 UdpTransport d4 = (Ok (), d', ev) ∧
    datagrams ev = [(UdpTransport, challenge_reply unsigned_msg 401 "Unauthorized" "chat" new, c2)] ∧
    alloc_manager_ d' = alloc_manager_ d4 ∧
    isValid 5 new (LongTermCred.nonce_manager_ (long_term_cred_ d4)) = false ∧
    isValid 5 new (LongTermCred.nonce_manager_ (long_term_cred_ d')) = true ∧
    isValid 5 nonce (LongTermCred.nonce_manager_ (long_term_cred_ d')) = true.
Proof.
  destruct (unauthenticated_request_refused env unsigned unsigned_msg c2 UdpTransport d4
    AuthResult.MissingCredentials) as (d'&ev&r&H1&H2&H3&[[Hw _]|(_&new&->&_&_&Hnone&Hb&Ha&Ho)]);
    [apply d4_served|apply d4_ok|compute_done|reflexivity|done|reflexivity|done|discriminate Hw|].
  assert (Hold : isValid 5 nonce (LongTermCred.nonce_manager_ (long_term_cred_ d4)) = true) by (vm_compute; reflexivity).
  assert (Hr : LongTermCred.realm_ (long_term_cred_ d4) = "chat") by (vm_compute; reflexivity). rewrite Hr in H2.
  assert (Hne : nonce ≠ new) by (intros <-; rewrite (Hb 5) in Hold; discriminate Hold).
  exists d', ev, new. split; [exact H1|]. split; [exact H2|]. split; [exact H3|]. split; [apply Hb|].
  split; [rewrite (Ha 5); vm_compute; reflexivity|]. rewrite (Ho 5 nonce Hne). exact Hold.
Defined.

(** A Refresh request of the first client, parsed. *)
Definition refresh : bytes := signed Method.Refresh "5000:a" [].
Definition refresh_msg : TurnMessage :=
  match parse refresh empty_message with Ok (_, m) => m | Err _ => empty_message end.

Lemma success_response_signed_witness :
  ∃ d' ev password resp signed, onPacket env refresh c1 UdpTransport d4 = (Ok (), d', ev) ∧
    datagrams ev = [(UdpTransport, signed, c1)] ∧
    HmacValidator.getPassword (LongTermCred.hmac_validator_ (long_term_cred_ d4)) (user_of refresh_msg) =
      Ok password ∧
    handled env refresh_msg c1 (user_of refresh_msg) (LongTermCred.realm_ (long_term_cred_ d4))
      (alloc_manager_ d4) resp (alloc_manager_ d').
Proof.
  destruct (success_response_signed env refresh refresh_msg c1 UdpTransport d4)
    as (d'&ev&p&resp&s&H1&H2&H3&H4&_);
    [apply d4_served|apply d4_ok|compute_done|vm_compute; reflexivity|vm_compute; discriminate
    |vm_compute; reflexivity|].
  exists d', ev, p, resp, s. exact (conj H1 (conj H2 (conj H3 H4))).
Defined.

End session.
