(* ===== verification/TcpFraming.v ===== *)
(** * Framing on TCP and TLS (src/turn_server/src/transport/tcp_transport.cpp)

    A [TcpSession] cuts the byte stream of a connection into packets: a STUN
    message has its length in its header, ChannelData is padded to four bytes.
    [asio::async_read] delivers exactly the bytes asked for, or an error when
    the stream ends first; the session calls [on_receive_] with each packet.
    Here a whole stream is read at once; Tls has the same code handler by handler,
    for bytes that arrive in pieces.

    The padded length is a [uint16_t]: for 65533 bytes or more it wraps to
    zero, and the packet handed on is larger than the buffer, which is
    undefined (the last two parts of [tcp_framing]). *)

From S2P Require Export Replies Allocation.

(** [async_read] of [n] bytes; [None] is an error code. *)
Definition async_read (n : nat) (stream : bytes) : option (bytes * bytes) :=
  if (n <=? length stream)%nat then Some (take n stream, drop n stream) else None.

(** What one round ends with: the packet for [on_receive_] and the rest of the
    stream, or [None] when the session is removed. *)
Abbreviation frame := (result (option (bytes * bytes))).

Definition read_stun_body (header : bytes) (attrs_len : nat) (stream : bytes) : frame :=
  match async_read attrs_len stream with
  | None => mret None
  | Some (b, stream) => mret (Some (header ++ b, stream))
  end.

Definition read_stun_header (first_byte : Z) (stream : bytes) : frame :=
  match async_read 19 stream with
  | None => mret None
  | Some (stun_header_buf, stream) =>
      let header := first_byte :: stun_header_buf in
      h2 ← rd header 2; h3 ← rd header 3;
      read_stun_body header (Z.to_nat (be16 h2 h3)) stream
  end.

(** [on_receive_(buf->data(), 4 + data_len)]. *)
Definition read_channel_body (first_byte : Z) (chan_header_buf : bytes) (data_len padded_len : Z)
    (stream : bytes) : frame :=
  match async_read (Z.to_nat padded_len) stream with
  | None => mret None
  | Some (b, stream) =>
      let buf := first_byte :: chan_header_buf ++ b in
      packet ← rd_range buf 0 (4 + Z.to_nat data_len);
      mret (Some (packet, stream))
  end.

Definition padded (data_len : Z) : Z :=
  u16 (data_len + (if negb (data_len mod 4 =? 0) then 4 - data_len mod 4 else 0)).

Definition read_channel_header (first_byte : Z) (stream : bytes) : frame :=
  match async_read 3 stream with
  | None => mret None
  | Some (chan_header_buf, stream) =>
      c1 ← rd chan_header_buf 1; c2 ← rd chan_header_buf 2;
      let data_len := be16 c1 c2 in
      read_channel_body first_byte chan_header_buf data_len (padded data_len) stream
  end.

Definition read_first_byte (stream : bytes) : frame :=
  match async_read 1 stream with
  | None => mret None
  | Some (b, stream) =>
      first_byte ← rd b 0;
      let top2 := (first_byte .>> 6) .& 0x03 in
      if top2 =? 0x01 then read_channel_header first_byte stream
      else read_stun_header first_byte stream
  end.

(** [run]: the packets of a whole stream. *)
Fixpoint run (fuel : nat) (stream : bytes) : result (list bytes) :=
  match fuel with
  | O => Err OutOfFuel
  | S fuel =>
      out ← read_first_byte stream;
      match out with
      | None => mret []
      | Some (packet, stream) => packets ← run fuel stream; mret (packet :: packets)
      end
  end.

(** ** The sessions of the transport *)

Section sessions.
Context {Session : Type}.

(** The session that [send] writes to. *)
Definition session_for (sessions : gmap string Session) (to : Endpoint) : option Session :=
  sessions !! endpointKey to.
Definition accept_session (key : string) (s : Session) (sessions : gmap string Session) :
    gmap string Session := <[key := s]> sessions.
Definition removeSession (key : string) (sessions : gmap string Session) : gmap string Session :=
  delete key sessions.
End sessions.

(** ** Packets and their encodings on the stream *)

Inductive packet :=
  | StunPacket (data : bytes)
  | ChannelPacket (channel : Z) (payload : bytes).

(** What is written, and what the receiver's [on_receive_] gets. *)
Definition wire (p : packet) : bytes :=
  match p with StunPacket d => d | ChannelPacket ch d => make_channel_data ch d end.
Definition delivered (p : packet) : bytes :=
  match p with
  | StunPacket d => d
  | ChannelPacket ch d => take (4 + length d) (make_channel_data ch d)
  end.

Definition packet_ok (p : packet) : Prop :=
  match p with
  | StunPacket d => ∃ d0 d1 d2 d3 rest, d = d0 :: d1 :: d2 :: d3 :: rest ∧
      d0 < 64 ∧ bytes_ok d ∧ (16 + Z.to_nat (be16 d2 d3) = length rest)%nat
  | ChannelPacket ch d => 0x4000 ≤ ch < 0x8000 ∧ Z.of_nat (length d) < 65533
  end.

(** ** Lemmas *)

Lemma async_read_app a b n : n = length a → async_read n (a ++ b) = Some (a, b).
Proof.
  intros ->. unfold async_read. rewrite (proj2 (Nat.leb_le _ _)) by (rewrite length_app; lia).
  by rewrite take_app_length, drop_app_length.
Qed.

Lemma padded_pad4 n : Z.of_nat n < 65533 → padded (Z.of_nat n) = Z.of_nat (n + pad4 n).
Proof.
  intros Hn. unfold padded, pad4, u16. pose proof (Nat2Z.inj_mod n 4) as E.
  change (Z.of_nat 4) with 4 in E. rewrite <-E.
  destruct (Nat.eqb_spec (n mod 4) 0) as [E0|E0].
  - rewrite E0. change (Z.of_nat 0) with 0. cbn [Z.eqb negb]. rewrite Z.mod_small; lia.
  - pose proof (Nat.mod_upper_bound n 4).
    rewrite (proj2 (Z.eqb_neq _ _)) by lia. cbn [negb].
    assert (Hlt : Z.of_nat n + (4 - Z.of_nat (n mod 4)) < 65536).
    { pose proof (Nat.div_mod_eq n 4). lia. }
    rewrite Z.mod_small; lia.
Qed.

Lemma top2_byte b : byte_ok b → ((b .>> 6) .& 3 =? 1) = (64 <=? b) && (b <? 128).
Proof.
  unfold byte_ok. intros Hb. apply eqb_prop.
  apply (forall_range (λ b, eqb ((b .>> 6) .& 3 =? 1) ((64 <=? b) && (b <? 128))) 256);
    [by vm_compute|lia].
Qed.

Lemma read_packet p rest : packet_ok p →
  read_first_byte (wire p ++ rest) = Ok (Some (delivered p, rest)).
Proof.
  destruct p as [d|ch d]; cbn [packet_ok wire delivered].
  - intros (d0&d1&d2&d3&r&->&Hd0&Hok&Hl).
    assert (byte_ok d0) by (by apply Forall_cons in Hok as [? _]).
    unfold read_first_byte. cbn [app]. change (d0 :: ?l) with ([d0] ++ l).
    rewrite async_read_app by done. change (rd [d0] 0) with (Ok d0). rsimpl.
    rewrite top2_byte by done. rewrite (proj2 (Z.leb_gt 64 d0)) by lia. cbn [andb].
    destruct (decide (16 ≤ length r)%nat); [|lia].
    unfold read_stun_header.
    replace (d1 :: d2 :: d3 :: r ++ rest) with ((d1 :: d2 :: d3 :: take 16 r) ++ (drop 16 r ++ rest))
      by (cbn [app]; do 3 f_equal; by rewrite app_assoc, take_drop).
    rewrite async_read_app by (cbn [length]; rewrite length_take; lia).
    change (rd (d0 :: d1 :: d2 :: d3 :: take 16 r) 2) with (Ok d2).
    change (rd (d0 :: d1 :: d2 :: d3 :: take 16 r) 3) with (Ok d3). rsimpl.
    unfold read_stun_body. rewrite async_read_app by (rewrite length_drop; lia).
    unfold mret, result_ret. do 3 f_equal. cbn [app]. by rewrite take_drop.
  - intros [Hch Hl]. unfold make_channel_data.
    rewrite u16_small by lia. rewrite Nat2Z.id. set (len := Z.of_nat (length d)).
    unfold read_first_byte. cbn [app]. change (byte_of ch 8 :: ?l) with ([byte_of ch 8] ++ l).
    rewrite async_read_app by done. change (rd [byte_of ch 8] 0) with (Ok (byte_of ch 8)). rsimpl.
    assert (64 ≤ byte_of ch 8 < 128) by (rewrite byte_of_val by lia; dlia).
    rewrite top2_byte by (by apply byte_of_ok).
    rewrite (proj2 (Z.leb_le 64 (byte_of ch 8))), (proj2 (Z.ltb_lt (byte_of ch 8) 128)) by lia.
    cbn [andb].
    unfold read_channel_header.
    change (byte_of ch 0 :: byte_of len 8 :: byte_of len 0 :: ?l) with
      ([byte_of ch 0; byte_of len 8; byte_of len 0] ++ l).
    rewrite async_read_app by done.
    change (rd [byte_of ch 0; byte_of len 8; byte_of len 0] 1) with (Ok (byte_of len 8)).
    change (rd [byte_of ch 0; byte_of len 8; byte_of len 0] 2) with (Ok (byte_of len 0)). rsimpl.
    rewrite be16_put16 by (unfold len; lia). unfold read_channel_body, len.
    rewrite padded_pad4, !Nat2Z.id by done.
    rewrite async_read_app by (rewrite length_app, length_replicate; done).
    rewrite rd_range_Ok by (cbn [length app]; rewrite length_app; lia).
    cbn [mbind result_bind]. unfold mret, result_ret, slice. rewrite drop_0. done.
Qed.

Lemma wire_nonempty p : packet_ok p → (0 < length (wire p))%nat.
Proof.
  destruct p as [d|ch d]; cbn [packet_ok wire].
  - intros (?&?&?&?&?&->&_). cbn [length]. lia.
  - intros _. unfold make_channel_data. cbn [app length]. lia.
Qed.

Lemma wires_length ps : Forall packet_ok ps → (length ps ≤ length (concat (map wire ps)))%nat.
Proof.
  induction 1 as [|p ps Hp _ IH]; cbn [map concat length]; [lia|].
  rewrite length_app. pose proof (wire_nonempty p Hp). lia.
Qed.

(** The length that wraps: 65533 or more. *)
Lemma padded_wrap n : 65533 ≤ n < 65536 → padded n = 0.
Proof.
  intros Hn. assert (n = 65533 ∨ n = 65534 ∨ n = 65535) as [-> | [-> | ->]] by lia; done.
Qed.

Lemma padded_large n : 0 ≤ n < 65533 → n ≤ padded n.
Proof.
  intros Hn. pose proof (padded_pad4 (Z.to_nat n)) as E. rewrite !Z2Nat.id in E by lia.
  rewrite E by lia. lia.
Qed.

Lemma length_async_read n s a b : async_read n s = Some (a, b) → length a = n.
Proof. unfold async_read. case_match; [|done]. intros [= <- <-]. brefl. rewrite length_take. lia. Qed.

Lemma read_stun_total d0 s : ∃ o, read_stun_header d0 s = Ok o.
Proof.
  unfold read_stun_header. destruct (async_read 19 s) as [[h s']|] eqn:E; [|by eexists].
  apply length_async_read in E.
  destruct (rd_lt (d0 :: h) 2) as (h2&->&_); [cbn [length]; lia|].
  destruct (rd_lt (d0 :: h) 3) as (h3&->&_); [cbn [length]; lia|]. rsimpl.
  unfold read_stun_body. destruct (async_read _ s') as [[b s'']|]; by eexists.
Qed.

Lemma read_channel_cases d0 s : bytes_ok s →
  (∃ o, read_channel_header d0 s = Ok o) ∨
  (read_channel_header d0 s = Err Undefined ∧
   ∃ c1 l0 l1 rest, s = c1 :: l0 :: l1 :: rest ∧ 65533 ≤ be16 l0 l1).
Proof.
  intros Hok. unfold read_channel_header, async_read.
  destruct s as [|c1 [|l0 [|l1 s]]]; [left; by eexists..|].
  cbn [length Nat.leb take drop]. rewrite firstn_O, skipn_O.
  change (rd [c1; l0; l1] 1) with (Ok l0). change (rd [c1; l0; l1] 2) with (Ok l1). rsimpl.
  unfold read_channel_body, async_read.
  destruct (Nat.leb_spec (Z.to_nat (padded (be16 l0 l1))) (length s)); [|left; by eexists].
  assert (0 ≤ be16 l0 l1 < 65536).
  { unfold bytes_ok in Hok. rewrite !Forall_cons in Hok. apply be16_bound; tauto. }
  destruct (decide (65533 ≤ be16 l0 l1)).
  - right. split; [|eauto 6]. unfold rd_range. cbn [length app].
    rewrite padded_wrap by lia. cbn [Z.to_nat]. rewrite firstn_O. cbn [length].
    destruct (Nat.leb_spec (0 + (4 + Z.to_nat (be16 l0 l1))) 4); [lia|done].
  - left. pose proof (padded_large (be16 l0 l1)). rewrite rd_range_Ok; [by eexists|].
    cbn [length app]. rewrite length_take. lia.
Qed.

(** Packets written back to back are delivered one by one. *)
Lemma run_packets ps rest fuel :
  Forall packet_ok ps → read_first_byte rest = Ok None → (length ps < fuel)%nat →
  run fuel (concat (map wire ps) ++ rest) = Ok (map delivered ps).
Proof.
  intros Hok Hrest. revert fuel. induction Hok as [|p ps Hp _ IH]; intros fuel Hf;
    (destruct fuel as [|fuel]; [cbn [length] in Hf; lia|]); cbn [run map concat app].
  - by rewrite Hrest.
  - rewrite <-app_assoc, read_packet by done. cbn [mbind result_bind].
    rewrite IH by (cbn [length] in Hf; lia). done.
Qed.

(** The streams that are mishandled. *)
Lemma read_overrun stream : bytes_ok stream →
  (∃ o, read_first_byte stream = Ok o) ∨
  (read_first_byte stream = Err Undefined ∧
   ∃ c0 c1 l0 l1 rest, stream = c0 :: c1 :: l0 :: l1 :: rest ∧ 64 ≤ c0 < 128 ∧ 65533 ≤ be16 l0 l1).
Proof.
  intros Hok. destruct stream as [|c0 s]; [left; by eexists|].
  apply Forall_cons in Hok as [Hc0 Hok].
  unfold read_first_byte, async_read. cbn [length Nat.leb take drop]. rewrite firstn_O, skipn_O.
  change (rd [c0] 0) with (Ok c0). rsimpl. rewrite top2_byte by done.
  destruct (Z.leb_spec 64 c0), (Z.ltb_spec c0 128); cbn [andb]; try (left; apply read_stun_total).
  destruct (read_channel_cases c0 s Hok) as [?|(->&c1&l0&l1&rest&->&?)]; [by left|].
  right. split; [done|]. eauto 10.
Qed.
(** Every such stream is. *)
Lemma read_overrun_hits c0 c1 l0 l1 rest : 64 ≤ c0 < 128 → byte_ok l0 → byte_ok l1 → 65533 ≤ be16 l0 l1 →
  read_first_byte (c0 :: c1 :: l0 :: l1 :: rest) = Err Undefined.
Proof.
  intros Hc H0 H1 Hl. unfold read_first_byte, async_read. cbn [length Nat.leb].
  change (take 1 (c0 :: ?l)) with [c0]. change (drop 1 (c0 :: ?l)) with l.
  change (rd [c0] 0) with (Ok c0). rsimpl. rewrite top2_byte by (unfold byte_ok; lia).
  destruct (Z.leb_spec 64 c0), (Z.ltb_spec c0 128); try lia. cbn [andb].
  unfold read_channel_header, async_read. cbn [length Nat.leb].
  change (take 3 (c1 :: l0 :: l1 :: ?l)) with [c1; l0; l1]. change (drop 3 (c1 :: l0 :: l1 :: ?l)) with l.
  change (rd [c1; l0; l1] 1) with (Ok l0). change (rd [c1; l0; l1] 2) with (Ok l1). rsimpl.
  assert (E : padded (be16 l0 l1) = 0).
  { pose proof (be16_bound _ _ H0 H1). unfold padded, u16.
    assert (Hn : be16 l0 l1 = 65533 ∨ be16 l0 l1 = 65534 ∨ be16 l0 l1 = 65535) by lia.
    by destruct Hn as [->|[->| ->]]. }
  unfold read_channel_body, async_read. rewrite E. change (Z.to_nat 0) with 0%nat. cbn [Nat.leb].
  unfold rd_range. change (take 0 rest) with (@nil Z). cbn [app length].
  rewrite (proj2 (Nat.leb_gt _ _)) by lia. done.
Qed.

(** ** Property *)

(** C27: what a session makes of a stream. Any sequence of STUN messages and
    ChannelData messages of fewer than 65533 bytes, written back to back on the
    stream and cut off by an incomplete packet or the end of the stream, is
    delivered packet by packet: STUN messages as they are, ChannelData without
    its padding. And the only streams that a session mishandles are those where a
    channel frame announces 65533 bytes or more: then the packet it hands on is
    larger than its buffer, whatever the stream holds next; every other stream is
    read without failing. *)
Theorem tcp_framing :
  (∀ ps rest fuel, Forall packet_ok ps → read_first_byte rest = Ok None → (length ps < fuel)%nat →
     run fuel (concat (map wire ps) ++ rest) = Ok (map delivered ps)) ∧
  (∀ stream, bytes_ok stream →
     (∃ o, read_first_byte stream = Ok o) ∨
     (read_first_byte stream = Err Undefined ∧
      ∃ c0 c1 l0 l1 rest, stream = c0 :: c1 :: l0 :: l1 :: rest ∧ 64 ≤ c0 < 128 ∧ 65533 ≤ be16 l0 l1)) ∧
  (∀ c0 c1 l0 l1 rest, 64 ≤ c0 < 128 → byte_ok l0 → byte_ok l1 → 65533 ≤ be16 l0 l1 →
     read_first_byte (c0 :: c1 :: l0 :: l1 :: rest) = Err Undefined).
Proof.
  split; [exact run_packets|]. split; [exact read_overrun|]. exact read_overrun_hits.
Qed.

Lemma tcp_framing_witness :
  let ps := [ChannelPacket 0x4001 [1; 2; 3];
             StunPacket (build (newBuilder Method.Refresh MessageClass.Request (replicate 12 7)))] in
  run 3 (concat (map wire ps) ++ [0; 1]) = Ok (map delivered ps) ∧
  read_first_byte [0x40; 0; 0xFF; 0xFD; 1; 2; 3; 4] = Err Undefined.
Proof.
  split.
  - apply tcp_framing; [|done|cbn [length]; lia].
    constructor; [split; [lia|done]|]. constructor; [|constructor].
    do 5 eexists. split; [reflexivity|]. split; [done|]. split; [compute_done|done].
  - apply tcp_framing; [lia|done|done|by vm_compute].
Defined.
