(* ===== verification/Calls.v ===== *)
(** * Call sessions (src/backend/calls/call_manager.cpp)

    The signaling server keeps the ringing and active calls in one table behind
    a mutex: each operation is one atomic step, whatever the threads do, and the
    properties hold of every sequence of steps.  [draws] are the two 64-bit
    numbers a call id is made of, [now] the steady clock. *)

From Stdlib Require Import Ascii.
From S2P Require Export Text Nonce.

Module CallState.
Inductive CallState := Ringing | Active | Ended.
End CallState.
Abbreviation CallState := CallState.CallState.

#[export] Instance CallState_eq_dec : EqDecision CallState.
Proof. solve_decision. Defined.

Record CallSession := mkCallSession {
  callId : string;
  callerId : string;
  calleeId : string;
  state : CallState;
  createdAt : Z;
}.

#[export] Instance CallSession_eq_dec : EqDecision CallSession.
Proof. solve_decision. Defined.

Definition set_state (st : CallState) (s : CallSession) : CallSession :=
  mkCallSession (callId s) (callerId s) (calleeId s) st (createdAt s).

Record CallManager := mkCallManager {
  ring_timeout_ : Z;
  sessions_ : gmap string CallSession;
}.

Definition newCallManager (ring_timeout : Z) : CallManager := mkCallManager ring_timeout ∅.

Definition with_sessions (m : gmap string CallSession) (cm : CallManager) : CallManager :=
  mkCallManager (ring_timeout_ cm) m.

(** [generateUuid] from its two draws. *)
Definition generateUuid (a b : Z) : string :=
  let a := (a .& 0xFFFFFFFFFFFF0FFF) .| 0x0000000000004000 in
  let b := (b .& 0x3FFFFFFFFFFFFFFF) .| 0x8000000000000000 in
  hex_setw 8 ((a .>> 32) .& 0xFFFFFFFF) +:+ "-" +:+
  hex_setw 4 ((a .>> 16) .& 0xFFFF) +:+ "-" +:+
  hex_setw 4 (a .& 0xFFFF) +:+ "-" +:+
  hex_setw 4 ((b .>> 48) .& 0xFFFF) +:+ "-" +:+
  hex_setw 12 (b .& 0xFFFFFFFFFFFF).

Section CallManager.
Context `{!IterOrder string CallSession}.

Definition involves (userId : string) (s : CallSession) : bool :=
  bool_decide (callerId s = userId) || bool_decide (calleeId s = userId).

Definition isBusy (userId : string) (cm : CallManager) : bool :=
  existsb (λ '(_, s), negb (bool_decide (state s = CallState.Ended)) && involves userId s)
    (iter (sessions_ cm)).

Abbreviation M := (eff CallManager Empty_set).

Definition create (draws : Z * Z) (now : Z) (callerId calleeId : string) : M string :=
  cm ← get;
  if isBusy callerId cm then throw RuntimeError "caller is busy" else
  if isBusy calleeId cm then throw RuntimeError "callee is busy" else
  let uuid := generateUuid draws.1 draws.2 in
  let s := mkCallSession uuid callerId calleeId CallState.Ringing now in
  put (with_sessions (<[uuid := s]> (sessions_ cm)) cm);;
  mret uuid.

Definition accept (call callee : string) : M CallSession :=
  cm ← get;
  match sessions_ cm !! call with
  | None => throw RuntimeError ("call not found: " +:+ call)
  | Some s =>
      if negb (bool_decide (calleeId s = callee)) then throw RuntimeError "wrong callee" else
      if negb (bool_decide (state s = CallState.Ringing)) then throw RuntimeError "call not ringing" else
      let s := set_state CallState.Active s in
      put (with_sessions (<[call := s]> (sessions_ cm)) cm);;
      mret s
  end.

Definition reject (call callee : string) : M CallSession :=
  cm ← get;
  match sessions_ cm !! call with
  | None => throw RuntimeError ("call not found: " +:+ call)
  | Some s =>
      if negb (bool_decide (calleeId s = callee)) then throw RuntimeError "wrong callee" else
      if negb (bool_decide (state s = CallState.Ringing)) then throw RuntimeError "call not ringing" else
      put (with_sessions (delete call (sessions_ cm)) cm);;
      mret (set_state CallState.Ended s)
  end.

Definition hangup (call userId : string) : M CallSession :=
  cm ← get;
  match sessions_ cm !! call with
  | None => throw RuntimeError ("call not found: " +:+ call)
  | Some s =>
      if negb (bool_decide (callerId s = userId)) && negb (bool_decide (calleeId s = userId))
      then throw RuntimeError "user not in call" else
      put (with_sessions (delete call (sessions_ cm)) cm);;
      mret (set_state CallState.Ended s)
  end.

Definition find (call : string) (cm : CallManager) : option CallSession := sessions_ cm !! call.

(** A session that has been ringing for longer than the timeout. *)
Definition timed_out (timeout now : Z) (s : CallSession) : bool :=
  bool_decide (state s = CallState.Ringing) && (seconds timeout <? now - createdAt s).

(** The loop: [expired] are the sessions pushed so far, [m] the table that the
    loop erases from while it visits the entries in the order of the map. *)
Fixpoint expire_loop (timeout now : Z) (l : list (string * CallSession)) (expired : list CallSession)
    (m : gmap string CallSession) : list CallSession * gmap string CallSession :=
  match l with
  | [] => (expired, m)
  | (k, s) :: l =>
      if timed_out timeout now s
      then expire_loop timeout now l (expired ++ [set_state CallState.Ended s]) (delete k m)
      else expire_loop timeout now l expired m
  end.

Definition expireRinging (now : Z) (cm : CallManager) : list CallSession * CallManager :=
  let '(expired, m) := expire_loop (ring_timeout_ cm) now (iter (sessions_ cm)) [] (sessions_ cm) in
  (expired, with_sessions m cm).

(** ** Lemmas *)

Lemma isBusy_spec userId cm : isBusy userId cm = true ↔
  ∃ k s, sessions_ cm !! k = Some s ∧ state s ≠ CallState.Ended ∧
    (callerId s = userId ∨ calleeId s = userId).
Proof.
  unfold isBusy. rewrite existsb_exists. split.
  - intros ([k s]&Hin%list_elem_of_In%elem_of_iter&[Hst Hu]%andb_true_iff). exists k, s.
    apply negb_true_iff, bool_decide_eq_false in Hst.
    unfold involves in Hu. apply orb_true_iff in Hu. rewrite !bool_decide_eq_true in Hu. done.
  - intros (k&s&Hk&Hst&Hu). exists (k, s). split; [by apply list_elem_of_In, elem_of_iter|].
    apply andb_true_iff. rewrite negb_true_iff, bool_decide_eq_false. split; [done|].
    unfold involves. rewrite orb_true_iff, !bool_decide_eq_true. done.
Qed.

Lemma expire_loop_spec timeout now l expired m :
  NoDup (l.*1) → (∀ k s, (k, s) ∈ l → m !! k = Some s) →
  let out := expire_loop timeout now l expired m in
  out.1 = expired ++ (set_state CallState.Ended <$> (filter (λ s, timed_out timeout now s = true) (l.*2))) ∧
  ∀ k, out.2 !! k = match m !! k with
    | Some s => if bool_decide ((k, s) ∈ l) && timed_out timeout now s then None else Some s
    | None => None
    end.
Proof.
  cbv zeta. revert expired m. induction l as [|[k s] l IH]; intros expired m Hnd Hm; cbn [expire_loop].
  - cbn [fst snd fmap list_fmap filter list_filter]. split; [by rewrite app_nil_r|].
    intros k. destruct (m !! k) as [s|]; [|done].
    rewrite bool_decide_false; [done|]. by intros ?%not_elem_of_nil.
  - apply NoDup_cons in Hnd as [Hk Hnd]. cbn [fst] in Hk.
    assert (Hl : ∀ k' s', (k', s') ∈ l → k' ≠ k).
    { intros k' s' Hin ->. apply Hk. apply list_elem_of_fmap. by exists (k, s'). }
    rewrite fmap_cons, filter_cons. cbn [snd].
    destruct (timed_out timeout now s) eqn:Ht.
    + rewrite decide_True by done. destruct (IH (expired ++ [set_state CallState.Ended s]) (delete k m) Hnd)
        as [-> Hlook].
      { intros k' s' Hin. rewrite lookup_delete_ne; [apply Hm; by right|]. intros <-. by eapply Hl. }
      split; [by rewrite <-app_assoc|]. intros k'. rewrite Hlook.
      destruct (decide (k = k')) as [<-|Hne].
      * rewrite lookup_delete_eq, (Hm k s) by (by left). rewrite bool_decide_true by (by left).
        by rewrite Ht.
      * rewrite lookup_delete_ne by done. destruct (m !! k') as [s'|]; [|done].
        replace (bool_decide ((k', s') ∈ (k, s) :: l)) with (bool_decide ((k', s') ∈ l)); [done|].
        apply bool_decide_ext. rewrite elem_of_cons. split; [by right|]. intros [[= -> ->]|?]; done.
    + rewrite decide_False by done. destruct (IH expired m Hnd) as [-> Hlook].
      { intros k' s' Hin. apply Hm. by right. }
      split; [done|]. intros k'. rewrite Hlook. destruct (m !! k') as [s'|] eqn:Hk'; [|done].
      destruct (decide ((k', s') = (k, s))) as [[= -> ->]|Hne].
      * rewrite Ht, !andb_false_r. done.
      * replace (bool_decide ((k', s') ∈ (k, s) :: l)) with (bool_decide ((k', s') ∈ l)); [done|].
        apply bool_decide_ext. rewrite elem_of_cons. split; [by right|]. intros [?|?]; done.
Qed.

Lemma expireRinging_spec now cm :
  (expireRinging now cm).1 ≡ₚ set_state CallState.Ended <$>
    (map_to_list (filter (λ ks, timed_out (ring_timeout_ cm) now ks.2 = true) (sessions_ cm))).*2 ∧
  sessions_ (expireRinging now cm).2 =
    filter (λ ks, timed_out (ring_timeout_ cm) now ks.2 = false) (sessions_ cm) ∧
  ring_timeout_ (expireRinging now cm).2 = ring_timeout_ cm.
Proof.
  unfold expireRinging. set (t := ring_timeout_ cm). set (m := sessions_ cm).
  destruct (expire_loop_spec t now (iter m) [] m) as [E1 E2].
  { rewrite iter_perm. apply NoDup_fst_map_to_list. }
  { intros k s. by rewrite elem_of_iter. }
  destruct (expire_loop t now (iter m) [] m) as [ex m']. cbn [fst snd] in *. subst ex. split_and!; [| |done].
  - rewrite iter_perm.
    assert (Hf : filter (λ s, timed_out t now s = true) (map_to_list m).*2 =
      (filter (λ ks, timed_out t now ks.2 = true) (map_to_list m)).*2).
    { induction (map_to_list m) as [|[k s] l IH]; [done|]. rewrite fmap_cons, !filter_cons. cbn [snd].
      destruct (decide _); [|done]. by rewrite fmap_cons, IH. }
    rewrite Hf, map_filter_alt, map_to_list_to_map; [done|].
    apply (sublist_NoDup _ (map_to_list m).*1); [apply NoDup_fst_map_to_list|].
    apply fmap_sublist, sublist_filter.
  - apply map_eq. intros k. cbn [sessions_ with_sessions]. rewrite E2, map_lookup_filter.
    destruct (m !! k) as [s|] eqn:Hk; cbn [mbind option_bind]; [|done].
    rewrite bool_decide_true by (by apply elem_of_iter). cbn [andb].
    destruct (timed_out t now s) eqn:Ht.
    + by rewrite option_guard_False by (cbn; congruence).
    + by rewrite option_guard_True by (cbn; congruence).
Qed.

(** *** The operations as case distinctions *)

Lemma create_eq draws now a b cm :
  create draws now a b cm =
    if isBusy a cm then (Err (Thrown RuntimeError "caller is busy"), cm, []) else
    if isBusy b cm then (Err (Thrown RuntimeError "callee is busy"), cm, []) else
    let uuid := generateUuid draws.1 draws.2 in
    (Ok uuid, with_sessions (<[uuid := mkCallSession uuid a b CallState.Ringing now]> (sessions_ cm)) cm, []).
Proof.
  unfold create, mbind, eff_bind, get. destruct (isBusy a cm); [done|]. by destruct (isBusy b cm).
Qed.

Lemma accept_eq k u cm :
  accept k u cm =
    match sessions_ cm !! k with
    | None => (Err (Thrown RuntimeError ("call not found: " +:+ k)), cm, [])
    | Some s =>
        if negb (bool_decide (calleeId s = u)) then (Err (Thrown RuntimeError "wrong callee"), cm, []) else
        if negb (bool_decide (state s = CallState.Ringing))
        then (Err (Thrown RuntimeError "call not ringing"), cm, []) else
        (Ok (set_state CallState.Active s),
         with_sessions (<[k := set_state CallState.Active s]> (sessions_ cm)) cm, [])
    end.
Proof.
  unfold accept, mbind, eff_bind, get. destruct (sessions_ cm !! k) as [s|]; [|done].
  destruct (bool_decide (calleeId s = u)); cbn [negb]; [|done].
  by destruct (bool_decide (state s = CallState.Ringing)).
Qed.

Lemma reject_eq k u cm :
  reject k u cm =
    match sessions_ cm !! k with
    | None => (Err (Thrown RuntimeError ("call not found: " +:+ k)), cm, [])
    | Some s =>
        if negb (bool_decide (calleeId s = u)) then (Err (Thrown RuntimeError "wrong callee"), cm, []) else
        if negb (bool_decide (state s = CallState.Ringing))
        then (Err (Thrown RuntimeError "call not ringing"), cm, []) else
        (Ok (set_state CallState.Ended s), with_sessions (delete k (sessions_ cm)) cm, [])
    end.
Proof.
  unfold reject, mbind, eff_bind, get. destruct (sessions_ cm !! k) as [s|]; [|done].
  destruct (bool_decide (calleeId s = u)); cbn [negb]; [|done].
  by destruct (bool_decide (state s = CallState.Ringing)).
Qed.

Lemma hangup_eq k u cm :
  hangup k u cm =
    match sessions_ cm !! k with
    | None => (Err (Thrown RuntimeError ("call not found: " +:+ k)), cm, [])
    | Some s =>
        if involves u s
        then (Ok (set_state CallState.Ended s), with_sessions (delete k (sessions_ cm)) cm, [])
        else (Err (Thrown RuntimeError "user not in call"), cm, [])
    end.
Proof.
  unfold hangup, mbind, eff_bind, get, involves. destruct (sessions_ cm !! k) as [s|]; [|done].
  by destruct (bool_decide (callerId s = u)), (bool_decide (calleeId s = u)).
Qed.
End CallManager.
