(* ===== verification/Uuid.v ===== *)
(** * Call identifiers (CallManager::generateUuid in src/backend/calls/call_manager.cpp)

    The identifier is a version-4 UUID: the five groups of hexadecimal digits
    with their separators, the version and the variant in their places, and all
    the other 122 bits as they were drawn. *)

From Stdlib Require Import Ascii.
From S2P Require Export Calls.

(** ** Specification *)

Definition hex_char (c : ascii) : bool :=
  let b := ascii_byte c in ((48 <=? b) && (b <=? 57)) || ((97 <=? b) && (b <=? 102)).

Fixpoint hex_string (s : string) : bool :=
  match s with EmptyString => true | String c s => hex_char c && hex_string s end.

(** A group of [n] hexadecimal digits. *)
Definition hex_group (n : nat) (s : string) : Prop := String.length s = n ∧ hex_string s = true.

(** The value of a digit and of a string of digits. *)
Definition hex_digit (c : ascii) : Z :=
  let b := ascii_byte c in if b <? 58 then b - 48 else b - 87.

Fixpoint hex_value (acc : Z) (s : string) : Z :=
  match s with EmptyString => acc | String c s => hex_value (acc * 16 + hex_digit c) s end.

(** ** Hexadecimal numbers of a fixed width *)

Lemma hex_digit_ascii m : 0 ≤ m < 16 → hex_digit (digit_ascii m) = m.
Proof.
  intros Hm. unfold hex_digit. rewrite digit_ascii_val by done.
  destruct (Z.ltb_spec m 10); case_match; brefl; lia.
Qed.

Lemma hex_char_ascii m : 0 ≤ m < 16 → hex_char (digit_ascii m) = true.
Proof.
  intros Hm. assert (H := forall_range (λ m, hex_char (digit_ascii m)) 16 eq_refl). by apply H.
Qed.

Lemma hex_string_app s1 s2 : hex_string (s1 +:+ s2) = hex_string s1 && hex_string s2.
Proof. induction s1 as [|c s1 IH]; [done|]. simpl. rewrite IH. by destruct (hex_char c). Qed.

Lemma hex_string_in s : (∀ c, str_in c s → hex_char c = true) → hex_string s = true.
Proof.
  induction s as [|c s IH]; intros Hin; [done|]. simpl. rewrite Hin by (by left).
  apply IH. intros c' ?. apply Hin. by right.
Qed.

Lemma hex_string_setw w n : hex_string (hex_setw w n) = true.
Proof.
  unfold hex_setw. rewrite hex_string_app. apply andb_true_iff. split.
  - generalize (w - String.length (digits 16 n))%nat as k. by induction k.
  - apply hex_string_in. intros c (m&Hm&->)%digits_in; [by apply hex_char_ascii|lia].
Qed.

Lemma hex_group_setw w n : (0 < w)%nat → 0 ≤ n < 16 ^ Z.of_nat w → hex_group w (hex_setw w n).
Proof. intros. split; [by apply hex_setw_length|apply hex_string_setw]. Qed.

Lemma hex_value_go fuel n s :
  0 ≤ n < 16 ^ Z.of_nat fuel → hex_value 0 (digits_go 16 fuel n s) = hex_value n s.
Proof.
  revert n s. induction fuel as [|fuel IH]; intros n s Hn.
  { simpl. f_equal. change (16 ^ Z.of_nat 0) with 1 in Hn. lia. }
  rewrite Nat2Z.inj_succ, Z.pow_succ_r in Hn by lia. cbn [digits_go].
  destruct (Z.ltb_spec n 16); [|rewrite IH by dlia]; cbn [hex_value];
    rewrite hex_digit_ascii by dlia; f_equal; dlia.
Qed.

Lemma hex_value_setw w n : 0 ≤ n → hex_value 0 (hex_setw w n) = n.
Proof.
  intros Hn. unfold hex_setw. set (s := digits 16 n).
  transitivity (hex_value 0 s).
  - generalize (w - String.length s)%nat as k. induction k as [|k IH]; [done|]. simpl. by rewrite <-IH.
  - subst s. unfold digits. rewrite hex_value_go; [done|]. split; [done|]. by apply digits_fuel.
Qed.

Lemma hex_setw_inj w n m : 0 ≤ n → 0 ≤ m → hex_setw w n = hex_setw w m → n = m.
Proof. intros ?? Heq%(f_equal (hex_value 0)). by rewrite !hex_value_setw in Heq. Qed.

Lemma str_app_inj s1 s2 t1 t2 : String.length s1 = String.length s2 →
  s1 +:+ t1 = s2 +:+ t2 → s1 = s2 ∧ t1 = t2.
Proof.
  revert s2. induction s1 as [|c s1 IH]; intros [|c2 s2] Hl Heq; simpl in *; try lia; [done|].
  injection Heq as -> Heq. destruct (IH s2) as [-> ->]; [lia|done|done].
Qed.

(** ** The groups of an identifier *)

(** The field of [w] bits at bit [k]. *)
Definition field (x k w : Z) : Z := (x .>> k) .& Z.ones w.

Lemma field_bound x k w : 0 ≤ w → 0 ≤ field x k w < 2 ^ w.
Proof. intros. unfold field. rewrite Z.land_ones by done. apply Z.mod_pos_bound. lia. Qed.

Lemma field_shift x k w : 0 ≤ k → 0 ≤ w → field x k w .<< k = x .& (Z.ones w .<< k).
Proof.
  intros Hk Hw. apply Z.bits_inj'. intros i Hi. unfold field.
  rewrite Z.land_spec. destruct (Z.lt_ge_cases i k).
  - rewrite !Z.shiftl_spec_low by done. by rewrite andb_false_r.
  - rewrite !Z.shiftl_spec by done. rewrite Z.land_spec, Z.shiftr_spec by lia. f_equal. f_equal. lia.
Qed.

Lemma masked_field x K C k w M C' : (K .>> k) .& M = Z.ones w → (C .>> k) .& M = C' →
  (((x .& K) .| C) .>> k) .& M = field x k w .| C'.
Proof.
  intros HK HC. unfold field.
  by rewrite Z.shiftr_lor, Z.shiftr_land, Z.land_lor_distr_l, <-Z.land_assoc, HK, HC.
Qed.

Lemma generateUuid_groups a b : generateUuid a b =
  hex_setw 8 (field a 32 32) +:+ "-" +:+
  hex_setw 4 (field a 16 16) +:+ "-" +:+
  hex_setw 4 (field a 0 12 .| 0x4000) +:+ "-" +:+
  hex_setw 4 (field b 48 14 .| 0x8000) +:+ "-" +:+
  hex_setw 12 (field b 0 48).
Proof.
  unfold generateUuid. cbv zeta.
  rewrite (masked_field a _ _ 32 32 _ 0), (masked_field a _ _ 16 16 _ 0), !Z.lor_0_r by done.
  rewrite (masked_field b _ _ 48 14 _ 0x8000) by done.
  rewrite <-(Z.shiftr_0_r ((a .& _) .| _)), <-(Z.shiftr_0_r ((b .& _) .| _)).
  rewrite (masked_field a _ _ 0 12 _ 0x4000), (masked_field b _ _ 0 48 _ 0), Z.lor_0_r by done. done.
Qed.

(** A test that holds of all numbers of 6 and 8 bits holds of all of 14. *)
Lemma forall_range_256 (P : Z → bool) n :
  all_from (λ hi, all_from (λ lo, P (hi * 256 + lo)) 256 0) n 0 = true →
  ∀ x, 0 ≤ x < Z.of_nat n * 256 → P x = true.
Proof.
  intros Hall x Hx. assert (Hhi : 0 ≤ x / 256 < Z.of_nat n) by dlia.
  assert (Hlo : 0 ≤ x mod 256 < Z.of_nat 256) by dlia.
  pose proof (forall_range _ _ (forall_range _ _ Hall _ Hhi) _ Hlo) as HP. cbv beta in HP.
  by rewrite Z.mul_comm, <-Z.div_mod in HP.
Qed.

Definition version_ok (x : Z) : bool :=
  match hex_setw 4 (x .| 0x4000) with
  | String c g => Ascii.eqb c "4" && (String.length g =? 3)%nat && hex_string g
  | EmptyString => false
  end.

Lemma group_3 x : 0 ≤ x < 4096 → ∃ g, hex_setw 4 (x .| 0x4000) = String "4"%char g ∧ hex_group 3 g.
Proof.
  intros Hx. assert (Hv : version_ok x = true) by (apply (forall_range_256 _ 16); [by vm_compute|done]).
  unfold version_ok in Hv. destruct (hex_setw _ _) as [|c g]; [done|]. brefl.
  match goal with H : Ascii.eqb _ _ = true |- _ => apply Ascii.eqb_eq in H as -> end. by exists g.
Qed.

Definition variant_ok (x : Z) : bool :=
  match hex_setw 4 (x .| 0x8000) with
  | String c g => existsb (Ascii.eqb c) ["8"; "9"; "a"; "b"]%char && (String.length g =? 3)%nat && hex_string g
  | EmptyString => false
  end.

Lemma variant_ok_all x : 0 ≤ x < 16384 → variant_ok x = true.
Proof. intros Hx. apply (forall_range_256 _ 64); [by vm_compute|done]. Qed.

Lemma group_4 x : 0 ≤ x < 16384 → ∃ v g, hex_setw 4 (x .| 0x8000) = String v g ∧ hex_group 3 g ∧
  str_in v "89ab".
Proof.
  intros Hx%variant_ok_all. unfold variant_ok in Hx.
  destruct (hex_setw _ _) as [|c g]; [done|]. brefl.
  match goal with H : existsb _ _ = true |- _ => apply existsb_exists in H as (v&Hv&->%Ascii.eqb_eq) end.
  exists v, g. split; [done|]. split; [done|].
  destruct Hv as [<- | [<- | [<- | [<- | []]]]]; simpl; auto.
Qed.

(** Equal groups are equal fields. *)
Lemma field_lor x y k w c : 0 ≤ w → c .& Z.ones w = 0 →
  field x k w .| c = field y k w .| c → field x k w = field y k w.
Proof.
  intros Hw Hc Heq%(f_equal (λ z, z .& Z.ones w)). unfold field in *.
  rewrite !Z.land_lor_distr_l, <-!Z.land_assoc, Z.land_diag, Hc, !Z.lor_0_r in Heq. done.
Qed.

Lemma lor_small w x c : 0 ≤ w → 0 ≤ x < 2 ^ w → 0 ≤ c < 2 ^ w → 0 ≤ x .| c < 2 ^ w.
Proof.
  intros Hw Hx Hc. split; [apply Z.lor_nonneg; lia|].
  replace (x .| c) with ((x .| c) .& Z.ones w); [rewrite Z.land_ones by done; apply Z.mod_pos_bound; lia|].
  rewrite Z.land_lor_distr_l, !Z.land_ones, !Z.mod_small by lia. done.
Qed.

(** The groups determine the masked draws. *)
Lemma masked_a a c : field a 32 32 = field c 32 32 → field a 16 16 = field c 16 16 →
  field a 0 12 = field c 0 12 → a .& 0xFFFFFFFFFFFF0FFF = c .& 0xFFFFFFFFFFFF0FFF.
Proof.
  intros E1 E2 E3.
  change 0xFFFFFFFFFFFF0FFF with ((Z.ones 32 .<< 32) .| (Z.ones 16 .<< 16) .| (Z.ones 12 .<< 0)).
  rewrite !Z.land_lor_distr_r, <-!field_shift by lia. by rewrite E1, E2, E3.
Qed.

Lemma masked_b b d : field b 48 14 = field d 48 14 → field b 0 48 = field d 0 48 →
  b .& 0x3FFFFFFFFFFFFFFF = d .& 0x3FFFFFFFFFFFFFFF.
Proof.
  intros E1 E2. change 0x3FFFFFFFFFFFFFFF with ((Z.ones 14 .<< 48) .| (Z.ones 48 .<< 0)).
  rewrite !Z.land_lor_distr_r, <-!field_shift by lia. by rewrite E1, E2.
Qed.

(** The first groups of equal identifiers are equal numbers. *)
Lemma group_inj w n m s t : (0 < w)%nat → 0 ≤ n < 16 ^ Z.of_nat w → 0 ≤ m < 16 ^ Z.of_nat w →
  hex_setw w n +:+ "-" +:+ s = hex_setw w m +:+ "-" +:+ t → n = m ∧ s = t.
Proof.
  intros Hw Hn Hm [Hnm [= ->]]%str_app_inj; [|by rewrite !hex_setw_length].
  split; [|done]. apply (hex_setw_inj w); lia || done.
Qed.

(** A call id is a well-formed version-4 UUID whatever was drawn: groups of
    8, 4, 4, 4 and 12 lower-case hexadecimal digits, the version digit 4 and a
    variant digit among 8, 9, a and b in their places; and two draws give the
    same id exactly when they agree in the other 122 bits, so none of the
    randomness is lost. *)
Lemma uuid_format :
  (∀ a b, ∃ g1 g2 g3 v g4 g5, generateUuid a b =
     g1 +:+ "-" +:+ g2 +:+ "-" +:+ String "4" g3 +:+ "-" +:+ String v g4 +:+ "-" +:+ g5 ∧
     hex_group 8 g1 ∧ hex_group 4 g2 ∧ hex_group 3 g3 ∧ str_in v "89ab" ∧ hex_group 3 g4 ∧
     hex_group 12 g5) ∧
  (∀ a b c d, generateUuid a b = generateUuid c d ↔
     a .& 0xFFFFFFFFFFFF0FFF = c .& 0xFFFFFFFFFFFF0FFF ∧
     b .& 0x3FFFFFFFFFFFFFFF = d .& 0x3FFFFFFFFFFFFFFF).
Proof.
  split.
  - intros a b. rewrite generateUuid_groups.
    destruct (group_3 (field a 0 12)) as (g3&->&?); [by apply field_bound|].
    destruct (group_4 (field b 48 14)) as (v&g4&->&?&?); [by apply field_bound|].
    exists (hex_setw 8 (field a 32 32)), (hex_setw 4 (field a 16 16)), g3, v, g4, (hex_setw 12 (field b 0 48)).
    split; [done|]. split_and!; try done; apply hex_group_setw; try lia; by apply field_bound.
  - intros a b c d. split; [|intros [Ha Hb]; unfold generateUuid; by rewrite Ha, Hb].
    rewrite !generateUuid_groups. intros Heq.
    assert (B := field_bound). assert (B12 := λ x, lor_small 16 (field x 0 12) 0x4000).
    assert (B14 := λ x, lor_small 16 (field x 48 14) 0x8000).
    apply group_inj in Heq as [E1 Heq]; [|lia|by apply B..].
    apply group_inj in Heq as [E2 Heq]; [|lia|by apply B..].
    apply group_inj in Heq as [E3 Heq]; [|lia|apply B12; [lia| |lia]; pose proof (B a 0 12); pose proof (B c 0 12); lia..].
    apply group_inj in Heq as [E4 Heq]; [|lia|apply B14; [lia| |lia]; pose proof (B b 48 14); pose proof (B d 48 14); lia..].
    apply hex_setw_inj in Heq; [|by apply B..].
    apply field_lor in E3, E4; try done. split; [by apply masked_a|by apply masked_b].
Qed.
