(* ===== verification/CallSafety.v ===== *)
(** * Properties of the call sessions

    Nobody is in two calls, sessions follow the automaton of a call (ringing,
    then active or gone), the operations succeed exactly when the automaton
    allows them, and whoever leaves a call is free again. *)

From Stdlib Require Import Ascii.
From S2P Require Export Calls.

(** ** The automaton of one call *)

(** The phase of a call: its state, its parties, and since when. *)
Definition phase : Type := option (CallState * string * string * Z).

Definition phase_of (cm : CallManager) (call : string) : phase :=
  (λ s, (state s, callerId s, calleeId s, createdAt s)) <$> sessions_ cm !! call.

Inductive call_op :=
  | Create (draws : Z * Z) (caller callee : string) (now : Z)
  | Accept (call callee : string)
  | Reject (call callee : string)
  | Hangup (call user : string)
  | Expire (now : Z).

(** How an operation that succeeds moves the call [k]; it is [None] when the
    call does not allow the operation. *)
Definition next_phase (timeout : Z) (op : call_op) (k : string) (p : phase) : option phase :=
  match op with
  | Create draws caller callee now =>
      if decide (generateUuid draws.1 draws.2 = k) then
        if decide (p = None) then Some (Some (CallState.Ringing, caller, callee, now)) else None
      else Some p
  | Accept call callee =>
      if decide (call = k) then
        match p with
        | Some (CallState.Ringing, a, b, t) =>
            if decide (b = callee) then Some (Some (CallState.Active, a, b, t)) else None
        | _ => None
        end
      else Some p
  | Reject call callee =>
      if decide (call = k) then
        match p with
        | Some (CallState.Ringing, a, b, t) => if decide (b = callee) then Some None else None
        | _ => None
        end
      else Some p
  | Hangup call user =>
      if decide (call = k) then
        match p with
        | Some (_, a, b, t) => if decide (a = user ∨ b = user) then Some None else None
        | None => None
        end
      else Some p
  | Expire now =>
      match p with
      | Some (CallState.Ringing, a, b, t) =>
          if decide (now - t > seconds timeout) then Some None else Some p
      | _ => Some p
      end
  end.

Section safety.
Context `{!IterOrder string CallSession}.

(** The operation as the code performs it. *)
Definition perform (op : call_op) (cm : CallManager) : result () * CallManager :=
  let done {A} (o : result A * CallManager * list Empty_set) :=
    (match out_result o with Ok _ => Ok () | Err e => Err e end, out_state o) in
  match op with
  | Create draws caller callee now => done (create draws now caller callee cm)
  | Accept call callee => done (accept call callee cm)
  | Reject call callee => done (reject call callee cm)
  | Hangup call user => done (hangup call user cm)
  | Expire now => (Ok (), (expireRinging now cm).2)
  end.

(** The automaton of every call allows the operation, and the parties of a new
    call are free. *)
Definition allowed (op : call_op) (cm : CallManager) : Prop :=
  (∀ k, is_Some (next_phase (ring_timeout_ cm) op k (phase_of cm k))) ∧
  match op with
  | Create _ caller callee _ => isBusy caller cm = false ∧ isBusy callee cm = false
  | _ => True
  end.

(** ** Runs *)

Inductive call_step (cm : CallManager) : CallManager → Prop :=
  | step_create draws now a b : call_step cm (out_state (create draws now a b cm))
  | step_accept k u : call_step cm (out_state (accept k u cm))
  | step_reject k u : call_step cm (out_state (reject k u cm))
  | step_hangup k u : call_step cm (out_state (hangup k u cm))
  | step_expire now : call_step cm (expireRinging now cm).2.

Definition call_run (cm : CallManager) : Prop :=
  ∃ timeout, rtc call_step (newCallManager timeout) cm.

Definition party (u : string) (s : CallSession) : Prop := callerId s = u ∨ calleeId s = u.

Record calls_inv (cm : CallManager) : Prop := {
  inv_session k s : sessions_ cm !! k = Some s → callId s = k ∧ state s ≠ CallState.Ended;
  inv_exclusive u k1 k2 s1 s2 : sessions_ cm !! k1 = Some s1 → sessions_ cm !! k2 = Some s2 →
    party u s1 → party u s2 → k1 = k2;
}.

(** ** Lemmas *)

Lemma busy_party u cm : calls_inv cm →
  isBusy u cm = true ↔ ∃ k s, sessions_ cm !! k = Some s ∧ party u s.
Proof.
  intros I. rewrite isBusy_spec. split.
  - intros (k&s&?&_&?). eauto.
  - intros (k&s&Hk&?). exists k, s. split; [done|]. split; [by apply (inv_session _ I k)|done].
Qed.

Lemma inv_submap cm m : calls_inv cm →
  (∀ k s, m !! k = Some s → ∃ s', sessions_ cm !! k = Some s' ∧ callId s = callId s' ∧
     callerId s = callerId s' ∧ calleeId s = calleeId s' ∧ state s ≠ CallState.Ended) →
  calls_inv (with_sessions m cm).
Proof.
  intros I Hm. split; cbn.
  - intros k s Hk. destruct (Hm k s Hk) as (s'&Hk'&->&_&_&?).
    split; [by apply (inv_session _ I k)|done].
  - intros u k1 k2 s1 s2 Hk1 Hk2. unfold party.
    destruct (Hm k1 s1 Hk1) as (s1'&?&_&->&->&_). destruct (Hm k2 s2 Hk2) as (s2'&?&_&->&->&_).
    by apply (inv_exclusive _ I u).
Qed.

Lemma inv_delete cm k : calls_inv cm → calls_inv (with_sessions (delete k (sessions_ cm)) cm).
Proof.
  intros I. apply inv_submap; [done|]. intros k' s [_ Hk']%lookup_delete_Some. exists s.
  split_and!; try done. by apply (inv_session _ I k').
Qed.

Lemma inv_create cm k a b now : calls_inv cm →
  isBusy a cm = false → isBusy b cm = false →
  calls_inv (with_sessions (<[k := mkCallSession k a b CallState.Ringing now]> (sessions_ cm)) cm).
Proof.
  intros I Ha Hb.
  assert (Hfree : ∀ u k' s, u = a ∨ u = b → sessions_ cm !! k' = Some s → party u s → False).
  { intros u k' s Hu Hk' Hp. assert (Hbusy : isBusy u cm = true) by (apply busy_party; eauto).
    destruct Hu as [-> | ->]; congruence. }
  split; cbn.
  - intros k' s [[<- <-]|[_ ?]]%lookup_insert_Some; [done|by apply (inv_session _ I)].
  - intros u k1 k2 s1 s2 [[<- <-]|[? H1]]%lookup_insert_Some [[<- <-]|[? H2]]%lookup_insert_Some P1 P2.
    + done.
    + exfalso. apply (Hfree u k2 s2); [|done..]. destruct P1; cbn in *; auto.
    + exfalso. apply (Hfree u k1 s1); [|done..]. destruct P2; cbn in *; auto.
    + by apply (inv_exclusive _ I u k1 k2 s1 s2).
Qed.

Lemma call_step_inv cm cm' : calls_inv cm → call_step cm cm' → calls_inv cm'.
Proof.
  intros I [draws now a b|k u|k u|k u|now].
  - rewrite create_eq. destruct (isBusy a cm) eqn:Ha; [done|]. destruct (isBusy b cm) eqn:Hb; [done|].
    by apply inv_create.
  - rewrite accept_eq. destruct (sessions_ cm !! k) as [s|] eqn:Hk; [|done].
    destruct (negb _); [done|]. destruct (negb _); [done|].
    apply inv_submap; [done|]. intros k' s' [[<- <-]|[_ Hk']]%lookup_insert_Some.
    + exists s. done.
    + exists s'. split_and!; try done. by apply (inv_session _ I k').
  - rewrite reject_eq. destruct (sessions_ cm !! k) as [s|] eqn:Hk; [|done].
    destruct (negb _); [done|]. destruct (negb _); [done|]. by apply inv_delete.
  - rewrite hangup_eq. destruct (sessions_ cm !! k) as [s|] eqn:Hk; [|done].
    destruct (involves u s); [|done]. by apply inv_delete.
  - destruct (expireRinging_spec now cm) as (_&Hs&Ht).
    destruct ((expireRinging now cm).2) as [t m] eqn:E. cbn in Hs, Ht. subst t m.
    apply (inv_submap cm); [done|]. intros k' s [Hk' _]%map_lookup_filter_Some. exists s.
    split_and!; try done. by apply (inv_session _ I k').
Qed.

Lemma call_run_inv cm : call_run cm → calls_inv cm.
Proof.
  intros (timeout&Hr). assert (I : calls_inv (newCallManager timeout)).
  { split; cbn; intros *; by rewrite lookup_empty. }
  induction Hr as [|cm1 cm2 cm3 Hs _ IH]; [done|]. apply IH. by eapply call_step_inv.
Qed.

Lemma call_run_step cm cm' : call_run cm → call_step cm cm' → call_run cm'.
Proof. intros (timeout&?) ?. exists timeout. by eapply rtc_r. Qed.

Lemma phase_of_insert cm k s call :
  phase_of (with_sessions (<[k := s]> (sessions_ cm)) cm) call =
    if decide (k = call) then Some (state s, callerId s, calleeId s, createdAt s) else phase_of cm call.
Proof.
  unfold phase_of. cbn. case_decide; subst; [by rewrite lookup_insert_eq|by rewrite lookup_insert_ne].
Qed.

Lemma phase_of_delete cm k call :
  phase_of (with_sessions (delete k (sessions_ cm)) cm) call =
    if decide (k = call) then None else phase_of cm call.
Proof.
  unfold phase_of. cbn. case_decide; subst; [by rewrite lookup_delete_eq|by rewrite lookup_delete_ne].
Qed.

(** An operation on one call: it is enough to look at that call. *)
Lemma one_call timeout op k (r : result ()) cm cm' :
  (∀ k' p, k ≠ k' → next_phase timeout op k' p = Some p) →
  (∀ k', k ≠ k' → phase_of cm' k' = phase_of cm k') →
  (r = Ok () → next_phase timeout op k (phase_of cm k) = Some (phase_of cm' k)) →
  (r ≠ Ok () → next_phase timeout op k (phase_of cm k) = None ∧ cm' = cm) →
  (r = Ok () ↔ (∀ k', is_Some (next_phase timeout op k' (phase_of cm k'))) ∧ True) ∧
  (r = Ok () → ∀ k', next_phase timeout op k' (phase_of cm k') = Some (phase_of cm' k')) ∧
  (r ≠ Ok () → cm' = cm).
Proof.
  intros Hop Hcm Hok Herr.
  assert (Hall : r = Ok () → ∀ k', next_phase timeout op k' (phase_of cm k') = Some (phase_of cm' k')).
  { intros Hr k'. destruct (decide (k = k')) as [<-|Hne]; [by apply Hok|]. by rewrite Hop, Hcm. }
  split; [split|split; [done|by intros [_ ?]%Herr]].
  - intros Hr. split; [|done]. intros k'. rewrite Hall by done. eauto.
  - intros [Hsome _]. destruct (decide (r = Ok ())) as [|Hne]; [done|].
    destruct (Herr Hne) as [Hn _]. specialize (Hsome k). rewrite Hn in Hsome. by apply is_Some_None in Hsome.
Qed.

Lemma phase_of_lookup cm k s : sessions_ cm !! k = Some s →
  phase_of cm k = Some (state s, callerId s, calleeId s, createdAt s).
Proof. unfold phase_of. by intros ->. Qed.

Lemma phase_of_None cm k : sessions_ cm !! k = None → phase_of cm k = None.
Proof. unfold phase_of. by intros ->. Qed.

(** The specification of an operation on one call. *)
Definition follows (op : call_op) (cm : CallManager) : Prop :=
  let o := perform op cm in
  (o.1 = Ok () ↔ allowed op cm) ∧
  (o.1 = Ok () → ∀ k, next_phase (ring_timeout_ cm) op k (phase_of cm k) = Some (phase_of o.2 k)) ∧
  (o.1 ≠ Ok () → o.2 = cm).

Lemma accept_follows k u cm : follows (Accept k u) cm.
Proof.
  unfold follows, allowed. apply (one_call _ _ k); cbn [perform next_phase]; rewrite ?accept_eq.
  - intros. by rewrite decide_False.
  - intros k' Hne. destruct (sessions_ cm !! k) as [s|]; [|done].
    do 2 (case_bool_decide; cbn [negb]; [|done]). cbn [out_state snd fst].
    by rewrite phase_of_insert, decide_False.
  - rewrite decide_True by done.
    destruct (sessions_ cm !! k) as [s|] eqn:Hk; [|done]. rewrite (phase_of_lookup _ _ _ Hk).
    do 2 (case_bool_decide; cbn [negb]; [|done]). intros _. cbn [out_state snd fst].
    rewrite phase_of_insert, decide_True by done. destruct (state s); try done. by rewrite decide_True.
  - rewrite decide_True by done.
    destruct (sessions_ cm !! k) as [s|] eqn:Hk; [|by rewrite (phase_of_None _ _ Hk)].
    rewrite (phase_of_lookup _ _ _ Hk). case_bool_decide; cbn [negb].
    2: { intros _. split; [|done]. destruct (state s); try done. by rewrite decide_False. }
    case_bool_decide; cbn [negb]; [done|]. intros _. split; [|done]. by destruct (state s).
Qed.

Lemma reject_follows k u cm : follows (Reject k u) cm.
Proof.
  unfold follows, allowed. apply (one_call _ _ k); cbn [perform next_phase]; rewrite ?reject_eq.
  - intros. by rewrite decide_False.
  - intros k' Hne. destruct (sessions_ cm !! k) as [s|]; [|done].
    do 2 (case_bool_decide; cbn [negb]; [|done]). cbn [out_state snd fst]. by rewrite phase_of_delete, decide_False.
  - rewrite decide_True by done.
    destruct (sessions_ cm !! k) as [s|] eqn:Hk; [|done]. rewrite (phase_of_lookup _ _ _ Hk).
    do 2 (case_bool_decide; cbn [negb]; [|done]). intros _. cbn [out_state snd fst].
    rewrite phase_of_delete, decide_True by done. destruct (state s); try done. by rewrite decide_True.
  - rewrite decide_True by done.
    destruct (sessions_ cm !! k) as [s|] eqn:Hk; [|by rewrite (phase_of_None _ _ Hk)].
    rewrite (phase_of_lookup _ _ _ Hk). case_bool_decide; cbn [negb].
    2: { intros _. split; [|done]. destruct (state s); try done. by rewrite decide_False. }
    case_bool_decide; cbn [negb]; [done|]. intros _. split; [|done]. by destruct (state s).
Qed.

Lemma involves_spec u s : involves u s = bool_decide (callerId s = u ∨ calleeId s = u).
Proof. unfold involves. by rewrite bool_decide_or. Qed.

Lemma hangup_follows k u cm : follows (Hangup k u) cm.
Proof.
  unfold follows, allowed. apply (one_call _ _ k); cbn [perform next_phase]; rewrite ?hangup_eq.
  - intros. by rewrite decide_False.
  - intros k' Hne. destruct (sessions_ cm !! k) as [s|]; [|done].
    destruct (involves u s); [|done]. cbn [out_state snd fst]. by rewrite phase_of_delete, decide_False.
  - rewrite decide_True by done.
    destruct (sessions_ cm !! k) as [s|] eqn:Hk; [|done]. rewrite (phase_of_lookup _ _ _ Hk), involves_spec.
    case_bool_decide; [|done]. intros _. cbn [out_state snd fst].
    rewrite phase_of_delete, !decide_True by done. done.
  - rewrite decide_True by done.
    destruct (sessions_ cm !! k) as [s|] eqn:Hk; [|by rewrite (phase_of_None _ _ Hk)].
    rewrite (phase_of_lookup _ _ _ Hk), involves_spec. case_bool_decide; [done|].
    intros _. split; [|done]. by rewrite decide_False.
Qed.

Lemma expire_follows now cm : follows (Expire now) cm.
Proof.
  unfold follows, allowed. cbn [perform fst snd]. destruct (expireRinging_spec now cm) as (_&Hs&_).
  assert (Hnext : ∀ k, next_phase (ring_timeout_ cm) (Expire now) k (phase_of cm k) =
    Some (phase_of (expireRinging now cm).2 k)).
  { intros k. unfold phase_of. rewrite Hs, map_lookup_filter.
    destruct (sessions_ cm !! k) as [s|]; [|done]. cbn [fmap option_fmap option_map mbind option_bind next_phase].
    cbn [snd]. destruct (timed_out (ring_timeout_ cm) now s) eqn:E.
    - rewrite option_guard_False by done. unfold timed_out in E.
      apply andb_true_iff in E as [Est%bool_decide_eq_true Ht%Z.ltb_lt]. rewrite Est.
      by rewrite decide_True by lia.
    - rewrite option_guard_True by done. cbn. unfold timed_out in E.
      apply andb_false_iff in E as [Est%bool_decide_eq_false|Ht%Z.ltb_ge].
      + by destruct (state s).
      + destruct (state s); [|done..]. by rewrite decide_False by lia. }
  split; [|done]. split; [|done].
  intros _. split; [|done]. intros k. rewrite Hnext. eauto.
Qed.

Lemma create_follows draws now a b cm : sessions_ cm !! generateUuid draws.1 draws.2 = None →
  follows (Create draws a b now) cm.
Proof.
  unfold follows, allowed. cbn [perform]. rewrite create_eq. set (uuid := generateUuid _ _). intros Hfresh.
  assert (Hall : ∀ k, next_phase (ring_timeout_ cm) (Create draws a b now) k (phase_of cm k) =
    Some (if decide (uuid = k) then Some (CallState.Ringing, a, b, now) else phase_of cm k)).
  { intros k. cbn [next_phase]. fold uuid. case_decide as E; [|done]. subst k.
    by rewrite (phase_of_None _ _ Hfresh). }
  destruct (isBusy a cm); [split; [split; [done|by intros (_&?&_)]|done]|].
  destruct (isBusy b cm); [split; [split; [done|by intros (_&_&?)]|done]|].
  cbn [out_result out_state fst snd]. split; [split; [|done]|split; [|done]].
  - intros _. split; [|done]. intros k. rewrite Hall. eauto.
  - intros _ k. rewrite Hall. by rewrite phase_of_insert.
Qed.
(** The sessions after an operation are sessions of before with the same
    parties, but for the one that a successful [create] adds. *)
Lemma perform_parties op cm k s' : sessions_ (perform op cm).2 !! k = Some s' →
  (∃ s, sessions_ cm !! k = Some s ∧ ∀ u, party u s' ↔ party u s) ∨
  ∃ draws a b now, op = Create draws a b now.
Proof.
  destruct op as [draws a b now|c u|c u|c u|now]; [intros _; right; by eauto| | | |]; cbn [perform snd]; intros H; left.
  - rewrite accept_eq in H. destruct (sessions_ cm !! c) as [s|] eqn:Hc; [|by eauto].
    destruct (negb _); [by eauto|]. destruct (negb _); [by eauto|].
    cbn in H. apply lookup_insert_Some in H as [[<- <-]|[_ ?]]; eauto.
  - rewrite reject_eq in H. destruct (sessions_ cm !! c) as [s|] eqn:Hc; [|by eauto].
    destruct (negb _); [by eauto|]. destruct (negb _); [by eauto|].
    cbn in H. apply lookup_delete_Some in H as [_ ?]; eauto.
  - rewrite hangup_eq in H. destruct (sessions_ cm !! c) as [s|] eqn:Hc; [|by eauto].
    destruct (involves u s); [|by eauto]. cbn in H. apply lookup_delete_Some in H as [_ ?]; eauto.
  - destruct (expireRinging_spec now cm) as (_&E&_). rewrite E in H.
    apply map_lookup_filter_Some in H as [? _]. eauto.
Qed.

(** [create] removes no session. *)
Lemma create_keeps draws a b now cm k : is_Some (sessions_ cm !! k) →
  is_Some (sessions_ (perform (Create draws a b now) cm).2 !! k).
Proof.
  intros Hk. cbn [perform snd]. rewrite create_eq.
  destruct (isBusy a cm); [done|]. destruct (isBusy b cm); [done|].
  cbn. apply lookup_insert_is_Some. destruct (decide (generateUuid draws.1 draws.2 = k)); auto.
Qed.
End safety.

Section properties.
Context `{!IterOrder string CallSession}.

(** C29: in every state the signaling server can reach, a user is in at most one
    call (whatever ids are drawn), every session in the table is ringing or active under its own id, and
    a user is busy exactly when some session names the user. *)
Theorem calls_exclusive cm : call_run cm →
  (∀ u k1 k2 s1 s2, sessions_ cm !! k1 = Some s1 → sessions_ cm !! k2 = Some s2 →
     party u s1 → party u s2 → k1 = k2) ∧
  (∀ k s, sessions_ cm !! k = Some s → callId s = k ∧
     (state s = CallState.Ringing ∨ state s = CallState.Active)) ∧
  (∀ u, isBusy u cm = true ↔ ∃ k s, sessions_ cm !! k = Some s ∧ party u s).
Proof.
  intros I%call_run_inv. split_and!.
  - apply (inv_exclusive _ I).
  - intros k s Hk. destruct (inv_session _ I k s Hk) as [? Hne]. split; [done|].
    destruct (state s); [by left|by right|done].
  - intros u. by apply busy_party.
Qed.

(** C5: the operations implement the automaton of a call: an operation succeeds
    exactly when every call allows it and, for a new call, both parties are
    free; then it moves each call as the automaton says; when it fails it
    changes nothing.  Only the callee accepts or rejects, only while it rings,
    only a party hangs up, and a call that has ended is gone. *)
Theorem operations_follow_automaton op cm :
  (∀ draws a b now, op = Create draws a b now → sessions_ cm !! generateUuid draws.1 draws.2 = None) →
  ((perform op cm).1 = Ok () ↔ allowed op cm) ∧
  ((perform op cm).1 = Ok () →
     ∀ k, next_phase (ring_timeout_ cm) op k (phase_of cm k) = Some (phase_of (perform op cm).2 k)) ∧
  ((perform op cm).1 ≠ Ok () → (perform op cm).2 = cm).
Proof.
  intros Hfresh. destruct op as [draws a b now|k u|k u|k u|now].
  - by apply create_follows, (Hfresh draws a b now).
  - apply accept_follows.
  - apply reject_follows.
  - apply hangup_follows.
  - apply expire_follows.
Qed.
(** Whoever leaves a call is free again: when an operation removes a call
    (a rejection, a hang-up by either side, a timeout), neither of its parties
    is busy afterwards; and the sweep reports exactly the calls that had been
    ringing for longer than the timeout, marked as ended, and removes just
    these. *)
Lemma ended_call_frees_parties cm : call_run cm →
  (∀ op k s u, sessions_ cm !! k = Some s → sessions_ (perform op cm).2 !! k = None → party u s →
     isBusy u (perform op cm).2 = false) ∧
  (∀ now, (∀ s, s ∈ (expireRinging now cm).1 ↔ ∃ k s0, sessions_ cm !! k = Some s0 ∧
      state s0 = CallState.Ringing ∧ now - createdAt s0 > seconds (ring_timeout_ cm) ∧
      s = set_state CallState.Ended s0) ∧
     ∀ k, sessions_ (expireRinging now cm).2 !! k = None ↔
       sessions_ cm !! k = None ∨ ∃ s, s ∈ (expireRinging now cm).1 ∧ callId s = k).
Proof.
  intros I%call_run_inv. split.
  - intros op k s u Hk Hgone Hu. apply not_true_is_false. intros Hbusy.
    apply isBusy_spec in Hbusy as (k'&s'&Hk'&_&Hu').
    destruct (perform_parties _ _ _ _ Hk') as [(s0&Hs0&Hp)|(draws&a&b&now&->)].
    + assert (k' = k) as -> by (eapply (inv_exclusive _ I u); [done..|by apply Hp|done]). congruence.
    + destruct (create_keeps draws a b now cm k) as [? ?]; [eauto|congruence].
  - intros now. destruct (expireRinging_spec now cm) as (E1&E2&_).
    assert (Hin : ∀ s, s ∈ (expireRinging now cm).1 ↔ ∃ k s0, sessions_ cm !! k = Some s0 ∧
      timed_out (ring_timeout_ cm) now s0 = true ∧ s = set_state CallState.Ended s0).
    { intros s. rewrite E1, list_elem_of_fmap. setoid_rewrite list_elem_of_fmap. split.
      - intros (s0&->&[k ?]&->&Hin%elem_of_map_to_list). apply map_lookup_filter_Some in Hin as [??]. eauto.
      - intros (k&s0&?&?&->). exists s0. split; [done|]. exists (k, s0). split; [done|].
        apply elem_of_map_to_list. by apply map_lookup_filter_Some. }
    assert (Ht : ∀ s, timed_out (ring_timeout_ cm) now s = true ↔
      state s = CallState.Ringing ∧ now - createdAt s > seconds (ring_timeout_ cm)).
    { intros s. unfold timed_out. rewrite andb_true_iff, bool_decide_eq_true, Z.ltb_lt, Z.gt_lt_iff. done. }
    split.
    + intros s. rewrite Hin. setoid_rewrite Ht. naive_solver.
    + intros k. rewrite E2, map_lookup_filter_None. split.
      * intros [?|Hnot]; [by left|]. destruct (sessions_ cm !! k) as [s|] eqn:Hk; [|by left].
        right. exists (set_state CallState.Ended s). split; [|by apply (inv_session _ I k s)].
        apply Hin. exists k, s. split_and!; [done| |done].
        specialize (Hnot s eq_refl). cbn in Hnot. by destruct (timed_out _ _ _).
      * intros [?|(s&(k'&s0&Hk'&Hto&->)%Hin&Hid)]; [by left|]. right. intros s' Hk. cbn.
        assert (callId s0 = k') by (by apply (inv_session _ I k')). cbn in Hid. subst k' k. congruence.
Qed.
End properties.

(** ** A run *)

Module phone.
#[local] Instance sessions_order : IterOrder string CallSession := list_order string CallSession.

Definition id1 : string := generateUuid 1 2.
Definition cm1 : CallManager := out_state (create (1, 2) 100 "alice" "bob" (newCallManager 30)).
Definition cm2 : CallManager := out_state (accept id1 "bob" cm1).
Definition cm3 : CallManager := out_state (create (3, 4) 200 "carol" "dave" cm2).

Lemma cm3_run : call_run cm3.
Proof.
  exists 30. eapply rtc_l; [apply (step_create _ (1, 2) 100 "alice" "bob")|].
  eapply rtc_l; [apply (step_accept _ id1 "bob")|].
  eapply rtc_l; [apply (step_create _ (3, 4) 200 "carol" "dave")|]. apply rtc_refl.
Qed.

(** alice and bob are talking, carol calls dave: erin is free, bob is not, and
    bob can hang up but not accept again. *)
Lemma calls_exclusive_witness :
  call_run cm3 ∧ isBusy "bob" cm3 = true ∧ isBusy "erin" cm3 = false ∧
  ∃ k s, sessions_ cm3 !! k = Some s ∧ party "bob" s.
Proof.
  split; [apply cm3_run|]. split; [by vm_compute|]. split; [by vm_compute|].
  apply (calls_exclusive cm3); [apply cm3_run|by vm_compute].
Defined.

Lemma operations_follow_automaton_witness :
  (perform (Create (5, 6) "erin" "frank" 300) cm3).1 = Ok () ∧
  (perform (Create (5, 6) "erin" "bob" 300) cm3).1 = Err (Thrown RuntimeError "callee is busy") ∧
  allowed (Create (5, 6) "erin" "frank" 300) cm3.
Proof.
  split; [by vm_compute|]. split; [by vm_compute|].
  apply (operations_follow_automaton (Create (5, 6) "erin" "frank" 300) cm3); [|by vm_compute].
  intros draws a b now [= <- <- <- <-]. by vm_compute.
Defined.

End phone.
