(* ===== verification/Json.v ===== *)
(** * JSON values

    The backend and the client read and write JSON with the nlohmann library.
    It is not part of the repository: the class [Json] has the operations the
    sources use, [JsonSpec] the documented behaviour they rely on.  Texts are
    byte strings, of which the library accepts the well-formed UTF-8 ones.

    [ToyJson] is an instance with concrete functions to evaluate with. *)

From Stdlib Require Import Ascii.
From S2P Require Export Text.

Class Json := {
  json : Type;
  json_parse : string → option json;                 (* None: parse throws *)
  json_dump : json → result string;                  (* a string of it may be ill-formed *)
  json_get : json → string → option json;            (* contains, then operator[] *)
  json_set : json → string → json → result json;     (* j[key] = value *)
  json_is_object : json → bool;
  json_string : json → option string;                (* is_string, then the string *)
  json_number : json → option Z;                     (* get<int>; None: it throws *)
  json_elems : json → option (list json);            (* is_array, then the elements *)
  json_items : json → list json;                     (* what a range-for visits *)
  json_error : json → string;                        (* what() of a failed conversion *)
  json_str : string → json;
  json_int : Z → json;
  json_list : list json → json;
  json_object : list (string * json) → json;
  text_ok : string → Prop;                           (* well-formed UTF-8 *)
  json_ok : json → Prop;                             (* every text in it is *)
}.

Definition ascii_text (s : string) : Prop := ∀ c, str_in c s → ascii_byte c < 128.

Class JsonSpec `{Json} := {
  parse_dump j : json_ok j → ∃ s, json_dump j = Ok s ∧ json_parse s = Some j;
  parse_ok s j : json_parse s = Some j → json_ok j;
  text_app s t : text_ok s → text_ok t → text_ok (s +:+ t);
  text_ascii s : ascii_text s → text_ok s;
  string_str s : json_string (json_str s) = Some s;
  number_int n : - 2 ^ 31 ≤ n < 2 ^ 31 → json_number (json_int n) = Some n;
  elems_list l : json_elems (json_list l) = Some l;
  items_elems j l : json_elems j = Some l → json_items j = l;
  object_is_object l : json_is_object (json_object l) = true;
  string_ok j s : json_ok j → json_string j = Some s → text_ok s;
  str_ok s : text_ok s → json_ok (json_str s);
  int_ok n : json_ok (json_int n);
  list_ok l : Forall json_ok l → json_ok (json_list l);
  object_ok l : Forall (λ kv, text_ok kv.1 ∧ json_ok kv.2) l → json_ok (json_object l);
  get_object l k : json_get (json_object l) k = (list_to_map l : gmap string json) !! k;
  get_ok j k v : json_ok j → json_get j k = Some v → json_ok v;
  set_object l k v : json_set (json_object l) k v = Ok (json_object ((k, v) :: l));
}.

(** [j[key]] as a string, when [j] has the key and it is one. *)
Definition json_field `{Json} (j : json) (key : string) : option string :=
  json_get j key ≫= json_string.

(** The conversion to a string, which throws on another value, and
    [j.value(key, default)]. *)
Definition to_text `{Json} (j : json) : result string :=
  match json_string j with Some s => Ok s | None => Err (Thrown JsonError (json_error j)) end.

Definition json_value `{Json} (j : json) (key default : string) : result string :=
  if negb (json_is_object j) then Err (Thrown JsonError (json_error j)) else
  match json_get j key with Some v => to_text v | None => Ok default end.

(** The texts and the values of a message made of strings. *)
Definition json_texts `{Json} (l : list (string * string)) : json :=
  json_object (prod_map id json_str <$> l).

(** ** Lemmas *)

Section lemmas.
Context `{JsonSpec}.

Lemma ascii_text_check s : forallb (λ b, b <? 128) (bytes_of_string s) = true → ascii_text s.
Proof.
  induction s as [|c s IH]; [by intros _ c|]. cbn [bytes_of_string forallb]. intros [Hc Hs]%andb_true_iff d [-> | Hd].
  - by apply Z.ltb_lt.
  - by apply IH.
Qed.

Lemma text_literal s : forallb (λ b, b <? 128) (bytes_of_string s) = true → text_ok s.
Proof. intros. by apply text_ascii, ascii_text_check. Qed.

Lemma field_ok j k s : json_ok j → json_field j k = Some s → text_ok s.
Proof.
  unfold json_field. intros Hj. destruct (json_get j k) as [v|] eqn:Hv; [|done]. cbn.
  by apply string_ok, (get_ok j k).
Qed.

(** The first member with the key counts. *)
Lemma get_cons k v l k' : json_get (json_object ((k, v) :: l)) k' =
  if String.eqb k k' then Some v else json_get (json_object l) k'.
Proof.
  rewrite !get_object. cbn [list_to_map foldr]. destruct (String.eqb_spec k k'); subst; cbn.
  - by rewrite lookup_insert_eq.
  - by rewrite lookup_insert_ne.
Qed.

Lemma texts_ok l : Forall (λ kv, text_ok kv.1 ∧ text_ok kv.2) l → json_ok (json_texts l).
Proof.
  intros Hl. apply object_ok, Forall_fmap. eapply Forall_impl; [exact Hl|].
  intros [k v] [??]. split; [done|by apply str_ok].
Qed.

Lemma texts_field l k : json_field (json_texts l) k = (list_to_map l : gmap string string) !! k.
Proof.
  unfold json_field, json_texts. rewrite get_object, list_to_map_fmap, lookup_fmap.
  destruct (_ !! k); [|done]. apply string_str.
Qed.

Lemma texts_value l k d : json_value (json_texts l) k d =
  Ok (default d ((list_to_map l : gmap string string) !! k)).
Proof.
  unfold json_value, json_texts. rewrite object_is_object, get_object, list_to_map_fmap, lookup_fmap.
  cbn [negb]. destruct (_ !! k); [|done]. cbn. unfold to_text. by rewrite string_str.
Qed.
End lemmas.

(** The texts the programs print: literals, numbers, and what is built of them. *)
Ltac text_lit := apply text_literal; vm_compute; reflexivity.
#[export] Hint Resolve text_app : zaza.

(** ** A concrete instance

    A tree of strings and integers, written as the binary digits of its
    encoding. Only used to evaluate the model. *)
Module toy_json.
Definition tree : Type := gen_tree (string + Z).

Fixpoint bits (p : positive) : string :=
  match p with
  | xH => EmptyString
  | xO p => String "0" (bits p)
  | xI p => String "1" (bits p)
  end.

Fixpoint read_bits (s : string) : option positive :=
  match s with
  | EmptyString => Some xH
  | String c s => p ← read_bits s; if Ascii.eqb c "0" then Some (xO p) else
                                   if Ascii.eqb c "1" then Some (xI p) else None
  end.

Definition text (s : string) : tree := GenLeaf (inl s).

Fixpoint find (k : string) (l : list tree) : option tree :=
  match l with
  | GenLeaf (inl k') :: v :: l => if decide (k' = k) then Some v else find k l
  | _ => None
  end.

Fixpoint members (l : list (string * tree)) : list tree :=
  match l with [] => [] | (k, v) :: l => text k :: v :: members l end.

Lemma read_write p : read_bits (bits p) = Some p.
Proof. by induction p as [p IH|p IH|]; cbn; rewrite ?IH. Qed.

Lemma bits_ascii p : ascii_text (bits p).
Proof.
  intros c. induction p as [p IH|p IH|]; cbn; [..|done]; (intros [-> |?]; [done|by apply IH]).
Qed.

Lemma find_members l k : find k (members l) = (list_to_map l : gmap string tree) !! k.
Proof.
  induction l as [|[k' v] l IH]; [done|]. cbn. case_decide; subst.
  - by rewrite lookup_insert_eq.
  - by rewrite lookup_insert_ne.
Qed.
End toy_json.

#[local] Instance ToyJson : Json := {|
  json := toy_json.tree;
  json_parse s := toy_json.read_bits s ≫= decode;
  json_dump j := Ok (toy_json.bits (encode j));
  json_get j k := match j with GenNode 1 l => toy_json.find k l | _ => None end;
  json_set j k v := match j with
    | GenNode 1 l => Ok (GenNode 1 (toy_json.text k :: v :: l))
    | _ => Err (Thrown JsonError "type_error") end;
  json_is_object j := match j with GenNode 1 _ => true | _ => false end;
  json_string j := match j with GenLeaf (inl s) => Some s | _ => None end;
  json_number j := match j with GenLeaf (inr n) => Some n | _ => None end;
  json_elems j := match j with GenNode 0 l => Some l | _ => None end;
  json_items j := match j with GenNode _ l => l | _ => [j] end;
  json_error _ := "type_error";
  json_str := toy_json.text;
  json_int n := GenLeaf (inr n);
  json_list := GenNode 0;
  json_object l := GenNode 1 (toy_json.members l);
  text_ok _ := True;
  json_ok _ := True;
|}.

#[local] Instance ToyJsonSpec : JsonSpec.
Proof.
  split; try done.
  - intros j _. eexists. split; [done|]. cbn [json_parse ToyJson]. rewrite toy_json.read_write. apply decode_encode.
  - by intros [?|[|n] l'] l [= <-].
  - intros l k. apply toy_json.find_members.
Defined.
