(* ===== verification/Accounts.v ===== *)
(** * Accounts and tokens of the backend (src/backend/auth)

    [UserStore] keeps the password hashes in an SQLite table, [Jwt] signs and
    checks the tokens, [AuthService] is what the HTTP routes and the WebSocket
    server use.  SQLite and jwt-cpp are not part of the repository: the classes
    [Sqlite] and [JwtCpp] have the operations the code calls, with the
    documented behaviour it relies on in [SqliteSpec] and [JwtCppSpec].

    A text bound to an SQL statement ends at its first NUL byte ([c_str]).
    [now] is the system clock in seconds. *)

From Stdlib Require Import Ascii.
From S2P Require Export Json Crypto.

(** ** Searching for a text *)

Fixpoint str_prefix (p s : string) : bool :=
  match p, s with
  | EmptyString, _ => true
  | String c p, String d s => Ascii.eqb c d && str_prefix p s
  | _, _ => false
  end.

(** [s.find(p)]; [None] is [npos]. *)
Fixpoint str_search (p s : string) : option nat :=
  if str_prefix p s then Some 0%nat else
  match s with EmptyString => None | String _ s => S <$> str_search p s end.

Definition str_contains (p s : string) : bool := bool_decide (is_Some (str_search p s)).

(** ** The users table *)

Inductive insert_outcome := PrepareFailed | StepDone | StepFailed (errmsg : string).

Class Sqlite := {
  database : Type;
  select_user : database → string → option (option (string * string));  (* None: prepare failed *)
  insert_user : database → string → string → insert_outcome * database;
  errmsg : database → string;
}.

Class SqliteSpec `{Sqlite} := {
  rows : database → gmap string string;
  select_row d u r : select_user d u = Some r → r = (u,.) <$> rows d !! u;
  insert_row d u h : match insert_user d u h with
    | (StepDone, d') => rows d !! u = None ∧ rows d' = <[u := h]> (rows d)
    | (_, d') => rows d' = rows d
    end;
}.

Definition c_str (s : string) : string :=
  match str_find "000"%char s with Some n => str_take n s | None => s end.

Record User := mkUser { User_userId : string; passwordHash : string }.

Module UserStore.
Section UserStore.
Context `{OpenSSL, Sqlite}.

(** The hash is not initialised when the digest fails. *)
Definition hashPassword (password : string) : result string :=
  match EVP_sha256 (bytes_of_string password) with
  | Some hash => mret (hex_bytes hash)
  | None => Err Undefined
  end.

Definition findUser (db_ : database) (userId : string) : result (option User) :=
  match select_user db_ (c_str userId) with
  | None => Err (Thrown UserStoreError "findUser prepare failed")
  | Some row => mret ((λ '(u, h), mkUser u h) <$> row)
  end.

Definition addUser (userId password : string) : eff database Empty_set () :=
  db_ ← get;
  found ← lift (findUser db_ userId);
  if bool_decide (is_Some found)
  then throw UserStoreError ("user already exists: " +:+ userId) else
  hash ← lift (hashPassword password);
  match insert_user db_ (c_str userId) (c_str hash) with
  | (PrepareFailed, d) => put d;; throw UserStoreError "addUser prepare failed"
  | (StepDone, d) => put d
  | (StepFailed e, d) => put d;; throw UserStoreError ("addUser failed: " +:+ e)
  end.

Definition checkPassword (db_ : database) (userId password : string) : result bool :=
  user ← findUser db_ userId;
  match user with
  | None => mret false
  | Some user => hash ← hashPassword password; mret (bool_decide (passwordHash user = hash))
  end.
End UserStore.
End UserStore.

(** ** Tokens *)

Class JwtCpp := {
  decoded_jwt : Type;
  jwt_sign : string → string → Z → Z → result string;     (* secret, userId, iat, exp *)
  jwt_decode : string → string + decoded_jwt;             (* inl what: it throws *)
  jwt_verify : string → Z → decoded_jwt → option string;  (* Some what: token_verification_exception *)
  jwt_userId : decoded_jwt → string + string;
  jwt_expires_at : decoded_jwt → string + Z;
}.

Class JwtCppSpec `{JwtCpp, Json} := {
  jwt_sign_ok secret u iat exp : text_ok u →
    ∃ t, jwt_sign secret u iat exp = Ok t ∧ ascii_text t;
  jwt_decode_sign secret u iat exp t : jwt_sign secret u iat exp = Ok t →
    ∃ d, jwt_decode t = inr d ∧ jwt_userId d = inr u ∧ jwt_expires_at d = inr exp ∧
      (∀ now, iat ≤ now < exp → jwt_verify secret now d = None) ∧
      (∀ now, exp < now → ∃ what, jwt_verify secret now d = Some what ∧ str_contains "expired" what = true);
  jwt_userId_ok t d u : jwt_decode t = inr d → jwt_userId d = inr u → text_ok u;
}.

Record JwtPayload := mkJwtPayload { JwtPayload_userId : string; JwtPayload_exp : Z }.

(** A time point of the system clock, which counts nanoseconds in an int64. *)
Definition clock_plus (now ttl : Z) : result Z :=
  if (- 2 ^ 63 <=? ttl * 1000000000) && (ttl * 1000000000 <? 2 ^ 63) &&
     (- 2 ^ 63 <=? (now + ttl) * 1000000000) && ((now + ttl) * 1000000000 <? 2 ^ 63 - 1000000000)
  then mret (now + ttl) else Err Undefined.

Module Jwt.
Section Jwt.
Context `{JwtCpp}.

Definition sign (secret_ : string) (now : Z) (userId : string) (ttl_seconds : Z) : result string :=
  exp ← clock_plus now ttl_seconds;
  jwt_sign secret_ userId now exp.

(** A [token_verification_exception] is told from the other exceptions. *)
Definition verify (secret_ : string) (now : Z) (token : string) : result JwtPayload :=
  let invalid {A} (what : string) : result A := Err (Thrown JwtInvalid what) in
  match jwt_decode token with
  | inl what => invalid what
  | inr decoded =>
      match jwt_verify secret_ now decoded with
      | Some msg => if str_contains "expired" msg then Err (Thrown JwtExpired msg) else invalid msg
      | None =>
          match jwt_userId decoded, jwt_expires_at decoded with
          | inr userId, inr exp => mret (mkJwtPayload userId exp)
          | inl what, _ | _, inl what => invalid what
          end
      end
  end.
End Jwt.
End Jwt.

(** ** The service *)

Record LoginResult := mkLoginResult { token : string; LoginResult_userId : string }.

Module AuthService.
Section AuthService.
Context `{OpenSSL, Sqlite, JwtCpp}.

Record AuthService := mkAuthService { jwt_ : string; store_ : database; ttl_ : Z }.

Definition login (s : AuthService) (now : Z) (userId password : string) : result LoginResult :=
  ok ← UserStore.checkPassword (store_ s) userId password;
  if negb ok then Err (Thrown LoginError "invalid userId or password") else
  t ← Jwt.sign (jwt_ s) now userId (ttl_ s);
  mret (mkLoginResult t userId).

Definition verifyToken (s : AuthService) (now : Z) (t : string) : result JwtPayload :=
  Jwt.verify (jwt_ s) now t.

Definition registerUser (userId password : string) : eff AuthService Empty_set () := λ s,
  let '(r, db, ev) := UserStore.addUser userId password (store_ s) in
  (r, mkAuthService (jwt_ s) db (ttl_ s), ev).
End AuthService.
End AuthService.

(** ** Lemmas *)

Lemma str_in_hex_setw w n c : str_in c (hex_setw w n) → ∃ m, 0 ≤ m < 16 ∧ c = digit_ascii m.
Proof.
  unfold hex_setw. intros [Hin|Hin]%str_in_app; [|by apply (digits_in 16 n)].
  exists 0. split; [lia|]. revert Hin. generalize (w - String.length (digits 16 n))%nat as k.
  induction k as [|k IH]; [done|]. intros [-> |?]; [done|auto].
Qed.

Lemma str_in_hex_bytes l c : str_in c (hex_bytes l) → ∃ m, 0 ≤ m < 16 ∧ c = digit_ascii m.
Proof.
  induction l as [|b l IH]; [done|]. intros [Hin|Hin]%str_in_app; [|by apply IH].
  by eapply str_in_hex_setw.
Qed.

Lemma c_str_id s : ¬ str_in "000"%char s → c_str s = s.
Proof. unfold c_str. by intros ->%str_find_None. Qed.

Lemma c_str_hex_bytes l : c_str (hex_bytes l) = hex_bytes l.
Proof.
  apply c_str_id. intros (m&Hm&Hc)%str_in_hex_bytes. apply (f_equal ascii_byte) in Hc.
  rewrite digit_ascii_val in Hc by done. destruct (m <? 10); vm_compute ascii_byte in Hc; lia.
Qed.

Section store.
Context `{OpenSSLSpec, SqliteSpec}.

(** The statements of the code prepare, and an insertion without a conflict is
    done: the table exists and the disk is not full. *)
Class SqliteUp := {
  select_up d u : is_Some (select_user d u);
  insert_up d u h : rows d !! u = None → (insert_user d u h).1 = StepDone;
}.
Context `{!SqliteUp}.

Lemma hashPassword_Ok p : ∃ h, UserStore.hashPassword p = Ok h ∧ c_str h = h.
Proof.
  unfold UserStore.hashPassword. destruct (EVP_sha256_ok (bytes_of_string p)) as (d&->&_).
  eexists. split; [done|]. apply c_str_hex_bytes.
Qed.

Lemma findUser_eq d u :
  UserStore.findUser d u = Ok (mkUser (c_str u) <$> rows d !! c_str u).
Proof.
  unfold UserStore.findUser. destruct (select_up d (c_str u)) as [r Hr]. rewrite Hr.
  rewrite (select_row _ _ _ Hr). rsimpl. f_equal. by destruct (rows d !! c_str u).
Qed.

Lemma checkPassword_eq d u p h : UserStore.hashPassword p = Ok h →
  UserStore.checkPassword d u p = Ok (bool_decide (rows d !! c_str u = Some h)).
Proof.
  intros Hh. unfold UserStore.checkPassword. rewrite findUser_eq. rsimpl.
  destruct (rows d !! c_str u) as [h'|]; cbn; [|done].
  rewrite Hh. cbn. f_equal. apply bool_decide_ext. split; [by intros ->|by intros [= ->]].
Qed.

Lemma addUser_eq d u p h : UserStore.hashPassword p = Ok h →
  ∃ d', UserStore.addUser u p d =
    (if bool_decide (is_Some (rows d !! c_str u))
     then (Err (Thrown UserStoreError ("user already exists: " +:+ u)), d, [])
     else (Ok (), d', [])) ∧
    (rows d !! c_str u = None → rows d' = <[c_str u := h]> (rows d)).
Proof.
  intros Hh. destruct (hashPassword_Ok p) as (h'&Hh'&Hc). assert (h' = h) as -> by congruence.
  unfold UserStore.addUser, get, lift, put, throw, mbind, eff_bind. rewrite findUser_eq.
  destruct (rows d !! c_str u) as [h'|] eqn:Hrow; [exists d; by split|].
  cbn [fmap option_fmap option_map]. rewrite !bool_decide_false by (by intros [? [=]]).
  rewrite Hh, Hc. pose proof (insert_up d (c_str u) h Hrow) as Hup.
  pose proof (insert_row d (c_str u) h) as Hins.
  destruct (insert_user d (c_str u) h) as [o d']. cbn in Hup. subst o. exists d'.
  split; [done|]. intros _. apply Hins.
Qed.
End store.

Section service.
Context `{OpenSSLSpec, SqliteSpec, !SqliteUp, JwtCppSpec}.

Lemma sign_Ok secret now u ttl exp : text_ok u → clock_plus now ttl = Ok exp →
  ∃ t, Jwt.sign secret now u ttl = Ok t ∧ jwt_sign secret u now exp = Ok t ∧ ascii_text t.
Proof.
  intros Hu Hexp. unfold Jwt.sign. rewrite Hexp.
  destruct (jwt_sign_ok secret u now exp Hu) as (t&Ht&Ha). exists t. by split_and!.
Qed.

Lemma verify_sign secret u iat exp t : jwt_sign secret u iat exp = Ok t →
  (∀ now, iat ≤ now < exp → Jwt.verify secret now t = Ok (mkJwtPayload u exp)) ∧
  (∀ now, exp < now → ∃ what, Jwt.verify secret now t = Err (Thrown JwtExpired what)).
Proof.
  intros (d&Hd&Hu&He&Hok&Hex)%jwt_decode_sign. unfold Jwt.verify. rewrite Hd. split.
  - intros now Hnow. by rewrite Hok, Hu, He.
  - intros now (what&->&->)%Hex. by exists what.
Qed.

Lemma login_eq st now u p h : UserStore.hashPassword p = Ok h →
  AuthService.login st now u p =
    if bool_decide (rows (AuthService.store_ st) !! c_str u = Some h)
    then t ← Jwt.sign (AuthService.jwt_ st) now u (AuthService.ttl_ st); Ok (mkLoginResult t u)
    else Err (Thrown LoginError "invalid userId or password").
Proof.
  intros Hp. unfold AuthService.login. rewrite (checkPassword_eq _ _ _ h) by done.
  rsimpl. by destruct (bool_decide _).
Qed.

Lemma verify_userId_ok secret now t p : Jwt.verify secret now t = Ok p → text_ok (JwtPayload_userId p).
Proof.
  unfold Jwt.verify. destruct (jwt_decode t) as [|d] eqn:Hd; [done|].
  destruct (jwt_verify _ _ _); [by destruct (str_contains _ _)|].
  destruct (jwt_userId d) as [|u] eqn:Hu; [done|]. destruct (jwt_expires_at d); [done|].
  intros [= <-]. by apply (jwt_userId_ok t d).
Qed.
End service.

Section properties.
Context `{OpenSSLSpec, SqliteSpec, !SqliteUp, JwtCppSpec}.

(** C33: registering a name that is free (names end at their first NUL byte)
    succeeds, one that is taken fails and changes nothing; afterwards a login
    under the name succeeds exactly with a password of the same hash and gives a
    token that names the user and is valid until it expires and not after; the
    logins under other names are as before. *)
Theorem register_login_token s u p :
  let out := AuthService.registerUser u p s in
  let s' := out_state out in
  (is_Some (rows (AuthService.store_ s) !! c_str u) →
     out_result out = Err (Thrown UserStoreError ("user already exists: " +:+ u)) ∧ s' = s) ∧
  (rows (AuthService.store_ s) !! c_str u = None → out_result out = Ok () ∧
     (∀ u' p' now, c_str u' ≠ c_str u →
        AuthService.login s' now u' p' = AuthService.login s now u' p') ∧
     (∀ u' p' now, c_str u' = c_str u → UserStore.hashPassword p' ≠ UserStore.hashPassword p →
        AuthService.login s' now u' p' = Err (Thrown LoginError "invalid userId or password")) ∧
     (∀ u' p' now exp, c_str u' = c_str u → UserStore.hashPassword p' = UserStore.hashPassword p →
        text_ok u' → clock_plus now (AuthService.ttl_ s) = Ok exp →
        ∃ t, AuthService.login s' now u' p' = Ok (mkLoginResult t u') ∧
          (∀ later, now ≤ later < exp → AuthService.verifyToken s' later t = Ok (mkJwtPayload u' exp)) ∧
          (∀ later, exp < later → ∃ what,
             AuthService.verifyToken s' later t = Err (Thrown JwtExpired what)))).
Proof.
  cbv zeta. destruct (hashPassword_Ok p) as (h&Hh&_).
  destruct (addUser_eq (AuthService.store_ s) u p h Hh) as (d'&Hadd&Hrows).
  unfold AuthService.registerUser, out_result, out_state. rewrite Hadd. split.
  - intros Hsome. rewrite bool_decide_true by done. cbn. split; [done|]. by destruct s.
  - intros Hnone. rewrite bool_decide_false by (by rewrite Hnone; intros [? [=]]). cbn.
    specialize (Hrows Hnone). split; [done|].
    split_and!; intros u' p' now; destruct (hashPassword_Ok p') as (h'&Hp'&_);
      rewrite (login_eq _ _ _ _ h') by done; cbn [AuthService.store_ AuthService.jwt_ AuthService.ttl_];
      rewrite Hrows.
    + intros Hne. by rewrite lookup_insert_ne, (login_eq _ _ _ _ h').
    + intros -> Hne. rewrite lookup_insert_eq, bool_decide_false; [done|]. intros [= ->]. congruence.
    + intros exp -> Heq Hu Hexp. rewrite lookup_insert_eq, bool_decide_true by congruence.
      destruct (sign_Ok (AuthService.jwt_ s) now u' (AuthService.ttl_ s) exp Hu Hexp) as (t&->&Ht&_).
      exists t. split; [done|]. apply (verify_sign _ _ _ _ _ Ht).
Qed.
End properties.

(** ** Concrete instances, to evaluate the model *)

#[local] Existing Instances ToyOpenSSL ToyOpenSSLSpec ToyJson ToyJsonSpec.

#[local] Instance ToySqlite : Sqlite := {|
  database := gmap string string;
  select_user d u := Some ((u,.) <$> d !! u);
  insert_user d u h := match d !! u with
    | Some _ => (StepFailed "UNIQUE constraint failed: users.userId", d)
    | None => (StepDone, <[u := h]> d) end;
  errmsg _ := "";
|}.

#[local] Instance ToySqliteSpec : SqliteSpec.
Proof.
  apply (Build_SqliteSpec ToySqlite (λ d : gmap string string, d)).
  - by intros d u r [= <-].
  - intros d u h. cbn. destruct (_ !! _) eqn:E; cbn; [done|by split].
Defined.

#[local] Instance ToySqliteUp : SqliteUp.
Proof. split; [by eexists|]. intros d u h E. cbn in *. by rewrite E. Defined.

#[local] Instance ToyJwt : JwtCpp := {|
  decoded_jwt := string * string * Z * Z;
  jwt_sign secret u iat exp := Ok (toy_json.bits (encode (secret, u, iat, exp)));
  jwt_decode t := match toy_json.read_bits t ≫= decode with Some d => inr d | None => inl "invalid token" end;
  jwt_verify secret now '(key, _, iat, exp) :=
    if negb (bool_decide (key = secret)) then Some "invalid signature" else
    if (now <? iat) || (exp <? now) then Some "token expired" else None;
  jwt_userId '(_, u, _, _) := inr u;
  jwt_expires_at '(_, _, _, exp) := inr exp;
|}.

#[local] Instance ToyJwtSpec : JwtCppSpec.
Proof.
  split.
  - intros. eexists. split; [done|]. apply toy_json.bits_ascii.
  - intros secret u iat exp t [= <-]. exists (secret, u, iat, exp). cbn [jwt_decode ToyJwt].
    rewrite toy_json.read_write. cbn [mbind option_bind]. rewrite decode_encode. split; [done|].
    split; [done|]. split; [done|]. cbn. rewrite bool_decide_true by done. cbn. split.
    + intros now Hnow. by rewrite (proj2 (Z.ltb_ge now iat)), (proj2 (Z.ltb_ge exp now)) by lia.
    + intros now Hnow. rewrite (proj2 (Z.ltb_lt exp now)), orb_true_r by lia. by eexists.
  - done.
Defined.

Module accounts.
Definition service : AuthService.AuthService := AuthService.mkAuthService "jwt-secret" (∅ : gmap string string) 3600.
Definition registered : AuthService.AuthService :=
  out_state (AuthService.registerUser "alice" "wonderland" service).

Lemma register_login_token_witness :
  (∃ t, AuthService.login registered 1000 "alice" "wonderland" = Ok (mkLoginResult t "alice") ∧
     AuthService.verifyToken registered 2000 t = Ok (mkJwtPayload "alice" 4600)) ∧
  out_result (AuthService.registerUser "alice" "looking-glass" registered) =
    Err (Thrown UserStoreError "user already exists: alice").
Proof.
  split.
  - destruct (proj2 (register_login_token service "alice" "wonderland")) as (_&_&_&Hlogin); [by vm_compute|].
    destruct (Hlogin "alice" "wonderland" 1000 4600) as (t&Ht&Hvalid&_); [done..|by vm_compute|].
    exists t. split; [exact Ht|]. apply Hvalid. lia.
  - apply (register_login_token registered "alice" "looking-glass"). vm_compute; by eexists.
Defined.
End accounts.
