(* ===== verification/Signaling.v ===== *)
(** * The signaling server (src/backend/signaling, generateRtcConfig of src/backend/api)

    [WsServer] keeps one WebSocket session per user, [Router] turns the JSON
    messages of a user into operations of the call manager and messages to the
    parties.  The state they share is [Backend]; a session is a number, and the
    events are the texts written to the sessions and the lines logged.

    The io_context runs handlers on several threads.  Each operation of the call
    manager and each access to the session table is atomic (a mutex); [handle]
    is the sequence of these that one thread performs. *)

From Stdlib Require Import Ascii.
From S2P Require Export Accounts Calls.
From S2P Require Import Credentials.

(** [try { x = m } catch (const std::exception& e)], with [e.what()]. *)
Definition attempt {S E A} (m : eff S E A) : eff S E (string + A) :=
  try (x ← m; mret (inr x)) (λ _ what, mret (inl what)).

(** ** Credentials for the clients *)

Record TurnConfig := mkTurnConfig {
  host : string;
  port_plain : Z;
  port_tls : Z;
  shared_secret : string;
  ttl : Z;
}.

Section rtc_config.
Context `{OpenSSL, Json}.

(** The urls of an ICE server entry. *)
Definition turn_urls (cfg : TurnConfig) : json :=
  json_list [json_str ("turn:" +:+ host cfg +:+ ":" +:+ to_string (port_plain cfg));
             json_str ("turns:" +:+ host cfg +:+ ":" +:+ to_string (port_tls cfg))].

Definition generateRtcConfig (cfg : TurnConfig) (now : Z) (userId : string) : result string :=
  expiry ← HmacValidator.add_i64 now (ttl cfg);
  let username := to_string expiry +:+ ":" +:+ userId in
  raw_hmac ← crypto.hmac_sha1_str (shared_secret cfg) username;
  let password := crypto.base64_encode raw_hmac in
  let ice_server := json_object [("urls", turn_urls cfg); ("username", json_str username);
                                 ("credential", json_str password)] in
  let config := json_object [("iceServers", json_list [ice_server])] in
  json_dump config.
End rtc_config.

(** ** The state of the backend *)

Record Backend := mkBackend { call_manager_ : CallManager; ws_sessions_ : gmap string nat }.

Inductive WsEvent :=
  | WsWrite (session : nat) (message : string)
  | WsLog (line : string)
  | WsLogError (line : string).

Abbreviation B := (eff Backend WsEvent).

Module WsServer.
Section WsServer.
Context `{JwtCpp}.

Definition extractToken (target : string) : string :=
  match str_search "token=" target with
  | None => ""
  | Some pos =>
      match str_find "&"%char (str_drop pos target) with
      | None => str_drop (pos + 6) target
      | Some n => str_take (n - 6) (str_drop (pos + 6) target)
      end
  end.

Definition set_sessions (m : gmap string nat) : B () := λ b,
  (Ok (), mkBackend (call_manager_ b) m, []).

(** [verify] is [auth_.verifyToken]. *)
Definition accept (verify : string → result JwtPayload) (session : nat) (target : string) : B () :=
  let token := extractToken target in
  if str_empty token then mret () else
  match verify token with
  | Err (Thrown _ _) => mret ()
  | Err e => lift (Err e)
  | Ok payload =>
      let userId := JwtPayload_userId payload in
      b ← get;
      set_sessions (<[userId := session]> (ws_sessions_ b));;
      emit (WsLog ("[ws] user connected: " +:+ userId))
  end.

Definition send (userId message : string) : B bool :=
  b ← get;
  match ws_sessions_ b !! userId with
  | None => emit (WsLogError ("[ws] send failed: " +:+ userId +:+ " not connected"));; mret false
  | Some session => emit (WsWrite session message);; mret true
  end.

Definition removeSession (userId : string) : B () :=
  emit (WsLog ("[ws] user disconnected: " +:+ userId));;
  b ← get;
  set_sessions (delete userId (ws_sessions_ b)).
End WsServer.
End WsServer.

(** What one call of the router reads: the draws of an identifier, the steady
    clock, the readings of the system clock. *)
Record RouterInputs := mkRouterInputs { draws : Z * Z; steady : Z; wall : nat → Z }.

Module Router.
Section Router.
Context `{Json, !IterOrder string CallSession}.
(** The configuration generator the router is constructed with. *)
Variable rtc_config_gen_ : Z → string → result string.

Definition calls_op {A} (m : eff CallManager Empty_set A) : B A := λ b,
  let '(r, cm, _) := m (call_manager_ b) in (r, mkBackend cm (ws_sessions_ b), []).

Definition parse_json (s : string) : result json :=
  match json_parse s with Some j => Ok j | None => Err (Thrown JsonError "parse_error") end.

Definition sendJson (userId : string) (msg : json) : B () :=
  text ← lift (json_dump msg);
  _ ← WsServer.send userId text;
  mret ().

Definition sendError (userId reason : string) : B () :=
  sendJson userId (json_texts [("type", "error"); ("message", reason)]).

Definition onCallCreate (env : RouterInputs) (userId : string) (msg : json) : B () :=
  match json_field msg "to" with
  | None => sendError userId "missing to"
  | Some calleeId =>
      r ← attempt (calls_op (create (draws env) (steady env) userId calleeId));
      match r with
      | inl what =>
          emit (WsLogError ("[router] call.create failed caller=" +:+ userId +:+ " callee=" +:+ calleeId
            +:+ " reason=" +:+ what));;
          sendError userId what
      | inr callId =>
          emit (WsLog ("[router] call.create caller=" +:+ userId +:+ " callee=" +:+ calleeId
            +:+ " callId=" +:+ callId));;
          sendJson userId (json_texts [("type", "call.created"); ("callId", callId)]);;
          sendJson calleeId (json_texts [("type", "call.incoming"); ("callId", callId); ("from", userId)])
      end
  end.

Definition onCallAccept (env : RouterInputs) (userId : string) (msg : json) : B () :=
  match json_field msg "callId" with
  | None => sendError userId "missing callId"
  | Some call =>
      r ← attempt (calls_op (accept call userId));
      match r with
      | inl what =>
          emit (WsLogError ("[router] call.accept failed callId=" +:+ call +:+ " user=" +:+ userId
            +:+ " reason=" +:+ what));;
          sendError userId what
      | inr session =>
          emit (WsLog ("[router] call.accept callId=" +:+ call +:+ " caller=" +:+ callerId session
            +:+ " callee=" +:+ calleeId session));;
          callerConfig ← lift (rtc_config_gen_ (wall env 0) (callerId session));
          calleeConfig ← lift (rtc_config_gen_ (wall env 1) (calleeId session));
          caller_rtc ← lift (parse_json callerConfig);
          caller_rtc ← lift (json_set caller_rtc "type" (json_str "rtc.config"));
          caller_rtc ← lift (json_set caller_rtc "callId" (json_str call));
          callee_rtc ← lift (parse_json calleeConfig);
          callee_rtc ← lift (json_set callee_rtc "type" (json_str "rtc.config"));
          callee_rtc ← lift (json_set callee_rtc "callId" (json_str call));
          sendJson (callerId session) caller_rtc;;
          sendJson (calleeId session) callee_rtc
      end
  end.

Definition onCallReject (userId : string) (msg : json) : B () :=
  match json_field msg "callId" with
  | None => sendError userId "missing callId"
  | Some call =>
      r ← attempt (calls_op (reject call userId));
      match r with
      | inl what =>
          emit (WsLogError ("[router] call.reject failed callId=" +:+ call +:+ " reason=" +:+ what));;
          sendError userId what
      | inr session =>
          emit (WsLog ("[router] call.reject callId=" +:+ call +:+ " by=" +:+ userId));;
          sendJson (callerId session)
            (json_texts [("type", "call.ended"); ("callId", call); ("reason", "rejected")])
      end
  end.

(** The other party of a call. *)
Definition otherId (userId : string) (session : CallSession) : string :=
  if bool_decide (callerId session = userId) then calleeId session else callerId session.

Definition onCallHangup (userId : string) (msg : json) : B () :=
  match json_field msg "callId" with
  | None => sendError userId "missing callId"
  | Some call =>
      r ← attempt (calls_op (hangup call userId));
      match r with
      | inl what =>
          emit (WsLogError ("[router] call.hangup failed callId=" +:+ call +:+ " reason=" +:+ what));;
          sendError userId what
      | inr session =>
          emit (WsLog ("[router] call.hangup callId=" +:+ call +:+ " by=" +:+ userId));;
          sendJson (otherId userId session)
            (json_texts [("type", "call.ended"); ("callId", call); ("reason", "hangup")])
      end
  end.

Definition onWebrtcRelay (userId : string) (msg : json) : B () :=
  match json_field msg "callId" with
  | None => sendError userId "missing callId"
  | Some call =>
      b ← get;
      match Calls.find call (call_manager_ b) with
      | None =>
          emit (WsLogError ("[router] webrtc relay failed: call not found callId=" +:+ call));;
          sendError userId "call not found"
      | Some session =>
          text ← lift (json_dump msg);
          _ ← WsServer.send (otherId userId session) text;
          mret ()
      end
  end.

Definition handle (env : RouterInputs) (userId raw : string) : B () :=
  match json_parse raw with
  | None => sendError userId "invalid json"
  | Some msg =>
      match json_field msg "type" with
      | None => sendError userId "missing type"
      | Some type =>
          if bool_decide (type = "call.create") then onCallCreate env userId msg else
          if bool_decide (type = "call.accept") then onCallAccept env userId msg else
          if bool_decide (type = "call.reject") then onCallReject userId msg else
          if bool_decide (type = "call.hangup") then onCallHangup userId msg else
          if bool_decide (type = "webrtc.offer") || bool_decide (type = "webrtc.answer")
             || bool_decide (type = "webrtc.ice") then onWebrtcRelay userId msg else
          sendError userId ("unknown type: " +:+ type)
      end
  end.

(** The loop over the expired sessions. *)
Fixpoint notify_expired (l : list CallSession) : B () :=
  match l with
  | [] => mret ()
  | session :: l =>
      let failed := json_texts [("type", "call.failed"); ("callId", callId session); ("reason", "timeout")] in
      emit (WsLog ("[router] call.timeout callId=" +:+ callId session +:+ " caller=" +:+ callerId session
        +:+ " callee=" +:+ calleeId session));;
      sendJson (callerId session) failed;;
      sendJson (calleeId session) failed;;
      notify_expired l
  end.

Definition checkExpired (env : RouterInputs) : B () :=
  expired ← calls_op (λ cm, let '(l, cm) := expireRinging (steady env) cm in (Ok l, cm, []));
  notify_expired expired.
End Router.
End Router.
