(* ===== verification/SignalingFacts.v ===== *)
(** * What the signaling server answers

    The specification of the router: a request read from the text of a user is
    answered by a change of the call table and a list of messages with their
    recipients ([respond]); sessions, serialisation, logging and exceptions are
    the implementation's. *)

From Stdlib Require Import Ascii.
From S2P Require Export Signaling CallSafety.
From S2P Require Import Credentials Uuid.

(** ** Specification *)

Section spec.
Context `{OpenSSL, Json, !IterOrder string CallSession}.

Inductive request :=
  | BadRequest (reason : string)
  | ReqCreate (callee : string)
  | ReqAccept (call : string)
  | ReqReject (call : string)
  | ReqHangup (call : string)
  | ReqRelay (call : string) (msg : json).

Definition with_text (msg : json) (key : string) (f : string → request) : request :=
  match json_field msg key with Some s => f s | None => BadRequest ("missing " +:+ key) end.

Definition request_of (raw : string) : request :=
  match json_parse raw with
  | None => BadRequest "invalid json"
  | Some msg => with_text msg "type" (λ type,
      if decide (type = "call.create") then with_text msg "to" ReqCreate else
      if decide (type = "call.accept") then with_text msg "callId" ReqAccept else
      if decide (type = "call.reject") then with_text msg "callId" ReqReject else
      if decide (type = "call.hangup") then with_text msg "callId" ReqHangup else
      if decide (type ∈ ["webrtc.offer"; "webrtc.answer"; "webrtc.ice"])
      then with_text msg "callId" (λ c, ReqRelay c msg) else
      BadRequest ("unknown type: " +:+ type))
  end.

(** The credentials for a user, and the configuration made of them. *)
Definition rtc_username (cfg : TurnConfig) (now : Z) (u : string) : string :=
  to_string (now + ttl cfg) +:+ ":" +:+ u.
Definition rtc_password (cfg : TurnConfig) (user : string) : string :=
  match HmacValidator.getPassword (HmacValidator.mkHmacValidator (shared_secret cfg)) user with
  | Ok p => p | Err _ => "" end.
Definition ice_servers (cfg : TurnConfig) (now : Z) (u : string) : json :=
  json_list [json_object [("urls", turn_urls cfg); ("username", json_str (rtc_username cfg now u));
                          ("credential", json_str (rtc_password cfg (rtc_username cfg now u)))]].

Definition error_msg (reason : string) : json := json_texts [("type", "error"); ("message", reason)].
Definition rtc_msg (cfg : TurnConfig) (now : Z) (u call : string) : json :=
  json_object [("callId", json_str call); ("type", json_str "rtc.config");
               ("iceServers", ice_servers cfg now u)].

(** The outcome of an operation on the calls: the error is the answer. *)
Definition answer {A} (u : string) (o : result A * CallManager * list Empty_set)
    (f : A → list (string * json)) : CallManager * list (string * json) :=
  (out_state o, match out_result o with
    | Ok a => f a
    | Err (Thrown _ what) => [(u, error_msg what)]
    | Err _ => []
    end).

Definition ended_msg (call reason : string) : json :=
  json_texts [("type", "call.ended"); ("callId", call); ("reason", reason)].

Definition respond (cfg : TurnConfig) (env : RouterInputs) (u : string) (r : request) (cm : CallManager) :
    CallManager * list (string * json) :=
  match r with
  | BadRequest reason => (cm, [(u, error_msg reason)])
  | ReqCreate callee => answer u (create (draws env) (steady env) u callee cm) (λ call,
      [(u, json_texts [("type", "call.created"); ("callId", call)]);
       (callee, json_texts [("type", "call.incoming"); ("callId", call); ("from", u)])])
  | ReqAccept call => answer u (accept call u cm) (λ s,
      [(callerId s, rtc_msg cfg (wall env 0) (callerId s) call);
       (calleeId s, rtc_msg cfg (wall env 1) (calleeId s) call)])
  | ReqReject call => answer u (reject call u cm) (λ s, [(callerId s, ended_msg call "rejected")])
  | ReqHangup call => answer u (hangup call u cm) (λ s, [(Router.otherId u s, ended_msg call "hangup")])
  | ReqRelay call msg =>
      (cm, match sessions_ cm !! call with
           | None => [(u, error_msg "call not found")]
           | Some s => [(Router.otherId u s, msg)]
           end)
  end.

(** The texts that reach the sessions: of the users that have none, none does. *)
Definition text_of (j : json) : string := match json_dump j with Ok s => s | Err _ => "" end.

Definition delivery (b : Backend) (out : list (string * json)) : list (nat * string) :=
  omap (λ '(u, j), (λ sid, (sid, text_of j)) <$> ws_sessions_ b !! u) out.

Definition writes (evs : list WsEvent) : list (nat * string) :=
  omap (λ e, match e with WsWrite sid s => Some (sid, s) | _ => None end) evs.

(** ** Invariant *)

Definition session_texts (s : CallSession) : Prop :=
  text_ok (callId s) ∧ text_ok (callerId s) ∧ text_ok (calleeId s).

Record backend_inv (b : Backend) : Prop := {
  inv_calls : calls_inv (call_manager_ b);
  inv_texts k s : sessions_ (call_manager_ b) !! k = Some s → session_texts s;
}.

Definition cfg_ok (cfg : TurnConfig) : Prop := text_ok (host cfg) ∧ 0 ≤ ttl cfg < 2 ^ 62.
Definition inputs_ok (env : RouterInputs) : Prop := ∀ k, 0 ≤ wall env k < 2 ^ 62.
End spec.

(** ** Lemmas *)

Section facts.
Context `{OpenSSLSpec, JsonSpec, !IterOrder string CallSession}.

Lemma ascii_app s t : ascii_text s → ascii_text t → ascii_text (s +:+ t).
Proof. intros Hs Ht c [?|?]%str_in_app; auto. Qed.

Lemma ascii_digit m : 0 ≤ m < 16 → ascii_byte (digit_ascii m) < 128.
Proof. intros. rewrite digit_ascii_val by done. destruct (m <? 10); lia. Qed.

Lemma hex_setw_ascii w n : ascii_text (hex_setw w n).
Proof. intros c (m&?&->)%str_in_hex_setw. by apply ascii_digit. Qed.

Lemma literal_ascii s : forallb (λ b, b <? 128) (bytes_of_string s) = true → ascii_text s.
Proof. apply ascii_text_check. Qed.

Lemma to_string_ascii n : ascii_text (to_string n).
Proof.
  assert (Hd : ∀ k, ascii_text (digits 10 k)).
  { intros k c (m&?&->)%digits_in; [|lia]. apply ascii_digit. lia. }
  unfold to_string. destruct (n <? 0); [|done]. by apply ascii_app; [apply literal_ascii|].
Qed.

Lemma uuid_ascii a b : ascii_text (generateUuid a b).
Proof.
  rewrite generateUuid_groups. repeat (first [apply hex_setw_ascii | apply ascii_app | by apply literal_ascii]).
Qed.

Lemma text_of_ok j : json_ok j → json_dump j = Ok (text_of j) ∧ json_parse (text_of j) = Some j.
Proof. intros (s&Hs&?)%parse_dump. unfold text_of. by rewrite Hs. Qed.

Lemma delivery_app b l1 l2 : delivery b (l1 ++ l2) = delivery b l1 ++ delivery b l2.
Proof. apply omap_app. Qed.
Lemma writes_app l1 l2 : writes (l1 ++ l2) = writes l1 ++ writes l2.
Proof. apply omap_app. Qed.

Lemma wp_send u s b (Q : bool → Backend → list WsEvent → Prop) :
  (∀ r evs, writes evs = match ws_sessions_ b !! u with Some sid => [(sid, s)] | None => [] end → Q r b evs) →
  wp (WsServer.send u s) Q b.
Proof.
  intros HQ. unfold WsServer.send. wp_step. wp_step. destruct (ws_sessions_ b !! u); wp_steps; by apply HQ.
Qed.

Lemma wp_sendJson u j b (Q : () → Backend → list WsEvent → Prop) : json_ok j →
  (∀ evs, writes evs = delivery b [(u, j)] → Q () b evs) → wp (Router.sendJson u j) Q b.
Proof.
  intros Hj HQ. unfold Router.sendJson. destruct (text_of_ok j Hj) as [-> _].
  wp_step. wp_step. wp_step. apply wp_send. intros r evs Hevs. wp_step. apply HQ.
  cbn [app]. rewrite app_nil_r, Hevs. cbn. by destruct (ws_sessions_ b !! u).
Qed.

Lemma error_ok reason : text_ok reason → json_ok (error_msg reason).
Proof. intros. apply texts_ok. repeat constructor; try done; text_lit. Qed.

Lemma wp_sendError u reason b (Q : () → Backend → list WsEvent → Prop) : text_ok reason →
  (∀ evs, writes evs = delivery b [(u, error_msg reason)] → Q () b evs) → wp (Router.sendError u reason) Q b.
Proof. intros ?%error_ok. by apply wp_sendJson. Qed.

Lemma wp_log (e : WsEvent) (m : B ()) b Q : (∀ sid s, e ≠ WsWrite sid s) →
  wp m (λ a b' evs, ∀ l, writes l = writes evs → Q a b' l) b → wp (emit e;; m) Q b.
Proof.
  intros He Hm. wp_step. wp_step. eapply wp_mono; [exact Hm|]. intros a b' evs HQ. apply HQ.
  destruct e; [by edestruct He|done|done].
Qed.

(** An operation of the call manager that returns or throws. *)
Lemma wp_calls_op {A} (m : eff CallManager Empty_set A) b (Q : string + A → Backend → list WsEvent → Prop) :
  match out_result (m (call_manager_ b)) with
  | Ok a => Q (inr a) (mkBackend (out_state (m (call_manager_ b))) (ws_sessions_ b)) []
  | Err (Thrown _ what) => Q (inl what) (mkBackend (out_state (m (call_manager_ b))) (ws_sessions_ b)) []
  | Err _ => False
  end → wp (attempt (Router.calls_op m)) Q b.
Proof.
  unfold attempt, wp, try, mbind, eff_bind, Router.calls_op.
  destruct (m (call_manager_ b)) as [[[a|[| |k what]] cm] evs]; cbn; done.
Qed.
(** *** The credentials *)

Lemma rtc_password_eq cfg now u : ∃ mac, crypto.hmac_sha1_str (shared_secret cfg) (rtc_username cfg now u) = Ok mac ∧
  rtc_password cfg (rtc_username cfg now u) = crypto.base64_encode mac.
Proof.
  destruct (hmac_sha1_Ok (bytes_of_string (shared_secret cfg)) (rtc_username cfg now u)) as (mac&Hmac&_).
  exists mac. split; [done|]. unfold rtc_password, HmacValidator.getPassword, HmacValidator.computeHmac.
  rewrite bool_decide_false.
  - unfold crypto.hmac_sha1_str. cbn [HmacValidator.shared_secret_]. by rewrite Hmac.
  - rewrite str_find_None. intros Hn. apply Hn. unfold rtc_username. apply str_in_app. right. by left.
Qed.

Lemma rtc_username_ok cfg now u : text_ok u → text_ok (rtc_username cfg now u).
Proof.
  intros Hu. unfold rtc_username. apply text_app; [apply text_ascii, to_string_ascii|].
  apply text_app; [text_lit|done].
Qed.

Lemma turn_urls_ok cfg : cfg_ok cfg → json_ok (turn_urls cfg).
Proof.
  intros [Hh _]. pose proof (λ n, text_ascii _ (to_string_ascii n)) as Hn.
  apply list_ok. repeat constructor; apply str_ok; repeat apply text_app; try done; text_lit.
Qed.

Lemma ice_servers_ok cfg now u : cfg_ok cfg → text_ok u → json_ok (ice_servers cfg now u).
Proof.
  intros Hcfg Hu. apply list_ok, Forall_singleton, object_ok.
  destruct (rtc_password_eq cfg now u) as (mac&_&->).
  repeat (apply Forall_cons; split; [split; [text_lit|]|]); cbn [snd]; [..|done].
  - by apply turn_urls_ok.
  - by apply str_ok, rtc_username_ok.
  - apply str_ok, text_ascii. intros c. apply base64_encode_ascii.
Qed.

Lemma generateRtcConfig_Ok cfg now u : cfg_ok cfg → 0 ≤ now < 2 ^ 62 → text_ok u →
  ∃ s, generateRtcConfig cfg now u = Ok s ∧
    json_parse s = Some (json_object [("iceServers", ice_servers cfg now u)]).
Proof.
  intros Hcfg Hnow Hu. destruct (rtc_password_eq cfg now u) as (mac&Hmac&Hpass).
  assert (Hok : json_ok (json_object [("iceServers", ice_servers cfg now u)])).
  { apply object_ok, Forall_singleton. split; [text_lit|by apply ice_servers_ok]. }
  destruct (parse_dump _ Hok) as (s&Hs&Hp). exists s. split; [|done].
  unfold generateRtcConfig, HmacValidator.add_i64. destruct Hcfg as [_ Httl].
  rewrite (proj2 (Z.leb_le _ _)), (proj2 (Z.ltb_lt _ _)) by lia. cbn [andb]. rsimpl.
  change (to_string (now + ttl cfg) +:+ ":" +:+ u) with (rtc_username cfg now u).
  rewrite Hmac. rsimpl. rewrite <-Hpass. exact Hs.
Qed.

Lemma rtc_msg_ok cfg now u call : cfg_ok cfg → text_ok u → text_ok call → json_ok (rtc_msg cfg now u call).
Proof.
  intros. apply object_ok.
  repeat (apply Forall_cons; split; [split; [text_lit|]|]); cbn [snd]; [by apply str_ok|apply str_ok; text_lit| |done].
  by apply ice_servers_ok.
Qed.

(** *** The operations as the router sees them *)

(** The operation returns, or throws an exception with a well-formed reason. *)
Definition op_ok {A} (o : result A * CallManager * list Empty_set) : Prop :=
  match out_result o with Ok _ => True | Err (Thrown _ what) => text_ok what | Err _ => False end.

Lemma create_op_ok d now a b cm : op_ok (create d now a b cm).
Proof.
  rewrite create_eq. destruct (isBusy a cm); [by apply text_literal|].
  destruct (isBusy b cm); [by apply text_literal|done].
Qed.

Lemma not_found_ok k : text_ok k → text_ok ("call not found: " +:+ k).
Proof. intros. apply text_app; [text_lit|done]. Qed.

Lemma accept_op_ok k u cm : text_ok k → op_ok (accept k u cm).
Proof.
  intros ?%not_found_ok. rewrite accept_eq. destruct (sessions_ cm !! k); [|done].
  destruct (negb _); [by apply text_literal|]. destruct (negb _); [by apply text_literal|done].
Qed.

Lemma reject_op_ok k u cm : text_ok k → op_ok (reject k u cm).
Proof.
  intros ?%not_found_ok. rewrite reject_eq. destruct (sessions_ cm !! k); [|done].
  destruct (negb _); [by apply text_literal|]. destruct (negb _); [by apply text_literal|done].
Qed.

Lemma hangup_op_ok k u cm : text_ok k → op_ok (hangup k u cm).
Proof.
  intros ?%not_found_ok. rewrite hangup_eq. destruct (sessions_ cm !! k); [|done].
  destruct (involves _ _); [done|by apply text_literal].
Qed.

(** The sessions an operation returns are, but for their state, in the table. *)
Lemma op_session k u cm s :
  out_result (accept k u cm) = Ok s ∨ out_result (reject k u cm) = Ok s ∨ out_result (hangup k u cm) = Ok s →
  ∃ s0, sessions_ cm !! k = Some s0 ∧ callerId s = callerId s0 ∧ calleeId s = calleeId s0.
Proof.
  rewrite accept_eq, reject_eq, hangup_eq. destruct (sessions_ cm !! k) as [s0|]; [|by intros [?|[?|?]]].
  intros Hs. exists s0. split; [done|].
  destruct (negb (bool_decide (calleeId s0 = u))), (negb (bool_decide (state s0 = CallState.Ringing))),
    (involves u s0); destruct Hs as [[= <-]|[[= <-]|[= <-]]]; done.
Qed.
End facts.
