(* ===== verification/SignalingSafety.v ===== *)
(** * Properties of the signaling server

    The router implements its specification [respond] in every state the server
    can reach, it never fails, and the messages of a call reach its parties. *)

From Stdlib Require Import Ascii.
From S2P Require Export SignalingFacts.
From S2P Require Import Credentials Auth.

#[local] Existing Instances ToyOpenSSL ToyOpenSSLSpec ToyJson ToyJsonSpec ToySqlite ToySqliteSpec ToyJwt ToyJwtSpec.

(** ** The handlers implement the specification *)

Section refinement.
Context `{OpenSSLSpec, JsonSpec, !IterOrder string CallSession}.

(** The computation does what the specification says: [r] is the new table and
    the messages, every one of which can be written. *)
Definition implements (b : Backend) (r : CallManager * list (string * json)) (m : B ()) : Prop :=
  wp m (λ _ b' evs, b' = mkBackend r.1 (ws_sessions_ b) ∧ writes evs = delivery b r.2 ∧
    Forall (λ o, json_ok o.2) r.2) b.

Lemma backend_eta b : mkBackend (call_manager_ b) (ws_sessions_ b) = b.
Proof. by destruct b. Qed.

Lemma implements_send b u j : json_ok j → implements b (call_manager_ b, [(u, j)]) (Router.sendJson u j).
Proof.
  intros Hj. apply wp_sendJson; [done|]. intros evs ->. split; [cbn; by rewrite backend_eta|].
  split; [done|by apply Forall_singleton].
Qed.

Lemma implements_error b u reason : text_ok reason →
  implements b (call_manager_ b, [(u, error_msg reason)]) (Router.sendError u reason).
Proof. intros. by apply implements_send, error_ok. Qed.

Lemma implements_bind b cm out1 out2 (m1 m2 : B ()) :
  implements b (cm, out1) m1 →
  implements (mkBackend cm (ws_sessions_ b)) (cm, out2) m2 →
  implements b (cm, out1 ++ out2) (m1;; m2).
Proof.
  unfold implements. intros H1' H2'. wp_step. eapply wp_mono; [exact H1'|].
  intros _ b' evs (->&Hevs&Hj). eapply wp_mono; [exact H2'|]. intros _ b'' evs' (->&Hevs'&Hj').
  split; [done|]. rewrite writes_app, Hevs, Hevs'. cbn [snd] in *. rewrite delivery_app.
  split; [done|by apply Forall_app].
Qed.

Lemma implements_log b r (e : WsEvent) (m : B ()) : (∀ sid s, e ≠ WsWrite sid s) →
  implements b r m → implements b r (emit e;; m).
Proof.
  unfold implements. intros He Hm. apply wp_log; [done|]. eapply wp_mono; [exact Hm|].
  intros _ b' evs (->&Hevs&Hj) l Hl. split; [done|]. split; [congruence|done].
Qed.

(** An operation on the calls, its error reported to the user, its result
    handled by [ok]. *)
Lemma implements_answer {A} b u (m : eff CallManager Empty_set A) (log : string → string) f ok :
  op_ok (m (call_manager_ b)) →
  (∀ a, out_result (m (call_manager_ b)) = Ok a →
     let b' := mkBackend (out_state (m (call_manager_ b))) (ws_sessions_ b) in
     implements b' (call_manager_ b', f a) (ok a)) →
  implements b (answer u (m (call_manager_ b)) f)
    (r ← attempt (Router.calls_op m);
     match r with
     | inl what => emit (WsLogError (log what));; Router.sendError u what
     | inr a => ok a
     end).
Proof.
  unfold implements at 2. intros Hop Hok. wp_step. apply wp_calls_op. unfold op_ok, answer in *.
  destruct (m (call_manager_ b)) as [[[a|[| |k what]] cm] evs]; cbn in *; try done.
  - eapply wp_mono; [apply (Hok a); done|]. done.
  - eapply wp_mono; [apply implements_log; [done|by apply implements_error]|]. done.
Qed.

Lemma implements_relay b u j s : json_ok j → json_dump j = Ok s →
  implements b (call_manager_ b, [(u, j)]) (_ ← WsServer.send u s; mret ()).
Proof.
  intros Hj Hs. eapply wp_mono; [|exact (λ _ b' l HQ, HQ)].
  assert (Hi := implements_send b u j Hj). unfold implements, Router.sendJson in Hi. rewrite Hs in Hi.
  unfold wp in *. rewrite bind_lift in Hi. exact Hi.
Qed.

Context (cfg : TurnConfig) (env : RouterInputs) (cfg_good : cfg_ok cfg) (env_good : inputs_ok env).

Lemma implements_accepted b s call : session_texts s → text_ok call →
  implements b (call_manager_ b,
      [(callerId s, rtc_msg cfg (wall env 0) (callerId s) call);
       (calleeId s, rtc_msg cfg (wall env 1) (calleeId s) call)])
    (callerConfig ← lift (generateRtcConfig cfg (wall env 0) (callerId s));
     calleeConfig ← lift (generateRtcConfig cfg (wall env 1) (calleeId s));
     caller_rtc ← lift (Router.parse_json callerConfig);
     caller_rtc ← lift (json_set caller_rtc "type" (json_str "rtc.config"));
     caller_rtc ← lift (json_set caller_rtc "callId" (json_str call));
     callee_rtc ← lift (Router.parse_json calleeConfig);
     callee_rtc ← lift (json_set callee_rtc "type" (json_str "rtc.config"));
     callee_rtc ← lift (json_set callee_rtc "callId" (json_str call));
     Router.sendJson (callerId s) caller_rtc;;
     Router.sendJson (calleeId s) callee_rtc).
Proof.
  intros (_&Ha&Hb) Hc.
  destruct (generateRtcConfig_Ok cfg (wall env 0) _ cfg_good (env_good 0%nat) Ha) as (s1&->&Hp1).
  destruct (generateRtcConfig_Ok cfg (wall env 1) _ cfg_good (env_good 1%nat) Hb) as (s2&->&Hp2).
  assert (E : ∀ A (a : A) (f : A → B ()) r, implements b r (f a) → implements b r (lift (Ok a) ≫= f)).
  { intros A a f r Hf. unfold implements, wp in *. by rewrite bind_lift. }
  do 2 apply E. unfold Router.parse_json. rewrite Hp1, Hp2.
  apply E. rewrite set_object. apply E. rewrite set_object. apply E.
  apply E. rewrite set_object. apply E. rewrite set_object. apply E.
  apply (implements_bind _ _ [_] [_]).
  - apply implements_send. by apply rtc_msg_ok.
  - rewrite backend_eta. apply implements_send. by apply rtc_msg_ok.
Qed.

Lemma implements_create b u msg callee : text_ok u → text_ok callee → json_field msg "to" = Some callee →
  implements b (respond cfg env u (ReqCreate callee) (call_manager_ b)) (Router.onCallCreate env u msg).
Proof.
  intros Hu Hc Hmsg. unfold Router.onCallCreate. rewrite Hmsg. cbn [respond].
  apply (implements_answer b u _ (λ what, "[router] call.create failed caller=" +:+ u +:+ " callee=" +:+ callee
            +:+ " reason=" +:+ what)); [apply create_op_ok|].
  intros call Hcall b'. apply implements_log; [done|].
  assert (Ht : text_ok call).
  { rewrite create_eq in Hcall. destruct (isBusy u _); [done|]. destruct (isBusy callee _); [done|].
    injection Hcall as <-. apply text_ascii, uuid_ascii. }
  apply (implements_bind _ _ [_] [_]).
  - apply implements_send, texts_ok. repeat constructor; try done; text_lit.
  - rewrite backend_eta. apply implements_send, texts_ok. repeat constructor; try done; text_lit.
Qed.

Lemma implements_accept b u msg call : backend_inv b → text_ok call → json_field msg "callId" = Some call →
  implements b (respond cfg env u (ReqAccept call) (call_manager_ b))
    (Router.onCallAccept (generateRtcConfig cfg) env u msg).
Proof.
  intros I Hc Hmsg. unfold Router.onCallAccept. rewrite Hmsg. cbn [respond].
  apply (implements_answer b u _ (λ what, "[router] call.accept failed callId=" +:+ call +:+ " user=" +:+ u
            +:+ " reason=" +:+ what)); [by apply accept_op_ok|].
  intros s Hs b'. apply implements_log; [done|]. apply implements_accepted; [|done].
  destruct (op_session call u (call_manager_ b) s) as (s0&Hs0&Ha&Hb); [auto|].
  destruct (inv_texts _ I _ _ Hs0) as (Ht&?&?). rewrite accept_eq, Hs0 in Hs.
  unfold session_texts. rewrite Ha, Hb.
  destruct (negb _); [done|]. destruct (negb _); [done|]. by injection Hs as <-.
Qed.

Lemma implements_reject b u msg call : backend_inv b → text_ok call → json_field msg "callId" = Some call →
  implements b (respond cfg env u (ReqReject call) (call_manager_ b)) (Router.onCallReject u msg).
Proof.
  intros I Hc Hmsg. unfold Router.onCallReject. rewrite Hmsg. cbn [respond].
  apply (implements_answer b u _ (λ what, "[router] call.reject failed callId=" +:+ call +:+ " reason=" +:+ what));
    [by apply reject_op_ok|].
  intros s Hs b'. apply implements_log; [done|]. apply implements_send, texts_ok.
  repeat constructor; try done; text_lit.
Qed.

Lemma implements_hangup b u msg call : backend_inv b → text_ok call → json_field msg "callId" = Some call →
  implements b (respond cfg env u (ReqHangup call) (call_manager_ b)) (Router.onCallHangup u msg).
Proof.
  intros I Hc Hmsg. unfold Router.onCallHangup. rewrite Hmsg. cbn [respond].
  apply (implements_answer b u _ (λ what, "[router] call.hangup failed callId=" +:+ call +:+ " reason=" +:+ what));
    [by apply hangup_op_ok|].
  intros s Hs b'. apply implements_log; [done|]. apply implements_send, texts_ok.
  repeat constructor; try done; text_lit.
Qed.

Lemma implements_webrtc b u msg call : text_ok call → json_ok msg → json_field msg "callId" = Some call →
  implements b (respond cfg env u (ReqRelay call msg) (call_manager_ b)) (Router.onWebrtcRelay u msg).
Proof.
  intros Hc Hj Hmsg. unfold Router.onWebrtcRelay. rewrite Hmsg. cbn [respond]. unfold Calls.find.
  unfold implements. wp_step. wp_step. destruct (sessions_ (call_manager_ b) !! call) as [s|] eqn:Hs.
  - destruct (text_of_ok msg Hj) as [Ht _]. rewrite Ht. wp_step. wp_step. by apply implements_relay.
  - apply implements_log; [done|]. apply implements_error. text_lit.
Qed.

(** Every text of a user is handled as specified. *)
Lemma implements_handle b u raw : backend_inv b → text_ok u →
  implements b (respond cfg env u (request_of raw) (call_manager_ b))
    (Router.handle (generateRtcConfig cfg) env u raw).
Proof.
  intros I Hu. unfold Router.handle, request_of. destruct (json_parse raw) as [msg|] eqn:Hraw;
    [|apply implements_error; text_lit].
  apply parse_ok in Hraw. unfold with_text.
  destruct (json_field msg "type") as [type|] eqn:Hty; [|apply implements_error; text_lit].
  assert (Hf : ∀ k s, json_field msg k = Some s → text_ok s) by (intros; by eapply field_ok).
  destruct (decide (type = "call.create")) as [->|]; [|rewrite bool_decide_false by done].
  { cbn [bool_decide]. destruct (json_field msg "to") as [callee|] eqn:Hto.
    - apply implements_create; [done|by eapply Hf|done].
    - unfold Router.onCallCreate. rewrite Hto. apply implements_error; text_lit. }
  destruct (decide (type = "call.accept")) as [->|]; [|rewrite bool_decide_false by done].
  { destruct (json_field msg "callId") as [call|] eqn:Hc; cbn [bool_decide].
    - apply implements_accept; [done|by eapply Hf|done].
    - unfold Router.onCallAccept. rewrite Hc. apply implements_error; text_lit. }
  destruct (decide (type = "call.reject")) as [->|]; [|rewrite bool_decide_false by done].
  { destruct (json_field msg "callId") as [call|] eqn:Hc; cbn [bool_decide].
    - apply implements_reject; [done|by eapply Hf|done].
    - unfold Router.onCallReject. rewrite Hc. apply implements_error; text_lit. }
  destruct (decide (type = "call.hangup")) as [->|]; [|rewrite bool_decide_false by done].
  { destruct (json_field msg "callId") as [call|] eqn:Hc; cbn [bool_decide].
    - apply implements_hangup; [done|by eapply Hf|done].
    - unfold Router.onCallHangup. rewrite Hc. apply implements_error; text_lit. }
  replace (bool_decide (type = "webrtc.offer") || bool_decide (type = "webrtc.answer")
    || bool_decide (type = "webrtc.ice"))
    with (bool_decide (type ∈ ["webrtc.offer"; "webrtc.answer"; "webrtc.ice"])).
  2: { rewrite <-!bool_decide_or. apply bool_decide_ext. rewrite !elem_of_cons, elem_of_nil. tauto. }
  case_decide as Hin; [rewrite bool_decide_true by done|rewrite bool_decide_false by done].
  { destruct (json_field msg "callId") as [call|] eqn:Hc.
    - apply implements_webrtc; [by eapply Hf|done|done].
    - unfold Router.onWebrtcRelay. rewrite Hc. apply implements_error; text_lit. }
  apply implements_error, text_app; [text_lit|by eapply Hf].
Qed.

Lemma implements_notify b l : Forall session_texts l →
  implements b (call_manager_ b, l ≫= λ s,
      let failed := json_texts [("type", "call.failed"); ("callId", callId s); ("reason", "timeout")] in
      [(callerId s, failed); (calleeId s, failed)])
    (Router.notify_expired l).
Proof.
  induction 1 as [|s l (Hc&_) _ IH]; [unfold implements, wp; cbn; rewrite backend_eta; by split_and!|].
  cbn [Router.notify_expired]. apply implements_log; [done|].
  assert (Hf : json_ok (json_texts [("type", "call.failed"); ("callId", callId s); ("reason", "timeout")])).
  { apply texts_ok. repeat constructor; try done; text_lit. }
  apply (implements_bind _ _ [_] (_ :: _)); [by apply implements_send|]. rewrite backend_eta.
  apply (implements_bind _ _ [_] _); [by apply implements_send|]. by rewrite backend_eta.
Qed.
End refinement.

(** ** Reachable states *)

Section runs.
Context `{OpenSSLSpec, JsonSpec, !JwtCpp, !JwtCppSpec, !IterOrder string CallSession}.

(** The user of a token that was accepted at some time. *)
Definition authenticated (secret u : string) : Prop :=
  ∃ now t p, Jwt.verify secret now t = Ok p ∧ JwtPayload_userId p = u.

(** What happens to the backend: connections, messages of authenticated users,
    the timer, disconnections, in any order. *)
Inductive backend_run (secret : string) (cfg : TurnConfig) : Backend → Prop :=
  | run_start timeout : backend_run secret cfg (mkBackend (newCallManager timeout) ∅)
  | run_connect b now sid target : backend_run secret cfg b →
      backend_run secret cfg (out_state (WsServer.accept (Jwt.verify secret now) sid target b))
  | run_message b env u raw : backend_run secret cfg b → inputs_ok env → authenticated secret u →
      backend_run secret cfg (out_state (Router.handle (generateRtcConfig cfg) env u raw b))
  | run_timer b env : backend_run secret cfg b →
      backend_run secret cfg (out_state (Router.checkExpired env b))
  | run_disconnect b u : backend_run secret cfg b →
      backend_run secret cfg (out_state (WsServer.removeSession u b)).

Lemma authenticated_text secret u : authenticated secret u → text_ok u.
Proof. intros (now&t&p&Hp&<-). by eapply verify_userId_ok. Qed.

Lemma out_state_wp {S E A} (m : eff S E A) P s : wp m (λ _ s' _, P s') s → P (out_state (m s)).
Proof. unfold wp, out_state. by destruct (m s) as [[[a|e] s'] l]. Qed.

Lemma respond_inv cfg env u raw b : backend_inv b → text_ok u →
  backend_inv (mkBackend (respond cfg env u (request_of raw) (call_manager_ b)).1 (ws_sessions_ b)).
Proof.
  intros I Hu. set (cm := call_manager_ b).
  assert (Hf : ∀ msg k s, json_parse raw = Some msg → json_field msg k = Some s → text_ok s)
    by (intros msg k s Hm%parse_ok; by apply field_ok).
  assert (Hold : ∀ k s, sessions_ cm !! k = Some s → session_texts s) by apply (inv_texts _ I).
  assert (Hsame : backend_inv (mkBackend cm (ws_sessions_ b))) by (destruct I; by split).
  assert (Hstep : ∀ cm', call_step cm cm' →
    (∀ k s, sessions_ cm' !! k = Some s → session_texts s) → backend_inv (mkBackend cm' (ws_sessions_ b))).
  { intros cm' Hs Ht. split; [|done]. eapply call_step_inv; [apply (inv_calls _ I)|done]. }
  unfold request_of, with_text. destruct (json_parse raw) as [msg|] eqn:Hraw; [|done].
  destruct (json_field msg "type") as [type|]; [|done].
  case_decide; [|case_decide; [|case_decide; [|case_decide; [|case_decide]]]]; try done.
  - destruct (json_field msg "to") as [callee|] eqn:Hto; [|done]. apply Hstep; [apply step_create|].
    cbn [respond answer fst]. rewrite create_eq. intros k s.
    destruct (isBusy u cm); [apply Hold|]. destruct (isBusy callee cm); [apply Hold|]. cbn.
    intros [[<- <-]|[_ ?]]%lookup_insert_Some; [|by eapply Hold].
    repeat split; [apply text_ascii, uuid_ascii|done|by eapply Hf].
  - destruct (json_field msg "callId") as [call|]; [|done]. apply Hstep; [apply step_accept|].
    cbn [respond answer fst]. rewrite accept_eq. intros k s.
    destruct (sessions_ cm !! call) as [s0|] eqn:Hs0; [|apply Hold].
    destruct (negb _); [apply Hold|]. destruct (negb _); [apply Hold|]. cbn.
    intros [[<- <-]|[_ ?]]%lookup_insert_Some; [|by eapply Hold]. apply (Hold _ _ Hs0).
  - destruct (json_field msg "callId") as [call|]; [|done]. apply Hstep; [apply step_reject|].
    cbn [respond answer fst]. rewrite reject_eq. intros k s.
    destruct (sessions_ cm !! call) as [s0|] eqn:Hs0; [|apply Hold].
    destruct (negb _); [apply Hold|]. destruct (negb _); [apply Hold|]. cbn.
    intros [_ ?]%lookup_delete_Some. by eapply Hold.
  - destruct (json_field msg "callId") as [call|]; [|done]. apply Hstep; [apply step_hangup|].
    cbn [respond answer fst]. rewrite hangup_eq. intros k s.
    destruct (sessions_ cm !! call) as [s0|] eqn:Hs0; [|apply Hold].
    destruct (involves u s0); [|apply Hold]. cbn. intros [_ ?]%lookup_delete_Some. by eapply Hold.
  - by destruct (json_field msg "callId").
Qed.
(** What a timeout tells the parties. *)
Definition timeout_msgs (s : CallSession) : list (string * json) :=
  let failed := json_texts [("type", "call.failed"); ("callId", callId s); ("reason", "timeout")] in
  [(callerId s, failed); (calleeId s, failed)].

(** The sweep of the timer: the new table and what it tells. *)
Definition sweep (env : RouterInputs) (cm : CallManager) : CallManager * list (string * json) :=
  ((expireRinging (steady env) cm).2, (expireRinging (steady env) cm).1 ≫= timeout_msgs).

Lemma expired_session now cm s : s ∈ (expireRinging now cm).1 →
  ∃ k s0, sessions_ cm !! k = Some s0 ∧ s = set_state CallState.Ended s0.
Proof.
  destruct (expireRinging_spec now cm) as (->&_). rewrite list_elem_of_fmap.
  intros (s0&->&Hin). apply list_elem_of_fmap in Hin as ([k s1]&->&Hin%elem_of_map_to_list).
  apply map_lookup_filter_Some in Hin as [??]. eauto.
Qed.

Lemma implements_checkExpired env b : backend_inv b →
  implements b (sweep env (call_manager_ b)) (Router.checkExpired env).
Proof.
  intros I. unfold Router.checkExpired.
  assert (Ht : Forall session_texts (expireRinging (steady env) (call_manager_ b)).1).
  { apply Forall_forall. intros s (k&s0&Hs0&->)%expired_session. exact (inv_texts _ I k s0 Hs0). }
  unfold implements, wp, mbind, eff_bind, Router.calls_op, sweep.
  destruct (expireRinging (steady env) (call_manager_ b)) as [l cm]. cbn [fst snd] in *.
  pose proof (implements_notify (mkBackend cm (ws_sessions_ b)) l Ht) as Hn.
  unfold implements, wp in Hn. by destruct (Router.notify_expired l _) as [[[?|?] ?] ?].
Qed.

Lemma expire_inv env b : backend_inv b →
  backend_inv (mkBackend (expireRinging (steady env) (call_manager_ b)).2 (ws_sessions_ b)).
Proof.
  intros I. split; cbn.
  - eapply call_step_inv; [apply (inv_calls _ I)|apply step_expire].
  - intros k s. destruct (expireRinging_spec (steady env) (call_manager_ b)) as (_&->&_).
    intros [? _]%map_lookup_filter_Some. by apply (inv_texts _ I k).
Qed.

Lemma accept_calls verify sid target b : call_manager_ (out_state (WsServer.accept verify sid target b)) = call_manager_ b.
Proof. unfold WsServer.accept. destruct (str_empty _); [done|]. by destruct (verify _) as [p|[]]. Qed.

Lemma backend_run_inv secret cfg b : cfg_ok cfg → backend_run secret cfg b → backend_inv b.
Proof.
  intros Hcfg. induction 1 as [t|b now sid target _ IH|b env u raw _ IH Henv Hu|b env _ IH|b u _ IH].
  - split; cbn; [apply call_run_inv; exists t; apply rtc_refl|intros k s; by rewrite lookup_empty].
  - pose proof (accept_calls (Jwt.verify secret now) sid target b) as E.
    destruct IH as [I1 I2]. rewrite <-E in I1, I2. by split.
  - apply authenticated_text in Hu. apply out_state_wp. eapply wp_mono; [by apply (implements_handle cfg env)|].
    intros _ b' evs (->&_). by apply respond_inv.
  - apply out_state_wp. eapply wp_mono; [by apply implements_checkExpired|]. intros _ b' evs (->&_). by apply expire_inv.
  - by destruct IH as [I1 I2].
Qed.

(** The texts that are written parse back to the messages. *)
Lemma delivery_texts b out : Forall (λ o, json_ok o.2) out → ∀ sid t, (sid, t) ∈ delivery b out →
  ∃ u j, (u, j) ∈ out ∧ ws_sessions_ b !! u = Some sid ∧ json_parse t = Some j.
Proof.
  intros Hok sid t Hin. apply list_elem_of_omap in Hin as ([u j]&Hin&Hx).
  destruct (ws_sessions_ b !! u) as [sid'|] eqn:Hu; [|done]. injection Hx as <- <-.
  exists u, j. split; [done|]. split; [done|]. apply text_of_ok.
  by apply (proj1 (Forall_forall _ _) Hok (u, j)).
Qed.
End runs.

(** ** Properties *)

Section properties.
Context `{OpenSSLSpec, JsonSpec, !JwtCpp, !JwtCppSpec, !IterOrder string CallSession}.

(** The signaling server never fails: in every state it can reach through
    connections, messages of authenticated users, timeouts and disconnections,
    any text of any such user and every sweep of the timer is handled without an
    exception escaping to the thread, and the call table stays consistent. *)
Lemma signaling_never_fails secret cfg b : cfg_ok cfg → backend_run secret cfg b →
  (∀ env u raw, inputs_ok env → authenticated secret u → ∃ b' evs,
     Router.handle (generateRtcConfig cfg) env u raw b = (Ok (), b', evs)) ∧
  (∀ env, ∃ b' evs, Router.checkExpired env b = (Ok (), b', evs)) ∧
  calls_inv (call_manager_ b).
Proof.
  intros Hcfg I%backend_run_inv; [|done]. split_and!; [| |apply (inv_calls _ I)].
  - intros env u raw Henv Hu%authenticated_text.
    destruct (wp_run _ _ _ (implements_handle cfg env Hcfg Henv b u raw I Hu)) as ([]&b'&evs&?&_). eauto.
  - intros env. destruct (wp_run _ _ _ (implements_checkExpired env b I)) as ([]&b'&evs&?&_). eauto.
Qed.

(** C8: the router implements its specification: the text of a user changes the
    calls as [respond] says, the sessions that receive a text are those of the
    recipients it names, in its order, each text parses to the message it names,
    and no other session receives anything; likewise for the timer, whose sweep
    tells both parties of each expired call. *)
Theorem router_implements_specification secret cfg b env u raw :
  cfg_ok cfg → inputs_ok env → backend_run secret cfg b → authenticated secret u →
  let '(cm', out) := respond cfg env u (request_of raw) (call_manager_ b) in
  let '(cm2, out2) := sweep env (call_manager_ b) in
  (∃ evs, Router.handle (generateRtcConfig cfg) env u raw b = (Ok (), mkBackend cm' (ws_sessions_ b), evs) ∧
     writes evs = delivery b out) ∧
  (∃ evs, Router.checkExpired env b = (Ok (), mkBackend cm2 (ws_sessions_ b), evs) ∧
     writes evs = delivery b out2) ∧
  ∀ sid t, (sid, t) ∈ delivery b out ++ delivery b out2 →
    ∃ v j, (v, j) ∈ out ++ out2 ∧ ws_sessions_ b !! v = Some sid ∧ json_parse t = Some j.
Proof.
  intros Hcfg Henv I%backend_run_inv Hu%authenticated_text; [|done].
  destruct (wp_run _ _ _ (implements_handle cfg env Hcfg Henv b u raw I Hu)) as ([]&b1&evs1&E1&->&W1&J1).
  destruct (wp_run _ _ _ (implements_checkExpired env b I)) as ([]&b2&evs2&E2&->&W2&J2).
  destruct (respond cfg env u (request_of raw) (call_manager_ b)) as [cm' out].
  split; [by exists evs1|]. split; [by exists evs2|].
  intros sid t. rewrite <-delivery_app. apply delivery_texts. by apply Forall_app.
Qed.

(** The offers, answers and candidates of a call: what a party of a call
    sends reaches the other party, unchanged, and nobody else; but the router
    does not ask whether the sender is a party, and hands the message of anyone
    who names the call to its caller. *)
Lemma webrtc_relayed_to_other_party secret cfg b env u raw call msg s :
  cfg_ok cfg → inputs_ok env → backend_run secret cfg b → authenticated secret u →
  request_of raw = ReqRelay call msg → sessions_ (call_manager_ b) !! call = Some s →
  let other := if decide (callerId s = u) then calleeId s else callerId s in
  (party u s → callerId s ≠ calleeId s → party other s ∧ other ≠ u) ∧
  (¬ party u s → other = callerId s) ∧
  ∃ evs, Router.handle (generateRtcConfig cfg) env u raw b = (Ok (), b, evs) ∧
    ∃ t, writes evs = match ws_sessions_ b !! other with Some sid => [(sid, t)] | None => [] end ∧
      json_parse t = Some msg.
Proof.
  intros Hcfg Henv I%backend_run_inv Hu%authenticated_text Hreq Hs other; [|done].
  split; [|split].
  - subst other. unfold party. case_decide as E; [subst; intros _ ?; split; [by right|congruence]|].
    intros [?|?] ?; [done|]. split; [by left|congruence].
  - subst other. intros Hp. rewrite decide_False; [done|]. intros ?. apply Hp. by left.
  - destruct (wp_run _ _ _ (implements_handle cfg env Hcfg Henv b u raw I Hu)) as ([]&b1&evs1&E1&Hb1&W1&J1).
    rewrite Hreq in Hb1, W1, J1. cbn [respond fst snd] in *. rewrite Hs in W1, J1.
    rewrite backend_eta in Hb1. subst b1. exists evs1. split; [done|]. exists (text_of msg).
    apply Forall_inv in J1. cbn [snd] in J1. split; [|exact (proj2 (text_of_ok msg J1))].
    rewrite W1. unfold Router.otherId, delivery. cbn. fold other.
    assert (E : (if bool_decide (callerId s = u) then calleeId s else callerId s) = other).
    { subst other. by repeat case_decide || case_bool_decide. }
    rewrite E. by destruct (ws_sessions_ b !! other).
Qed.

(** The configuration the backend generates for a user carries the TURN
    credentials of that user: the username has the user id and the expiry, the
    TURN server derives the same password from it, accepts it until the expiry
    included and not after, and accepts no other password. *)
Lemma rtc_config_accepted_by_turn cfg now u :
  cfg_ok cfg → 0 ≤ now < 2 ^ 62 → text_ok u →
  ∃ text j servers server user pass,
    generateRtcConfig cfg now u = Ok text ∧ json_parse text = Some j ∧
    json_get j "iceServers" = Some servers ∧ json_elems servers = Some [server] ∧
    json_get server "urls" = Some (turn_urls cfg) ∧
    json_field server "username" = Some user ∧ json_field server "credential" = Some pass ∧
    user = to_string (now + ttl cfg) +:+ ":" +:+ u ∧
    let hv := HmacValidator.mkHmacValidator (shared_secret cfg) in
    HmacValidator.getPassword hv user = Ok pass ∧
    ∀ t p, HmacValidator.validate hv t user p = Ok (bool_decide (t ≤ now + ttl cfg ∧ p = pass)).
Proof.
  intros Hcfg Hnow Hu. destruct (generateRtcConfig_Ok cfg now u Hcfg Hnow Hu) as (text&Ht&Hp).
  destruct (generate_lifetime (HmacValidator.mkHmacValidator (shared_secret cfg)) now u (ttl cfg))
    as (c&_&Hname&Hpass&Hval); [destruct Hcfg; lia|].
  exists text, (json_object [("iceServers", ice_servers cfg now u)]), (ice_servers cfg now u).
  eexists _, (rtc_username cfg now u), (rtc_password cfg (rtc_username cfg now u)).
  split; [done|]. split; [done|]. split; [by rewrite get_cons|]. split; [by apply elems_list|].
  unfold json_field. rewrite !get_cons. cbn. rewrite !string_str.
  split; [done|]. split; [done|]. split; [done|]. split; [done|].
  change (rtc_username cfg now u) with (to_string (now + ttl cfg) +:+ ":" +:+ u). rewrite <-Hname.
  assert (E : rtc_password cfg (HmacValidator.username c) = HmacValidator.password c)
    by (unfold rtc_password; by rewrite Hpass).
  rewrite E. split; [done|]. intros t p. apply Hval.
Qed.
End properties.

(** ** A session: alice calls bob, bob accepts, alice offers *)

Module talk.
#[local] Instance sessions_order : IterOrder string CallSession := list_order string CallSession.

Definition cfg : TurnConfig := mkTurnConfig "turn.example.org" 3478 5349 "s3cret" 3600.
Definition inputs (now : Z) : RouterInputs := mkRouterInputs (now, now) now (λ _, now).
Definition token_of (u : string) : string :=
  match Jwt.sign "jwt-secret" 100 u 3600 with Ok t => t | Err _ => "" end.
Definition connect (sid : nat) (u : string) (b : Backend) : Backend :=
  out_state (WsServer.accept (Jwt.verify "jwt-secret" 200) sid ("/ws?token=" +:+ token_of u) b).
Definition says (now : Z) (u : string) (msg : list (string * string)) (b : Backend) : Backend :=
  out_state (Router.handle (generateRtcConfig cfg) (inputs now) u (text_of (json_texts msg)) b).

Definition b0 : Backend := connect 3 "carol" (connect 2 "bob" (connect 1 "alice"
  (mkBackend (newCallManager 30) ∅))).
Definition b1 : Backend := says 300 "alice" [("type", "call.create"); ("to", "bob")] b0.
Definition id1 : string := generateUuid 300 300.
Definition b2 : Backend := says 310 "bob" [("type", "call.accept"); ("callId", id1)] b1.
Definition offer : list (string * string) :=
  [("type", "webrtc.offer"); ("callId", id1); ("sdp", "v=0")].

Definition talking : CallSession := mkCallSession id1 "alice" "bob" CallState.Active 300.

Lemma inputs_good now : 0 ≤ now < 2 ^ 62 → inputs_ok (inputs now).
Proof. by intros ? k. Qed.

Lemma known u : u ∈ ["alice"; "bob"; "carol"] → authenticated "jwt-secret" u.
Proof.
  intros Hu. assert (Hv : Forall (λ u, Jwt.verify "jwt-secret" 200 (token_of u) = Ok (mkJwtPayload u 3700))
    ["alice"; "bob"; "carol"]) by (repeat constructor; by vm_compute).
  exists 200, (token_of u), (mkJwtPayload u 3700). split; [|reflexivity].
  exact (proj1 (Forall_forall (λ u, Jwt.verify "jwt-secret" 200 (token_of u) = Ok (mkJwtPayload u 3700)) _) Hv u Hu).
Qed.

Lemma b2_run : backend_run "jwt-secret" cfg b2.
Proof.
  apply run_message; [|by apply inputs_good|apply known; set_solver].
  apply run_message; [|by apply inputs_good|apply known; set_solver].
  apply run_connect, run_connect, run_connect, run_start.
Qed.

Lemma b2_sessions :
  sessions_ (call_manager_ b2) = {[ id1 := mkCallSession id1 "alice" "bob" CallState.Active 300 ]} ∧
  ws_sessions_ b2 !! "alice" = Some 1%nat ∧ ws_sessions_ b2 !! "bob" = Some 2%nat.
Proof. apply (bool_decide_unpack _). by vm_compute. Qed.

Lemma cfg_good : cfg_ok cfg.
Proof. by split. Qed.

Lemma in_320 : inputs_ok (inputs 320).
Proof. by apply inputs_good. Qed.
Lemma known_alice : authenticated "jwt-secret" "alice".
Proof. apply known; set_solver. Qed.
Lemma known_carol : authenticated "jwt-secret" "carol".
Proof. apply known; set_solver. Qed.

Lemma router_implements_specification_witness :
  ∃ evs, Router.handle (generateRtcConfig cfg) (inputs 310) "bob"
      (text_of (json_texts [("type", "call.hangup"); ("callId", id1)])) b2 =
    (Ok (), mkBackend (mkCallManager 30 ∅) (ws_sessions_ b2), evs) ∧
    writes evs = [(1%nat, text_of (ended_msg id1 "hangup"))].
Proof.
  pose proof (router_implements_specification "jwt-secret" cfg b2 (inputs 310) "bob"
    (text_of (json_texts [("type", "call.hangup"); ("callId", id1)])) cfg_good
    ltac:(by apply inputs_good) b2_run ltac:(apply known; set_solver)) as Hspec.
  replace (respond cfg (inputs 310) "bob" (request_of (text_of (json_texts
      [("type", "call.hangup"); ("callId", id1)]))) (call_manager_ b2))
    with (mkCallManager 30 (∅ : gmap string CallSession), [("alice", ended_msg id1 "hangup")]) in Hspec
    by (by vm_compute).
  destruct Hspec as [Hspec _]. exact Hspec.
Defined.

End talk.
