(* ===== verification/Api.v ===== *)
(** * The HTTP interface of the backend (src/backend/api)

    The routes of registerRoutes and their dispatch in handle_request.  A
    handler reads and changes the [AuthService]; an exception it does not catch
    becomes a response with status 500.  The bodies the code writes literally
    are built with [quoted]; [now] is the system clock in seconds. *)

From Stdlib Require Import Ascii.
From S2P Require Export SignalingFacts.
From S2P Require Import Credentials Auth.

Record Request := mkRequest {
  req_method : string;
  req_target : string;
  req_body : string;
  req_headers : gmap string string;
}.

Record Response := mkResponse { status : Z; body : string; content_type : string }.

(** [Response{status, body}]. *)
Definition respond_with (status : Z) (body : string) : Response := mkResponse status body "application/json".

Definition quoted (s : string) : string := String "034"%char s +:+ String "034"%char "".

(** The text {"error":"reason"}. *)
Definition error_body (reason : string) : string :=
  "{" +:+ quoted "error" +:+ ":" +:+ quoted reason +:+ "}".
Definition ok_body : string := "{" +:+ quoted "ok" +:+ ":true}".

Definition extractBearer (req : Request) : string :=
  let cut (val : string) := if str_prefix "Bearer " val then str_drop 7 val else "" in
  match req_headers req !! "Authorization" with
  | Some val => cut val
  | None => match req_headers req !! "authorization" with Some val => cut val | None => "" end
  end.

Section api.
Context `{OpenSSL, Json, Sqlite, JwtCpp}.

Abbreviation M := (eff AuthService.AuthService Empty_set).
Definition Handler : Type := Request → M Response.

(** POST /api/auth/login *)
Definition login_route (now : Z) : Handler := λ req,
  match json_parse (req_body req) with
  | None => mret (respond_with 400 (error_body "invalid json"))
  | Some body =>
      match json_get body "userId", json_get body "password" with
      | Some user_value, Some password_value =>
          userId ← lift (to_text user_value);
          password ← lift (to_text password_value);
          service ← get;
          match AuthService.login service now userId password with
          | Ok result =>
              text ← lift (json_dump (json_texts [("token", token result); ("userId", LoginResult_userId result)]));
              mret (respond_with 200 text)
          | Err (Thrown LoginError _) => mret (respond_with 401 (error_body "invalid credentials"))
          | Err e => lift (Err e)
          end
      | _, _ => mret (respond_with 400 (error_body "missing userId or password"))
      end
  end.

(** GET /api/turn/credentials; the clock is read again after the token is checked. *)
Definition credentials_route (turn_config : TurnConfig) (now1 now2 : Z) : Handler := λ req,
  let token := extractBearer req in
  if str_empty token then mret (respond_with 401 (error_body "missing token")) else
  service ← get;
  match AuthService.verifyToken service now1 token with
  | Err (Thrown JwtExpired _) => mret (respond_with 401 (error_body "token expired"))
  | Err (Thrown JwtInvalid _) => mret (respond_with 401 (error_body "invalid token"))
  | Err e => lift (Err e)
  | Ok payload =>
      expiry ← lift (HmacValidator.add_i64 now2 (ttl turn_config));
      let username := to_string expiry +:+ ":" +:+ JwtPayload_userId payload in
      raw_hmac ← lift (crypto.hmac_sha1_str (shared_secret turn_config) username);
      let password := crypto.base64_encode raw_hmac in
      text ← lift (json_dump (json_object
        [("urls", turn_urls turn_config); ("username", json_str username);
         ("credential", json_str password); ("ttl", json_int (ttl turn_config))]));
      mret (respond_with 200 text)
  end.

(** POST /api/auth/register *)
Definition register_route : Handler := λ req,
  match json_parse (req_body req) with
  | None => mret (respond_with 400 (error_body "invalid json"))
  | Some body =>
      match json_get body "userId", json_get body "password" with
      | Some user_value, Some password_value => λ service,
          match (userId ← lift (to_text user_value);
                 password ← lift (to_text password_value);
                 AuthService.registerUser userId password) service with
          | (Ok _, service, ev) => (Ok (respond_with 200 ok_body), service, ev)
          | (Err (Thrown UserStoreError what), service, ev) =>
              (Ok (respond_with 409 (error_body what)), service, ev)
          | (Err e, service, ev) => (Err e, service, ev)
          end
      | _, _ => mret (respond_with 400 (error_body "missing fields"))
      end
  end.

(** ** The table of routes *)

Definition route (method path : string) (handler : Handler) (routes : gmap string Handler) :
    gmap string Handler := <[method +:+ " " +:+ path := handler]> routes.

(** The clock of a request: the readings of its handler. *)
Definition registerRoutes (turn_config : TurnConfig) (clock : nat → Z) (routes : gmap string Handler) :
    gmap string Handler :=
  route "POST" "/api/auth/register" register_route
    (route "GET" "/api/turn/credentials" (credentials_route turn_config (clock 0%nat) (clock 1%nat))
      (route "POST" "/api/auth/login" (login_route (clock 0%nat)) routes)).

(** What is done with a request: it is handed to the WebSocket server, or answered. *)
Inductive handled := ToWebSocket (target : string) | Answered (response : Response).

(** The key of the table: the method and the target without its query. *)
Definition route_key (req : Request) : string :=
  let path := match str_find "?"%char (req_target req) with
    | Some pos => str_take pos (req_target req) | None => req_target req end in
  req_method req +:+ " " +:+ path.

Definition find_route (routes : gmap string Handler) (req : Request) : option Handler :=
  routes !! route_key req.

Definition handle_request (routes : gmap string Handler) (is_upgrade : bool) (req : Request) : M handled :=
  if is_upgrade then mret (ToWebSocket (req_target req)) else
  match find_route routes req with
  | Some handler =>
      try (resp ← handler req; mret (Answered resp))
          (λ _ what, mret (Answered (respond_with 500 (error_body what))))
  | None => mret (Answered (respond_with 404 (error_body "not found")))
  end.
End api.

(** ** Lemmas *)

Section facts.
Context `{OpenSSLSpec, JsonSpec, SqliteSpec, !SqliteUp, JwtCpp, !JwtCppSpec}.

(** The configured lifetime of a token and the clock keep time points in range. *)
Definition service_ok (s : AuthService.AuthService) (clock : nat → Z) : Prop :=
  0 ≤ AuthService.ttl_ s < 2 ^ 32 ∧ ∀ k, 0 ≤ clock k < 2 ^ 32.

Lemma clock_plus_ok s clock k : service_ok s clock →
  clock_plus (clock k) (AuthService.ttl_ s) = Ok (clock k + AuthService.ttl_ s).
Proof.
  intros [Ht Hc]. specialize (Hc k). unfold clock_plus.
  rewrite !(proj2 (Z.leb_le _ _)), !(proj2 (Z.ltb_lt _ _)) by lia. done.
Qed.

(** A handler is safe when it answers or throws; what it throws is answered. *)
Definition safe (m : eff AuthService.AuthService Empty_set Response) (s : AuthService.AuthService) : Prop :=
  match out_result (m s) with Ok _ | Err (Thrown _ _) => True | Err _ => False end.

Lemma to_text_cases j : (∃ t, to_text j = Ok t ∧ json_string j = Some t) ∨ ∃ w, to_text j = Err (Thrown JsonError w).
Proof. unfold to_text. destruct (json_string j); eauto. Qed.

(** A computation whose next steps are known ends by evaluation. *)
Ltac by_eval := first [exact I | reflexivity | split; [exact I|reflexivity]].

(** A login with well-formed texts, by the answer of the password check. *)
Lemma login_cases s clock k u p : service_ok s clock → text_ok u →
  (∃ t, AuthService.login s (clock k) u p = Ok (mkLoginResult t u) ∧
     UserStore.checkPassword (AuthService.store_ s) u p = Ok true ∧
     jwt_sign (AuthService.jwt_ s) u (clock k) (clock k + AuthService.ttl_ s) = Ok t ∧ ascii_text t) ∨
  (AuthService.login s (clock k) u p = Err (Thrown LoginError "invalid userId or password") ∧
     UserStore.checkPassword (AuthService.store_ s) u p = Ok false).
Proof.
  intros Hs Hu. destruct (hashPassword_Ok p) as (h&Hh&_).
  rewrite (login_eq _ _ _ _ h), (checkPassword_eq _ _ _ h) by done.
  destruct (sign_Ok (AuthService.jwt_ s) (clock k) u (AuthService.ttl_ s) _ Hu (clock_plus_ok s clock k Hs))
    as (t&Ht&Hsign&Ha).
  case_bool_decide; [left|by right]. exists t. rewrite Ht. by split_and!.
Qed.

Lemma login_ok_text t u : ascii_text t → text_ok u →
  json_ok (json_texts [("token", t); ("userId", u)]).
Proof.
  intros Ht Hu. apply texts_ok. repeat constructor; cbn; try done; [text_lit|by apply text_ascii|text_lit].
Qed.

Lemma login_safe clock req s : service_ok s clock → safe (login_route (clock 0%nat) req) s ∧
  out_state (login_route (clock 0%nat) req s) = s.
Proof.
  intros Hs. unfold safe, login_route. destruct (json_parse (req_body req)) as [j|] eqn:Hj; [|by_eval].
  apply parse_ok in Hj. destruct (json_get j "userId") as [uv|] eqn:Huv; [|by_eval].
  destruct (json_get j "password") as [pv|] eqn:Hpv; [|by_eval].
  destruct (to_text_cases uv) as [(u&Hu&Hus)|(w&Hu)]; rewrite Hu; [|by_eval].
  destruct (to_text_cases pv) as [(p&Hp&_)|(w&Hp)]; rewrite Hp; [|by_eval].
  assert (Hut : text_ok u) by (apply (string_ok uv); [by apply (get_ok j "userId")|done]).
  unfold mbind, eff_bind, lift, get, mret, eff_ret, out_result, out_state.
  destruct (login_cases s clock 0 u p Hs Hut) as [(t&->&_&_&Ht)|[-> _]]; [|by_eval].
  cbn [token LoginResult_userId]. by destruct (text_of_ok _ (login_ok_text t u Ht Hut)) as [-> _]; by_eval.
Qed.

Lemma field_text j k t : json_field j k = Some t → ∃ v, json_get j k = Some v ∧ to_text v = Ok t.
Proof.
  unfold json_field, to_text. destruct (json_get j k) as [v|]; [|done]. cbn. intros Hv. exists v. by rewrite Hv.
Qed.

(** The answer to a login with a name and a password. *)
Definition login_answer (u : string) (o : result LoginResult) : Response :=
  match o with
  | Ok result => respond_with 200 (text_of (json_texts [("token", token result); ("userId", u)]))
  | Err _ => respond_with 401 (error_body "invalid credentials")
  end.

Lemma login_route_eq clock req s j u p : service_ok s clock → json_parse (req_body req) = Some j →
  json_field j "userId" = Some u → json_field j "password" = Some p →
  login_route (clock 0%nat) req s = (Ok (login_answer u (AuthService.login s (clock 0%nat) u p)), s, []).
Proof.
  intros Hs Hj Hu Hp. pose proof (parse_ok _ _ Hj) as Hok. pose proof (field_ok _ _ _ Hok Hu) as Hut.
  destruct (field_text _ _ _ Hu) as (uv&Huv&Htu), (field_text _ _ _ Hp) as (pv&Hpv&Htp).
  unfold login_route. rewrite Hj, Huv, Hpv, Htu, Htp, !bind_lift.
  unfold mbind at 1, eff_bind at 1, get.
  destruct (login_cases s clock 0 u p Hs Hut) as [(t&->&_&_&Ht)|[-> _]]; [|done].
  cbn [token LoginResult_userId login_answer].
  destruct (text_of_ok _ (login_ok_text t u Ht Hut)) as [Htext _]. by rewrite Htext, bind_lift.
Qed.

Lemma register_safe req s : safe (register_route req) s.
Proof.
  unfold safe, register_route. destruct (json_parse (req_body req)) as [j|]; [|by_eval].
  destruct (json_get j "userId") as [uv|]; [|by_eval]. destruct (json_get j "password") as [pv|]; [|by_eval].
  destruct (to_text_cases uv) as [(u&Hu&_)|(w&Hu)]; rewrite Hu; [|by_eval].
  destruct (to_text_cases pv) as [(p&Hp&_)|(w&Hp)]; rewrite Hp; [|by_eval].
  unfold mbind, eff_bind, lift, AuthService.registerUser, out_result.
  destruct (hashPassword_Ok p) as (h&Hh&_). destruct (addUser_eq (AuthService.store_ s) u p h Hh) as (d&->&_).
  destruct (bool_decide _); by_eval.
Qed.

Lemma verify_cases secret now t : (∃ p, Jwt.verify secret now t = Ok p) ∨
  (∃ w, Jwt.verify secret now t = Err (Thrown JwtExpired w)) ∨ ∃ w, Jwt.verify secret now t = Err (Thrown JwtInvalid w).
Proof.
  unfold Jwt.verify. destruct (jwt_decode t) as [|d]; [eauto|].
  destruct (jwt_verify secret now d) as [w|]; [destruct (str_contains "expired" w); eauto|].
  destruct (jwt_userId d), (jwt_expires_at d); eauto.
Qed.

(** The body of the credentials response. *)
Definition credentials_json (cfg : TurnConfig) (now : Z) (u : string) : json :=
  json_object [("urls", turn_urls cfg); ("username", json_str (rtc_username cfg now u));
    ("credential", json_str (rtc_password cfg (rtc_username cfg now u))); ("ttl", json_int (ttl cfg))].

Lemma credentials_json_ok cfg now u : cfg_ok cfg → text_ok u → json_ok (credentials_json cfg now u).
Proof.
  intros Hcfg Hu. apply object_ok. destruct (rtc_password_eq cfg now u) as (mac&_&->).
  repeat (apply Forall_cons; split; [split; [text_lit|]|]); cbn [snd]; [..|done].
  - by apply turn_urls_ok.
  - by apply str_ok, rtc_username_ok.
  - apply str_ok, text_ascii. intros c. apply base64_encode_ascii.
  - apply int_ok.
Qed.

Lemma credentials_route_eq cfg clock req s : cfg_ok cfg → service_ok s clock →
  credentials_route cfg (clock 0%nat) (clock 1%nat) req s =
    (Ok (if str_empty (extractBearer req) then respond_with 401 (error_body "missing token") else
         match AuthService.verifyToken s (clock 0%nat) (extractBearer req) with
         | Ok payload =>
             respond_with 200 (text_of (credentials_json cfg (clock 1%nat) (JwtPayload_userId payload)))
         | Err (Thrown JwtExpired _) => respond_with 401 (error_body "token expired")
         | Err _ => respond_with 401 (error_body "invalid token")
         end), s, []).
Proof.
  intros Hcfg Hs. unfold credentials_route. destruct (str_empty _); [done|].
  unfold mbind at 1, eff_bind at 1, get. unfold AuthService.verifyToken.
  destruct (verify_cases (AuthService.jwt_ s) (clock 0%nat) (extractBearer req)) as [[p Hp]|[[w ->]|[w ->]]];
    [|done..].
  rewrite Hp. set (u := JwtPayload_userId p). assert (Hu : text_ok u) by (by eapply verify_userId_ok).
  unfold HmacValidator.add_i64. destruct Hcfg as [Hh Ht], Hs as [_ Hc]. specialize (Hc 1%nat).
  rewrite (proj2 (Z.leb_le _ _)), (proj2 (Z.ltb_lt _ _)) by lia. cbn [andb].
  change (to_string (clock 1%nat + ttl cfg) +:+ ":" +:+ u) with (rtc_username cfg (clock 1%nat) u).
  destruct (rtc_password_eq cfg (clock 1%nat) u) as (mac&Hmac&Hpass).
  destruct (text_of_ok _ (credentials_json_ok cfg (clock 1%nat) u (conj Hh Ht) Hu)) as [Htext _].
  unfold mret at 1, result_ret. rewrite bind_lift.
  change (to_string (clock 1%nat + ttl cfg) +:+ ":" +:+ u) with (rtc_username cfg (clock 1%nat) u).
  rewrite Hmac, bind_lift, <-Hpass. fold (credentials_json cfg (clock 1%nat) u). by rewrite Htext, bind_lift.
Qed.

Lemma route_lookup cfg clock req h : find_route (registerRoutes cfg clock ∅) req = Some h →
  (route_key req = "POST /api/auth/register" ∧ h = register_route) ∨
  (route_key req = "GET /api/turn/credentials" ∧ h = credentials_route cfg (clock 0%nat) (clock 1%nat)) ∨
  (route_key req = "POST /api/auth/login" ∧ h = login_route (clock 0%nat)).
Proof.
  unfold find_route, registerRoutes, route. cbn [String.append].
  intros [[<- <-]|[_ [[<- <-]|[_ [[<- <-]|[_ Hl]]%lookup_insert_Some]]%lookup_insert_Some]]%lookup_insert_Some; auto.
  by rewrite lookup_empty in Hl.
Qed.

(** The answer of a handler that does not throw. *)
Lemma handle_answers routes req (h : Handler) s r s' : find_route routes req = Some h → h req s = (Ok r, s', []) →
  handle_request routes false req s = (Ok (Answered r), s', []).
Proof.
  intros Hh Hr. unfold handle_request. rewrite Hh. unfold try, mbind, eff_bind. by rewrite Hr.
Qed.

Lemma no_events (l : list Empty_set) : l = [].
Proof. by destruct l as [|[]]. Qed.

(** A request is handled whatever the handler throws. *)
Lemma handle_safe routes up req s :
  (∀ h, find_route routes req = Some h → safe (h req) s) →
  ∃ a s', handle_request routes up req s = (Ok a, s', []) ∧
    (s' = s ∨ ∃ h, find_route routes req = Some h ∧ out_state (h req s) = s').
Proof.
  intros Hsafe. unfold handle_request. destruct up; [by eexists _, s; split; [|left]|].
  destruct (find_route routes req) as [h|]; [|by eexists _, s; split; [|left]].
  specialize (Hsafe h eq_refl). unfold safe, out_result in Hsafe. unfold try, mbind, eff_bind.
  destruct (h req s) as [[[r|[| |k w]] s'] l] eqn:E; cbn in Hsafe; try done; rewrite (no_events l) in *.
  - eexists _, s'. split; [done|]. right. exists h. by rewrite E.
  - eexists _, s'. split; [done|]. right. exists h. by rewrite E.
Qed.
End facts.

Section properties.
Context `{OpenSSLSpec, JsonSpec, SqliteSpec, !SqliteUp, JwtCpp, !JwtCppSpec}.

(** C34: the HTTP interface answers every request, whatever its method, target,
    headers and body, and only a registration changes anything; a login is
    answered by a token that names the user and is valid until it expires when
    the password is right, and by 401 when it is not; TURN credentials are
    given exactly to the bearer of a token that verifies, and the TURN server
    accepts them for the user of the token. *)
Theorem http_api_correct cfg clock s : cfg_ok cfg → service_ok s clock →
  let handle := handle_request (registerRoutes cfg clock ∅) in
  (∀ up req, ∃ a s', handle up req s = (Ok a, s', []) ∧
     (route_key req ≠ "POST /api/auth/register" → s' = s)) ∧
  (∀ req j u p, route_key req = "POST /api/auth/login" → json_parse (req_body req) = Some j →
     json_field j "userId" = Some u → json_field j "password" = Some p →
     ∃ r, handle false req s = (Ok (Answered r), s, []) ∧
       ((UserStore.checkPassword (AuthService.store_ s) u p = Ok true ∧ status r = 200 ∧
         ∃ j' t, json_parse (body r) = Some j' ∧ json_field j' "userId" = Some u ∧ json_field j' "token" = Some t ∧
           ∀ later, clock 0%nat ≤ later < clock 0%nat + AuthService.ttl_ s →
             AuthService.verifyToken s later t = Ok (mkJwtPayload u (clock 0%nat + AuthService.ttl_ s))) ∨
        (UserStore.checkPassword (AuthService.store_ s) u p = Ok false ∧ status r = 401))) ∧
  (∀ req, route_key req = "GET /api/turn/credentials" →
     ∃ r, handle false req s = (Ok (Answered r), s, []) ∧
       ((∃ payload, extractBearer req ≠ "" ∧
           AuthService.verifyToken s (clock 0%nat) (extractBearer req) = Ok payload ∧ status r = 200 ∧
           ∃ j user pass, json_parse (body r) = Some j ∧ json_field j "username" = Some user ∧
             json_field j "credential" = Some pass ∧
             user = to_string (clock 1%nat + ttl cfg) +:+ ":" +:+ JwtPayload_userId payload ∧
             ∀ t p, HmacValidator.validate (HmacValidator.mkHmacValidator (shared_secret cfg)) t user p =
               Ok (bool_decide (t ≤ clock 1%nat + ttl cfg ∧ p = pass))) ∨
        ((extractBearer req = "" ∨
            ∃ e, AuthService.verifyToken s (clock 0%nat) (extractBearer req) = Err e) ∧ status r = 401))).
Proof.
  intros Hcfg Hs handle. split; [|split].
  - intros up req. destruct (handle_safe (registerRoutes cfg clock ∅) up req s) as (a&s'&E&Hs').
    { intros h [[_ ->]|[[_ ->]|[_ ->]]]%route_lookup; [apply register_safe| |by apply login_safe].
      unfold safe. by rewrite credentials_route_eq. }
    exists a, s'. split; [done|]. intros Hne. destruct Hs' as [?|(h&Hh&<-)]; [done|].
    destruct (route_lookup _ _ _ _ Hh) as [[? _]|[[_ ->]|[_ ->]]]; [done| |by apply login_safe].
    by rewrite credentials_route_eq.
  - intros req j u p Hk Hj Hu Hp. pose proof (parse_ok _ _ Hj) as Hok.
    assert (Hut : text_ok u) by (by eapply field_ok). eexists. split.
    { eapply handle_answers; [|by apply (login_route_eq clock req s j u p)]. unfold find_route. by rewrite Hk. }
    destruct (login_cases s clock 0 u p Hs Hut) as [(t&->&Hc&Hsign&Ht)|[-> Hc]]; [left|by right].
    split; [done|]. split; [done|]. destruct (text_of_ok _ (login_ok_text t u Ht Hut)) as [_ Hp'].
    exists (json_texts [("token", t); ("userId", u)]), t. split; [exact Hp'|].
    rewrite !texts_field. split; [done|]. split; [done|].
    intros later Hl. by apply (verify_sign _ _ _ _ _ Hsign).
  - intros req Hk. eexists. split.
    { eapply handle_answers; [|by apply credentials_route_eq]. unfold find_route. by rewrite Hk. }
    destruct (extractBearer req) as [|c tok] eqn:Hb; [right; cbn; auto|]. cbn [str_empty].
    unfold AuthService.verifyToken.
    destruct (verify_cases (AuthService.jwt_ s) (clock 0%nat) (String c tok)) as [[payload Hv]|[[w ->]|[w ->]]];
      [left|right; cbn; eauto..].
    exists payload. split; [done|]. split; [done|]. rewrite Hv. split; [done|].
    assert (Hu : text_ok (JwtPayload_userId payload)) by (by eapply verify_userId_ok).
    set (u := JwtPayload_userId payload) in *.
    destruct (text_of_ok _ (credentials_json_ok cfg (clock 1%nat) u Hcfg Hu)) as [_ Hp].
    destruct (generate_lifetime (HmacValidator.mkHmacValidator (shared_secret cfg)) (clock 1%nat) u (ttl cfg))
      as (c'&_&Hname&Hpass&Hval).
    { destruct Hcfg as [_ ?], Hs as [_ Hc]. specialize (Hc 1%nat). lia. }
    exists (credentials_json cfg (clock 1%nat) u), (rtc_username cfg (clock 1%nat) u),
      (rtc_password cfg (rtc_username cfg (clock 1%nat) u)).
    split; [exact Hp|]. unfold json_field, credentials_json. rewrite !get_cons. cbn. rewrite !string_str.
    split; [done|]. split; [done|]. split; [done|]. unfold rtc_username in *. rewrite <-Hname.
    assert (E : rtc_password cfg (HmacValidator.username c') = HmacValidator.password c')
      by (unfold rtc_password; by rewrite Hpass).
    rewrite E. apply Hval.
Qed.
End properties.

(** ** A login and a request for credentials *)

#[local] Existing Instances ToyOpenSSL ToyOpenSSLSpec ToyJson ToyJsonSpec ToySqlite ToySqliteSpec ToySqliteUp
  ToyJwt ToyJwtSpec.

Module http.
Definition cfg : TurnConfig := mkTurnConfig "turn.example.org" 3478 5349 "s3cret" 3600.
Definition clock (k : nat) : Z := 1000.
Definition service : AuthService.AuthService := accounts.registered.

Definition login_request : Request := mkRequest "POST" "/api/auth/login"
  (text_of (json_texts [("userId", "alice"); ("password", "wonderland")])) ∅.
Definition bearer : string :=
  match AuthService.login service 1000 "alice" "wonderland" with Ok r => token r | Err _ => "" end.
Definition credentials_request (header : string) : Request :=
  mkRequest "GET" "/api/turn/credentials?x=1" "" {[ "authorization" := header ]}.

Lemma http_cfg_good : cfg_ok cfg.
Proof. by split. Qed.
Lemma service_good : service_ok service clock.
Proof. by split. Qed.

Lemma http_api_correct_witness :
  (∃ r, handle_request (registerRoutes cfg clock ∅) false login_request service =
     (Ok (Answered r), service, []) ∧ status r = 200) ∧
  (∃ r, handle_request (registerRoutes cfg clock ∅) false (credentials_request ("Bearer " +:+ bearer)) service =
     (Ok (Answered r), service, []) ∧ status r = 200) ∧
  (∃ r, handle_request (registerRoutes cfg clock ∅) false (credentials_request "Bearer forged") service =
     (Ok (Answered r), service, []) ∧ status r = 401).
Proof.
  destruct (http_api_correct cfg clock service http_cfg_good service_good) as (_&Hlogin&Hcred). split_and!.
  - destruct (Hlogin login_request (json_texts [("userId", "alice"); ("password", "wonderland")]) "alice" "wonderland")
      as (r&E&[(_&Hr&_)|(Hc&_)]); [by vm_compute..| |].
    + exists r. exact (conj E Hr).
    + exfalso. vm_compute in Hc. discriminate Hc.
  - destruct (Hcred (credentials_request ("Bearer " +:+ bearer))) as (r&E&[(p&_&_&Hr&_)|([Hc|[e Hc]]&_)]);
      [by vm_compute|..].
    + exists r. exact (conj E Hr).
    + exfalso. vm_compute in Hc. discriminate Hc.
    + exfalso. vm_compute in Hc. discriminate Hc.
  - destruct (Hcred (credentials_request "Bearer forged")) as (r&E&[(p&_&Hc&_)|(_&Hr)]); [by vm_compute|..].
    + exfalso. vm_compute in Hc. discriminate Hc.
    + exists r. exact (conj E Hr).
Defined.
End http.
