(* ===== verification/Cli.v ===== *)
(** * The command line of the client (src/client_cli/src/cli, session)

    A line is split at blanks, its first word names the command, and a command
    changes the session and may send a message.  The events are what leaves the
    program: messages for the server, orders to the audio devices, lines
    printed.  The HTTP client is a parameter: what a POST returns, or throws.  The
    callback of setOnLogin is the event [LoggedIn]; what it does is in Repl
    ([on_line]). *)

From Stdlib Require Import Ascii.
From S2P Require Export Json.

(** ** The session *)

Module AppState.
Inductive AppState := Idle | Calling | Ringing | InCall.
End AppState.
Abbreviation AppState := AppState.AppState.

#[export] Instance AppState_eq_dec : EqDecision AppState.
Proof. solve_decision. Defined.

Definition toString (s : AppState) : string :=
  match s with
  | AppState.Idle => "Idle"
  | AppState.Calling => "Calling"
  | AppState.Ringing => "Ringing"
  | AppState.InCall => "InCall"
  end.

(** [session::TurnConfig]. *)
Record ClientTurn := mkClientTurn {
  turnUrl : string;
  turnsUrl : string;
  turn_username : string;
  turn_credential : string;
}.

Record CallContext := mkCallContext {
  call_id : string;
  remoteUser : string;
  call_state : AppState;
  muted : bool;
  is_caller : bool;
}.

Record RecordContext := mkRecordContext { active : bool; filename : string }.

Record Session := mkSession {
  userId : string;
  jwt : string;
  turnConfig : ClientTurn;
  call : CallContext;
  record : RecordContext;
}.

Definition no_call : CallContext := mkCallContext "" "" AppState.Idle false false.
Definition no_record : RecordContext := mkRecordContext false "".
Definition new_session : Session := mkSession "" "" (mkClientTurn "" "" "" "") no_call no_record.

Definition isLoggedIn (s : Session) : bool := negb (str_empty (jwt s)).
Definition isInCall (s : Session) : bool := negb (bool_decide (call_state (call s) = AppState.Idle)).

Definition with_call (c : CallContext) (s : Session) : Session :=
  mkSession (userId s) (jwt s) (turnConfig s) c (record s).
Definition with_state (st : AppState) (c : CallContext) : CallContext :=
  mkCallContext (call_id c) (remoteUser c) st (muted c) (is_caller c).
Definition with_muted (m : bool) (c : CallContext) : CallContext :=
  mkCallContext (call_id c) (remoteUser c) (call_state c) m (is_caller c).
Definition with_record (r : RecordContext) (s : Session) : Session :=
  mkSession (userId s) (jwt s) (turnConfig s) (call s) r.

(** ** Lines *)

Record Command := mkCommand { name : string; args : list string }.

(** The words of [s], [cur] being the beginning of the first one. *)
Fixpoint tokens (s cur : string) : list string :=
  match s with
  | EmptyString => if str_empty cur then [] else [cur]
  | String c s =>
      if is_space c then (if str_empty cur then tokens s "" else cur :: tokens s "")
      else tokens s (cur +:+ String c "")
  end.

Definition parse (line : string) : Command :=
  match tokens line "" with
  | [] => mkCommand "" []
  | token :: args => mkCommand token args
  end.

(** ** Commands *)

Record CommandResult := mkCommandResult { ok : bool; message : string }.

Inductive ClientEvent :=
  | WsSend (text : string)
  | CaptureSet (start : bool) (file : string)
  | SendFile (file : string)
  | Printed (line : string)
  | LoggedIn                  (* the callback of setOnLogin *)
  | ReplQuit                  (* the loop of the interpreter ends *)
  | CaptureStart
  | CaptureStop
  | PlaybackStop
  | RtcInit (turn : ClientTurn)
  | RtcClose
  | RtcStartCall
  | RtcOffer (sdp : string)
  | RtcAnswer (sdp : string)
  | RtcCandidate (candidate mid : string) (mlineindex : Z).

(** The callbacks of [Commands] that are set, its [quit_], and the session. *)
Record Commands := mkCommands {
  session_ : Session;
  quit_ : bool;
  ws_send_ : bool;
  capture_cb_ : bool;
  sendfile_cb_ : bool;
}.

Section commands.
Context `{Json}.

Abbreviation M := (eff Commands ClientEvent).

Definition session_of : M Session := λ c, (Ok (session_ c), c, []).
Definition set_session (s : Session) : M () := λ c,
  (Ok (), mkCommands s (quit_ c) (ws_send_ c) (capture_cb_ c) (sendfile_cb_ c), []).
Definition set_quit : M () := λ c,
  (Ok (), mkCommands (session_ c) true (ws_send_ c) (capture_cb_ c) (sendfile_cb_ c), []).

Definition fail (why : string) : M CommandResult := mret (mkCommandResult false why).
Definition success (what : string) : M CommandResult := mret (mkCommandResult true what).

(** An event that happens if a flag or a callback is set. *)
Definition when (flag : Commands → bool) (e : ClientEvent) : M () := λ c,
  (if flag c then emit e else mret ()) c.

(** [if (ws_send_) { json msg = ...; ws_send_(msg.dump()); }] *)
Definition send_json (msg : list (string * string)) : M () := λ c,
  (if ws_send_ c then text ← lift (json_dump (json_texts msg)); emit (WsSend text) else mret ()) c.

Section http.
(** The status and the body of the response to a POST. *)
Variable http_post : string → string → result (Z * string).

Definition login (args : list string) : M CommandResult :=
  match args with
  | user :: pass :: _ =>
      try (
        text ← lift (json_dump (json_texts [("userId", user); ("password", pass)]));
        '(status, body) ← lift (http_post "/api/auth/login" text);
        if negb (status =? 200) then fail ("login failed: " +:+ body) else
        j ← lift (match json_parse body with Some j => Ok j | None => Err (Thrown JsonError "parse_error") end);
        u ← lift (json_value j "userId" user);
        s ← session_of;
        set_session (mkSession u (jwt s) (turnConfig s) (call s) (record s));;
        t ← lift (json_value j "token" "");
        s ← session_of;
        set_session (mkSession (userId s) t (turnConfig s) (call s) (record s));;
        if str_empty t then fail "login failed: no token in response" else
        success ("logged in as " +:+ u))
      (λ _ what, fail ("login error: " +:+ what))
  | _ => fail "usage: login <userId> <password>"
  end.

Definition register_ (args : list string) : M CommandResult :=
  match args with
  | user :: pass :: _ =>
      try (
        text ← lift (json_dump (json_texts [("userId", user); ("password", pass)]));
        '(status, body) ← lift (http_post "/api/auth/register" text);
        if negb (status =? 200) && negb (status =? 201) then fail ("register failed: " +:+ body) else
        success ("registered as " +:+ user))
      (λ _ what, fail ("register error: " +:+ what))
  | _ => fail "usage: register <userId> <password>"
  end.
End http.

Definition call_ (args : list string) : M CommandResult :=
  match args with
  | [] => fail "usage: call <userId>"
  | callee :: _ =>
      s ← session_of;
      if negb (isLoggedIn s) then fail "not logged in" else
      if bool_decide (callee = userId s) then fail "cannot call yourself" else
      if isInCall s then fail "already in call" else
      let c := call s in
      set_session (with_call (mkCallContext (call_id c) callee AppState.Calling (muted c) true) s);;
      send_json [("type", "call.create"); ("to", callee)];;
      success ("calling " +:+ callee)
  end.

Definition accept (args : list string) : M CommandResult :=
  s ← session_of;
  if negb (bool_decide (call_state (call s) = AppState.Ringing)) then fail "no incoming call" else
  send_json [("type", "call.accept"); ("callId", call_id (call s))];;
  set_session (with_call (with_state AppState.InCall (call s)) s);;
  success "call accepted".

Definition reject (args : list string) : M CommandResult :=
  s ← session_of;
  if negb (bool_decide (call_state (call s) = AppState.Ringing)) then fail "no incoming call" else
  send_json [("type", "call.reject"); ("callId", call_id (call s))];;
  set_session (with_call no_call s);;
  success "call rejected".

Definition hangup (args : list string) : M CommandResult :=
  s ← session_of;
  if negb (isInCall s) then fail "not in call" else
  send_json [("type", "call.hangup"); ("callId", call_id (call s))];;
  set_session (with_call no_call s);;
  success "call ended".

Definition mute (args : list string) : M CommandResult :=
  s ← session_of;
  if negb (bool_decide (call_state (call s) = AppState.InCall)) then fail "not in call" else
  if muted (call s) then fail "already muted" else
  set_session (with_call (with_muted true (call s)) s);;
  success "muted".

Definition unmute (args : list string) : M CommandResult :=
  s ← session_of;
  if negb (bool_decide (call_state (call s) = AppState.InCall)) then fail "not in call" else
  if negb (muted (call s)) then fail "not muted" else
  set_session (with_call (with_muted false (call s)) s);;
  success "unmuted".

Definition newline : string := String "010"%char "".

Definition status_ (args : list string) : M CommandResult :=
  s ← session_of;
  success ("user:  " +:+ (if str_empty (userId s) then "(not logged in)" else userId s) +:+ newline
    +:+ "state: " +:+ toString (call_state (call s))
    +:+ (if isInCall s
         then newline +:+ "call:  " +:+ call_id (call s) +:+ newline +:+ "peer:  " +:+ remoteUser (call s)
              +:+ newline +:+ "muted: " +:+ (if muted (call s) then "yes" else "no")
         else "")).

(** [filename.size() >= 4 && filename.substr(filename.size() - 4) == ".wav"] *)
Definition is_wav (filename : string) : bool :=
  negb (String.length filename <? 4)%nat &&
  bool_decide (str_drop (String.length filename - 4) filename = ".wav").

Definition record_ (args : list string) : M CommandResult :=
  match args with
  | [] => fail "usage: record <filename.wav>"
  | filename :: _ =>
      s ← session_of;
      if active (record s) then fail "already recording, use stop first" else
      if negb (is_wav filename) then fail "only .wav format supported" else
      set_session (with_record (mkRecordContext true filename) s);;
      when capture_cb_ (CaptureSet true "");;
      success ("recording to " +:+ filename)
  end.

Definition stop (args : list string) : M CommandResult :=
  s ← session_of;
  if negb (active (record s)) then fail "not recording" else
  let file := filename (record s) in
  set_session (with_record no_record s);;
  when capture_cb_ (CaptureSet false file);;
  success ("saved to " +:+ file).

Definition sendfile (args : list string) : M CommandResult :=
  match args with
  | [] => fail "usage: sendfile <filename.wav>"
  | filename :: _ =>
      s ← session_of;
      if negb (isInCall s) then fail "not in call" else
      if negb (is_wav filename) then fail "only .wav format supported" else
      when sendfile_cb_ (SendFile filename);;
      success ("sending " +:+ filename)
  end.

Definition quit (args : list string) : M CommandResult :=
  s ← session_of;
  (if isInCall s
   then send_json [("type", "call.hangup"); ("callId", call_id (call s))];;
        set_session (with_call no_call s)
   else mret ());;
  set_quit;;
  success "bye".

(** ** The interpreter *)

Section repl.
Variable http_post : string → string → result (Z * string).

Definition dispatch (cmd : Command) : M CommandResult :=
  let cmd_is (n : string) := bool_decide (name cmd = n) in
  let a := args cmd in
  if cmd_is "login" then
    result ← login http_post a;
    (if ok result then emit LoggedIn else mret ());;
    mret result
  else if cmd_is "call" then call_ a
  else if cmd_is "accept" then accept a
  else if cmd_is "reject" then reject a
  else if cmd_is "hangup" then hangup a
  else if cmd_is "mute" then mute a
  else if cmd_is "unmute" then unmute a
  else if cmd_is "record" then record_ a
  else if cmd_is "register" then register_ http_post a
  else if cmd_is "stop" then stop a
  else if cmd_is "sendfile" then sendfile a
  else if cmd_is "status" then status_ a
  else if cmd_is "quit" || cmd_is "exit" then quit a
  else fail ("unknown command: " +:+ name cmd +:+
    " (try: login register call accept reject hangup mute unmute record stop sendfile status quit)").

Definition processLine (line : string) : M () :=
  if str_empty line then mret () else
  let cmd := parse line in
  if str_empty (name cmd) then mret () else
  result ← dispatch cmd;
  (if negb (str_empty (message result)) then emit (Printed (message result)) else mret ());;
  when quit_ ReplQuit.
End repl.
End commands.
