(* ===== verification/ClientMessages.v ===== *)
(** * Messages of the server to the client (src/client_cli/src/signaling/message_handler.cpp, main.cpp)

    [MessageHandler] updates the session; [on_message] and the other functions
    of main.cpp drive the peer connection and the audio, which are other
    libraries: they are the events.  What libdatachannel returns or throws when a
    connection is set up, and when it is given a call to start, a description or a
    candidate, are parameters; an exception takes the way it takes in the code,
    to the catch of the message callback or out of it.

    main.cpp owns the peer connection ([pc_alive]), the SDP and the ICE handler
    ([handlers_alive]), the capture and the playback ([audio_]) through pointers;
    the callbacks of the message handler, once set, stay ([rtc_callbacks]), and a
    call through a null pointer is undefined.  Starting a thread succeeds. *)

From Stdlib Require Import Ascii.
From S2P Require Export Cli.
From S2P Require Import Accounts.

Record Client := mkClient {
  cmds : Commands;
  pc_alive : bool;
  handlers_alive : bool;
  rtc_callbacks : bool;
  audio_ : bool;
  connected_ : bool;
  call_cleanup_done : bool;
}.

(** main.cpp installs the callbacks of the commands before anything runs. *)
Definition new_client : Client :=
  mkClient (mkCommands new_session false true true true) false false false false false false.

Definition client_session (c : Client) : Session := session_ (cmds c).

Section client.
Context `{Json}.
(** What [init] of a peer connection returns or throws, and what the library does
    when it is to start a call or gets a remote description or candidate. *)
Variable rtc_init : ClientTurn → result ().
Variable rtc_apply : ClientEvent → result ().

Abbreviation M := (eff Client ClientEvent).

Definition get_session : M Session := λ c, (Ok (client_session c), c, []).
Definition with_cmds (cs : Commands) (c : Client) : Client :=
  mkClient cs (pc_alive c) (handlers_alive c) (rtc_callbacks c) (audio_ c) (connected_ c) (call_cleanup_done c).

Definition put_session (s : Session) : M () := λ c,
  (Ok (), with_cmds (mkCommands s (quit_ (cmds c)) (ws_send_ (cmds c)) (capture_cb_ (cmds c)) (sendfile_cb_ (cmds c))) c,
   []).

(** The pointers of main.cpp. *)
Definition set_pc (pc handlers connected : bool) : M () := λ c,
  (Ok (), mkClient (cmds c) pc handlers (rtc_callbacks c) (audio_ c) connected (call_cleanup_done c), []).
Definition set_callbacks : M () := λ c,
  (Ok (), mkClient (cmds c) (pc_alive c) (handlers_alive c) true (audio_ c) (connected_ c) (call_cleanup_done c), []).
Definition set_audio : M () := λ c,
  (Ok (), mkClient (cmds c) (pc_alive c) (handlers_alive c) (rtc_callbacks c) true (connected_ c) (call_cleanup_done c), []).
Definition set_cleaned (b : bool) : M () := λ c,
  (Ok (), mkClient (cmds c) (pc_alive c) (handlers_alive c) (rtc_callbacks c) (audio_ c) (connected_ c) b, []).

(** An event that happens if a flag is set. *)
Definition if_set (flag : Client → bool) (e : ClientEvent) : M () := λ c,
  (if flag c then emit e else mret ()) c.

(** A command line typed by the user. *)
Definition type_line (http_post : string → string → result (Z * string)) (line : string) : M () := λ c,
  let '(r, cs, ev) := processLine http_post line (cmds c) in
  (r, with_cmds cs c, ev).

Definition print (line : string) : M () := emit (Printed line).

(** ** MessageHandler *)

Definition handleCallIncoming (msg : json) : M () :=
  callId ← lift (json_value msg "callId" "");
  from ← lift (json_value msg "from" "");
  s ← get_session;
  put_session (with_call (mkCallContext callId from AppState.Ringing (muted (call s)) false) s);;
  print ("incoming call from " +:+ from +:+ " (callId: " +:+ callId +:+ ")" +:+ newline
    +:+ "type 'accept' or 'reject'").

Definition handleCallCreated (msg : json) : M () :=
  callId ← lift (json_value msg "callId" "");
  s ← get_session;
  let c := call s in
  put_session (with_call (mkCallContext callId (remoteUser c) (call_state c) (muted c) (is_caller c)) s);;
  print ("[call] created, callId: " +:+ callId).

Definition handleCallEnded (msg : json) : M () :=
  reason ← lift (json_value msg "reason" "unknown");
  s ← get_session;
  put_session (with_call no_call s);;
  print ("[call] ended, reason: " +:+ reason).

Definition handleCallFailed (msg : json) : M () :=
  reason ← lift (json_value msg "reason" "unknown");
  s ← get_session;
  put_session (with_call no_call s);;
  print ("[call] failed: " +:+ reason).

Definition set_turn (t : ClientTurn) : M () :=
  s ← get_session;
  put_session (mkSession (userId s) (jwt s) t (call s) (record s)).

(** The loop over the urls of a server. *)
Fixpoint read_urls (urls : list json) : M () :=
  match urls with
  | [] => mret ()
  | url :: urls =>
      u ← lift (to_text url);
      s ← get_session;
      let t := turnConfig s in
      (if str_prefix "turn:" u && negb (str_contains "turns:" u)
       then set_turn (mkClientTurn u (turnsUrl t) (turn_username t) (turn_credential t))
       else if str_prefix "turns:" u
       then set_turn (mkClientTurn (turnUrl t) u (turn_username t) (turn_credential t))
       else mret ());;
      read_urls urls
  end.

(** The loop over the servers; [server["urls"]] of a const object without that
    member is undefined. *)
Fixpoint read_servers (servers : list json) : M () :=
  match servers with
  | [] => mret ()
  | server :: servers =>
      match json_get server "username" with
      | None => read_servers servers
      | Some _ =>
          match json_get server "urls" with
          | None => lift (Err Undefined)
          | Some urls =>
              read_urls (json_items urls);;
              username ← lift (json_value server "username" "");
              s ← get_session;
              let t := turnConfig s in
              set_turn (mkClientTurn (turnUrl t) (turnsUrl t) username (turn_credential t));;
              credential ← lift (json_value server "credential" "");
              s ← get_session;
              let t := turnConfig s in
              set_turn (mkClientTurn (turnUrl t) (turnsUrl t) (turn_username t) credential);;
              read_servers servers
          end
      end
  end.

Definition handleRtcConfig (msg : json) : M () :=
  match json_get msg "iceServers" ≫= json_elems with
  | None => print "[error] rtc.config missing iceServers"
  | Some [] => print "[error] rtc.config empty iceServers"
  | Some servers =>
      read_servers servers;;
      s ← get_session;
      print ("[rtc] config received, turn: " +:+ turnUrl (turnConfig s))
  end.

(** ** SdpHandler and IceHandler *)

(** A method of the peer connection that hands its argument to the library; the
    callbacks that use a handler dereference it first. *)
Definition through_handler (e : ClientEvent) : M () :=
  c ← get;
  if handlers_alive c then (emit e;; lift (rtc_apply e)) else lift (Err Undefined).

Definition startCall : M () := through_handler RtcStartCall.

Definition handleOffer (sdp : string) : M () := through_handler (RtcOffer sdp).

Definition handleAnswer (sdp : string) : M () :=
  through_handler (RtcAnswer sdp);;
  print "[rtc] answer applied".

Definition handleRemoteCandidate (candidate mid : string) (mlineindex : Z) : M () :=
  through_handler (RtcCandidate candidate mid mlineindex).

Definition ws_send (msg : json) : M () :=
  text ← lift (json_dump msg);
  emit (WsSend text).

(** The descriptions and the candidates the library makes ([setupCallbacks] of
    PeerConnection with the callbacks of the two handlers). *)
Inductive Description := Offer | Answer | OtherDescription.

Definition onLocalDescription (type : Description) (sdp : string) : M () :=
  c ← get;
  if negb (handlers_alive c) then mret () else
  let call := call_id (call (client_session c)) in
  match type with
  | Offer =>
      ws_send (json_texts [("type", "webrtc.offer"); ("callId", call); ("sdp", sdp)]);;
      print "[rtc] offer sent"
  | Answer =>
      ws_send (json_texts [("type", "webrtc.answer"); ("callId", call); ("sdp", sdp)]);;
      print "[rtc] answer sent"
  | OtherDescription => mret ()
  end.

Definition onLocalCandidate (candidate mid : string) : M () :=
  c ← get;
  if negb (handlers_alive c) then mret () else
  ws_send (json_object [("type", json_str "webrtc.ice"); ("callId", json_str (call_id (call (client_session c))));
    ("candidate", json_str candidate); ("mid", json_str mid); ("mlineindex", json_int 0)]).

(** ** MessageHandler, the messages of the other party *)

Definition handleWebrtcOffer (msg : json) : M () :=
  match json_get msg "sdp" with
  | None => print "[error] webrtc.offer missing sdp"
  | Some sdp =>
      s ← get_session;
      if is_caller (call s) then mret () else
      c ← get;
      if rtc_callbacks c then (sdp ← lift (to_text sdp); handleOffer sdp)
      else print "[warn] webrtc.offer received but no handler (etap 3)"
  end.

Definition handleWebrtcAnswer (msg : json) : M () :=
  match json_get msg "sdp" with
  | None => print "[error] webrtc.answer missing sdp"
  | Some sdp =>
      s ← get_session;
      if negb (is_caller (call s)) then mret () else
      c ← get;
      if rtc_callbacks c then (sdp ← lift (to_text sdp); handleAnswer sdp)
      else print "[warn] webrtc.answer received but no handler (etap 3)"
  end.

Definition handleWebrtcIce (msg : json) : M () :=
  match json_get msg "candidate" with
  | None => print "[error] webrtc.ice missing candidate"
  | Some candidate =>
      c ← get;
      if rtc_callbacks c then
        candidate ← lift (to_text candidate);
        mid ← lift (json_value msg "mid" "");
        mlineindex ← lift (match json_get msg "mlineindex" with
          | None => Ok 0
          | Some v => match json_number v with Some n => Ok n | None => Err (Thrown JsonError (json_error v)) end
          end);
        handleRemoteCandidate candidate mid mlineindex
      else print "[warn] webrtc.ice received but no handler (etap 3)"
  end.

Definition handleError (msg : json) : M () :=
  unknown ← lift (json_value msg "error" "unknown error");
  error ← lift (json_value msg "message" unknown);
  print ("[server error] " +:+ error).

Definition handle (raw : string) : M () :=
  match json_parse raw with
  | None => print "[error] invalid json from server"
  | Some msg =>
      match json_field msg "type" with
      | None => print "[error] missing type in server message"
      | Some type =>
          let type_is (t : string) := bool_decide (type = t) in
          if type_is "call.incoming" then handleCallIncoming msg
          else if type_is "call.created" then handleCallCreated msg
          else if type_is "call.ended" then handleCallEnded msg
          else if type_is "call.failed" then handleCallFailed msg
          else if type_is "rtc.config" then handleRtcConfig msg
          else if type_is "webrtc.offer" then handleWebrtcOffer msg
          else if type_is "webrtc.answer" then handleWebrtcAnswer msg
          else if type_is "webrtc.ice" then handleWebrtcIce msg
          else if type_is "error" then handleError msg
          else print ("[warn] unknown message type: " +:+ type)
      end
  end.

(** ** main.cpp *)

Definition stopAudio : M () :=
  if_set audio_ CaptureStop;;
  if_set audio_ PlaybackStop.

(** Closing and dropping the connection and its handlers. *)
Definition drop_pc : M () :=
  if_set pc_alive RtcClose;;
  set_pc false false false.

Definition cleanupCall : M () :=
  c ← get;
  set_cleaned true;;
  if call_cleanup_done c then mret () else
  stopAudio;;
  drop_pc;;
  s ← get_session;
  put_session (with_call no_call s).

(** The assignments of a new capture and a new playback destroy, hence stop, the
    old ones. *)
Definition initRtc : M () :=
  set_cleaned false;;
  drop_pc;;
  set_pc true false false;;
  s ← get_session;
  _ ← lift (rtc_init (turnConfig s));
  emit (RtcInit (turnConfig s));;
  set_pc true true false;;
  set_callbacks;;
  if_set audio_ CaptureStop;;
  emit CaptureStart;;
  if_set audio_ PlaybackStop;;
  set_audio.

(** The try block of the message callback; it returns whether the message is
    dealt with. *)
Definition on_message_try (raw : string) : M bool :=
  j ← lift (match json_parse raw with Some j => Ok j | None => Err (Thrown JsonError "parse_error") end);
  type ← lift (json_value j "type" "");
  if bool_decide (type = "error") then
    handle raw;;
    s ← get_session;
    (if bool_decide (call_state (call s) = AppState.Calling) then cleanupCall else mret ());;
    mret true
  else if bool_decide (type = "rtc.config") then
    handle raw;;
    initRtc;;
    s ← get_session;
    (if bool_decide (call_state (call s) = AppState.Calling) then startCall else mret ());;
    mret true
  else if bool_decide (type = "call.ended") || bool_decide (type = "call.failed") then
    handle raw;;
    cleanupCall;;
    mret true
  else mret false.

Definition on_message (raw : string) : M () :=
  dealt ← try (on_message_try raw) (λ _ _, mret false);
  if (dealt : bool) then mret () else handle raw.

(** ws_client.onClose *)
Definition on_close : M () :=
  print "[ws] disconnected";;
  s ← get_session;
  if isInCall s then cleanupCall;; print "[call] ended, reason: server disconnected" else mret ().

(** ** PeerConnection::handleStateChange, with the callback of main.cpp *)

Inductive PcState := PcConnecting | PcConnected | PcFailed | PcDisconnected | PcClosed | PcOther.

Definition set_connected (b : bool) : M () := λ c,
  (Ok (), mkClient (cmds c) (pc_alive c) (handlers_alive c) (rtc_callbacks c) (audio_ c) b (call_cleanup_done c), []).

Definition on_failed : M () :=
  s ← get_session;
  (if negb (str_empty (call_id (call s))) then
     text ← lift (json_dump (json_texts [("type", "call.hangup"); ("callId", call_id (call s))]));
     emit (WsSend text)
   else mret ());;
  cleanupCall.

Definition handleStateChange (state : PcState) : M () :=
  match state with
  | PcConnecting => print "[rtc] connecting..."
  | PcConnected =>
      set_connected true;;
      s ← get_session;
      put_session (with_call (with_state AppState.InCall (call s)) s);;
      print "[rtc] connected"
  | PcFailed =>
      set_connected false;;
      print "[rtc] failed — use 'hangup' and call again";;
      on_failed
  | PcDisconnected =>
      set_connected false;;
      s ← get_session;
      put_session (with_call no_call s);;
      print "[rtc] disconnected"
  | PcClosed => set_connected false
  | PcOther => mret ()
  end.
End client.
