(* ===== verification/CallSetup.v ===== *)
(** * Setting up a call, from command line to command line

    The two clients, the signaling server and the TURN server's credential
    check together: a user types [call], the other one types [accept], and every
    text that is sent is delivered. *)

From Stdlib Require Import Ascii.
From S2P Require Export ClientMessages SignalingSafety.
From S2P Require Import Credentials Auth.

#[local] Existing Instances ToyOpenSSL ToyOpenSSLSpec ToyJson ToyJsonSpec ToySqlite ToySqliteSpec ToyJwt ToyJwtSpec.

(** A word of a command line. *)
Definition word (s : string) : Prop := s ≠ "" ∧ ∀ c, str_in c s → is_space c = false.

(** The texts a client sends. *)
Definition sends (evs : list ClientEvent) : list string :=
  omap (λ e, match e with WsSend t => Some t | _ => None end) evs.

(** ** Lemmas *)

Lemma sends_app l1 l2 : sends (l1 ++ l2) = sends l1 ++ sends l2.
Proof. apply omap_app. Qed.

Lemma tokens_word w cur : (∀ c, str_in c w → is_space c = false) →
  tokens w cur = if str_empty (cur +:+ w) then [] else [cur +:+ w].
Proof.
  revert cur. induction w as [|c w IH]; intros cur Hw; cbn [tokens]; [by rewrite str_app_nil_r|].
  rewrite Hw by (by left). rewrite IH by (intros; apply Hw; by right).
  by rewrite str_app_assoc.
Qed.

Lemma parse_call w : word w → Cli.parse ("call " +:+ w) = mkCommand "call" [w].
Proof.
  intros [Hne Hw]. unfold Cli.parse.
  assert (E : tokens ("call " +:+ w) "" = "call" :: tokens w "") by done. rewrite E, tokens_word by done.
  by destruct w.
Qed.

Section facts.
Context `{OpenSSLSpec, JsonSpec, !IterOrder string CallSession}.
Variable rtc_init : ClientTurn → result ().
Variable rtc_apply : ClientEvent → result ().

(** *** Lemmas on the effects *)

Lemma bind_session {A} (f : Session → eff Client ClientEvent A) c :
  (get_session ≫= f) c = f (client_session c) c.
Proof. unfold mbind, eff_bind, get_session. by destruct (f _ c) as [[? ?] ?]. Qed.

Lemma bind_client {A} (f : Client → eff Client ClientEvent A) c : (get ≫= f) c = f c c.
Proof. unfold mbind, eff_bind, get. by destruct (f c c) as [[? ?] ?]. Qed.

Lemma through_handler_eq e c : handlers_alive c = true → through_handler rtc_apply e c = (rtc_apply e, c, [e]).
Proof.
  intros Ha. unfold through_handler, mbind, eff_bind, get, emit, lift. rewrite Ha. by destruct (rtc_apply e).
Qed.

Lemma bind_through {A} c e (f : () → eff Client ClientEvent A) : handlers_alive c = true →
  (through_handler rtc_apply e ≫= f) c =
    match rtc_apply e with Ok u => let '(r, c', l) := f u c in (r, c', e :: l) | Err x => (Err x, c, [e]) end.
Proof. intros Ha. unfold mbind, eff_bind. rewrite through_handler_eq by done. by destruct (rtc_apply e). Qed.

Lemma wp_try {S E A} (m : eff S E A) h Q s : wp m Q s → wp (try m h) Q s.
Proof. unfold wp, try. by destruct (m s) as [[[a|e] s'] l]. Qed.

Lemma wp_get_session c (Q : Session → Client → list ClientEvent → Prop) :
  Q (client_session c) c [] → wp get_session Q c.
Proof. done. Qed.

Definition with_session (s : Session) (c : Client) : Client :=
  with_cmds (mkCommands s (quit_ (cmds c)) (ws_send_ (cmds c)) (capture_cb_ (cmds c)) (sendfile_cb_ (cmds c))) c.

Lemma wp_put_session s c (Q : () → Client → list ClientEvent → Prop) :
  Q () (with_session s c) [] → wp (put_session s) Q c.
Proof. done. Qed.

Lemma texts_get_cons k v l k' : json_get (json_texts ((k, v) :: l)) k' =
  if String.eqb k k' then Some (json_str v) else json_get (json_texts l) k'.
Proof. apply get_cons. Qed.

Lemma value_str j k v d : json_is_object j = true → json_get j k = Some (json_str v) → json_value j k d = Ok v.
Proof. unfold json_value, to_text. intros -> ->. by rewrite string_str. Qed.

Lemma texts_is_object l : json_is_object (json_texts l) = true.
Proof. apply object_is_object. Qed.

Lemma field_str j k v : json_get j k = Some (json_str v) → json_field j k = Some v.
Proof. unfold json_field. intros ->. apply string_str. Qed.

(** A message that the callback of main.cpp only hands on. *)
Lemma wp_on_message j type c Q : json_ok j → json_is_object j = true → json_get j "type" = Some (json_str type) →
  type ∉ ["error"; "rtc.config"; "call.ended"; "call.failed"] →
  wp (ClientMessages.handle rtc_apply (text_of j)) Q c → wp (on_message rtc_init rtc_apply (text_of j)) Q c.
Proof.
  intros Hj Hobj Ht Hne Hh. destruct (text_of_ok j Hj) as [_ Hp]. unfold on_message. wp_step.
  apply wp_try. unfold on_message_try. rewrite Hp. wp_step. wp_step.
  rewrite (value_str j "type" type) by done. wp_step. wp_step.
  rewrite !bool_decide_false by set_solver. cbn [orb]. by wp_step.
Qed.
(** *** Typed lines *)

Lemma wp_type_line http line c (Q : () → Client → list ClientEvent → Prop) :
  wp (processLine http line) (λ a cs ev, Q a (with_cmds cs c) ev) (cmds c) → wp (type_line http line) Q c.
Proof. unfold wp, type_line. by destruct (processLine http line (cmds c)) as [[[a|e] s'] l]. Qed.

Lemma wp_send_json msg cs (Q : () → Commands → list ClientEvent → Prop) :
  json_ok (json_texts msg) → ws_send_ cs = true → Q () cs [WsSend (text_of (json_texts msg))] →
  wp (send_json msg) Q cs.
Proof.
  intros Hj Hs HQ. unfold send_json, wp. rewrite Hs. destruct (text_of_ok _ Hj) as [-> _].
  rewrite bind_lift. exact HQ.
Qed.

Definition create_msg (callee : string) : list (string * string) := [("type", "call.create"); ("to", callee)].
Definition accept_msg (call : string) : list (string * string) := [("type", "call.accept"); ("callId", call)].

Lemma wp_session_of cs (Q : Session → Commands → list ClientEvent → Prop) :
  Q (session_ cs) cs [] → wp session_of Q cs.
Proof. done. Qed.

Definition put_in (s : Session) (cs : Commands) : Commands :=
  mkCommands s (quit_ cs) (ws_send_ cs) (capture_cb_ cs) (sendfile_cb_ cs).

Lemma wp_set_session s cs (Q : () → Commands → list ClientEvent → Prop) :
  Q () (put_in s cs) [] → wp (set_session s) Q cs.
Proof. done. Qed.

Lemma dispatch_call http a : dispatch http (mkCommand "call" a) = call_ a.
Proof. done. Qed.
Lemma dispatch_accept http : dispatch http (mkCommand "accept" []) = Cli.accept [].
Proof. done. Qed.

(** The end of a line: the answer is printed. *)
Lemma wp_answer_line (r : CommandResult) cs (Q : () → Commands → list ClientEvent → Prop) :
  message r ≠ "" → quit_ cs = false → Q () cs [Printed (message r)] →
  wp ((if negb (str_empty (message r)) then emit (Printed (message r)) else mret ());; when quit_ ReplQuit) Q cs.
Proof.
  intros Hm Hq HQ. destruct (message r) as [|ch m]; [done|]. cbn [str_empty negb]. wp_step. wp_step.
  unfold when, wp. rewrite Hq. exact HQ.
Qed.

Lemma wp_type_call http c callee (Q : () → Client → list ClientEvent → Prop) :
  let s := client_session c in
  word callee → text_ok callee → isLoggedIn s = true → userId s ≠ callee → isInCall s = false →
  ws_send_ (cmds c) = true → quit_ (cmds c) = false →
  (∀ evs, sends evs = [text_of (json_texts (create_msg callee))] →
    Q () (with_session (with_call (mkCallContext (call_id (call s)) callee AppState.Calling
      (muted (call s)) true) s) c) evs) →
  wp (type_line http ("call " +:+ callee)) Q c.
Proof.
  intros s Hw Ht Hlog Hne Hidle Hsend Hquit HQ. apply wp_type_line. unfold processLine.
  cbn [str_empty String.append]. change (String "c" _) with ("call " +:+ callee). rewrite parse_call by done.
  cbn [name str_empty]. rewrite dispatch_call. wp_step. unfold call_. wp_step.
  apply wp_session_of. fold (client_session c). fold s.
  rewrite Hlog, Hidle. cbn [negb]. rewrite bool_decide_false by done.
  wp_step. apply wp_set_session. wp_step. apply wp_send_json; [|done|].
  { apply texts_ok. repeat constructor; try done; text_lit. }
  unfold success. wp_step. apply wp_answer_line; [done|done|]. apply HQ. done.
Qed.

Lemma wp_type_accept http c (Q : () → Client → list ClientEvent → Prop) :
  let s := client_session c in
  call_state (call s) = AppState.Ringing → text_ok (call_id (call s)) →
  ws_send_ (cmds c) = true → quit_ (cmds c) = false →
  (∀ evs, sends evs = [text_of (json_texts (accept_msg (call_id (call s))))] →
    Q () (with_session (with_call (with_state AppState.InCall (call s)) s) c) evs) →
  wp (type_line http "accept") Q c.
Proof.
  intros s Hst Ht Hsend Hquit HQ. apply wp_type_line. unfold processLine. cbn [str_empty].
  change (Cli.parse "accept") with (mkCommand "accept" []). cbn [name str_empty]. rewrite dispatch_accept.
  wp_step. unfold Cli.accept. wp_step. apply wp_session_of. fold (client_session c). fold s.
  rewrite bool_decide_true by done. cbn [negb]. wp_step. apply wp_send_json; [|done|].
  { apply texts_ok. repeat constructor; try done; text_lit. }
  wp_step. apply wp_set_session. unfold success. wp_step. apply wp_answer_line; [done|done|]. by apply HQ.
Qed.
(** *** Messages of the server *)

Definition created_msg (id : string) : json := json_texts [("type", "call.created"); ("callId", id)].
Definition incoming_msg (id from : string) : json :=
  json_texts [("type", "call.incoming"); ("callId", id); ("from", from)].

#[local] Ltac done_get := unfold created_msg, incoming_msg; rewrite ?texts_get_cons; reflexivity.

Lemma created_ok id : text_ok id → json_ok (created_msg id).
Proof. intros. apply texts_ok. repeat constructor; try done; text_lit. Qed.
Lemma incoming_ok id u : text_ok id → text_ok u → json_ok (incoming_msg id u).
Proof. intros. apply texts_ok. repeat constructor; try done; text_lit. Qed.

(** A message of a known type reaches its handler. *)
Lemma wp_handle j type (m : eff Client ClientEvent ()) c Q : json_ok j → json_get j "type" = Some (json_str type) →
  (∀ raw, json_parse raw = Some j → json_field j "type" = Some type → ClientMessages.handle rtc_apply raw = m) →
  wp m Q c → wp (ClientMessages.handle rtc_apply (text_of j)) Q c.
Proof.
  intros Hj Ht Hm. destruct (text_of_ok j Hj) as [_ Hp]. by rewrite (Hm _ Hp (field_str _ _ _ Ht)).
Qed.

Lemma wp_created id c (Q : () → Client → list ClientEvent → Prop) :
  let s := client_session c in let cc := call s in text_ok id →
  (∀ evs, sends evs = [] → Q () (with_session (with_call (mkCallContext id (remoteUser cc) (call_state cc)
     (muted cc) (is_caller cc)) s) c) evs) →
  wp (on_message rtc_init rtc_apply (text_of (created_msg id))) Q c.
Proof.
  intros s cc Hid HQ. pose proof (created_ok id Hid) as Hj.
  apply (wp_on_message _ "call.created"); [done|apply texts_is_object|done_get|set_solver|].
  apply (wp_handle _ "call.created" (handleCallCreated (created_msg id))); [done|done_get| |].
  { intros raw Hp Ht. unfold ClientMessages.handle. by rewrite Hp, Ht. }
  unfold handleCallCreated. wp_step.
  rewrite (value_str _ _ id) by (apply texts_is_object || done_get).
  wp_step. wp_step. apply wp_get_session. fold s. wp_step. apply wp_put_session. unfold print. wp_step.
  by apply HQ.
Qed.

Lemma wp_incoming id from c (Q : () → Client → list ClientEvent → Prop) :
  let s := client_session c in text_ok id → text_ok from →
  (∀ evs, sends evs = [] → Q () (with_session (with_call (mkCallContext id from AppState.Ringing
     (muted (call s)) false) s) c) evs) →
  wp (on_message rtc_init rtc_apply (text_of (incoming_msg id from))) Q c.
Proof.
  intros s Hid Hf HQ. pose proof (incoming_ok id from Hid Hf) as Hj.
  apply (wp_on_message _ "call.incoming"); [done|apply texts_is_object|done_get|set_solver|].
  apply (wp_handle _ "call.incoming" (handleCallIncoming (incoming_msg id from))); [done|done_get| |].
  { intros raw Hp Ht. unfold ClientMessages.handle. by rewrite Hp, Ht. }
  unfold handleCallIncoming. wp_step.
  rewrite (value_str _ _ id) by (apply texts_is_object || done_get). wp_step. wp_step.
  rewrite (value_str _ _ from) by (apply texts_is_object || done_get). wp_step. wp_step.
  apply wp_get_session. fold s. wp_step. apply wp_put_session. unfold print. wp_step. by apply HQ.
Qed.

(** The credentials a client reads from a configuration. *)
Lemma wp_set_turn t c (Q : () → Client → list ClientEvent → Prop) :
  let s := client_session c in
  Q () (with_session (mkSession (userId s) (jwt s) t (call s) (record s)) c) [] → wp (set_turn t) Q c.
Proof. done. Qed.

(** A change of the TURN configuration only, and nothing sent. *)
Definition turn_set (c : Client) (t : ClientTurn) : Client :=
  with_session (mkSession (userId (client_session c)) (jwt (client_session c)) t
    (call (client_session c)) (record (client_session c))) c.

Lemma turn_set_set c t t' : turn_set (turn_set c t) t' = turn_set c t'.
Proof. done. Qed.
Lemma turn_set_same c : turn_set c (turnConfig (client_session c)) = c.
Proof. by destruct c as [[[] ? ? ? ?] ? ? ? ?]. Qed.

(** What a url of a configuration changes. *)
Definition turn_url (t : ClientTurn) (u : string) : ClientTurn :=
  if str_prefix "turn:" u && negb (str_contains "turns:" u)
  then mkClientTurn u (turnsUrl t) (turn_username t) (turn_credential t)
  else if str_prefix "turns:" u
  then mkClientTurn (turnUrl t) u (turn_username t) (turn_credential t)
  else t.

Lemma wp_read_urls us c (Q : () → Client → list ClientEvent → Prop) :
  Q () (turn_set c (foldl turn_url (turnConfig (client_session c)) us)) [] → wp (read_urls (json_str <$> us)) Q c.
Proof.
  revert c Q. induction us as [|u us IH]; intros c Q HQ; cbn [fmap list_fmap read_urls foldl].
  { wp_step. by rewrite <-(turn_set_same c). }
  unfold to_text. rewrite string_str. wp_step. wp_step. wp_step. apply wp_get_session. wp_step.
  cbn [foldl] in HQ. unfold turn_url at 2 in HQ.
  destruct (str_prefix "turn:" u && _); [|destruct (str_prefix "turns:" u)].
  - apply wp_set_turn. by apply IH.
  - apply wp_set_turn. by apply IH.
  - wp_step. by apply IH.
Qed.

(** What the configuration made for [u] at [now] makes of the one before. *)
Definition config_urls (cfg : TurnConfig) : list string :=
  ["turn:" +:+ host cfg +:+ ":" +:+ to_string (port_plain cfg); "turns:" +:+ host cfg +:+ ":" +:+ to_string (port_tls cfg)].
Definition config_turn (cfg : TurnConfig) (now : Z) (u : string) (t : ClientTurn) : ClientTurn :=
  let t := foldl turn_url t (config_urls cfg) in
  mkClientTurn (turnUrl t) (turnsUrl t) (rtc_username cfg now u) (rtc_password cfg (rtc_username cfg now u)).

(** Reading it once more changes nothing. *)
Lemma config_turn_again cfg now u t : config_turn cfg now u (config_turn cfg now u t) = config_turn cfg now u t.
Proof.
  unfold config_turn, config_urls. cbn [foldl]. unfold turn_url.
  set (u1 := "turn:" +:+ _). set (u2 := "turns:" +:+ _).
  destruct (str_prefix "turn:" u1 && _), (str_prefix "turns:" u1), (str_prefix "turn:" u2 && _),
    (str_prefix "turns:" u2); reflexivity.
Qed.

Lemma wp_read_servers cfg now u c (Q : () → Client → list ClientEvent → Prop) :
  Q () (turn_set c (config_turn cfg now u (turnConfig (client_session c)))) [] →
  wp (read_servers [json_object [("urls", turn_urls cfg); ("username", json_str (rtc_username cfg now u));
      ("credential", json_str (rtc_password cfg (rtc_username cfg now u)))]]) Q c.
Proof.
  intros HQ. cbn [read_servers]. rewrite !get_cons. cbn [String.eqb Ascii.eqb Bool.eqb].
  wp_step. rewrite (items_elems _ (json_str <$> config_urls cfg)) by apply elems_list.
  apply wp_read_urls. wp_step.
  rewrite (value_str _ _ (rtc_username cfg now u)) by (apply object_is_object || by rewrite !get_cons).
  wp_step. wp_step. apply wp_get_session. wp_step. apply wp_set_turn. wp_step.
  rewrite (value_str _ _ (rtc_password cfg (rtc_username cfg now u)))
    by (apply object_is_object || by rewrite !get_cons).
  wp_step. wp_step. apply wp_get_session. wp_step. apply wp_set_turn. wp_step. exact HQ.
Qed.

Lemma wp_modify f (m : eff Client ClientEvent ()) c (Q : () → Client → list ClientEvent → Prop) :
  m = (λ c, (Ok (), f c, [])) → Q () (f c) [] → wp m Q c.
Proof. by intros ->. Qed.

Lemma wp_if_set (flag : Client → bool) (e : ClientEvent) c (Q : () → Client → list ClientEvent → Prop) :
  Q () c (if flag c then [e] else []) → wp (if_set flag e) Q c.
Proof. unfold wp, if_set. by destruct (flag c). Qed.

(** A client handles the configuration, which it may do twice. *)
Lemma handle_config cfg now u id c : cfg_ok cfg → text_ok u → text_ok id →
  ∃ line, ClientMessages.handle rtc_apply (text_of (rtc_msg cfg now u id)) c =
    (Ok (), turn_set c (config_turn cfg now u (turnConfig (client_session c))), [Printed line]).
Proof.
  intros Hcfg Hu Hid. pose proof (rtc_msg_ok cfg now u id Hcfg Hu Hid) as Hj.
  set (Q := λ (_ : ()) c' ev, c' = turn_set c (config_turn cfg now u (turnConfig (client_session c))) ∧
    ∃ line, ev = [Printed line]).
  assert (W : wp (ClientMessages.handle rtc_apply (text_of (rtc_msg cfg now u id))) Q c).
  { apply (wp_handle _ "rtc.config" (handleRtcConfig (rtc_msg cfg now u id))); [done|unfold rtc_msg; by rewrite !get_cons| |].
    { intros raw Hraw Hty. unfold ClientMessages.handle. by rewrite Hraw, Hty. }
    unfold handleRtcConfig.
    assert (Hs : json_get (rtc_msg cfg now u id) "iceServers" ≫= json_elems = Some [json_object [("urls", turn_urls cfg);
        ("username", json_str (rtc_username cfg now u));
        ("credential", json_str (rtc_password cfg (rtc_username cfg now u)))]])
      by (unfold rtc_msg; rewrite !get_cons; apply elems_list).
    rewrite Hs. wp_step. apply wp_read_servers. wp_step. apply wp_get_session. unfold print. wp_step.
    split; [done|by eexists]. }
  destruct (wp_run _ _ _ W) as ([]&?&?&E&->&line&->). by exists line.
Qed.

(** The client after a configuration: with the peer connection set up and the
    audio running, or with a connection that could not be set up. *)
Definition rtc_ready (c : Client) (t : ClientTurn) : Client :=
  mkClient (cmds (turn_set c t)) true true true true false false.
Definition rtc_failed (c : Client) (t : ClientTurn) : Client :=
  mkClient (cmds (turn_set c t)) true false (rtc_callbacks c) (audio_ c) false false.

Definition init_events (c : Client) (t : ClientTurn) : list ClientEvent :=
  (if pc_alive c then [RtcClose] else []) ++ RtcInit t :: (if audio_ c then [CaptureStop] else []) ++ CaptureStart ::
  (if audio_ c then [PlaybackStop] else []).

Lemma initRtc_eq c : let t := turnConfig (client_session c) in
  initRtc rtc_init c = match rtc_init t with
    | Ok _ => (Ok (), rtc_ready c t, init_events c t)
    | Err e => (Err e, rtc_failed c t, if pc_alive c then [RtcClose] else [])
    end.
Proof.
  cbv zeta. unfold rtc_ready, rtc_failed. rewrite turn_set_same. destruct c as [[s q w cc sf] pc ha cb au co cl].
  unfold client_session, initRtc, drop_pc, init_events. unfold mbind, eff_bind, lift.
  cbn. destruct pc, au; cbn; destruct (rtc_init (turnConfig s)) as [[]|e]; reflexivity.
Qed.

(** What the library answers: it returns, or throws an exception. *)
Definition library_answers : Prop :=
  (∀ t, ends throws (rtc_init t)) ∧ (∀ e, ends throws (rtc_apply e)).

(** A client that gets a configuration is at its end or in the catch. *)
Lemma config_tried cfg now u id c : cfg_ok cfg → text_ok u → text_ok id → library_answers →
  let t := config_turn cfg now u (turnConfig (client_session c)) in
  ∃ r c' evs, on_message_try rtc_init rtc_apply (text_of (rtc_msg cfg now u id)) c = (r, c', evs) ∧
    sends evs = [] ∧ (r = Ok true ∨ ∃ k what, r = Err (Thrown k what)) ∧
    match rtc_init t with
    | Ok _ => c' = rtc_ready c t ∧ RtcInit t ∈ evs ∧
        (RtcStartCall ∈ evs ↔ call_state (call (client_session c)) = AppState.Calling)
    | Err _ => c' = rtc_failed c t ∧ RtcStartCall ∉ evs
    end.
Proof.
  intros Hcfg Hu Hid [Hinit Happly] t. pose proof (rtc_msg_ok cfg now u id Hcfg Hu Hid) as Hj.
  destruct (text_of_ok _ Hj) as [_ Hp]. destruct (handle_config cfg now u id c Hcfg Hu Hid) as [line Eh]. fold t in Eh.
  unfold on_message_try. rewrite Hp, bind_lift, (value_str _ _ "rtc.config")
    by (apply object_is_object || (unfold rtc_msg; by rewrite !get_cons)).
  rewrite bind_lift. cbn [bool_decide]. rewrite bool_decide_false, bool_decide_true by done.
  rewrite (bind_Ok _ _ _ _ _ _ Eh).
  pose proof (initRtc_eq (turn_set c t)) as Ei. cbv zeta in Ei.
  change (turnConfig (client_session (turn_set c t))) with t in Ei.
  specialize (Hinit t). destruct (rtc_init t) as [[]|[| |k what]]; [|done|done|].
  2:{ unfold mbind at 1, eff_bind at 1. rewrite Ei. do 3 eexists. split; [reflexivity|].
      change (pc_alive (turn_set c t)) with (pc_alive c). split; [by destruct (pc_alive c)|].
      split; [right; by do 2 eexists|]. split; [done|]. destruct (pc_alive c); set_solver. }
  rewrite (bind_Ok _ _ _ _ _ _ Ei), bind_session.
  change (rtc_ready (turn_set c t) t) with (rtc_ready c t).
  change (call (client_session (rtc_ready c t))) with (call (client_session c)).
  assert (Hev : sends (init_events (turn_set c t) t) = [] ∧ RtcInit t ∈ init_events (turn_set c t) t ∧
    RtcStartCall ∉ init_events (turn_set c t) t)
    by (unfold init_events; destruct (pc_alive _), (audio_ _); split; [done|set_solver|done|set_solver..]).
  destruct Hev as (Hs&Hi&Hn). case_bool_decide as Hc.
  - unfold startCall. rewrite (bind_through (rtc_ready c t) RtcStartCall) by done.
    specialize (Happly RtcStartCall). destruct (rtc_apply RtcStartCall) as [[]|[| |k what]]; [|done|done|].
    + do 3 eexists. split; [reflexivity|]. rewrite !sends_app, Hs. split; [done|]. split; [by left|]. split; [done|]. set_solver.
    + do 3 eexists. split; [reflexivity|]. rewrite !sends_app, Hs. split; [done|]. split; [right; by do 2 eexists|].
      split; [done|]. set_solver.
  - rewrite (bind_Ok (mret ()) _ () _ _ [] eq_refl). do 3 eexists. split; [reflexivity|]. rewrite !sends_app, Hs.
    split; [done|]. split; [by left|]. split; [done|]. set_solver.
Qed.
End facts.

(** ** Property *)

(** A client that is logged in as [u], connected, and in no call. *)
Record ready (u : string) (c : Client) : Prop := {
  ready_user : userId (client_session c) = u;
  ready_login : isLoggedIn (client_session c) = true;
  ready_idle : isInCall (client_session c) = false;
  ready_send : ws_send_ (cmds c) = true;
  ready_quit : quit_ (cmds c) = false;
}.

(** The TURN server derives the password of [t] from the username of [t], which
    names [u], and accepts it until [expiry], and no other. *)
Definition relay_access `{OpenSSL} (secret u : string) (expiry : Z) (t : ClientTurn) : Prop :=
  turn_username t = to_string expiry +:+ ":" +:+ u ∧
  let hv := HmacValidator.mkHmacValidator secret in
  HmacValidator.getPassword hv (turn_username t) = Ok (turn_credential t) ∧
  ∀ now p, HmacValidator.validate hv now (turn_username t) p =
    Ok (bool_decide (now ≤ expiry ∧ p = turn_credential t)).

Section setup.
Context `{OpenSSLSpec, JsonSpec, !JwtCpp, !JwtCppSpec, !IterOrder string CallSession}.
Variable rtc_init : ClientTurn → result ().
Variable rtc_apply : ClientEvent → result ().

Lemma rtc_relay_access cfg now u t : cfg_ok cfg → 0 ≤ now < 2 ^ 62 →
  turn_username t = rtc_username cfg now u →
  turn_credential t = rtc_password cfg (rtc_username cfg now u) →
  relay_access (shared_secret cfg) u (now + ttl cfg) t.
Proof.
  intros [_ Httl] Hnow Hu Hc.
  destruct (generate_lifetime (HmacValidator.mkHmacValidator (shared_secret cfg)) now u (ttl cfg))
    as (c&_&Hname&Hpass&Hval); [lia|].
  change (to_string (now + ttl cfg) +:+ ":" +:+ u) with (rtc_username cfg now u) in Hname.
  unfold relay_access. rewrite Hu, Hc. split; [done|]. rewrite <-Hname.
  assert (E : rtc_password cfg (HmacValidator.username c) = HmacValidator.password c)
    by (unfold rtc_password; by rewrite Hpass).
  rewrite E. done.
Qed.

Lemma runs_wp (m : eff Client ClientEvent ()) c c' l :
  (∀ Q : () → Client → list ClientEvent → Prop, (∀ evs, sends evs = l → Q () c' evs) → wp m Q c) →
  ∃ evs, m c = (Ok (), c', evs) ∧ sends evs = l.
Proof.
  intros Hm. destruct (wp_run _ _ _ (Hm (λ _ c e, c = c' ∧ sends e = l) (λ e He, conj eq_refl He)))
    as ([]&?&e&Em&->&He). by exists e.
Qed.

(** *** The two requests *)

Lemma request_texts type l msg : msg = ("type", type) :: l → json_ok (json_texts msg) →
  request_of (text_of (json_texts msg)) =
    with_text (json_texts msg) "type" (λ type,
      if decide (type = "call.create") then with_text (json_texts msg) "to" ReqCreate else
      if decide (type = "call.accept") then with_text (json_texts msg) "callId" ReqAccept else
      if decide (type = "call.reject") then with_text (json_texts msg) "callId" ReqReject else
      if decide (type = "call.hangup") then with_text (json_texts msg) "callId" ReqHangup else
      if decide (type ∈ ["webrtc.offer"; "webrtc.answer"; "webrtc.ice"])
      then with_text (json_texts msg) "callId" (λ c, ReqRelay c (json_texts msg)) else
      BadRequest ("unknown type: " +:+ type)).
Proof. intros -> Hj. unfold request_of. by rewrite (proj2 (text_of_ok _ Hj)). Qed.

Lemma request_create u : text_ok u → request_of (text_of (json_texts (create_msg u))) = ReqCreate u.
Proof.
  intros Hu. erewrite request_texts; [|done|apply texts_ok; repeat constructor; try done; text_lit].
  unfold with_text. rewrite (field_str _ "type" "call.create") by (unfold create_msg; by rewrite texts_get_cons).
  rewrite decide_True by done.
  by rewrite (field_str _ "to" u) by (unfold create_msg; by rewrite !texts_get_cons).
Qed.

Lemma request_accept id : text_ok id → request_of (text_of (json_texts (accept_msg id))) = ReqAccept id.
Proof.
  intros Hu. erewrite request_texts; [|done|apply texts_ok; repeat constructor; try done; text_lit].
  unfold with_text. rewrite (field_str _ "type" "call.accept") by (unfold accept_msg; by rewrite texts_get_cons).
  rewrite decide_False, decide_True by done.
  by rewrite (field_str _ "callId" id) by (unfold accept_msg; by rewrite !texts_get_cons).
Qed.

(** The server creates the call, and later accepts it. *)
Lemma server_creates cfg env b a u sa su : cfg_ok cfg → inputs_ok env → backend_inv b →
  text_ok a → text_ok u → ws_sessions_ b !! a = Some sa → ws_sessions_ b !! u = Some su →
  isBusy a (call_manager_ b) = false → isBusy u (call_manager_ b) = false →
  let id := generateUuid (draws env).1 (draws env).2 in
  ∃ b1 w, Router.handle (generateRtcConfig cfg) env a (text_of (json_texts (create_msg u))) b = (Ok (), b1, w) ∧
    writes w = [(sa, text_of (created_msg id)); (su, text_of (incoming_msg id a))] ∧
    backend_inv b1 ∧ ws_sessions_ b1 = ws_sessions_ b ∧
    sessions_ (call_manager_ b1) !! id = Some (mkCallSession id a u CallState.Ringing (steady env)).
Proof.
  intros Hcfg Henv I Ha Hu Hsa Hsu Hba Hbu id.
  pose proof (implements_handle cfg env Hcfg Henv b a (text_of (json_texts (create_msg u))) I Ha) as Hh.
  pose proof (respond_inv cfg env a (text_of (json_texts (create_msg u))) b I Ha) as I1.
  rewrite request_create in Hh, I1 by done. cbn [respond] in Hh, I1. rewrite create_eq, Hba, Hbu in Hh, I1.
  destruct (wp_run _ _ _ Hh) as ([]&b1&w&E&->&W&_). eexists _, w. split; [exact E|].
  split; [|split; [exact I1|split; [done|apply lookup_insert_eq]]].
  rewrite W. cbn [answer out_result out_state fst snd]. unfold delivery. cbn. by rewrite Hsa, Hsu.
Qed.

Lemma server_accepts cfg env b a u sa su id t : cfg_ok cfg → inputs_ok env → backend_inv b →
  text_ok u → ws_sessions_ b !! a = Some sa → ws_sessions_ b !! u = Some su →
  sessions_ (call_manager_ b) !! id = Some (mkCallSession id a u CallState.Ringing t) →
  ∃ b1 w, Router.handle (generateRtcConfig cfg) env u (text_of (json_texts (accept_msg id))) b = (Ok (), b1, w) ∧
    writes w = [(sa, text_of (rtc_msg cfg (wall env 0) a id)); (su, text_of (rtc_msg cfg (wall env 1) u id))] ∧
    sessions_ (call_manager_ b1) !! id = Some (mkCallSession id a u CallState.Active t).
Proof.
  intros Hcfg Henv I Hu Hsa Hsu Hid.
  pose proof (implements_handle cfg env Hcfg Henv b u (text_of (json_texts (accept_msg id))) I Hu) as Hh.
  rewrite request_accept in Hh by apply (inv_texts _ I _ _ Hid). cbn [respond] in Hh.
  rewrite accept_eq, Hid in Hh. cbn [calleeId state] in Hh. rewrite !bool_decide_true in Hh by done.
  destruct (wp_run _ _ _ Hh) as ([]&b1&w&E&->&W&_). eexists _, w. split; [exact E|].
  split; [|apply lookup_insert_eq].
  rewrite W. cbn. unfold delivery. cbn. by rewrite Hsa, Hsu.
Qed.

(** What comes of a configuration with the credentials [t]: the library takes them,
    and the caller alone starts the call; or it throws, and the client is left
    without the handlers of the negotiation. *)
Definition connection (c : Client) (t : ClientTurn) (c' : Client) (evs : list ClientEvent) : Prop :=
  match rtc_init t with
  | Ok _ => c' = rtc_ready c t ∧ RtcInit t ∈ evs ∧
      (RtcStartCall ∈ evs ↔ call_state (call (client_session c)) = AppState.Calling)
  | Err _ => c' = rtc_failed c t ∧ RtcStartCall ∉ evs
  end.

Lemma connection_session c t c' evs : connection c t c' evs → client_session c' = client_session (turn_set c t).
Proof. unfold connection. by destruct (rtc_init t); intros (->&_). Qed.

Lemma connection_caller c t c' evs : connection c t c' evs → call_state (call (client_session c)) = AppState.Calling →
  match rtc_init t with
  | Ok _ => handlers_alive c' = true ∧ RtcInit t ∈ evs ∧ RtcStartCall ∈ evs
  | Err _ => handlers_alive c' = false ∧ RtcStartCall ∉ evs
  end.
Proof. unfold connection. destruct (rtc_init t); [intros (->&?&[_ Hs]) Hc; auto|intros (->&?); auto]. Qed.

Lemma connection_callee c t c' evs : connection c t c' evs → call_state (call (client_session c)) ≠ AppState.Calling →
  match rtc_init t with
  | Ok _ => handlers_alive c' = true ∧ RtcInit t ∈ evs ∧ RtcStartCall ∉ evs
  | Err _ => handlers_alive c' = false ∧ RtcStartCall ∉ evs
  end.
Proof. unfold connection. destruct (rtc_init t); [intros (->&Hi&[Hs _]) Hc|intros (->&?); auto]. split_and!; [done..|]. by intros ?%Hs. Qed.

(** A client reads the configuration made for it. *)
Lemma rtc_config_runs cfg now u id c : cfg_ok cfg → 0 ≤ now < 2 ^ 62 → text_ok u → text_ok id →
  library_answers rtc_init rtc_apply →
  ∃ t c' evs, on_message rtc_init rtc_apply (text_of (rtc_msg cfg now u id)) c = (Ok (), c', evs) ∧
    sends evs = [] ∧ connection c t c' evs ∧ relay_access (shared_secret cfg) u (now + ttl cfg) t.
Proof.
  intros Hcfg Hnow Hu Hid Hlib. set (t := config_turn cfg now u (turnConfig (client_session c))). exists t.
  assert (Hacc : relay_access (shared_secret cfg) u (now + ttl cfg) t) by exact (rtc_relay_access cfg now u t Hcfg Hnow eq_refl eq_refl).
  destruct (config_tried rtc_init rtc_apply cfg now u id c Hcfg Hu Hid Hlib) as (r&c'&evs&E&Hs&Hr&Hc). fold t in Hc.
  destruct Hr as [->|(k&what&->)].
  { exists c', evs. split; [|done]. unfold on_message, try. unfold mbind, eff_bind. rewrite E. unfold mret, eff_ret.
    by rewrite app_nil_r. }
  destruct (handle_config rtc_apply cfg now u id c' Hcfg Hu Hid) as [line Eh].
  assert (Ht : turn_set c' (config_turn cfg now u (turnConfig (client_session c'))) = c').
  { assert (client_session c' = client_session (turn_set c t)) as -> by by apply (connection_session _ _ _ evs).
    change (turnConfig (client_session (turn_set c t))) with t. unfold t. rewrite config_turn_again. fold t.
    unfold connection in *. by destruct (rtc_init t); destruct Hc as (->&_). }
  rewrite Ht in Eh. exists c', (evs ++ [Printed line]). split; [|split; [|split; [|done]]].
  - unfold on_message, try. unfold mbind, eff_bind. rewrite E. unfold mret, eff_ret. rewrite Eh, app_nil_r. reflexivity.
  - by rewrite sends_app, Hs.
  - unfold connection in *. destruct (rtc_init t).
    + destruct Hc as (->&Hi&Hst). split; [done|]. split; [apply elem_of_app; by left|].
      rewrite <-Hst, elem_of_app. split; [intros [?|?%list_elem_of_singleton]; done|by left].
    + destruct Hc as (->&Hst). split; [done|]. intros [?|?%list_elem_of_singleton]%elem_of_app; done.
Qed.

(** The POST of the HTTP client. *)
Variable http : string → string → result (Z * string).

(** C6: a call is set up: two users, each logged in, connected and in no call;
    one types [call] with the name of the other, the other one types [accept],
    and every text that is sent is read by the one it is sent to.  The TURN_HOST of
    the backend's configuration is UTF-8 text and its TURN_TTL is not negative, its
    clocks are before 2^62 seconds, and libdatachannel returns or throws.  Then
    every line typed and every message is handled without failing; both clients
    and the server agree on the call, which is accepted; each client holds
    credentials that the TURN server accepts until they expire; and where the
    library takes these credentials, the client has its peer connection, and the
    caller alone asks the library for an offer; where it throws, the client is left
    in the call without one. *)
Theorem call_setup secret cfg b env1 env2 a u sa su ca cu :
  cfg_ok cfg → inputs_ok env1 → inputs_ok env2 → backend_run secret cfg b →
  authenticated secret a → authenticated secret u → a ≠ u → word u →
  ws_sessions_ b !! a = Some sa → ws_sessions_ b !! u = Some su →
  isBusy a (call_manager_ b) = false → isBusy u (call_manager_ b) = false →
  ready a ca → ready u cu → library_answers rtc_init rtc_apply →
  ∃ id m_create m_created m_incoming m_accept m_config_a m_config_u
    ca1 ca2 ca3 cu1 cu2 cu3 b1 b2 e1 e2 e3 e4 e5 e6 w1 w2,
  (type_line http ("call " +:+ u) ca = (Ok (), ca1, e1) ∧ sends e1 = [m_create]) ∧
  (Router.handle (generateRtcConfig cfg) env1 a m_create b = (Ok (), b1, w1) ∧
   writes w1 = [(sa, m_created); (su, m_incoming)]) ∧
  on_message rtc_init rtc_apply m_created ca1 = (Ok (), ca2, e2) ∧
  on_message rtc_init rtc_apply m_incoming cu = (Ok (), cu1, e3) ∧
  (type_line http "accept" cu1 = (Ok (), cu2, e4) ∧ sends e4 = [m_accept]) ∧
  (Router.handle (generateRtcConfig cfg) env2 u m_accept b1 = (Ok (), b2, w2) ∧
   writes w2 = [(sa, m_config_a); (su, m_config_u)]) ∧
  on_message rtc_init rtc_apply m_config_a ca2 = (Ok (), ca3, e5) ∧
  on_message rtc_init rtc_apply m_config_u cu2 = (Ok (), cu3, e6) ∧
  sends e2 ++ sends e3 ++ sends e5 ++ sends e6 = [] ∧
  sessions_ (call_manager_ b2) !! id = Some (mkCallSession id a u CallState.Active (steady env1)) ∧
  (let sc := client_session ca3 in
   call sc = mkCallContext id u AppState.Calling (muted (call (client_session ca))) true ∧
   relay_access (shared_secret cfg) a (wall env2 0 + ttl cfg) (turnConfig sc) ∧
   match rtc_init (turnConfig sc) with
   | Ok _ => handlers_alive ca3 = true ∧ RtcInit (turnConfig sc) ∈ e5 ∧ RtcStartCall ∈ e5
   | Err _ => handlers_alive ca3 = false ∧ RtcStartCall ∉ e5
   end) ∧
  (let sc := client_session cu3 in
   call sc = mkCallContext id a AppState.InCall (muted (call (client_session cu))) false ∧
   relay_access (shared_secret cfg) u (wall env2 1 + ttl cfg) (turnConfig sc) ∧
   match rtc_init (turnConfig sc) with
   | Ok _ => handlers_alive cu3 = true ∧ RtcInit (turnConfig sc) ∈ e6 ∧ RtcStartCall ∉ e6
   | Err _ => handlers_alive cu3 = false ∧ RtcStartCall ∉ e6
   end).
Proof.
  intros Hcfg Henv1 Henv2 Hrun Ha%authenticated_text Hu%authenticated_text Hne Hw Hsa Hsu Hba Hbu Ra Ru Hlib.
  pose proof (backend_run_inv _ _ _ Hcfg Hrun) as I.
  destruct (server_creates cfg env1 b a u sa su Hcfg Henv1 I Ha Hu Hsa Hsu Hba Hbu) as (b1&w1&E1&W1&I1&S1&Hid).
  rewrite <-S1 in Hsa, Hsu. set (id := generateUuid _ _) in *.
  assert (Ht : text_ok id) by apply text_ascii, uuid_ascii.
  destruct (server_accepts cfg env2 b1 a u sa su id _ Hcfg Henv2 I1 Hu Hsa Hsu Hid) as (b2&w2&E2&W2&Hid2).
  edestruct runs_wp as (e1&T1&M1).
  { intros Q. exact (wp_type_call http ca u Q Hw Hu (ready_login _ _ Ra) ltac:(by rewrite (ready_user _ _ Ra))
      (ready_idle _ _ Ra) (ready_send _ _ Ra) (ready_quit _ _ Ra)). }
  match type of T1 with _ = (_, ?c, _) => set (ca1 := c) in * end.
  edestruct runs_wp as (e2&T2&M2); [intros Q; exact (wp_created rtc_init rtc_apply id ca1 Q Ht)|].
  match type of T2 with _ = (_, ?c, _) => set (ca2 := c) in * end.
  edestruct runs_wp as (e3&T3&M3); [intros Q; exact (wp_incoming rtc_init rtc_apply id a cu Q Ht Ha)|].
  match type of T3 with _ = (_, ?c, _) => set (cu1 := c) in * end.
  edestruct runs_wp as (e4&T4&M4).
  { intros Q. exact (wp_type_accept http cu1 Q eq_refl Ht (ready_send _ _ Ru) (ready_quit _ _ Ru)). }
  match type of T4 with _ = (_, ?c, _) => set (cu2 := c) in * end.
  destruct (rtc_config_runs cfg (wall env2 0) a id ca2) as (ta&ca3&e5&T5&M5&C5&Acc5); [done|apply Henv2|done..|].
  destruct (rtc_config_runs cfg (wall env2 1) u id cu2) as (tu&cu3&e6&T6&M6&C6&Acc6); [done|apply Henv2|done..|].
  pose proof (connection_session _ _ _ _ C5) as S5. pose proof (connection_session _ _ _ _ C6) as S6.
  do 8 eexists. exists ca2, ca3. do 2 eexists. exists cu3. do 6 eexists. exists e5, e6, w1, w2. cbv zeta. rewrite S5, S6.
  split_and!; [exact T1|exact M1|exact E1|exact W1|exact T2|exact T3|exact T4|exact M4|exact E2|exact W2
    |exact T5|exact T6| |exact Hid2|reflexivity|exact Acc5| |reflexivity|exact Acc6|].
  - by rewrite M2, M3, M5, M6.
  - exact (connection_caller _ _ _ _ C5 eq_refl).
  - exact (connection_callee _ _ _ _ C6 ltac:(discriminate)).
Qed.
End setup.

(** ** Alice calls Bob *)

Module dial.
#[local] Existing Instance talk.sessions_order.

Definition http (path body : string) : result (Z * string) := Ok (404, "").
Definition rtc_init (t : ClientTurn) : result () :=
  if str_empty (turn_username t) then Err (Thrown InvalidArgument "no username") else Ok ().
Definition rtc_apply (e : ClientEvent) : result () := Ok ().
Definition client (u : string) : Client :=
  mkClient (mkCommands (mkSession u (talk.token_of u) (mkClientTurn "" "" "" "") no_call no_record)
    false true true true) false false false false false false.

Lemma b0_run : backend_run "jwt-secret" talk.cfg talk.b0.
Proof. apply run_connect, run_connect, run_connect, run_start. Qed.

Lemma in_300 : inputs_ok (talk.inputs 300).
Proof. by apply talk.inputs_good. Qed.

Lemma known_bob : authenticated "jwt-secret" "bob".
Proof. apply talk.known; set_solver. Qed.

Lemma bob_word : word "bob".
Proof. split; [done|]. intros c Hc. cbn in Hc.
  destruct Hc as [E|[E|[E|[]]]]; subst; reflexivity. Qed.

Lemma alice_ready : ready "alice" (client "alice").
Proof. split; vm_compute; reflexivity. Qed.
Lemma bob_ready : ready "bob" (client "bob").
Proof. split; vm_compute; reflexivity. Qed.
Lemma alice_bob : "alice" ≠ "bob".
Proof. done. Qed.

Lemma b0_sessions : ws_sessions_ talk.b0 !! "alice" = Some 1%nat ∧ ws_sessions_ talk.b0 !! "bob" = Some 2%nat ∧
  isBusy "alice" (call_manager_ talk.b0) = false ∧ isBusy "bob" (call_manager_ talk.b0) = false.
Proof. by vm_compute. Qed.

(** The library throws on a configuration without credentials. *)
Lemma answers : library_answers rtc_init rtc_apply.
Proof. split; [intros t; unfold rtc_init; by destruct (str_empty _)|done]. Qed.

Lemma call_setup_witness : ∃ id m m_id m_in m_acc c1 c2 e1 e2 b1 b2 w1 w2 m5 m6,
  type_line http "call bob" (client "alice") = (Ok (), c1, e1) ∧ sends e1 = [m] ∧
  Router.handle (generateRtcConfig talk.cfg) (talk.inputs 300) "alice" m talk.b0 = (Ok (), b1, w1) ∧
  writes w1 = [(1%nat, m_id); (2%nat, m_in)] ∧
  on_message rtc_init rtc_apply m_id c1 = (Ok (), c2, e2) ∧
  Router.handle (generateRtcConfig talk.cfg) (talk.inputs 320) "bob" m_acc b1 = (Ok (), b2, w2) ∧
  writes w2 = [(1%nat, m5); (2%nat, m6)] ∧
  sessions_ (call_manager_ b2) !! id = Some (mkCallSession id "alice" "bob" CallState.Active 300).
Proof.
  destruct b0_sessions as (Sa&Sb&Ba&Bb).
  destruct (call_setup rtc_init rtc_apply http "jwt-secret" talk.cfg talk.b0 (talk.inputs 300) (talk.inputs 320)
    "alice" "bob" 1%nat 2%nat (client "alice") (client "bob") talk.cfg_good in_300 talk.in_320 b0_run
    talk.known_alice known_bob alice_bob bob_word Sa Sb Ba Bb
    alice_ready bob_ready answers)
    as (id&m1&m2&m3&m4&m5&m6&ca1&ca2&ca3&cu1&cu2&cu3&b1&b2&e1&e2&e3&e4&e5&e6&w1&w2&
      [T1 M1]&[E1 W1]&T2&T3&[T4 M4]&[E2 W2]&T5&T6&_&Hs&_).
  exists id, m1, m2, m3, m4, ca1, ca2, e1, e2, b1, b2, w1, w2, m5, m6.
  exact (conj T1 (conj M1 (conj E1 (conj W1 (conj T2 (conj E2 (conj W2 Hs))))))).
Defined.
End dial.
