(* ===== verification/Exchange.v ===== *)
(** * The media negotiation of a call

    What the WebRTC library of one party describes reaches the library of the
    other one: the description is put into a message, the router relays it, the
    other client takes it out and hands it on. *)

From Stdlib Require Import Ascii.
From S2P Require Export CallSetup.

#[local] Existing Instances ToyOpenSSL ToyOpenSSLSpec ToyJson ToyJsonSpec ToySqlite ToySqliteSpec ToyJwt ToyJwtSpec.

Section exchange.
Context `{OpenSSLSpec, JsonSpec, !JwtCpp, !JwtCppSpec, !IterOrder string CallSession}.
Variable rtc_init : ClientTurn → result ().
Variable rtc_apply : ClientEvent → result ().

(** The messages of the negotiation. *)
Definition sdp_msg (type id sdp : string) : json :=
  json_texts [("type", type); ("callId", id); ("sdp", sdp)].
Definition ice_msg (id candidate mid : string) : json :=
  json_object [("type", json_str "webrtc.ice"); ("callId", json_str id);
    ("candidate", json_str candidate); ("mid", json_str mid); ("mlineindex", json_int 0)].

(** *** Lemmas *)

Lemma sdp_msg_ok type id sdp : text_ok type → text_ok id → text_ok sdp → json_ok (sdp_msg type id sdp).
Proof. intros. apply texts_ok. repeat constructor; try done; text_lit. Qed.

Lemma ice_msg_ok id candidate mid : text_ok id → text_ok candidate → text_ok mid →
  json_ok (ice_msg id candidate mid).
Proof.
  intros. apply object_ok.
  repeat (apply Forall_cons; split; [split; [text_lit|]|]); cbn [snd]; try (apply str_ok; done || text_lit); [|done].
  apply int_ok.
Qed.

(** A message that the callback of main.cpp only hands on. *)
Lemma on_message_other j type c : json_ok j → json_is_object j = true → json_get j "type" = Some (json_str type) →
  type ∉ ["error"; "rtc.config"; "call.ended"; "call.failed"] →
  on_message rtc_init rtc_apply (text_of j) c = ClientMessages.handle rtc_apply (text_of j) c.
Proof.
  intros Hj Hobj Ht Hne. destruct (text_of_ok j Hj) as [_ Hp].
  assert (E : on_message_try rtc_init rtc_apply (text_of j) c = (Ok false, c, [])).
  { unfold on_message_try. rewrite Hp, bind_lift, (value_str j "type" type), bind_lift by done.
    rewrite !bool_decide_false by set_solver. done. }
  unfold on_message, mbind, eff_bind, try. rewrite E. by destruct (ClientMessages.handle _ _ c) as [[? ?] ?].
Qed.

Lemma receive j type c m : json_ok j → json_is_object j = true → json_get j "type" = Some (json_str type) →
  type ∉ ["error"; "rtc.config"; "call.ended"; "call.failed"] →
  (∀ raw, json_parse raw = Some j → json_field j "type" = Some type → ClientMessages.handle rtc_apply raw = m) →
  on_message rtc_init rtc_apply (text_of j) c = m c.
Proof.
  intros Hj Hobj Ht Hne Hm. rewrite (on_message_other j type) by done.
  by rewrite (Hm _ (proj2 (text_of_ok j Hj)) (field_str _ _ _ Ht)).
Qed.

(** A request of the negotiation. *)
Lemma request_webrtc j type id : json_ok j → json_field j "type" = Some type →
  type ∈ ["webrtc.offer"; "webrtc.answer"; "webrtc.ice"] → json_field j "callId" = Some id →
  request_of (text_of j) = ReqRelay id j.
Proof.
  intros Hj Ht Hin Hid. unfold request_of, with_text. rewrite (proj2 (text_of_ok j Hj)), Ht, Hid.
  do 4 (rewrite decide_False by set_solver). by rewrite decide_True.
Qed.

(** What [m] makes the client of [user] send, and the router make of it, is the
    text [t] written to the session [sid] only. *)
Definition passes (cfg : TurnConfig) (env : RouterInputs) (b : Backend) (user : string)
    (m : eff Client ClientEvent ()) (c : Client) (sid : nat) (t : string) : Prop :=
  ∃ c' e raw w, m c = (Ok (), c', e) ∧ sends e = [raw] ∧
    Router.handle (generateRtcConfig cfg) env user raw b = (Ok (), b, w) ∧ writes w = [(sid, t)].

Lemma router_relays cfg env b user other id s sid j : cfg_ok cfg → inputs_ok env → backend_inv b → text_ok user →
  request_of (text_of j) = ReqRelay id j →
  sessions_ (call_manager_ b) !! id = Some s → Router.otherId user s = other → ws_sessions_ b !! other = Some sid →
  ∃ w, Router.handle (generateRtcConfig cfg) env user (text_of j) b = (Ok (), b, w) ∧ writes w = [(sid, text_of j)].
Proof.
  intros Hcfg Henv I Hu Hreq Hs Ho Hsid.
  pose proof (implements_handle cfg env Hcfg Henv b user (text_of j) I Hu) as Hh.
  rewrite Hreq in Hh. cbn [respond] in Hh. rewrite Hs, Ho in Hh.
  destruct (wp_run _ _ _ Hh) as ([]&b1&w&E&->&W&_). cbn [fst snd] in *. rewrite backend_eta in E.
  exists w. split; [done|]. rewrite W. unfold delivery. cbn. by rewrite Hsid.
Qed.

Lemma ws_send_eq j c : json_ok j → ws_send j c = (Ok (), c, [WsSend (text_of j)]).
Proof. intros Hj. unfold ws_send. by rewrite (proj1 (text_of_ok j Hj)), bind_lift. Qed.

Lemma local_description_eq (offer : bool) id sdp c : handlers_alive c = true →
  call_id (call (client_session c)) = id → text_ok id → text_ok sdp →
  ∃ line, onLocalDescription (if offer then Offer else Answer) sdp c =
    (Ok (), c, [WsSend (text_of (sdp_msg (if offer then "webrtc.offer" else "webrtc.answer") id sdp)); Printed line]).
Proof.
  intros Ha <- Hid Hsdp. unfold onLocalDescription.
  destruct offer; eexists; unfold mbind at 1, eff_bind at 1, get; rewrite Ha; cbn [negb];
    unfold mbind, eff_bind; rewrite ws_send_eq; try reflexivity; apply sdp_msg_ok; text_lit || done.
Qed.

Lemma local_candidate_eq id candidate mid c : handlers_alive c = true →
  call_id (call (client_session c)) = id → text_ok id → text_ok candidate → text_ok mid →
  onLocalCandidate candidate mid c = (Ok (), c, [WsSend (text_of (ice_msg id candidate mid))]).
Proof.
  intros Ha <- Hid Hc Hm. unfold onLocalCandidate, mbind, eff_bind, get. rewrite Ha. cbn [negb].
  rewrite ws_send_eq; [reflexivity|by apply ice_msg_ok].
Qed.

(** A client in the call [id]: its handlers are there. *)
Definition negotiates (id : string) (caller : bool) (c : Client) : Prop :=
  call_id (call (client_session c)) = id ∧ is_caller (call (client_session c)) = caller ∧
  handlers_alive c = true ∧ rtc_callbacks c = true.

Lemma receive_offer id sdp c : negotiates id false c → text_ok id → text_ok sdp →
  on_message rtc_init rtc_apply (text_of (sdp_msg "webrtc.offer" id sdp)) c = (rtc_apply (RtcOffer sdp), c, [RtcOffer sdp]).
Proof.
  intros (_&Hc&Ha&Hcb) Hid Hsdp. set (j := sdp_msg "webrtc.offer" id sdp).
  rewrite (receive j "webrtc.offer" c (handleWebrtcOffer rtc_apply j)).
  - unfold handleWebrtcOffer. subst j. unfold sdp_msg. rewrite !texts_get_cons. cbn [String.eqb Ascii.eqb Bool.eqb].
    rewrite bind_session, Hc; cbv iota; cbn [negb]; rewrite bind_client, Hcb.
    unfold to_text. rewrite string_str, bind_lift. unfold handleOffer. by rewrite through_handler_eq by done.
  - apply sdp_msg_ok; text_lit || done.
  - apply texts_is_object.
  - subst j. unfold sdp_msg. by rewrite texts_get_cons.
  - set_solver.
  - intros raw Hp Ht. unfold ClientMessages.handle. by rewrite Hp, Ht.
Qed.

Lemma receive_answer id sdp c : negotiates id true c → text_ok id → text_ok sdp →
  rtc_apply (RtcAnswer sdp) = Ok () →
  ∃ line, on_message rtc_init rtc_apply (text_of (sdp_msg "webrtc.answer" id sdp)) c =
    (Ok (), c, [RtcAnswer sdp; Printed line]).
Proof.
  intros (_&Hc&Ha&Hcb) Hid Hsdp Hok. set (j := sdp_msg "webrtc.answer" id sdp). eexists.
  rewrite (receive j "webrtc.answer" c (handleWebrtcAnswer rtc_apply j)).
  - unfold handleWebrtcAnswer. subst j. unfold sdp_msg. rewrite !texts_get_cons. cbn [String.eqb Ascii.eqb Bool.eqb].
    rewrite bind_session, Hc; cbv iota; cbn [negb]; rewrite bind_client, Hcb.
    cbn [negb]. unfold to_text. rewrite string_str, bind_lift. unfold handleAnswer, mbind, eff_bind.
    rewrite through_handler_eq, Hok by done. reflexivity.
  - apply sdp_msg_ok; text_lit || done.
  - apply texts_is_object.
  - subst j. unfold sdp_msg. by rewrite texts_get_cons.
  - set_solver.
  - intros raw Hp Ht. unfold ClientMessages.handle. by rewrite Hp, Ht.
Qed.

Lemma receive_candidate id caller candidate mid c : negotiates id caller c → text_ok id → text_ok candidate → text_ok mid →
  on_message rtc_init rtc_apply (text_of (ice_msg id candidate mid)) c =
    (rtc_apply (RtcCandidate candidate mid 0), c, [RtcCandidate candidate mid 0]).
Proof.
  intros (_&Hc&Ha&Hcb) Hid Hcand Hm. set (j := ice_msg id candidate mid).
  rewrite (receive j "webrtc.ice" c (handleWebrtcIce rtc_apply j)).
  - unfold handleWebrtcIce.
    rewrite (value_str j "mid" mid) by (apply object_is_object || (subst j; unfold ice_msg; by rewrite !get_cons)).
    subst j. unfold ice_msg. rewrite !get_cons. cbn [String.eqb Ascii.eqb Bool.eqb].
    rewrite bind_client, Hcb. unfold to_text.
    rewrite string_str, number_int, !bind_lift by lia. unfold handleRemoteCandidate.
    by rewrite through_handler_eq by done.
  - by apply ice_msg_ok.
  - apply object_is_object.
  - subst j. unfold ice_msg. by rewrite get_cons.
  - set_solver.
  - intros raw Hp Ht. unfold ClientMessages.handle. by rewrite Hp, Ht.
Qed.

Lemma field_texts2 k1 v1 k v l : String.eqb k1 k = false →
  json_field (json_texts ((k1, v1) :: (k, v) :: l)) k = Some v.
Proof. intros Hk. apply field_str. by rewrite !texts_get_cons, Hk, String.eqb_refl. Qed.

Lemma request_sdp (offer : bool) id sdp : text_ok id → text_ok sdp →
  let j := sdp_msg (if offer then "webrtc.offer" else "webrtc.answer") id sdp in
  request_of (text_of j) = ReqRelay id j.
Proof.
  intros Hid Hsdp j. apply (request_webrtc _ (if offer then "webrtc.offer" else "webrtc.answer")).
  - apply sdp_msg_ok; [destruct offer; text_lit|done|done].
  - apply field_str. unfold j, sdp_msg. by rewrite texts_get_cons.
  - destruct offer; set_solver.
  - by apply field_texts2.
Qed.

Lemma request_ice id candidate mid : text_ok id → text_ok candidate → text_ok mid →
  request_of (text_of (ice_msg id candidate mid)) = ReqRelay id (ice_msg id candidate mid).
Proof.
  intros Hid Hc Hm. apply (request_webrtc _ "webrtc.ice").
  - by apply ice_msg_ok.
  - apply field_str. unfold ice_msg. by rewrite get_cons.
  - set_solver.
  - apply field_str. unfold ice_msg. by rewrite !get_cons.
Qed.

(** C7: the media negotiation: two parties of a call, both connected, with their
    peer connections set up. The offer that the library of the caller makes is
    sent, is relayed to the callee and to no other session, and is handed,
    unchanged, to the library of the callee; its answer comes back the same way;
    and so do the candidates of either side. *)
Theorem webrtc_exchange secret cfg b env id a u sa su ca cu s :
  cfg_ok cfg → inputs_ok env → backend_run secret cfg b →
  authenticated secret a → authenticated secret u → a ≠ u →
  sessions_ (call_manager_ b) !! id = Some s → callerId s = a → calleeId s = u → text_ok id →
  ws_sessions_ b !! a = Some sa → ws_sessions_ b !! u = Some su →
  negotiates id true ca → negotiates id false cu →
  (∀ sdp, text_ok sdp → ∃ t, passes cfg env b a (onLocalDescription Offer sdp) ca su t ∧
     on_message rtc_init rtc_apply t cu = (rtc_apply (RtcOffer sdp), cu, [RtcOffer sdp])) ∧
  (∀ sdp, text_ok sdp → rtc_apply (RtcAnswer sdp) = Ok () →
     ∃ t line, passes cfg env b u (onLocalDescription Answer sdp) cu sa t ∧
     on_message rtc_init rtc_apply t ca = (Ok (), ca, [RtcAnswer sdp; Printed line])) ∧
  (∀ candidate mid, text_ok candidate → text_ok mid →
     let e := RtcCandidate candidate mid 0 in
     (∃ t, passes cfg env b a (onLocalCandidate candidate mid) ca su t ∧
        on_message rtc_init rtc_apply t cu = (rtc_apply e, cu, [e])) ∧
     (∃ t, passes cfg env b u (onLocalCandidate candidate mid) cu sa t ∧
        on_message rtc_init rtc_apply t ca = (rtc_apply e, ca, [e]))).
Proof.
  intros Hcfg Henv Hrun Ha%authenticated_text Hu%authenticated_text Hne Hs Hca Hcu Hid Hsa Hsu Na Nu.
  pose proof (backend_run_inv _ _ _ Hcfg Hrun) as I.
  assert (Oa : Router.otherId a s = u) by (unfold Router.otherId; by rewrite Hca, bool_decide_true).
  assert (Ou : Router.otherId u s = a) by (unfold Router.otherId; by rewrite Hca, bool_decide_false).
  assert (Pass : ∀ user other m c sid j ev, request_of (text_of j) = ReqRelay id j → text_ok user →
    Router.otherId user s = other → ws_sessions_ b !! other = Some sid →
    m c = (Ok (), c, WsSend (text_of j) :: ev) → sends ev = [] → passes cfg env b user m c sid (text_of j)).
  { intros user other m c sid j ev Hreq Huser Ho Hsid Hm Hev.
    destruct (router_relays cfg env b user other id s sid j) as (w&E&W); try done.
    exists c, (WsSend (text_of j) :: ev), (text_of j), w. split; [done|]. split; [|done].
    change (text_of j :: sends ev = [text_of j]). by rewrite Hev. }
  split; [|split].
  - intros sdp Hsdp. destruct (local_description_eq true id sdp ca) as [line E]; [apply Na..|done|done|].
    eexists. split; [eapply Pass; [exact (request_sdp true id sdp Hid Hsdp)|exact Ha|exact Oa|done|exact E|done]|].
    by apply receive_offer.
  - intros sdp Hsdp Hok. destruct (local_description_eq false id sdp cu) as [line E]; [apply Nu..|done|done|].
    destruct (receive_answer id sdp ca Na Hid Hsdp Hok) as [line' R].
    eexists _, line'. split; [|exact R].
    eapply Pass; [exact (request_sdp false id sdp Hid Hsdp)|exact Hu|exact Ou|done|exact E|done].
  - intros candidate mid Hc Hm e. pose proof (request_ice id candidate mid Hid Hc Hm) as Hreq. split.
    + eexists. split; [|by apply (receive_candidate id false)].
      apply (Pass a u _ ca su _ [] Hreq Ha Oa Hsu); [|done]. apply local_candidate_eq; by apply Na || done.
    + eexists. split; [|by apply (receive_candidate id true)].
      apply (Pass u a _ cu sa _ [] Hreq Hu Ou Hsa); [|done]. apply local_candidate_eq; by apply Nu || done.
Qed.
End exchange.

(** ** Alice and Bob *)

Module negotiation.
#[local] Existing Instance talk.sessions_order.

Definition client (u : string) (caller : bool) : Client :=
  mkClient (mkCommands (mkSession u (talk.token_of u) (mkClientTurn "" "" "" "")
    (mkCallContext talk.id1 "" AppState.InCall false caller) no_record) false true true true)
    true true true true false false.

Lemma webrtc_exchange_witness :
  (∃ t, passes talk.cfg (talk.inputs 320) talk.b2 "alice" (onLocalDescription Offer "v=0") (client "alice" true) 2%nat t ∧
    on_message dial.rtc_init dial.rtc_apply t (client "bob" false) = (Ok (), client "bob" false, [RtcOffer "v=0"])) ∧
  (∃ t, passes talk.cfg (talk.inputs 320) talk.b2 "bob" (onLocalCandidate "c1" "0") (client "bob" false) 1%nat t ∧
    on_message dial.rtc_init dial.rtc_apply t (client "alice" true) =
      (Ok (), client "alice" true, [RtcCandidate "c1" "0" 0])).
Proof.
  destruct talk.b2_sessions as (_&Ha&Hb).
  assert (Hc : sessions_ (call_manager_ talk.b2) !! talk.id1 = Some talk.talking) by (by vm_compute).
  assert (T1 : text_ok "v=0") by text_lit. assert (T2 : text_ok "c1") by text_lit. assert (T3 : text_ok "0") by text_lit.
  assert (Hid : text_ok talk.id1) by apply text_ascii, uuid_ascii.
  destruct (webrtc_exchange dial.rtc_init dial.rtc_apply "jwt-secret" talk.cfg talk.b2 (talk.inputs 320) talk.id1
    "alice" "bob" 1%nat 2%nat (client "alice" true) (client "bob" false) talk.talking
    talk.cfg_good talk.in_320 talk.b2_run talk.known_alice dial.known_bob ltac:(discriminate) Hc eq_refl eq_refl Hid Ha Hb
    (conj eq_refl (conj eq_refl (conj eq_refl eq_refl))) (conj eq_refl (conj eq_refl (conj eq_refl eq_refl))))
    as (Ho&_&Hi).
  split; [exact (Ho "v=0" T1)|exact (proj2 (Hi "c1" "0" T2 T3))].
Defined.
End negotiation.
