(* ===== verification/JitterBuffer.v ===== *)
(** * The jitter buffer of the client (src/client_cli/src/audio/jitter_buffer.hpp)

    A ring buffer of samples, read and written under a mutex, so each operation
    is one atomic step.  Element accesses are checked: an index out of range is
    [Err Undefined].  It implements a bounded queue. *)

From S2P Require Export Bytes.

Module JitterBuffer.
Record JitterBuffer := mkJitterBuffer {
  sample_rate_ : Z;
  capacity_ : nat;
  buffer_ : list Z;
  write_pos_ : nat;
  read_pos_ : nat;
  available_ : nat;
}.

(** The constructor; the product of two [uint32_t] wraps. *)
Definition capacity_of (capacity_ms sample_rate : Z) : nat := Z.to_nat (u32 (capacity_ms * sample_rate) / 1000).

Definition newJitterBuffer (capacity_ms sample_rate : Z) : JitterBuffer :=
  mkJitterBuffer sample_rate (capacity_of capacity_ms sample_rate)
    (replicate (capacity_of capacity_ms sample_rate) 0) 0 0 0.

(** [buffer_[i] = x] and [buffer_[i]]. *)
Definition store (i : nat) (x : Z) (l : list Z) : result (list Z) :=
  if (i <? length l)%nat then Ok (<[i := x]> l) else Err Undefined.
Definition load (i : nat) (l : list Z) : result Z :=
  match l !! i with Some x => Ok x | None => Err Undefined end.

Fixpoint write (data : list Z) (jb : JitterBuffer) : result JitterBuffer :=
  match data with
  | [] => Ok jb
  | x :: data =>
      if (available_ jb <? capacity_ jb)%nat then
        buf ← store (write_pos_ jb) x (buffer_ jb);
        write data (mkJitterBuffer (sample_rate_ jb) (capacity_ jb) buf
          ((write_pos_ jb + 1) mod capacity_ jb) (read_pos_ jb) (available_ jb + 1))
      else Ok jb
  end.

(** The samples put into [out], [count] of them. *)
Fixpoint read (count : nat) (jb : JitterBuffer) : result (list Z * JitterBuffer) :=
  match count with
  | O => Ok ([], jb)
  | S n =>
      if (0 <? available_ jb)%nat then
        x ← load (read_pos_ jb) (buffer_ jb);
        '(out, jb) ← read n (mkJitterBuffer (sample_rate_ jb) (capacity_ jb) (buffer_ jb) (write_pos_ jb)
          ((read_pos_ jb + 1) mod capacity_ jb) (available_ jb - 1));
        Ok (x :: out, jb)
      else Ok (replicate count 0, jb)
  end.

Definition available (jb : JitterBuffer) : nat := available_ jb.

Definition clear (jb : JitterBuffer) : JitterBuffer :=
  mkJitterBuffer (sample_rate_ jb) (capacity_ jb) (replicate (length (buffer_ jb)) 0) 0 0 0.
End JitterBuffer.
Import JitterBuffer.

(** ** Playback *)

Module Playback.
Record Playback := mkPlayback { running_ : bool; jitter_buffer_ : JitterBuffer }.

Definition newPlayback (sample_rate : Z) : Playback := mkPlayback false (newJitterBuffer 50 sample_rate).

Definition start (p : Playback) : Playback := mkPlayback true (jitter_buffer_ p).
Definition stop (p : Playback) : Playback := mkPlayback false (clear (jitter_buffer_ p)).

Definition write (data : list Z) (p : Playback) : result Playback :=
  jb ← JitterBuffer.write data (jitter_buffer_ p); Ok (mkPlayback (running_ p) jb).
Definition playFile (samples : list Z) (p : Playback) : result Playback :=
  jb ← JitterBuffer.write samples (jitter_buffer_ p); Ok (mkPlayback (running_ p) jb).
End Playback.

(** ** Specification: a bounded queue *)

Inductive op := Write (data : list Z) | Read (count : nat) | Available | Clear.

Definition queue_step (cap : nat) (o : op) (q : list Z) : list Z * list Z :=
  match o with
  | Write data => (q ++ take (cap - length q) data, [])
  | Read count => (drop count q, take count q ++ replicate (count - length q) 0)
  | Available => (q, [Z.of_nat (length q)])
  | Clear => ([], [])
  end.

Fixpoint queue_run (cap : nat) (ops : list op) (q : list Z) : list (list Z) :=
  match ops with
  | [] => []
  | o :: ops => let '(q', out) := queue_step cap o q in out :: queue_run cap ops q'
  end.

Definition buffer_step (o : op) (jb : JitterBuffer) : result (JitterBuffer * list Z) :=
  match o with
  | Write data => jb ← write data jb; Ok (jb, [])
  | Read count => '(out, jb) ← read count jb; Ok (jb, out)
  | Available => Ok (jb, [Z.of_nat (available jb)])
  | Clear => Ok (clear jb, [])
  end.

Fixpoint buffer_run (ops : list op) (jb : JitterBuffer) : result (list (list Z)) :=
  match ops with
  | [] => Ok []
  | o :: ops => '(jb, out) ← buffer_step o jb; outs ← buffer_run ops jb; Ok (out :: outs)
  end.

(** ** Representation *)

(** The samples [q] are in the buffer, from the read position on. *)
Record holds (jb : JitterBuffer) (q : list Z) : Prop := {
  holds_size : length (buffer_ jb) = capacity_ jb;
  holds_bound : (length q ≤ capacity_ jb)%nat;
  holds_read : (read_pos_ jb < capacity_ jb)%nat ∨ capacity_ jb = O ∧ read_pos_ jb = O;
  holds_write : write_pos_ jb = ((read_pos_ jb + length q) mod capacity_ jb)%nat;
  holds_available : available_ jb = length q;
  holds_samples i : (i < length q)%nat →
    buffer_ jb !! ((read_pos_ jb + i) mod capacity_ jb)%nat = q !! i;
}.

Lemma holds_new ms rate : holds (newJitterBuffer ms rate) [].
Proof.
  split; cbn; try done.
  - by rewrite length_replicate.
  - lia.
  - destruct (capacity_of ms rate); [by right|left; lia].
  - by rewrite Nat.Div0.mod_0_l.
  - lia.
Qed.

Lemma holds_clear jb q : holds jb q → holds (clear jb) [].
Proof.
  intros [Hsize Hb Hr Hw Ha Hs]. split; cbn; try done.
  - by rewrite length_replicate.
  - lia.
  - lia.
  - by rewrite Nat.Div0.mod_0_l.
  - lia.
Qed.

Lemma mod_neq (r i n c : nat) : (i < n)%nat → (n < c)%nat → ((r + i) mod c ≠ (r + n) mod c)%nat.
Proof.
  intros Hi Hn E. assert (H := Nat.Div0.div_mod (r + i) c). assert (H' := Nat.Div0.div_mod (r + n) c).
  rewrite E in H. assert ((r + n) - (r + i) = c * ((r + n) / c - (r + i) / c))%nat by nia. nia.
Qed.

Lemma holds_push jb q x : holds jb q → (length q < capacity_ jb)%nat →
  ∃ buf, store (write_pos_ jb) x (buffer_ jb) = Ok buf ∧
    holds (mkJitterBuffer (sample_rate_ jb) (capacity_ jb) buf
      ((write_pos_ jb + 1) mod capacity_ jb) (read_pos_ jb) (length q + 1)) (q ++ [x]).
Proof.
  intros [Hsize Hb Hr Hw Ha Hs] Hlt. unfold store.
  assert (Hpos : (write_pos_ jb < length (buffer_ jb))%nat) by (rewrite Hw, Hsize; apply Nat.mod_upper_bound; lia).
  rewrite (proj2 (Nat.ltb_lt _ _)) by done. eexists. split; [done|].
  split; cbn; rewrite ?length_app; cbn; try lia.
  - by rewrite length_insert.
  - rewrite Hw, Nat.Div0.add_mod_idemp_l. f_equal. lia.
  - intros i Hi. destruct (decide (i = length q)) as [->|].
    + rewrite <-Hw, list_lookup_insert_eq by done. by rewrite lookup_app_r, Nat.sub_diag by lia.
    + rewrite list_lookup_insert_ne by (rewrite Hw; apply not_eq_sym, mod_neq; lia).
      rewrite lookup_app_l by lia. apply Hs. lia.
Qed.

Lemma holds_pop jb x q : holds jb (x :: q) →
  load (read_pos_ jb) (buffer_ jb) = Ok x ∧
  holds (mkJitterBuffer (sample_rate_ jb) (capacity_ jb) (buffer_ jb) (write_pos_ jb)
    ((read_pos_ jb + 1) mod capacity_ jb) (available_ jb - 1)) q.
Proof.
  intros [Hsize Hb Hr Hw Ha Hs]. cbn [length] in *.
  assert (Hr' : (read_pos_ jb < capacity_ jb)%nat) by lia. split.
  - unfold load. specialize (Hs O ltac:(lia)). rewrite Nat.add_0_r, Nat.mod_small in Hs by done. by rewrite Hs.
  - split; cbn; try lia.
    + left. apply Nat.mod_upper_bound. lia.
    + rewrite Hw, Nat.Div0.add_mod_idemp_l. f_equal. lia.
    + intros i Hi. rewrite Nat.Div0.add_mod_idemp_l, <-Nat.add_assoc. apply (Hs (S i)). lia.
Qed.

Lemma write_holds data jb q : holds jb q →
  ∃ jb', write data jb = Ok jb' ∧ capacity_ jb' = capacity_ jb ∧
    holds jb' (q ++ take (capacity_ jb - length q) data).
Proof.
  revert jb q. induction data as [|x data IH]; intros jb q Hq; cbn [write].
  { exists jb. rewrite take_nil, app_nil_r. done. }
  rewrite (holds_available _ _ Hq). destruct (length q <? capacity_ jb)%nat eqn:E.
  - apply Nat.ltb_lt in E. destruct (holds_push jb q x Hq E) as (buf&->&Hq'). rsimpl.
    destruct (IH _ _ Hq') as (jb'&->&Hc&Hq''). exists jb'. split; [done|]. split; [done|].
    cbn [capacity_] in Hq''. rewrite length_app in Hq''. cbn [length] in Hq''. rewrite <-app_assoc in Hq''.
    replace (capacity_ jb - length q)%nat with (S (capacity_ jb - (length q + 1))) by lia. exact Hq''.
  - apply Nat.ltb_ge in E. exists jb. replace (capacity_ jb - length q)%nat with O by lia.
    by rewrite take_0, app_nil_r.
Qed.

Lemma read_holds n jb q : holds jb q →
  ∃ jb', read n jb = Ok (take n q ++ replicate (n - length q) 0, jb') ∧ capacity_ jb' = capacity_ jb ∧
    holds jb' (drop n q).
Proof.
  revert jb q. induction n as [|n IH]; intros jb q Hq; cbn [read].
  { exists jb. rewrite take_0, drop_0. done. }
  rewrite (holds_available _ _ Hq). destruct q as [|x q].
  - exists jb. by rewrite Nat.ltb_irrefl.
  - destruct (holds_pop jb x q Hq) as [-> Hq']. rsimpl. cbn [length Nat.ltb Nat.leb].
    destruct (IH _ _ Hq') as (jb'&E&Hc&Hq''). exists jb'. rewrite (holds_available _ _ Hq) in E. cbn [length] in E.
    rewrite E. rsimpl. done.
Qed.

Lemma buffer_step_holds o jb q : holds jb q →
  ∃ jb', buffer_step o jb = Ok (jb', (queue_step (capacity_ jb) o q).2) ∧ capacity_ jb' = capacity_ jb ∧
    holds jb' (queue_step (capacity_ jb) o q).1.
Proof.
  intros Hq. destruct o as [data|n| |]; cbn [buffer_step queue_step fst snd].
  - destruct (write_holds data jb q Hq) as (jb'&->&?&?). rsimpl. eauto.
  - destruct (read_holds n jb q Hq) as (jb'&->&?&?). rsimpl. eauto.
  - exists jb. unfold available. by rewrite (holds_available _ _ Hq).
  - exists (clear jb). split; [done|]. split; [done|by eapply holds_clear].
Qed.

Lemma buffer_run_holds ops jb q : holds jb q → buffer_run ops jb = Ok (queue_run (capacity_ jb) ops q).
Proof.
  revert jb q. induction ops as [|o ops IH]; intros jb q Hq; cbn [buffer_run queue_run]; [done|].
  destruct (buffer_step_holds o jb q Hq) as (jb'&->&Hc&Hq'). rsimpl. rewrite (IH _ _ Hq'). rsimpl.
  rewrite Hc. by destruct (queue_step (capacity_ jb) o q).
Qed.

(** ** Property *)

(** C37: the jitter buffer is a bounded queue: whatever the constructor's
    arguments, every sequence of operations returns without an access outside the
    buffer, and what the reads and [available] return is what they return for a
    queue of at most [capacity_of] samples that drops what does not fit and gives
    silence for what is missing. *)
Theorem jitter_buffer_refines_queue capacity_ms sample_rate ops :
  buffer_run ops (newJitterBuffer capacity_ms sample_rate) =
    Ok (queue_run (capacity_of capacity_ms sample_rate) ops []).
Proof. apply buffer_run_holds, holds_new. Qed.
