(* ===== verification/Wav.v ===== *)
(** * WAV files (src/client_cli/src/audio/wav.cpp)

    [writeWav] makes the contents of a file from samples, [readWav] reads them
    back.  A file is its bytes; whether it opens and whether writing it succeeds
    are arguments.  An input stream is what is left of the file, for it only
    moves forward, and its fail bit; what a failed read leaves in a buffer is
    not initialised, and using it is undefined.  Samples are 16-bit integers,
    stored as a little-endian host stores them. *)

From Stdlib Require Import Ascii.
From S2P Require Export Bytes JitterBuffer.

(** ** Little-endian integers *)

Definition writeU32LE (val : Z) : bytes := [u8 val; u8 (val .>> 8); u8 (val .>> 16); u8 (val .>> 24)].
Definition writeU16LE (val : Z) : bytes := [u8 val; u8 (val .>> 8)].

Record istream := mkIstream { rest : bytes; failed : bool }.

(** [in.read(buf, n)]: the contents of [buf], [None] where nothing was stored. *)
Definition in_read (n : nat) (s : istream) : list (option Z) * istream :=
  if failed s then (replicate n None, s) else
  let got := take n (rest s) in
  (map Some got ++ replicate (n - length got) None, mkIstream (drop n (rest s)) (length got <? n)%nat).

(** [in.seekg(n, std::ios::cur)]: past the end is no failure. *)
Definition seekg (n : nat) (s : istream) : istream :=
  if failed s then s else mkIstream (drop n (rest s)) false.

Definition readU32LE (s : istream) : result (Z * istream) :=
  match in_read 4 s with
  | ([Some b0; Some b1; Some b2; Some b3], s) =>
      Ok (((b0 .| (b1 .<< 8)) .| (b2 .<< 16)) .| (b3 .<< 24), s)
  | _ => Err Undefined
  end.

Definition readU16LE (s : istream) : result (Z * istream) :=
  match in_read 2 s with
  | ([Some b0; Some b1], s) => Ok (b0 .| (b1 .<< 8), s)
  | _ => Err Undefined
  end.

(** [std::strncmp(buf, lit, n) == 0], for a literal without a NUL. *)
Fixpoint strncmp (buf : list (option Z)) (lit : bytes) : result bool :=
  match lit, buf with
  | [], _ => Ok true
  | l :: lit, Some b :: buf => if b =? l then strncmp buf lit else Ok false
  | _ :: _, _ => Err Undefined
  end.

(** ** Samples *)

Definition sample_ok (x : Z) : Prop := - 2 ^ 15 ≤ x < 2 ^ 15.

Definition sample_bytes (x : Z) : bytes := [u8 x; u8 (x .>> 8)].
Definition sample_of (lo hi : Z) : Z := let v := lo + 256 * hi in if v <? 2 ^ 15 then v else v - 2 ^ 16.

Fixpoint samples_of (l : bytes) : list Z :=
  match l with
  | lo :: hi :: l => sample_of lo hi :: samples_of l
  | _ => []
  end.

(** ** Writing *)

Definition writeWav (opened written : bool) (filename : string) (samples : list Z)
    (sample_rate num_channels bits : Z) : result bytes :=
  if negb opened then Err (Thrown WavError ("cannot open for writing: " +:+ filename)) else
  let data_size := u32 (Z.of_nat (length samples) * 2) in
  let byte_rate := u32 (sample_rate * num_channels * (bits / 8)) in
  let block_align := u16 (num_channels * (bits / 8)) in
  if negb written then Err (Thrown WavError ("write failed: " +:+ filename)) else
  Ok (bytes_of_string "RIFF" ++ writeU32LE (u32 (36 + data_size)) ++ bytes_of_string "WAVE" ++
      bytes_of_string "fmt " ++ writeU32LE 16 ++ writeU16LE 1 ++ writeU16LE num_channels ++
      writeU32LE sample_rate ++ writeU32LE byte_rate ++ writeU16LE block_align ++ writeU16LE bits ++
      bytes_of_string "data" ++ writeU32LE data_size ++
      take (Z.to_nat data_size) (samples ≫= sample_bytes)).

(** ** Reading *)

Record WavHeader := mkWavHeader { sampleRate : Z; numChannels : Z; bitsPerSample : Z; numSamples : Z }.

(** [samples.resize(size / 2); in.read(samples.data(), size)]: the read stores
    what is left of the file, and beyond the vector if [size] is odd. *)
Definition read_samples (size : Z) (s : istream) : result (list Z) :=
  let room := (2 * Z.to_nat (size / 2))%nat in
  let got := if failed s then [] else take (Z.to_nat size) (rest s) in
  if (room <? length got)%nat then Err Undefined else
  Ok (samples_of (got ++ replicate (room - length got) 0)).

Definition wav_error {A} (what filename : string) : result A := Err (Thrown WavError (what +:+ filename)).

(** The loop over the chunks: the samples, if there is a data chunk. *)
Fixpoint read_chunks (fuel : nat) (filename : string) (s : istream) (found_fmt : bool) (header : WavHeader) :
    result (option (list Z) * WavHeader) :=
  match fuel with
  | O => Err OutOfFuel
  | S fuel =>
      if failed s then Ok (None, header) else
      let '(id, s) := in_read 4 s in
      if failed s then Ok (None, header) else
      '(chunk_size, s) ← readU32LE s;
      is_fmt ← strncmp id (bytes_of_string "fmt ");
      if (is_fmt : bool) then
        '(format, s) ← readU16LE s;
        if negb (format =? 1) then wav_error "only PCM WAV supported: " filename else
        '(channels, s) ← readU16LE s;
        '(rate, s) ← readU32LE s;
        '(_, s) ← readU32LE s;
        '(_, s) ← readU16LE s;
        '(bits, s) ← readU16LE s;
        if negb (bits =? 16) then wav_error "only 16-bit WAV supported: " filename else
        let s := if 16 <? chunk_size then seekg (Z.to_nat (chunk_size - 16)) s else s in
        read_chunks fuel filename s true (mkWavHeader rate channels bits (numSamples header))
      else
        is_data ← strncmp id (bytes_of_string "data");
        if (is_data : bool) then
          if negb found_fmt then wav_error "data chunk before fmt: " filename else
          samples ← read_samples chunk_size s;
          Ok (Some samples, mkWavHeader (sampleRate header) (numChannels header) (bitsPerSample header)
            (u32 (Z.of_nat (length samples))))
        else read_chunks fuel filename (seekg (Z.to_nat chunk_size) s) found_fmt header
  end.

Definition readWav (file : option bytes) (filename : string) (header : WavHeader) : result (list Z * WavHeader) :=
  match file with
  | None => wav_error "cannot open: " filename
  | Some content =>
      let '(riff, s) := in_read 4 (mkIstream content false) in
      is_riff ← strncmp riff (bytes_of_string "RIFF");
      if negb is_riff then wav_error "not a RIFF file: " filename else
      '(_, s) ← readU32LE s;
      let '(wave, s) := in_read 4 s in
      is_wave ← strncmp wave (bytes_of_string "WAVE");
      if negb is_wave then wav_error "not a WAVE file: " filename else
      '(data, header) ← read_chunks (S (length content)) filename s false header;
      match data with
      | None => wav_error "no data chunk: " filename
      | Some samples => Ok (samples, header)
      end
  end.

(** ** Lemmas *)

Lemma u8_shiftr x k : 0 ≤ k → u8 (x .>> k) = byte_of x k.
Proof. intros. unfold u8. rewrite byte_of_val by done. by rewrite Z.shiftr_div_pow2. Qed.

Lemma u8_byte x : u8 x = byte_of x 0.
Proof. by rewrite <-u8_shiftr, Z.shiftr_0_r. Qed.

Lemma in_read_app x r n : length x = n → in_read n (mkIstream (x ++ r) false) = (map Some x, mkIstream r false).
Proof.
  intros <-. unfold in_read. cbn [failed rest].
  rewrite take_app_length, drop_app_length, Nat.sub_diag, Nat.ltb_irrefl. by rewrite app_nil_r.
Qed.

Lemma seekg_app x r n : length x = n → seekg n (mkIstream (x ++ r) false) = mkIstream r false.
Proof. intros <-. unfold seekg. cbn [failed rest]. by rewrite drop_app_length. Qed.

Lemma readU32LE_write v r : 0 ≤ v < 2 ^ 32 → readU32LE (mkIstream (writeU32LE v ++ r) false) = Ok (v, mkIstream r false).
Proof.
  intros Hv. unfold readU32LE. rewrite in_read_app by done. unfold writeU32LE. cbn [map].
  rewrite u8_byte, !u8_shiftr by lia. do 2 f_equal. rewrite <-(be32_put32 v) at 5 by done. unfold be32.
  by rewrite Z.lor_comm, (Z.lor_comm (byte_of v 0 .| _)), (Z.lor_comm (byte_of v 0)), <-!Z.lor_assoc.
Qed.

Lemma readU16LE_write v r : 0 ≤ v < 2 ^ 16 → readU16LE (mkIstream (writeU16LE v ++ r) false) = Ok (v, mkIstream r false).
Proof.
  intros Hv. unfold readU16LE. rewrite in_read_app by done. unfold writeU16LE. cbn [map].
  rewrite u8_byte, !u8_shiftr by lia. do 2 f_equal. rewrite <-(be16_put16 v) at 3 by lia. unfold be16.
  by rewrite Z.lor_comm.
Qed.

Lemma strncmp_eq a b : length a = length b → strncmp (map Some a) b = Ok (bool_decide (a = b)).
Proof.
  revert b. induction a as [|x a IH]; intros [|y b] Hl; try done. cbn [map strncmp].
  destruct (Z.eqb_spec x y) as [->|].
  - injection Hl as Hl. rewrite (IH b Hl). f_equal. apply bool_decide_ext. split; [by intros ->|by intros [= ->]].
  - by rewrite bool_decide_false by congruence.
Qed.

Lemma sample_of_bytes x : sample_ok x → sample_of (u8 x) (u8 (x .>> 8)) = x.
Proof.
  unfold sample_ok, sample_of, u8. intros Hx. rewrite Z.shiftr_div_pow2 by lia.
  pose proof (Z.div_mod x 256 ltac:(lia)). pose proof (Z.mod_pos_bound x 256 ltac:(lia)).
  pose proof (Z.div_mod (x / 256) 256 ltac:(lia)). pose proof (Z.mod_pos_bound (x / 256) 256 ltac:(lia)).
  change (2 ^ 8) with 256 in *. change (2 ^ 15) with 32768 in *. change (2 ^ 16) with 65536.
  destruct (Z.ltb_spec (x mod 256 + 256 * ((x / 256) mod 256)) 32768); lia.
Qed.

Lemma samples_of_bytes l : Forall sample_ok l → samples_of (l ≫= sample_bytes) = l.
Proof.
  induction 1 as [|x l Hx _ IH]; [done|]. cbn [mbind list_bind app sample_bytes samples_of].
  by rewrite sample_of_bytes, IH.
Qed.

Lemma length_sample_bytes l : length (l ≫= sample_bytes) = (2 * length l)%nat.
Proof. induction l as [|x l IH]; [done|]. cbn [mbind list_bind app length sample_bytes]. rewrite IH. lia. Qed.

Lemma take_sample_bytes n l : take (2 * n) (l ≫= sample_bytes) = take n l ≫= sample_bytes.
Proof.
  revert n. induction l as [|x l IH]; intros n; [cbn [mbind list_bind]; by rewrite !take_nil|].
  destruct n as [|n]; [done|]. replace (2 * S n)%nat with (S (S (2 * n))) by lia.
  cbn [mbind list_bind app sample_bytes take]. do 2 f_equal. apply IH.
Qed.

(** The samples a file can hold. *)
Definition stored (samples : list Z) : list Z := take (Z.to_nat (Z.of_nat (length samples) mod 2 ^ 31)) samples.

Lemma data_size_eq (samples : list Z) : u32 (Z.of_nat (length samples) * 2) = 2 * Z.of_nat (length (stored samples)).
Proof.
  unfold stored, u32. rewrite length_take_le.
  - change (2 ^ 32) with (2 ^ 31 * 2). rewrite Z.mul_mod_distr_r by done.
    rewrite Z2Nat.id by (apply Z.mod_pos_bound; lia). lia.
  - pose proof (Z.mod_le (Z.of_nat (length samples)) (2 ^ 31) ltac:(lia) ltac:(lia)). lia.
Qed.

Lemma stored_small (samples : list Z) : Z.of_nat (length samples) < 2 ^ 31 → stored samples = samples.
Proof. intros. unfold stored. rewrite Z.mod_small by lia. apply take_ge. lia. Qed.

(** *** Termination *)

Lemma in_read_shrinks n s : (length (rest (in_read n s).2) ≤ length (rest s))%nat.
Proof. unfold in_read. destruct (failed s); cbn; [done|]. rewrite length_drop. lia. Qed.

Lemma in_read_consumes n s : failed (in_read n s).2 = false → (n + length (rest (in_read n s).2) = length (rest s))%nat.
Proof.
  unfold in_read. destruct (failed s) eqn:E; cbn; [congruence|]. rewrite length_drop, length_take.
  intros Hl%Nat.ltb_ge. lia.
Qed.

Lemma seekg_shrinks n s : (length (rest (seekg n s)) ≤ length (rest s))%nat.
Proof. unfold seekg. destruct (failed s); cbn; [done|]. rewrite length_drop. lia. Qed.

Lemma readU32LE_cases s : match readU32LE s with
  | Ok (_, s') => (length (rest s') ≤ length (rest s))%nat | Err e => e = Undefined end.
Proof.
  unfold readU32LE. pose proof (in_read_shrinks 4 s). destruct (in_read 4 s) as [l s']. cbn in *.
  by destruct l as [|[b0|] [|[b1|] [|[b2|] [|[b3|] [|? ?]]]]].
Qed.

Lemma readU16LE_cases s : match readU16LE s with
  | Ok (_, s') => (length (rest s') ≤ length (rest s))%nat | Err e => e = Undefined end.
Proof.
  unfold readU16LE. pose proof (in_read_shrinks 2 s). destruct (in_read 2 s) as [l s']. cbn in *.
  by destruct l as [|[b0|] [|[b1|] [|? ?]]].
Qed.

Lemma strncmp_cases buf lit : match strncmp buf lit with Ok _ => True | Err e => e = Undefined end.
Proof.
  revert buf. induction lit as [|l lit IH]; intros [|[b|] buf]; cbn; try done.
  destruct (b =? l); [apply IH|done].
Qed.

(** One step of a computation that does not run out of fuel. *)
#[local] Ltac fuel_step :=
  match goal with
  | |- context [readU32LE ?s ≫= _] =>
      let H := fresh in pose proof (readU32LE_cases s) as H; destruct (readU32LE s) as [[? ?]|?]; rsimpl; [|by subst]
  | |- context [readU16LE ?s ≫= _] =>
      let H := fresh in pose proof (readU16LE_cases s) as H; destruct (readU16LE s) as [[? ?]|?]; rsimpl; [|by subst]
  | |- context [strncmp ?b ?l ≫= _] =>
      let H := fresh in pose proof (strncmp_cases b l) as H; destruct (strncmp b l) as [[]|?]; rsimpl; [..|by subst]
  | |- context [if ?b then _ else _] => destruct b; [done|]
  end.

Lemma read_chunks_fuel fuel filename s found_fmt header : (length (rest s) < fuel)%nat →
  read_chunks fuel filename s found_fmt header ≠ Err OutOfFuel.
Proof.
  revert s found_fmt header. induction fuel as [|fuel IH]; intros s found_fmt header Hf; [lia|].
  cbn [read_chunks]. destruct (failed s); [done|].
  pose proof (in_read_consumes 4 s) as Hin. destruct (in_read 4 s) as [id s1]. cbn [snd] in Hin.
  destruct (failed s1); [done|]. specialize (Hin eq_refl). fuel_step. fuel_step.
  - fuel_step. fuel_step. do 5 fuel_step. fuel_step. apply IH.
    destruct (16 <? _); [eapply Nat.le_lt_trans; [apply seekg_shrinks|lia]|lia].
  - fuel_step.
    + fuel_step. unfold read_samples. by destruct (_ <? _)%nat.
    + apply IH. eapply Nat.le_lt_trans; [apply seekg_shrinks|lia].
Qed.

Lemma readWav_terminates file filename header : readWav file filename header ≠ Err OutOfFuel.
Proof.
  unfold readWav. destruct file as [content|]; [|done].
  pose proof (in_read_shrinks 4 (mkIstream content false)) as H1.
  destruct (in_read 4 (mkIstream content false)) as [riff s1]. cbn [snd rest] in H1. fuel_step; [|done]. cbn [negb].
  fuel_step. pose proof (in_read_shrinks 4 i) as H2. destruct (in_read 4 i) as [wave s2]. cbn [snd] in H2.
  fuel_step; [|done]. cbn [negb].
  pose proof (read_chunks_fuel (S (length content)) filename s2 false header ltac:(lia)) as Hc.
  destruct (read_chunks _ _ _ _ _) as [[[d|] h]|e]; rsimpl; congruence || done.
Qed.

(** *** Round trip *)

(** A chunk that is neither the format nor the data. *)
Definition chunk_bytes (c : bytes * bytes) : bytes := c.1 ++ writeU32LE (Z.of_nat (length c.2)) ++ c.2.
Definition chunk_ok (c : bytes * bytes) : Prop :=
  length c.1 = 4%nat ∧ c.1 ≠ bytes_of_string "fmt " ∧ c.1 ≠ bytes_of_string "data" ∧ Z.of_nat (length c.2) < 2 ^ 32.

(** The beginning of a file, up to the end of the format chunk, and the data
    chunk. *)
Definition wav_head (samples : list Z) (rate channels : Z) : bytes :=
  bytes_of_string "RIFF" ++ writeU32LE (u32 (36 + 2 * Z.of_nat (length (stored samples)))) ++ bytes_of_string "WAVE" ++
  bytes_of_string "fmt " ++ writeU32LE 16 ++ writeU16LE 1 ++ writeU16LE channels ++
  writeU32LE rate ++ writeU32LE (u32 (rate * channels * 2)) ++ writeU16LE (u16 (channels * 2)) ++ writeU16LE 16.
Definition wav_data (samples : list Z) : bytes :=
  bytes_of_string "data" ++ writeU32LE (2 * Z.of_nat (length (stored samples))) ++ (stored samples ≫= sample_bytes).

Lemma length_stored samples : 0 ≤ 2 * Z.of_nat (length (stored samples)) < 2 ^ 32.
Proof. rewrite <-data_size_eq. apply Z.mod_pos_bound. lia. Qed.

Lemma writeWav_eq filename samples rate channels :
  writeWav true true filename samples rate channels 16 = Ok (wav_head samples rate channels ++ wav_data samples).
Proof.
  unfold writeWav, wav_head, wav_data. cbn [negb]. rewrite data_size_eq. change (16 / 8) with 2.
  replace (Z.to_nat (2 * Z.of_nat (length (stored samples)))) with (2 * length (stored samples))%nat by lia.
  rewrite take_sample_bytes, <-!app_assoc. do 14 f_equal. unfold stored. rewrite length_take.
  rewrite Nat.min_l; [done|]. pose proof (Z.mod_le (Z.of_nat (length samples)) (2 ^ 31) ltac:(lia) ltac:(lia)). lia.
Qed.

Lemma read_data fuel filename samples tail header : Forall sample_ok samples →
  read_chunks (S fuel) filename (mkIstream (wav_data samples ++ tail) false) true header =
    Ok (Some (stored samples), mkWavHeader (sampleRate header) (numChannels header) (bitsPerSample header)
      (Z.of_nat (length (stored samples)))).
Proof.
  intros Hs. unfold wav_data. cbn [read_chunks failed]. rewrite <-!app_assoc, in_read_app by done. cbn [failed].
  pose proof (length_stored samples) as Hb. rewrite readU32LE_write by done. rsimpl.
  rewrite !strncmp_eq by done. rsimpl. rewrite bool_decide_false, bool_decide_true by done. cbn [negb].
  unfold read_samples. cbn [failed rest].
  replace (2 * Z.of_nat (length (stored samples)) / 2) with (Z.of_nat (length (stored samples))) by (rewrite Z.mul_comm, Z.div_mul; lia).
  rewrite Nat2Z.id. replace (Z.to_nat (2 * _)) with (2 * length (stored samples))%nat by lia.
  rewrite <-length_sample_bytes, take_app_length, Nat.ltb_irrefl, Nat.sub_diag, app_nil_r. rsimpl.
  rewrite samples_of_bytes by (by apply Forall_take). do 4 f_equal. unfold u32. apply Z.mod_small. lia.
Qed.

Lemma read_extra filename samples extra tail header fuel : Forall sample_ok samples → Forall chunk_ok extra →
  (length extra < fuel)%nat →
  read_chunks fuel filename (mkIstream ((extra ≫= chunk_bytes) ++ wav_data samples ++ tail) false) true header =
    Ok (Some (stored samples), mkWavHeader (sampleRate header) (numChannels header) (bitsPerSample header)
      (Z.of_nat (length (stored samples)))).
Proof.
  intros Hs Hx. revert fuel. induction Hx as [|[id data] extra (Hid&Hf&Hd&Hl) _ IH]; intros fuel Hfuel;
    (destruct fuel as [|fuel]; [cbn in Hfuel; lia|]).
  - by apply read_data.
  - cbn [fst snd length] in *. cbn [mbind list_bind]. unfold chunk_bytes at 1. cbn [fst snd].
    rewrite <-!app_assoc. cbn [read_chunks failed]. rewrite in_read_app by done. cbn [failed].
    rewrite readU32LE_write by lia. rsimpl. rewrite !strncmp_eq by done. rsimpl.
    rewrite !bool_decide_false by done. rewrite seekg_app by lia. apply IH. lia.
Qed.

Lemma read_head filename samples rate channels body header fuel : 0 ≤ rate < 2 ^ 32 → 0 ≤ channels < 2 ^ 16 →
  (length (wav_head samples rate channels ++ body) = fuel)%nat →
  ∃ h, h = mkWavHeader rate channels 16 (numSamples header) ∧
  readWav (Some (wav_head samples rate channels ++ body)) filename header =
    ('(data, header) ← read_chunks fuel filename (mkIstream body false) true h;
     match data with
     | None => wav_error "no data chunk: " filename
     | Some samples => Ok (samples, header)
     end).
Proof.
  intros Hr Hc <-. eexists. split; [done|]. unfold readWav.
  assert (U : ∀ x, 0 ≤ u32 x < 2 ^ 32) by (intros; apply Z.mod_pos_bound; lia).
  assert (V : ∀ x, 0 ≤ u16 x < 2 ^ 16) by (intros; apply Z.mod_pos_bound; lia).
  set (n := length (_ ++ body)). unfold wav_head. rewrite <-!app_assoc.
  rewrite in_read_app by done. rewrite strncmp_eq by done. rsimpl. rewrite bool_decide_true by done. cbn [negb].
  rewrite readU32LE_write by apply U. rsimpl. rewrite in_read_app by done. rewrite strncmp_eq by done. rsimpl.
  rewrite bool_decide_true by done. cbn [negb]. cbn [read_chunks failed].
  rewrite in_read_app by done. cbn [failed]. rewrite readU32LE_write by lia. rsimpl.
  rewrite (strncmp_eq (bytes_of_string "fmt ") (bytes_of_string "fmt ")) by done. rsimpl. rewrite bool_decide_true by done.
  rewrite readU16LE_write by lia. rsimpl. cbn [Z.eqb Pos.eqb negb].
  rewrite readU16LE_write by lia. rsimpl. rewrite readU32LE_write by lia. rsimpl.
  rewrite readU32LE_write by apply U. rsimpl. rewrite readU16LE_write by apply V. rsimpl.
  rewrite readU16LE_write by lia. rsimpl. cbn [Z.eqb Pos.eqb negb]. by rewrite Z.ltb_irrefl.
Qed.

(** ** Property *)

(** C38: WAV files: reading terminates on every file, whatever its chunks say;
    and what [writeWav] writes is read back by [readWav]: the rate, the number of
    channels and the samples (all of them, if they are fewer than 2^31; the size
    field wraps beyond), also when other chunks stand before the data and other
    bytes after it. *)
Theorem wav_roundtrip :
  (∀ file filename header, readWav file filename header ≠ Err OutOfFuel) ∧
  ∀ filename samples rate channels extra tail header,
    Forall sample_ok samples → 0 ≤ rate < 2 ^ 32 → 0 ≤ channels < 2 ^ 16 → Forall chunk_ok extra →
    ∃ head data, writeWav true true filename samples rate channels 16 = Ok (head ++ data) ∧
      readWav (Some (head ++ (extra ≫= chunk_bytes) ++ data ++ tail)) filename header =
        Ok (stored samples, mkWavHeader rate channels 16 (Z.of_nat (length (stored samples)))) ∧
      (Z.of_nat (length samples) < 2 ^ 31 → stored samples = samples).
Proof.
  split; [apply readWav_terminates|]. intros filename samples rate channels extra tail header Hs Hr Hc Hx.
  exists (wav_head samples rate channels), (wav_data samples).
  split; [apply writeWav_eq|]. split; [|apply stored_small].
  destruct (read_head filename samples rate channels ((extra ≫= chunk_bytes) ++ wav_data samples ++ tail) header _
    Hr Hc eq_refl) as (h&->&->).
  rewrite read_extra; [done|done|done|]. rewrite !length_app.
  assert (length extra ≤ length (extra ≫= chunk_bytes))%nat; [|cbn; lia].
  clear -Hx. induction Hx as [|[id data] extra (Hid&_) _ IH]; [done|]. cbn [fst] in Hid.
  cbn [mbind list_bind length]. unfold chunk_bytes at 1. cbn [fst snd]. rewrite !length_app, Hid. lia.
Qed.

Definition beep : list Z := [1; -2; 32767; -32768].
Definition note_chunk : bytes * bytes := (bytes_of_string "LIST", [1; 2; 3]).

Lemma wav_roundtrip_witness : ∃ head data, writeWav true true "a.wav" beep 48000 1 16 = Ok (head ++ data) ∧
  readWav (Some (head ++ chunk_bytes note_chunk ++ data ++ [9])) "a.wav" (mkWavHeader 0 0 0 0) =
    Ok (beep, mkWavHeader 48000 1 16 4).
Proof.
  destruct (proj2 wav_roundtrip "a.wav" beep 48000 1 [note_chunk] [9] (mkWavHeader 0 0 0 0)) as (head&data&Hw&Hr&Hs).
  - repeat constructor; unfold sample_ok; lia.
  - lia.
  - lia.
  - repeat constructor; done.
  - exists head, data. split; [exact Hw|]. rewrite Hs in Hr by (cbn; lia). exact Hr.
Defined.
