(* ===== verification/ClientSafety.v ===== *)
(** * How a call ends for a client

    What the client does when the server tells it that a call is over, and when
    the server answers with an error: the session, the peer connection and the
    callbacks that survive it. *)

From Stdlib Require Import Ascii.
From S2P Require Export Exchange.

#[local] Existing Instances ToyOpenSSL ToyOpenSSLSpec ToyJson ToyJsonSpec ToySqlite ToySqliteSpec ToyJwt ToyJwtSpec.

Section teardown.
Context `{OpenSSLSpec, JsonSpec, !JwtCpp, !JwtCppSpec, !IterOrder string CallSession}.
Variable rtc_init : ClientTurn → result ().
Variable rtc_apply : ClientEvent → result ().

(** The two messages that end a call, and the answer to a request that fails. *)
Definition over_msg (type id reason : string) : json :=
  json_texts [("type", type); ("callId", id); ("reason", reason)].

(** *** Lemmas *)

Lemma over_msg_ok type id reason : type ∈ ["call.ended"; "call.failed"] → text_ok id → text_ok reason →
  json_ok (over_msg type id reason).
Proof.
  intros Ht Hid Hr. assert (text_ok type) by (apply list_elem_of_In in Ht as [<-|[<-|[]]]; text_lit).
  apply texts_ok. repeat constructor; try done; text_lit.
Qed.

(** What [cleanupCall] leaves. *)
Definition cleaned (c : Client) : Client :=
  if call_cleanup_done c then c else
  with_session (with_call no_call (client_session c))
    (mkClient (cmds c) false false (rtc_callbacks c) (audio_ c) false true).

Definition cleanup_events (c : Client) : list ClientEvent :=
  if call_cleanup_done c then [] else
  (if audio_ c then [CaptureStop; PlaybackStop] else []) ++ (if pc_alive c then [RtcClose] else []).

Lemma cleanupCall_eq c : cleanupCall c = (Ok (), cleaned c, cleanup_events c).
Proof.
  destruct c as [[s q w cc sf] [|] ha cb [|] co [|]]; reflexivity.
Qed.

(** The session without a call. *)
Definition call_dropped (c : Client) : Client := with_session (with_call no_call (client_session c)) c.

Lemma value_texts j type id reason : j = over_msg type id reason →
  json_value j "type" "" = Ok type ∧ json_value j "reason" "unknown" = Ok reason ∧ json_field j "type" = Some type.
Proof.
  intros ->. unfold over_msg. split; [|split].
  - apply value_str; [apply texts_is_object|by rewrite texts_get_cons].
  - apply value_str; [apply texts_is_object|by rewrite !texts_get_cons].
  - apply field_str. by rewrite texts_get_cons.
Qed.

Lemma handle_over type id reason c : type ∈ ["call.ended"; "call.failed"] → text_ok id → text_ok reason →
  ∃ line, ClientMessages.handle rtc_apply (text_of (over_msg type id reason)) c = (Ok (), call_dropped c, [Printed line]).
Proof.
  intros Ht Hid Hr. destruct (text_of_ok _ (over_msg_ok type id reason Ht Hid Hr)) as [_ Hp].
  destruct (value_texts _ type id reason eq_refl) as (_&Hreason&Htype).
  unfold ClientMessages.handle. rewrite Hp, Htype.
  apply list_elem_of_In in Ht as [<-|[<-|[]]].
  - exists ("[call] ended, reason: " +:+ reason).
    change (handleCallEnded (over_msg "call.ended" id reason) c =
      (Ok (), call_dropped c, [Printed ("[call] ended, reason: " +:+ reason)])).
    unfold handleCallEnded. rewrite Hreason, bind_lift, bind_session. reflexivity.
  - exists ("[call] failed: " +:+ reason).
    change (handleCallFailed (over_msg "call.failed" id reason) c =
      (Ok (), call_dropped c, [Printed ("[call] failed: " +:+ reason)])).
    unfold handleCallFailed. rewrite Hreason, bind_lift, bind_session. reflexivity.
Qed.

Lemma on_message_over type id reason c : type ∈ ["call.ended"; "call.failed"] → text_ok id → text_ok reason →
  ∃ line, on_message rtc_init rtc_apply (text_of (over_msg type id reason)) c =
    (Ok (), cleaned (call_dropped c), Printed line :: cleanup_events c).
Proof.
  intros Ht Hid Hr. destruct (text_of_ok _ (over_msg_ok type id reason Ht Hid Hr)) as [_ Hp].
  destruct (value_texts _ type id reason eq_refl) as (Htype&_&_).
  destruct (handle_over type id reason c Ht Hid Hr) as [line Hh]. exists line.
  assert (E : on_message_try rtc_init rtc_apply (text_of (over_msg type id reason)) c =
    (Ok true, cleaned (call_dropped c), Printed line :: cleanup_events c)).
  { unfold on_message_try. rewrite Hp, bind_lift, Htype, bind_lift.
    rewrite bool_decide_false by (apply list_elem_of_In in Ht as [<-|[<-|[]]]; done).
    rewrite bool_decide_false by (apply list_elem_of_In in Ht as [<-|[<-|[]]]; done).
    replace (bool_decide (type = "call.ended") || bool_decide (type = "call.failed")) with true
      by (apply list_elem_of_In in Ht as [<-|[<-|[]]]; done).
    rewrite (bind_Ok _ _ _ _ _ _ Hh), (bind_Ok _ _ _ _ _ _ (cleanupCall_eq _)).
    unfold mret, eff_ret. by rewrite app_nil_r. }
  unfold on_message, try. erewrite bind_Ok by (by rewrite E). cbv beta iota. unfold mret, eff_ret. by rewrite app_nil_r.
Qed.

(** *** An answer with an error *)

Lemma on_message_error reason c : text_ok reason →
  ∃ line, on_message rtc_init rtc_apply (text_of (error_msg reason)) c =
    if decide (call_state (call (client_session c)) = AppState.Calling)
    then (Ok (), cleaned c, Printed line :: cleanup_events c)
    else (Ok (), c, [Printed line]).
Proof.
  intros Hr. destruct (text_of_ok _ (error_ok reason Hr)) as [_ Hp].
  assert (Htype : json_value (error_msg reason) "type" "" = Ok "error")
    by (apply value_str; [apply texts_is_object|unfold error_msg; by rewrite texts_get_cons]).
  assert (Hh : ∃ line, ClientMessages.handle rtc_apply (text_of (error_msg reason)) c = (Ok (), c, [Printed line])).
  { unfold ClientMessages.handle. rewrite Hp, (field_str _ "type" "error")
      by (unfold error_msg; by rewrite texts_get_cons).
    destruct (json_value (error_msg reason) "error" "unknown error") as [un|e] eqn:Hun.
    - exists ("[server error] " +:+ reason).
      change (handleError (error_msg reason) c = (Ok (), c, [Printed ("[server error] " +:+ reason)])).
      unfold handleError. rewrite Hun, bind_lift.
      rewrite (value_str _ "message" reason) by (apply texts_is_object || (unfold error_msg; by rewrite !texts_get_cons)).
      by rewrite bind_lift.
    - exfalso. revert Hun. unfold json_value, error_msg.
      rewrite texts_is_object, !texts_get_cons. cbn [String.eqb Ascii.eqb Bool.eqb negb]. unfold json_texts. by rewrite get_object. }
  destruct Hh as [line Hh]. exists line.
  assert (E : on_message_try rtc_init rtc_apply (text_of (error_msg reason)) c =
    if decide (call_state (call (client_session c)) = AppState.Calling)
    then (Ok true, cleaned c, Printed line :: cleanup_events c) else (Ok true, c, [Printed line])).
  { unfold on_message_try. rewrite Hp, bind_lift, Htype, bind_lift. cbn [bool_decide].
    rewrite bool_decide_true by done. rewrite (bind_Ok _ _ _ _ _ _ Hh), bind_session.
    case_decide as Hc; [rewrite bool_decide_true by done|rewrite bool_decide_false by done].
    - rewrite (bind_Ok _ _ _ _ _ _ (cleanupCall_eq c)). unfold mret, eff_ret. by rewrite app_nil_r.
    - done. }
  unfold on_message. case_decide;
    (erewrite bind_Ok by (unfold try; by rewrite E)); cbv beta iota; unfold mret, eff_ret; by rewrite ?app_nil_r.
Qed.

(** *** The command [hangup], and an offer that comes too late *)

Definition hangup_msg (id : string) : list (string * string) := [("type", "call.hangup"); ("callId", id)].

Lemma wp_type_hangup http c (Q : () → Client → list ClientEvent → Prop) :
  let s := client_session c in
  isInCall s = true → text_ok (call_id (call s)) → ws_send_ (cmds c) = true → quit_ (cmds c) = false →
  (∀ evs, sends evs = [text_of (json_texts (hangup_msg (call_id (call s))))] → Q () (call_dropped c) evs) →
  wp (type_line http "hangup") Q c.
Proof.
  intros s Hin Ht Hsend Hquit HQ. apply wp_type_line. unfold processLine. cbn [str_empty].
  change (Cli.parse "hangup") with (mkCommand "hangup" []). cbn [name str_empty].
  change (dispatch http (mkCommand "hangup" [])) with (Cli.hangup []).
  wp_step. unfold Cli.hangup. wp_step. apply wp_session_of. fold (client_session c). fold s.
  rewrite Hin. cbn [negb]. wp_step. apply wp_send_json; [|done|].
  { apply texts_ok. repeat constructor; try done; text_lit. }
  wp_step. apply wp_set_session. unfold success. wp_step. apply wp_answer_line; [done|done|]. by apply HQ.
Qed.

Lemma late_offer id sdp c : is_caller (call (client_session c)) = false → rtc_callbacks c = true →
  handlers_alive c = false → text_ok id → text_ok sdp →
  on_message rtc_init rtc_apply (text_of (sdp_msg "webrtc.offer" id sdp)) c = (Err Undefined, c, []).
Proof.
  intros Hc Hcb Ha Hid Hsdp. set (j := sdp_msg "webrtc.offer" id sdp).
  rewrite (receive rtc_init rtc_apply j "webrtc.offer" c (handleWebrtcOffer rtc_apply j)).
  - unfold handleWebrtcOffer. subst j. unfold sdp_msg. rewrite !texts_get_cons. cbn [String.eqb Ascii.eqb Bool.eqb].
    rewrite bind_session, Hc, bind_client, Hcb. unfold to_text. rewrite string_str, bind_lift.
    unfold handleOffer, through_handler. by rewrite bind_client, Ha.
  - apply sdp_msg_ok; text_lit || done.
  - apply texts_is_object.
  - subst j. unfold sdp_msg. by rewrite texts_get_cons.
  - set_solver.
  - intros raw Hp Ht. unfold ClientMessages.handle. by rewrite Hp, Ht.
Qed.

Lemma cleaned_fresh c : call_cleanup_done c = false → cleaned (call_dropped c) =
  with_session (with_call no_call (client_session c)) (mkClient (cmds c) false false (rtc_callbacks c) (audio_ c) false true).
Proof.
  intros Hd. unfold cleaned. change (call_cleanup_done (call_dropped c)) with (call_cleanup_done c). by rewrite Hd.
Qed.

(** C30: how a call ends for a client. When the server says that it ended or
    failed, the client is idle, and unless a cleanup had been done since the last
    configuration, the peer connection and the audio are stopped and dropped;
    but an offer that comes later then dereferences a null pointer. An error of
    the server resets a client that is calling, but not when the last cleanup has
    not been followed by a configuration: it stays in its call state. And
    [hangup] tells the server and resets the session only: the peer connection
    and the audio run on. *)
Theorem client_teardown http c id reason : text_ok id → text_ok reason →
  (∀ type, type ∈ ["call.ended"; "call.failed"] →
     ∃ c' evs, on_message rtc_init rtc_apply (text_of (over_msg type id reason)) c = (Ok (), c', evs) ∧
       call (client_session c') = no_call ∧ call_cleanup_done c' = true ∧
       (call_cleanup_done c = false →
          pc_alive c' = false ∧ handlers_alive c' = false ∧
          (RtcClose ∈ evs ↔ pc_alive c = true) ∧ (CaptureStop ∈ evs ↔ audio_ c = true) ∧
          (rtc_callbacks c = true → ∀ sdp, text_ok sdp →
             on_message rtc_init rtc_apply (text_of (sdp_msg "webrtc.offer" id sdp)) c' = (Err Undefined, c', [])))) ∧
  (call_state (call (client_session c)) = AppState.Calling →
     ∃ c' evs, on_message rtc_init rtc_apply (text_of (error_msg reason)) c = (Ok (), c', evs) ∧
       if call_cleanup_done c then c' = c else call (client_session c') = no_call) ∧
  (isInCall (client_session c) = true → text_ok (call_id (call (client_session c))) →
     ws_send_ (cmds c) = true → quit_ (cmds c) = false →
     ∃ c' evs, type_line http "hangup" c = (Ok (), c', evs) ∧
       sends evs = [text_of (json_texts (hangup_msg (call_id (call (client_session c)))))] ∧
       call (client_session c') = no_call ∧ pc_alive c' = pc_alive c ∧ handlers_alive c' = handlers_alive c ∧
       audio_ c' = audio_ c).
Proof.
  intros Hid Hr. split; [|split].
  - intros type Ht. destruct (on_message_over type id reason c Ht Hid Hr) as [line E].
    eexists _, _. split; [exact E|]. split; [by unfold cleaned; destruct (call_cleanup_done _)|].
    split; [unfold cleaned; by destruct (call_cleanup_done (call_dropped c)) eqn:?|].
    intros Hd. rewrite cleaned_fresh by done. unfold cleanup_events. rewrite Hd.
    split; [done|]. split; [done|]. split; [|split].
    + destruct (pc_alive c), (audio_ c); set_solver.
    + destruct (pc_alive c), (audio_ c); set_solver.
    + intros Hcb sdp Hsdp. by apply late_offer.
  - intros Hc. destruct (on_message_error reason c Hr) as [line E]. rewrite decide_True in E by done.
    eexists _, _. split; [exact E|]. unfold cleaned. by destruct (call_cleanup_done c).
  - intros Hin Ht Hs Hq. edestruct runs_wp as (e&E&M).
    { intros Q. exact (wp_type_hangup http c Q Hin Ht Hs Hq). }
    exists (call_dropped c), e. done.
Qed.
End teardown.

(** ** The call of Alice, after the other party hung up *)

Module parting.
#[local] Existing Instance talk.sessions_order.

Lemma client_teardown_witness : ∃ c' evs,
  on_message dial.rtc_init dial.rtc_apply (text_of (over_msg "call.ended" "1" "hangup")) (negotiation.client "alice" false)
    = (Ok (), c', evs) ∧ call (client_session c') = no_call ∧ handlers_alive c' = false ∧
  on_message dial.rtc_init dial.rtc_apply (text_of (sdp_msg "webrtc.offer" "1" "v=0")) c' = (Err Undefined, c', []).
Proof.
  assert (T1 : text_ok "1") by text_lit. assert (T2 : text_ok "hangup") by text_lit. assert (T3 : text_ok "v=0") by text_lit.
  destruct (proj1 (client_teardown dial.rtc_init dial.rtc_apply dial.http (negotiation.client "alice" false) "1" "hangup"
    T1 T2) "call.ended" (list_elem_of_here _ _)) as (c'&evs&E&Hc&_&Hclean).
  destruct (Hclean eq_refl) as (_&Hh&_&_&Hlate).
  exists c', evs. exact (conj E (conj Hc (conj Hh (Hlate eq_refl "v=0" T3)))).
Defined.
End parting.
