(* ===== verification/Dtls.v ===== *)
(** * The DTLS transport of the TURN server (src/turn_server/src/transport/dtls_transport.cpp)

    One [DtlsSession] per peer, made at its first datagram and never removed.
    OpenSSL is the class [Dtls]: a session object takes datagrams in, makes
    progress with the handshake, reads and writes plaintext, and holds datagrams
    to send.  Both mutexes are [std::mutex]: locking one that the thread owns is
    undefined (in practice it waits for itself for ever).

    The receive callback is the one of main.cpp: it runs [onPacket] of the
    dispatcher, which sends over this transport before it returns. *)

From Stdlib Require Import Ascii.
From S2P Require Export Server.

(** ** OpenSSL *)

Inductive handshake := HandshakeDone | HandshakeWants | HandshakeError (code : Z).

Class Dtls := {
  SSL : Type;
  SSL_new : SSL;
  BIO_write : bytes → SSL → SSL;              (* a datagram into rbio_ *)
  SSL_do_handshake : SSL → handshake * SSL;
  SSL_read : SSL → option bytes * SSL;        (* None: not positive *)
  SSL_write : bytes → SSL → SSL;
  BIO_read_all : SSL → list bytes * SSL;      (* what wbio_ gives until it is empty *)
}.

Inductive DtlsEvent :=
  | UdpSend (data : bytes) (peer : string)
  | OtherSend (event : Event)                 (* over another transport, or logged *)
  | DtlsError (line : string).

Section dtls.
Context `{OpenSSL} `{BoostAddress} `{!IterOrder string ptr} `{!IterOrder Z ChannelBinding} `{Dtls}.
(** [asio::ip::make_address(address).to_string()], which may throw. *)
Variable canonical : string → result string.

Record DtlsSession := mkDtlsSession {
  ssl_ : SSL;
  handshake_done_ : bool;
  mutex_ : bool;                               (* owned by the thread *)
}.

(** The transport, and the dispatcher behind its callback. *)
Record DtlsServer := mkDtlsServer {
  dtls_sessions_ : gmap string DtlsSession;
  sessions_mutex_ : bool;
  dispatcher : TurnDispatcher;
}.

Abbreviation M := (eff DtlsServer DtlsEvent).

Definition session_at (key : string) : M DtlsSession := λ w,
  (match dtls_sessions_ w !! key with Some s => Ok s | None => Err Undefined end, w, []).
Definition put_session_at (key : string) (s : DtlsSession) : M () := λ w,
  (Ok (), mkDtlsServer (<[key := s]> (dtls_sessions_ w)) (sessions_mutex_ w) (dispatcher w), []).
Definition set_ssl (key : string) (x : SSL) : M () :=
  s ← session_at key; put_session_at key (mkDtlsSession x (handshake_done_ s) (mutex_ s)).

(** [std::lock_guard]: an exception releases the mutex too. *)
Definition lock_session (key : string) : M () :=
  s ← session_at key;
  if mutex_ s then lift (Err Undefined) else
  put_session_at key (mkDtlsSession (ssl_ s) (handshake_done_ s) true).
Definition unlock_session (key : string) : M () :=
  s ← session_at key; put_session_at key (mkDtlsSession (ssl_ s) (handshake_done_ s) false).
Definition set_sessions_mutex (b : bool) : M () := λ w,
  (Ok (), mkDtlsServer (dtls_sessions_ w) b (dispatcher w), []).
Definition lock_sessions : M () :=
  w ← get; if sessions_mutex_ w then lift (Err Undefined) else set_sessions_mutex true.

Definition lock_guard {A} (lock unlock : M ()) (m : M A) : M A :=
  lock;;
  a ← try m (λ k what, unlock;; throw k what);
  unlock;;
  mret a.

Definition emit_all (l : list DtlsEvent) : M () := λ w, (Ok (), w, l).

(** ** DtlsSession *)

Definition flush_write (key : string) : M () :=
  s ← session_at key;
  let '(out, x) := BIO_read_all (ssl_ s) in
  set_ssl key x;;
  emit_all (map (λ d, UdpSend d key) out).

Definition send_session (key : string) (data : bytes) : M () :=
  lock_guard (lock_session key) (unlock_session key) (
    s ← session_at key;
    if negb (handshake_done_ s) then mret () else
    set_ssl key (SSL_write data (ssl_ s));;
    flush_write key).

(** ** DtlsTransport::send *)

Definition dtls_send (data : bytes) (to : Endpoint) : M () :=
  address ← lift (canonical (ep_address to));
  let key := address +:+ ":" +:+ to_string (ep_port to) in
  lock_guard lock_sessions (set_sessions_mutex false) (
    w ← get;
    match dtls_sessions_ w !! key with
    | Some _ => send_session key data
    | None => emit (DtlsError ("[dtls] no session for " +:+ key))
    end).

(** What the dispatcher sends while it runs. *)
Fixpoint dispatch_events (events : list Event) : M () :=
  match events with
  | [] => mret ()
  | Send DtlsTransport data to :: events => dtls_send data to;; dispatch_events events
  | e :: events => emit (OtherSend e);; dispatch_events events
  end.

(** The callback of main.cpp. *)
Definition on_receive (env : Inputs) (data : bytes) (from : Endpoint) : M () := λ w,
  let '(r, d, events) := onPacket env data from DtlsTransport (dispatcher w) in
  (dispatch_events events;; lift r) (mkDtlsServer (dtls_sessions_ w) (sessions_mutex_ w) d).

Definition set_handshake_done (key : string) : M () :=
  s ← session_at key; put_session_at key (mkDtlsSession (ssl_ s) true (mutex_ s)).

(** What [feed] does once the datagram is in [rbio_]. *)
Definition feed_locked (env : Inputs) (key : string) (peer : Endpoint) : M () :=
  s ← session_at key;
  if negb (handshake_done_ s) then
    let '(ret, x) := SSL_do_handshake (ssl_ s) in
    set_ssl key x;;
    match ret with
    | HandshakeDone => set_handshake_done key
    | HandshakeWants => mret ()
    | HandshakeError code => emit (DtlsError ("[dtls] handshake error: " +:+ to_string code))
    end;;
    flush_write key
  else
    let '(n, x) := SSL_read (ssl_ s) in
    set_ssl key x;;
    match n with
    | Some buf => on_receive env buf peer
    | None => mret ()
    end;;
    flush_write key.

Definition feed (env : Inputs) (key : string) (peer : Endpoint) (data : bytes) : M () :=
  lock_guard (lock_session key) (unlock_session key) (
    s ← session_at key;
    set_ssl key (BIO_write data (ssl_ s));;
    feed_locked env key peer).

(** ** DtlsTransport::receive, for one datagram *)

Definition receive (env : Inputs) (data : bytes) (from : Endpoint) : M () :=
  if (length data =? 0)%nat then mret () else
  let key := endpointKey from in
  lock_guard lock_sessions (set_sessions_mutex false) (
    w ← get;
    match dtls_sessions_ w !! key with
    | None => put_session_at key (mkDtlsSession SSL_new false false)
    | Some _ => mret ()
    end);;
  feed env key from data.

(** ** Lemmas *)

(** The computation ends in undefined behaviour. *)
Definition hangs {A} (m : M A) (w : DtlsServer) : Prop := ∃ w' l, m w = (Err Undefined, w', l).

Lemma hangs_bind {A B} (m : M A) (f : A → M B) w a w1 l : m w = (Ok a, w1, l) → hangs (f a) w1 → hangs (m ≫= f) w.
Proof. intros E (w2&l2&E2). unfold hangs, mbind, eff_bind. rewrite E, E2. eauto. Qed.

Lemma hangs_now {A B} (m : M A) (f : A → M B) w : hangs m w → hangs (m ≫= f) w.
Proof. intros (w1&l&E). unfold hangs, mbind, eff_bind. rewrite E. eauto. Qed.

Lemma hangs_guard {A} (lock unlock : M ()) (m : M A) w w1 l : lock w = (Ok (), w1, l) → hangs m w1 →
  hangs (lock_guard lock unlock m) w.
Proof.
  intros E (w2&l2&E2). unfold lock_guard. eapply hangs_bind; [exact E|]. apply hangs_now.
  unfold hangs, try. rewrite E2. eauto.
Qed.

Definition with_session_at (key : string) (s : DtlsSession) (w : DtlsServer) : DtlsServer :=
  mkDtlsServer (<[key := s]> (dtls_sessions_ w)) (sessions_mutex_ w) (dispatcher w).

Lemma session_at_eq key s w : dtls_sessions_ w !! key = Some s → session_at key w = (Ok s, w, []).
Proof. intros E. unfold session_at. by rewrite E. Qed.

Lemma bind_ok {A B} (m : M A) (f : A → M B) w a w1 : m w = (Ok a, w1, []) → (m ≫= f) w = f a w1.
Proof. intros E. unfold mbind, eff_bind. rewrite E. by destruct (f a w1) as [[? ?] ?]. Qed.

Lemma set_ssl_eq key x s w : dtls_sessions_ w !! key = Some s →
  set_ssl key x w = (Ok (), with_session_at key (mkDtlsSession x (handshake_done_ s) (mutex_ s)) w, []).
Proof. intros E. unfold set_ssl. by rewrite (bind_ok _ _ _ _ _ (session_at_eq _ _ _ E)). Qed.

Lemma lock_session_eq key s w : dtls_sessions_ w !! key = Some s →
  lock_session key w = if mutex_ s then (Err Undefined, w, []) else
    (Ok (), with_session_at key (mkDtlsSession (ssl_ s) (handshake_done_ s) true) w, []).
Proof.
  intros E. unfold lock_session. rewrite (bind_ok _ _ _ _ _ (session_at_eq _ _ _ E)). by destruct (mutex_ s).
Qed.

Lemma unlock_session_eq key s w : dtls_sessions_ w !! key = Some s →
  unlock_session key w = (Ok (), with_session_at key (mkDtlsSession (ssl_ s) (handshake_done_ s) false) w, []).
Proof. intros E. unfold unlock_session. by rewrite (bind_ok _ _ _ _ _ (session_at_eq _ _ _ E)). Qed.

Lemma lock_sessions_eq w : sessions_mutex_ w = false →
  lock_sessions w = (Ok (), mkDtlsServer (dtls_sessions_ w) true (dispatcher w), []).
Proof. intros E. unfold lock_sessions. erewrite bind_ok by reflexivity. by rewrite E. Qed.

Lemma lookup_with_session key s w : dtls_sessions_ (with_session_at key s w) !! key = Some s.
Proof. apply lookup_insert_eq. Qed.

(** Sending to a peer whose session is locked. *)
Lemma dtls_send_hangs data to key s w :
  canonical (ep_address to) = Ok (ep_address to) → endpointKey to = key →
  sessions_mutex_ w = false → dtls_sessions_ w !! key = Some s → mutex_ s = true → hangs (dtls_send data to) w.
Proof.
  intros Hc <- Hm Hs Hl. unfold dtls_send. rewrite Hc. eapply hangs_bind; [reflexivity|]. cbv zeta.
  change (ep_address to +:+ ":" +:+ to_string (ep_port to)) with (endpointKey to).
  eapply hangs_guard; [by apply lock_sessions_eq|]. eapply hangs_bind; [reflexivity|]. cbn [dtls_sessions_].
  rewrite Hs. unfold send_session, lock_guard. apply hangs_now. unfold hangs.
  rewrite (lock_session_eq _ s) by done. rewrite Hl. eauto.
Qed.

Lemma dispatch_events_hangs events r to rest w : datagrams events = (DtlsTransport, r, to) :: rest →
  hangs (dtls_send r to) w → hangs (dispatch_events events) w.
Proof.
  intros Hev Hs. induction events as [|e events IH]; [done|]. cbn [dispatch_events].
  destruct e as [t data to'|line|line].
  - change (datagrams (Send t data to' :: events)) with ((t, data, to') :: datagrams events) in Hev.
    injection Hev as -> -> -> _. by apply hangs_now.
  - eapply hangs_bind; [reflexivity|]. by apply IH.
  - eapply hangs_bind; [reflexivity|]. by apply IH.
Qed.

Lemma dispatch_events_quiet events w : datagrams events = [] → ∃ l, dispatch_events events w = (Ok (), w, l).
Proof.
  induction events as [|e events IH]; intros Hev; [by eexists|]. destruct e as [|line|line]; [done| |];
    (destruct (IH Hev) as [l E]; cbn [dispatch_events]; unfold mbind, eff_bind; cbn; rewrite E; by eexists).
Qed.

(** *** Computations that return *)

(** [Q] holds of the state in which the computation returns. *)
Definition leaves {A} (m : M A) (Q : DtlsServer → Prop) (w : DtlsServer) : Prop := wp m (λ _ w' _, Q w') w.

Lemma leaves_eq {A} (m : M A) Q w a w1 l : m w = (Ok a, w1, l) → Q w1 → leaves m Q w.
Proof. intros E HQ. unfold leaves, wp. by rewrite E. Qed.

Lemma leaves_bind {A B} (m : M A) (f : A → M B) Q w :
  wp m (λ a w1 _, leaves (f a) Q w1) w → leaves (m ≫= f) Q w.
Proof. intros Hm. apply wp_bind. eapply wp_mono; [exact Hm|]. intros a w1 l Hf. exact Hf. Qed.

Lemma leaves_bind_eq {A B} (m : M A) (f : A → M B) Q w a w1 l : m w = (Ok a, w1, l) → leaves (f a) Q w1 →
  leaves (m ≫= f) Q w.
Proof. intros E Hf. apply leaves_bind. unfold wp. by rewrite E. Qed.

Lemma leaves_guard {A} (lock unlock : M ()) (m : M A) Q w w1 l : lock w = (Ok (), w1, l) →
  leaves m (λ w2, leaves unlock Q w2) w1 → leaves (lock_guard lock unlock m) Q w.
Proof.
  intros E Hm. unfold lock_guard. eapply leaves_bind_eq; [exact E|]. apply leaves_bind.
  unfold leaves, wp, try in *. destruct (m w1) as [[[a|e] w2] l2]; [|done]. unfold mbind, eff_bind.
  by destruct (unlock w2) as [[[[]|e] w3] l3].
Qed.

Lemma flush_write_eq key s w : dtls_sessions_ w !! key = Some s →
  ∃ l, flush_write key w =
    (Ok (), with_session_at key (mkDtlsSession (BIO_read_all (ssl_ s)).2 (handshake_done_ s) (mutex_ s)) w, l).
Proof.
  intros E. unfold flush_write. rewrite (bind_ok _ _ _ _ _ (session_at_eq _ _ _ E)).
  destruct (BIO_read_all (ssl_ s)) as [out x]. rewrite (bind_ok _ _ _ _ _ (set_ssl_eq _ x _ _ E)).
  eexists. reflexivity.
Qed.

(** No mutex is owned. *)
Definition free (w : DtlsServer) : Prop :=
  sessions_mutex_ w = false ∧ ∀ k s, dtls_sessions_ w !! k = Some s → mutex_ s = false.

Lemma free_except key s w : sessions_mutex_ w = false →
  (∀ k s', k ≠ key → dtls_sessions_ w !! k = Some s' → mutex_ s' = false) → mutex_ s = false →
  free (with_session_at key s w).
Proof.
  intros Hm Ho Hs. split; [done|]. intros k s'. cbn. rewrite lookup_insert_Some. intros [[<- <-]|[? ?]]; [done|].
  by eapply Ho.
Qed.

(** The session of a datagram. *)
Definition opened (key : string) (w : DtlsServer) : DtlsServer :=
  match dtls_sessions_ w !! key with
  | None => with_session_at key (mkDtlsSession SSL_new false false) w
  | Some _ => w
  end.

Lemma receive_eq env data from w : data ≠ [] → sessions_mutex_ w = false →
  receive env data from w = feed env (endpointKey from) from data (opened (endpointKey from) w).
Proof.
  intros Hd Hm. unfold receive. destruct data as [|b data]; [done|]. cbn [length Nat.eqb]. cbv zeta.
  rewrite (bind_ok _ _ _ () (opened (endpointKey from) w)); [done|].
  unfold lock_guard. rewrite (bind_ok _ _ _ _ _ (lock_sessions_eq w Hm)).
  destruct w as [ss m d]. cbn in Hm. subst m. unfold opened, try, mbind, eff_bind. cbn.
  by destruct (ss !! endpointKey from).
Qed.

Lemma opened_free key w : free w → free (opened key w) ∧ dispatcher (opened key w) = dispatcher w ∧
  ∃ s, dtls_sessions_ (opened key w) !! key = Some s ∧ mutex_ s = false ∧
    (dtls_sessions_ w !! key = None ∨ dtls_sessions_ w !! key = Some s) ∧
    (dtls_sessions_ w !! key = None → handshake_done_ s = false).
Proof.
  intros [Hm Hf]. unfold opened. destruct (dtls_sessions_ w !! key) as [s|] eqn:E.
  - split; [done|]. split; [done|]. exists s. rewrite E. split_and!; [done|by eapply Hf|by right|done].
  - split; [apply free_except; [done|intros k s' _; apply Hf|done]|]. split; [done|].
    eexists. split; [apply lookup_with_session|]. split_and!; [done|by left|done].
Qed.

Lemma with_session_twice key s s' w : with_session_at key s' (with_session_at key s w) = with_session_at key s' w.
Proof. unfold with_session_at. cbn. by rewrite insert_insert_eq. Qed.

(** The session of a datagram that is being fed: it is locked, and the datagram
    is in its input. *)
Definition feeding (data : bytes) (s : DtlsSession) : DtlsSession :=
  mkDtlsSession (BIO_write data (ssl_ s)) (handshake_done_ s) true.

Lemma feed_enter env key peer data s w : dtls_sessions_ w !! key = Some s → mutex_ s = false →
  lock_session key w = (Ok (), with_session_at key (mkDtlsSession (ssl_ s) (handshake_done_ s) true) w, []) ∧
  (s ← session_at key; set_ssl key (BIO_write data (ssl_ s));; feed_locked env key peer)
     (with_session_at key (mkDtlsSession (ssl_ s) (handshake_done_ s) true) w) =
  feed_locked env key peer (with_session_at key (feeding data s) w).
Proof.
  intros E Hm. split; [by rewrite (lock_session_eq _ s), Hm|].
  rewrite (bind_ok _ _ _ _ _ (session_at_eq _ _ _ (lookup_with_session _ _ _))).
  rewrite (bind_ok _ _ _ _ _ (set_ssl_eq _ _ _ _ (lookup_with_session _ _ _))). by rewrite with_session_twice.
Qed.

Lemma feed_hangs env key peer data s w : dtls_sessions_ w !! key = Some s → mutex_ s = false →
  hangs (feed_locked env key peer) (with_session_at key (feeding data s) w) → hangs (feed env key peer data) w.
Proof.
  intros E Hm Hh. destruct (feed_enter env key peer data s w E Hm) as [El Ef].
  eapply hangs_guard; [exact El|]. unfold hangs in *. by rewrite Ef.
Qed.

(** [feed] leaves a free server if what it does while it holds the lock ends with
    the session locked and nothing else. *)
Lemma feed_leaves env key peer data s w Q : free w → dtls_sessions_ w !! key = Some s →
  leaves (feed_locked env key peer) (λ w', ∃ s' d', w' = with_session_at key s'
    (mkDtlsServer (dtls_sessions_ w) false d') ∧ Q d') (with_session_at key (feeding data s) w) →
  leaves (feed env key peer data) (λ w', free w' ∧ Q (dispatcher w')) w.
Proof.
  intros [Hm Hf] E Hl. destruct (feed_enter env key peer data s w E (Hf _ _ E)) as [El Ef].
  eapply leaves_guard; [exact El|]. unfold leaves, wp in Hl |- *. rewrite Ef.
  destruct (feed_locked env key peer _) as [[[a|e] w'] l]; [|done]. destruct Hl as (s'&d'&->&HQ).
  rewrite (unlock_session_eq _ s') by apply lookup_with_session. rewrite with_session_twice.
  split; [|exact HQ]. apply free_except; [done|intros k s0 _; apply Hf|done].
Qed.

Lemma with_session_eta key s w : sessions_mutex_ w = false →
  with_session_at key s w = with_session_at key s (mkDtlsServer (dtls_sessions_ w) false (dispatcher w)).
Proof. intros E. unfold with_session_at. by rewrite E. Qed.

Lemma leaves_flush key s w Q :
  Q (with_session_at key (mkDtlsSession (BIO_read_all (ssl_ s)).2 (handshake_done_ s) (mutex_ s)) w) →
  leaves (flush_write key) Q (with_session_at key s w).
Proof.
  intros HQ. destruct (flush_write_eq key s _ (lookup_with_session key s w)) as [l E].
  rewrite with_session_twice in E. by eapply leaves_eq.
Qed.

Lemma feed_handshake env key peer data s w : free w → dtls_sessions_ w !! key = Some s → handshake_done_ s = false →
  leaves (feed env key peer data) (λ w', free w' ∧ dispatcher w' = dispatcher w) w.
Proof.
  intros Hf E Hd. apply (feed_leaves _ _ _ _ s w (λ d', d' = dispatcher w)); [done|done|].
  unfold feed_locked. rewrite (with_session_eta _ _ _ (proj1 Hf)).
  set (W := mkDtlsServer (dtls_sessions_ w) false (dispatcher w)).
  eapply leaves_bind_eq; [apply session_at_eq, lookup_with_session|]. cbn [feeding handshake_done_ ssl_ mutex_].
  rewrite Hd. cbn [negb]. destruct (SSL_do_handshake _) as [ret x].
  eapply leaves_bind_eq; [apply set_ssl_eq, lookup_with_session|]. rewrite with_session_twice.
  cbn [handshake_done_ mutex_ feeding]. rewrite Hd.
  assert (Hr : ∃ b l, (match ret with
    | HandshakeDone => set_handshake_done key
    | HandshakeWants => mret ()
    | HandshakeError code => emit (DtlsError ("[dtls] handshake error: " +:+ to_string code))
    end) (with_session_at key (mkDtlsSession x false true) W) = (Ok (), with_session_at key (mkDtlsSession x b true) W, l)).
  { destruct ret as [| |code]; [|by do 2 eexists|by do 2 eexists]. exists true, [].
    unfold set_handshake_done. rewrite (bind_ok _ _ _ _ _ (session_at_eq _ _ _ (lookup_with_session _ _ _))).
    change (put_session_at key ?s ?w) with (Ok (), with_session_at key s w, @nil DtlsEvent).
    by rewrite with_session_twice. }
  destruct Hr as (b&l&Er). eapply leaves_bind_eq; [exact Er|]. apply leaves_flush.
  eexists _, (dispatcher w). split; [reflexivity|done].
Qed.

(** A packet over an established session that is answered by nothing. *)
Lemma feed_quiet env key peer data s w : free w → dtls_sessions_ w !! key = Some s → handshake_done_ s = true →
  (∀ buf, (SSL_read (BIO_write data (ssl_ s))).1 = Some buf →
     ∃ d' ev, onPacket env buf peer DtlsTransport (dispatcher w) = (Ok (), d', ev) ∧ datagrams ev = []) →
  leaves (feed env key peer data) (λ w', free w') w.
Proof.
  intros Hf E Hd Hq.
  enough (leaves (feed env key peer data) (λ w', free w' ∧ True) w) as Hl.
  { eapply wp_mono; [exact Hl|]. by intros ??? []. }
  apply (feed_leaves _ _ _ _ s w (λ _, True)); [done|done|].
  unfold feed_locked. rewrite (with_session_eta _ _ _ (proj1 Hf)).
  set (W := mkDtlsServer (dtls_sessions_ w) false (dispatcher w)).
  eapply leaves_bind_eq; [apply session_at_eq, lookup_with_session|]. cbn [feeding handshake_done_ ssl_ mutex_].
  rewrite Hd. cbn [negb]. destruct (SSL_read _) as [n x] eqn:Er. cbn [fst] in Hq.
  eapply leaves_bind_eq; [apply set_ssl_eq, lookup_with_session|]. rewrite with_session_twice.
  cbn [handshake_done_ mutex_ feeding]. rewrite Hd. destruct n as [buf|].
  - destruct (Hq buf eq_refl) as (d'&ev&Ep&Hev).
    destruct (dispatch_events_quiet ev (with_session_at key (mkDtlsSession x true true)
      (mkDtlsServer (dtls_sessions_ w) false d')) Hev) as [l El].
    eapply (leaves_bind_eq _ _ _ _ () (with_session_at key (mkDtlsSession x true true)
      (mkDtlsServer (dtls_sessions_ w) false d'))).
    { unfold on_receive. change (dispatcher (with_session_at key _ W)) with (dispatcher w). rewrite Ep.
      change (mkDtlsServer (dtls_sessions_ (with_session_at key ?t W)) (sessions_mutex_ (with_session_at key ?t W)) ?d)
        with (with_session_at key t (mkDtlsServer (dtls_sessions_ w) false d)).
      unfold mbind, eff_bind. rewrite El. reflexivity. }
    apply (leaves_flush key (mkDtlsSession x true true) (mkDtlsServer (dtls_sessions_ w) false d')).
    eexists _, d'. split; [reflexivity|done].
  - eapply leaves_bind_eq; [reflexivity|]. apply leaves_flush. eexists _, (dispatcher w). split; [reflexivity|done].
Qed.

(** A packet over an established session that is answered. *)
Lemma feed_answered env key peer data s w buf d' ev r rest : free w → dtls_sessions_ w !! key = Some s →
  handshake_done_ s = true → (SSL_read (BIO_write data (ssl_ s))).1 = Some buf →
  onPacket env buf peer DtlsTransport (dispatcher w) = (Ok (), d', ev) →
  datagrams ev = (DtlsTransport, r, peer) :: rest →
  canonical (ep_address peer) = Ok (ep_address peer) → endpointKey peer = key →
  hangs (feed env key peer data) w.
Proof.
  intros Hf E Hd Hread Ep Hev Hc Hk. apply (feed_hangs _ _ _ _ s); [done|by apply (proj2 Hf key)|].
  unfold feed_locked. eapply hangs_bind; [apply session_at_eq, lookup_with_session|].
  cbn [feeding handshake_done_ ssl_ mutex_]. rewrite Hd. cbn [negb].
  destruct (SSL_read _) as [n x] eqn:Er. cbn [fst] in Hread. subst n.
  eapply hangs_bind; [apply set_ssl_eq, lookup_with_session|]. rewrite with_session_twice.
  cbn [handshake_done_ mutex_ feeding]. rewrite Hd. apply hangs_now.
  unfold hangs, on_receive. cbn [with_session_at dispatcher]. rewrite Ep. apply hangs_now.
  eapply dispatch_events_hangs; [exact Hev|].
  apply (dtls_send_hangs r peer key (mkDtlsSession x true true)); [done|done|apply Hf|apply lookup_insert_eq|done].
Qed.
End dtls.

(** ** Property *)

Section properties.
Context `{OpenSSLSpec} `{BoostAddressSpec} `{!IterOrder string ptr} `{!IterOrder Z ChannelBinding} `{Dtls}.
Variable canonical : string → result string.

(** C14: DTLS sessions: while no mutex is owned, a datagram of a peer whose
    handshake is not done only drives the handshake, and one that the TURN server
    does not answer is handled, and both release the mutexes; but every request
    over an established session (a STUN message that is not an indication) makes
    the thread of the server lock the mutex of the session, which it owns since
    it fed the datagram: the answer cannot be sent. *)
Theorem dtls_requests_deadlock env data from w :
  served (dispatcher w) → inputs_ok env (dispatcher w) → free w → data ≠ [] →
  Z.of_nat (String.length (LongTermCred.realm_ (long_term_cred_ (dispatcher w)))) < 1000 →
  canonical (ep_address from) = Ok (ep_address from) →
  let session := dtls_sessions_ w !! endpointKey from in
  ((∀ s, session = Some s → handshake_done_ s = false) →
     ∃ w' l, receive canonical env data from w = (Ok (), w', l) ∧ free w' ∧ dispatcher w' = dispatcher w) ∧
  (∀ s, session = Some s → handshake_done_ s = true →
     (∀ buf, (SSL_read (BIO_write data (ssl_ s))).1 = Some buf → bytes_ok buf ∧
        datagrams (out_events (onPacket env buf from DtlsTransport (dispatcher w))) = []) →
     ∃ w' l, receive canonical env data from w = (Ok (), w', l) ∧ free w') ∧
  (∀ s buf msg, session = Some s → handshake_done_ s = true →
     (SSL_read (BIO_write data (ssl_ s))).1 = Some buf → bytes_ok buf →
     parse buf empty_message = Ok (ParseResult.Ok, msg) → msg_class msg ≠ MessageClass.Indication →
     ∃ w' l, receive canonical env data from w = (Err Undefined, w', l)).
Proof.
  intros Hserved Hin Hf Hd Hrealm Hc session. rewrite (receive_eq canonical env data from w Hd (proj1 Hf)).
  destruct (opened_free (endpointKey from) w Hf) as (Hf'&Hdisp&s0&Hs0&_&Hold&Hnew).
  assert (Hopen : ∀ s, session = Some s → opened (endpointKey from) w = w)
    by (intros s Hs; unfold opened; unfold session in Hs; by rewrite Hs).
  split; [|split].
  - intros Hhs. assert (Hd0 : handshake_done_ s0 = false) by (destruct Hold as [E|E]; [by apply Hnew|by apply Hhs]).
    destruct (wp_run _ _ _ (feed_handshake canonical env (endpointKey from) from data s0 _ Hf' Hs0 Hd0))
      as ([]&w'&l&E&Hfree&Hdisp'). exists w', l. by rewrite Hdisp', Hdisp.
  - intros s Hs Hdone Hq. rewrite (Hopen s Hs).
    destruct (wp_run _ _ _ (feed_quiet canonical env (endpointKey from) from data s w Hf Hs Hdone
      ltac:(intros buf Hbuf; destruct (Hq buf Hbuf) as [Hok Hev];
        destruct (server_total env buf from DtlsTransport (dispatcher w) Hserved Hin Hok) as (d'&ev&E);
        rewrite E in Hev; eauto))) as ([]&w'&l&E&Hfree). eauto.
  - intros s buf msg Hs Hdone Hread Hok Hp Hcl. rewrite (Hopen s Hs).
    destruct (request_answer env buf msg from DtlsTransport (dispatcher w) empty_message Hserved Hin Hok Hp Hcl Hrealm)
      as (d'&ev&r&m&c&n&l&E&Hev&_).
    by eapply feed_answered.
Qed.
End properties.

(** ** An Allocate request over DTLS *)

Module datagram.
#[local] Existing Instances ToyOpenSSL ToyOpenSSLSpec.
#[local] Existing Instances session.clients_order session.channels_order DottedAddress DottedAddressSpec.

(** Sessions that pass the datagrams on as they are. *)
#[local] Instance plain : Dtls := {|
  SSL := option bytes;
  SSL_new := None;
  BIO_write d _ := Some d;
  SSL_do_handshake x := (HandshakeDone, x);
  SSL_read x := (x, None);
  SSL_write _ x := x;
  BIO_read_all x := ([], x);
|}.

Definition established : DtlsServer :=
  mkDtlsServer {[ endpointKey session.c1 := mkDtlsSession None true false ]} false session.d1.

Lemma established_free : free established.
Proof. split; [done|]. intros k s Hs. cbn in Hs. by apply lookup_singleton_Some in Hs as [<- <-]. Qed.

Lemma dtls_requests_deadlock_witness : ∃ w' l,
  receive (λ a, Ok a) session.env session.unsigned session.c1 established = (Err Undefined, w', l).
Proof.
  destruct (dtls_requests_deadlock (λ a, Ok a) session.env session.unsigned session.c1 established
    session.d1_served ltac:(apply session.env_ok; vm_compute; lia) established_free ltac:(by vm_compute) ltac:(by vm_compute) eq_refl)
    as (_&_&Hreq).
  apply (Hreq (@mkDtlsSession plain None true false) session.unsigned session.unsigned_msg);
    [apply lookup_singleton_eq|done|done|compute_done|reflexivity|done].
Defined.
End datagram.
