(* ===== verification/Recording.v ===== *)
(** * Recording and playing files (src/client_cli/src/audio/capture.cpp, main.cpp)

    What the capture thread does with a frame of the sound device, the two
    callbacks that main.cpp gives to the commands [record], [stop] and
    [sendfile], and the files between them.  The device itself is the sequence of
    frames read from it. *)

From Stdlib Require Import Ascii.
From S2P Require Export Wav Text.

Module Capture.
Record Capture := mkCapture {
  frame_size_ : nat;
  running_ : bool;
  recording_ : bool;
  muted_ : bool;
  record_buf_ : list Z;
}.

Definition newCapture (sample_rate frame_ms : Z) : Capture :=
  mkCapture (Z.to_nat (u32 (sample_rate * frame_ms) / 1000)) false false false [].

Definition start (c : Capture) : Capture :=
  mkCapture (frame_size_ c) true (recording_ c) (muted_ c) (record_buf_ c).
Definition stop (c : Capture) : Capture :=
  mkCapture (frame_size_ c) false (recording_ c) (muted_ c) (record_buf_ c).

Definition startRecording (c : Capture) : Capture :=
  mkCapture (frame_size_ c) (running_ c) true (muted_ c) [].

(** The buffer is moved out, which leaves an empty one. *)
Definition stopRecording (c : Capture) : list Z * Capture :=
  (record_buf_ c, mkCapture (frame_size_ c) (running_ c) false (muted_ c) []).

(** One round of the loop: the samples read from the device, or [None] without a
    device; what the callback gets. *)
Definition frame (samples : option (list Z)) (c : Capture) : list Z * Capture :=
  match samples with
  | Some samples =>
      let c := if recording_ c
        then mkCapture (frame_size_ c) (running_ c) (recording_ c) (muted_ c) (record_buf_ c ++ samples) else c in
      (if negb (muted_ c) then samples else replicate (length samples) 0, c)
  | None => (replicate (frame_size_ c) 0, c)
  end.

(** The frames of a while: what the callback gets. *)
Fixpoint frames (l : list (option (list Z))) (c : Capture) : list (list Z) * Capture :=
  match l with
  | [] => ([], c)
  | f :: l => let '(out, c) := frame f c in let '(outs, c) := frames l c in (out :: outs, c)
  end.
End Capture.
Import Capture.

(** ** The callbacks of main.cpp *)

Record Audio := mkAudio {
  capture : option Capture;
  playback : option Playback.Playback;
  files : gmap string bytes;
}.

Abbreviation M := (eff Audio string).

Definition set_capture (c : Capture) : M () := λ a, (Ok (), mkAudio (Some c) (playback a) (files a), []).
Definition set_playback (p : Playback.Playback) : M () := λ a, (Ok (), mkAudio (capture a) (Some p) (files a), []).
Definition set_file (name : string) (content : bytes) : M () := λ a,
  (Ok (), mkAudio (capture a) (playback a) (<[name := content]> (files a)), []).

(** [catch (const audio::WavError&)]: the other exceptions go on. *)
Definition catch_wav {A} (m : M A) (h : string → M A) : M A :=
  try m (λ k what, if decide (k = WavError) then h what else throw k what).

(** [opened] and [written]: whether the file can be opened and written; what a
    failed write leaves of the file is not recorded in [files]. *)
Definition capture_cb (opened written : bool) (start : bool) (filename : string) : M () :=
  a ← get;
  match capture a with
  | None => mret ()
  | Some c =>
      if start then set_capture (startRecording c) else
      let '(samples, c) := stopRecording c in
      set_capture c;;
      catch_wav (
        content ← lift (writeWav opened written filename samples 48000 1 16);
        set_file filename content;;
        emit ("[audio] saved to " +:+ filename))
      (λ what, emit ("[audio] save error: " +:+ what))
  end.

Definition sendfile_cb (header : WavHeader) (filename : string) : M () :=
  catch_wav (
    a ← get;
    '(samples, _) ← lift (readWav (files a !! filename) filename header);
    match playback a with
    | Some p => p ← lift (Playback.playFile samples p); set_playback p
    | None => mret ()
    end;;
    emit ("[audio] sending " +:+ filename +:+ " (" +:+ to_string (Z.of_nat (length samples)) +:+ " samples)"))
  (λ what, emit ("[audio] file error: " +:+ what)).

(** ** Lemmas *)

(** What the callback gets for the frames [fs] of the device. *)
Definition heard (muted : bool) (fs : list (list Z)) : list (list Z) :=
  if muted then map (λ f, replicate (length f) 0) fs else fs.

Lemma frames_recording fs c : recording_ c = true →
  frames (map Some fs) c = (heard (muted_ c) fs,
    mkCapture (frame_size_ c) (running_ c) true (muted_ c) (record_buf_ c ++ concat fs)).
Proof.
  revert c. induction fs as [|f fs IH]; intros c Hc.
  - cbn. rewrite app_nil_r, <-Hc. destruct c as [? ? ? [|] ?]; done.
  - cbn [map frames frame]. rewrite Hc, IH by done. cbn [frame_size_ running_ muted_ record_buf_ concat].
    rewrite <-app_assoc. by destruct (muted_ c).
Qed.

Lemma catch_wav_Ok {A} (m : M A) h a x a1 l : m a = (Ok x, a1, l) → catch_wav m h a = (Ok x, a1, l).
Proof. unfold catch_wav, try. by intros ->. Qed.

Lemma playFile_queue samples p q : holds (Playback.jitter_buffer_ p) q →
  ∃ p', Playback.playFile samples p = Ok p' ∧
    holds (Playback.jitter_buffer_ p')
      (q ++ take (JitterBuffer.capacity_ (Playback.jitter_buffer_ p) - length q) samples).
Proof.
  intros Hq. destruct (write_holds samples _ q Hq) as (jb&E&_&Hh). unfold Playback.playFile. rewrite E.
  by eexists.
Qed.

(** A file made by [writeWav] is read back. *)
Lemma file_of_recording filename samples header : Forall sample_ok samples →
  ∃ content, writeWav true true filename samples 48000 1 16 = Ok content ∧
    readWav (Some content) filename header = Ok (stored samples, mkWavHeader 48000 1 16 (Z.of_nat (length (stored samples)))).
Proof.
  intros Hs. eexists. split; [apply writeWav_eq|].
  pose proof (read_head filename samples 48000 1 (wav_data samples) header _ ltac:(lia) ltac:(lia) eq_refl) as (h&->&->).
  pose proof (read_extra filename samples [] [] (mkWavHeader 48000 1 16 (numSamples header))
    (length (wav_head samples 48000 1 ++ wav_data samples)) Hs (Forall_nil_2 _) ltac:(cbn; lia)) as R.
  cbn [mbind list_bind app] in R. rewrite app_nil_r in R. by rewrite R.
Qed.

(** ** Property *)

(** C39: a recording: from [record] to [stop] every frame of the device is kept,
    muted or not, while the callback gets the frames or, if muted, silence; [stop]
    writes a file with all of them, which [sendfile] reads; but what [sendfile]
    plays is only what the jitter buffer of the playback holds, the first 2400
    samples if it was empty. *)
Theorem recording_saved_and_played c p fs frs filename header :
  Forall (Forall sample_ok) frs → holds (Playback.jitter_buffer_ p) [] →
  JitterBuffer.capacity_ (Playback.jitter_buffer_ p) = JitterBuffer.capacity_of 50 48000 →
  ∃ c1 c2 c3 content p' line line',
    capture_cb true true true "" (mkAudio (Some c) (Some p) fs) = (Ok (), mkAudio (Some c1) (Some p) fs, []) ∧
    frames (map Some frs) c1 = (heard (muted_ c) frs, c2) ∧
    capture_cb true true false filename (mkAudio (Some c2) (Some p) fs) =
      (Ok (), mkAudio (Some c3) (Some p) (<[filename := content]> fs), [line]) ∧
    recording_ c3 = false ∧
    readWav (Some content) filename header =
      Ok (stored (concat frs), mkWavHeader 48000 1 16 (Z.of_nat (length (stored (concat frs))))) ∧
    sendfile_cb header filename (mkAudio (Some c3) (Some p) (<[filename := content]> fs)) =
      (Ok (), mkAudio (Some c3) (Some p') (<[filename := content]> fs), [line']) ∧
    holds (Playback.jitter_buffer_ p') (take 2400 (stored (concat frs))).
Proof.
  intros Hs Hp Hcap. pose proof (file_of_recording filename (concat frs) header
    ltac:(by apply Forall_concat)) as (content&Hw&Hr).
  destruct (playFile_queue (stored (concat frs)) p [] Hp) as (p'&Hplay&Hq). rewrite Hcap in Hq.
  exists (startRecording c), (mkCapture (frame_size_ c) (running_ c) true (muted_ c) (concat frs)).
  exists (mkCapture (frame_size_ c) (running_ c) false (muted_ c) []), content, p'.
  exists ("[audio] saved to " +:+ filename).
  exists ("[audio] sending " +:+ filename +:+ " (" +:+ to_string (Z.of_nat (length (stored (concat frs)))) +:+ " samples)").
  split; [done|]. split; [by apply frames_recording|]. split; [|split; [done|split; [done|split]]].
  - unfold capture_cb. erewrite bind_Ok by reflexivity. cbn [capture stopRecording record_buf_].
    erewrite bind_Ok by reflexivity. erewrite catch_wav_Ok; [reflexivity|]. rewrite Hw. reflexivity.
  - unfold sendfile_cb. apply catch_wav_Ok. unfold mbind, eff_bind, get, lift. cbn [files].
    rewrite lookup_insert_eq, Hr. cbn [playback]. rewrite Hplay. reflexivity.
  - exact Hq.
Qed.

Lemma recording_saved_and_played_witness : ∃ c1 c2 c3 content p' line line',
  let c := newCapture 48000 20 in let p := Playback.newPlayback 48000 in
  capture_cb true true true "" (mkAudio (Some c) (Some p) ∅) = (Ok (), mkAudio (Some c1) (Some p) ∅, []) ∧
  frames (map Some [[1; 2]; [3]]) c1 = ([[1; 2]; [3]], c2) ∧
  capture_cb true true false "a.wav" (mkAudio (Some c2) (Some p) ∅) =
    (Ok (), mkAudio (Some c3) (Some p) {["a.wav" := content]}, [line]) ∧
  sendfile_cb (mkWavHeader 0 0 0 0) "a.wav" (mkAudio (Some c3) (Some p) {["a.wav" := content]}) =
    (Ok (), mkAudio (Some c3) (Some p') {["a.wav" := content]}, [line']).
Proof.
  destruct (recording_saved_and_played (newCapture 48000 20) (Playback.newPlayback 48000) ∅ [[1; 2]; [3]] "a.wav"
    (mkWavHeader 0 0 0 0)) as (c1&c2&c3&content&p'&line&line'&E1&E2&E3&_&_&E4&_).
  - repeat constructor; unfold sample_ok; lia.
  - apply holds_new.
  - reflexivity.
  - exists c1, c2, c3, content, p', line, line'. exact (conj E1 (conj E2 (conj E3 E4))).
Defined.
