(* ===== verification/Config.v ===== *)
(** * Configuration files (src/shared/config/config.hpp)

    The programs read lines [key=value] from a file; [load] fills the map of a
    [Config], [get], [getInt] and [getBool] read it.  A file is the text in it,
    [None] when it cannot be opened. *)

From Stdlib Require Import Ascii.
From S2P Require Export Text.

Definition line_feed : ascii := "010"%char.
Definition quote : ascii := "034"%char.
Definition equals_sign : ascii := "="%char.

(** The lines that [std::getline] reads one by one; a last line may lack its end. *)
Fixpoint getlines (s : string) : list string :=
  match s with
  | EmptyString => []
  | String c s =>
      if bool_decide (c = line_feed) then "" :: getlines s else
      match getlines s with
      | [] => [String c ""]
      | line :: lines => String c line :: lines
      end
  end.

(** The characters of the literal that [trim] gives to [find_first_not_of]. *)
Definition is_blank (c : ascii) : bool :=
  bool_decide (c ∈ [" "; "009"; "013"; "010"]%char).

Fixpoint find_first_not_blank (s : string) : option nat :=
  match s with
  | EmptyString => None
  | String c s => if is_blank c then S <$> find_first_not_blank s else Some 0%nat
  end.

Fixpoint find_last_not_blank (s : string) : option nat :=
  match s with
  | EmptyString => None
  | String c s =>
      match find_last_not_blank s with
      | Some n => Some (S n)
      | None => if is_blank c then None else Some 0%nat
      end
  end.

Definition trim (s : string) : string :=
  match find_first_not_blank s, find_last_not_blank s with
  | Some start, Some stop => str_take (stop - start + 1) (str_drop start s)
  | _, _ => ""
  end.

(** [s.front()], [s.back()]: the first and the last character. *)
Definition front (s : string) : option ascii := match s with EmptyString => None | String c _ => Some c end.
Fixpoint back (s : string) : option ascii :=
  match s with
  | EmptyString => None
  | String c s => match back s with Some d => Some d | None => Some c end
  end.

Definition unquote (value : string) : string :=
  if (2 <=? String.length value)%nat && bool_decide (front value = Some quote)
     && bool_decide (back value = Some quote)
  then str_take (String.length value - 2) (str_drop 1 value) else value.

(** What a line assigns. *)
Definition read_line (line : string) : option (string * string) :=
  if str_empty line || bool_decide (front line = Some "#"%char) then None else
  match str_find equals_sign line with
  | None => None
  | Some pos => Some (trim (str_take pos line), unquote (trim (str_drop (pos + 1) line)))
  end.

Abbreviation Config := (gmap string string).

Definition load_line (data_ : Config) (line : string) : Config :=
  match read_line line with Some (key, value) => <[key := value]> data_ | None => data_ end.

Definition load (path : string) (file : option string) (data_ : Config) : result Config :=
  match file with
  | None => Err (Thrown RuntimeError ("config: cannot open " +:+ path))
  | Some text => mret (foldl load_line data_ (getlines text))
  end.

Definition get (key default_val : string) (data_ : Config) : string :=
  match data_ !! key with Some v => v | None => default_val end.

Definition getInt (key : string) (default_val : Z) (data_ : Config) : Z :=
  match data_ !! key with
  | None => default_val
  | Some v => match stoi v with Ok n => n | Err _ => default_val end
  end.

Definition getBool (key : string) (default_val : bool) (data_ : Config) : bool :=
  let val := get key "" data_ in
  if bool_decide (val = "true") || bool_decide (val = "1") || bool_decide (val = "yes") then true else
  if bool_decide (val = "false") || bool_decide (val = "0") || bool_decide (val = "no") then false else
  default_val.

(** ** What a line means *)

Definition blank (s : string) : Prop := ∀ c, str_in c s → is_blank c = true.
Definition trimmed (s : string) : Prop :=
  (∀ c, front s = Some c → is_blank c = false) ∧ (∀ c, back s = Some c → is_blank c = false).
Definition in_quotes (s : string) : string := String quote (s +:+ String quote "").

(** The lines of the format and what they assign: nothing, or a value to a key,
    with blanks around both, and quotes around the value to keep its own. *)
Inductive says : string → option (string * string) → Prop :=
  | says_empty : says "" None
  | says_comment l : says (String "#" l) None
  | says_other l : ¬ str_in equals_sign l → says l None
  | says_value p1 k p2 p3 v p4 :
      blank p1 → blank p2 → blank p3 → blank p4 → trimmed k → trimmed v →
      front (p1 +:+ k) ≠ Some "#"%char → ¬ str_in equals_sign k → unquote v = v →
      says (p1 +:+ k +:+ p2 +:+ String equals_sign (p3 +:+ v +:+ p4)) (Some (k, v))
  | says_quoted p1 k p2 p3 v p4 :
      blank p1 → blank p2 → blank p3 → blank p4 → trimmed k →
      front (p1 +:+ k) ≠ Some "#"%char → ¬ str_in equals_sign k →
      says (p1 +:+ k +:+ p2 +:+ String equals_sign (p3 +:+ in_quotes v +:+ p4)) (Some (k, v)).

(** A file: lines with their ends, and what comes after the last end. *)
Definition file_text (lines : list string) (rest : string) : string :=
  foldr (λ l s, l +:+ String line_feed s) rest lines.

(** The value of a key after a sequence of assignments: the last one. *)
Definition last_value (key : string) (l : list (string * string)) : option string :=
  snd <$> last (filter (λ kv, kv.1 = key) l).

(** The numbers that a value begins with: white space, a sign, decimal digits, and
    anything that goes on with no digit. *)
Inductive signs : string → Z → Prop :=
  | sign_none : signs "" 1
  | sign_plus : signs "+" 1
  | sign_minus : signs "-" (-1).

Definition numeral (ds : list Z) : string := foldr (λ d s, String (digit_ascii d) s) "" ds.
Definition decimal (acc : Z) (ds : list Z) : Z := foldl (λ a d, a * 10 + d) acc ds.

Inductive leading_number : string → Z → Prop :=
  | leading sp sg n ds rest :
      (∀ c, str_in c sp → is_space c = true) → signs sg n → ds ≠ [] → Forall (λ d, 0 ≤ d < 10) ds →
      starts_with_digit rest = false →
      leading_number (sp +:+ sg +:+ numeral ds +:+ rest) (n * decimal 0 ds).

(** ** Lemmas *)

Lemma skip_spaces_split s : ∃ sp, (∀ c, str_in c sp → is_space c = true) ∧ s = sp +:+ skip_spaces s.
Proof.
  induction s as [|c s (sp&Hsp&E)]; [by exists ""|]. cbn [skip_spaces]. destruct (is_space c) eqn:Hc; [|by exists ""].
  exists (String c sp). split; [|cbn; by rewrite <-E]. intros c' [->|Hin]; [done|by apply Hsp].
Qed.

Lemma skip_spaces_app sp s : (∀ c, str_in c sp → is_space c = true) → skip_spaces (sp +:+ s) = skip_spaces s.
Proof.
  induction sp as [|c sp IH]; intros Hsp; [done|]. cbn. rewrite (Hsp c) by by left. apply IH. intros c' Hin. apply Hsp. by right.
Qed.

Lemma digit_of_Some c d : digit_of c = Some d → 0 ≤ d < 10 ∧ c = digit_ascii d.
Proof.
  unfold digit_of. destruct (Z.leb_spec 48 (ascii_byte c)), (Z.leb_spec (ascii_byte c) 57); try done. cbn [andb].
  intros [= <-]. split; [lia|]. unfold digit_ascii. rewrite (proj2 (Z.ltb_lt _ _)) by lia.
  by rewrite (Zplus_minus 48), byte_ascii_byte.
Qed.

(** The digits at the front of a text. *)
Lemma digits_split s acc : ∃ ds rest, Forall (λ d, 0 ≤ d < 10) ds ∧ starts_with_digit rest = false ∧
  s = numeral ds +:+ rest ∧ digits_val acc s = decimal acc ds ∧ (starts_with_digit s = true → ds ≠ []).
Proof.
  revert acc. induction s as [|c s IH]; intros acc; [by exists [], ""|]. cbn [digits_val starts_with_digit].
  destruct (digit_of c) as [d|] eqn:Hd; [|exists [], (String c s); cbn; by rewrite Hd, !bool_decide_false].
  destruct (digit_of_Some c d Hd) as [Hr ->]. destruct (IH (acc * 10 + d)) as (ds&rest&Hds&Hrest&->&Hv&_).
  exists (d :: ds), rest. split_and!; [by constructor|done|done|exact Hv|done].
Qed.

Lemma digits_val_numeral ds rest acc : Forall (λ d, 0 ≤ d < 10) ds → starts_with_digit rest = false →
  digits_val acc (numeral ds +:+ rest) = decimal acc ds.
Proof.
  intros Hds Hrest. revert acc. induction Hds as [|d ds Hd Hds IH]; intros acc; cbn.
  - destruct rest as [|c rest]; [done|]. cbn in *. destruct (digit_of c); [|done]. by rewrite bool_decide_true in Hrest.
  - rewrite digit_of_ascii by done. apply IH.
Qed.

(** [strtol] reads the number that the text begins with, if there is one. *)
Lemma strtol_spec s n : strtol s = Some n ↔ leading_number s n.
Proof.
  split.
  - unfold strtol. destruct (skip_spaces_split s) as (sp&Hsp&E). rewrite E at 2. clear E.
    assert (Hgo : ∀ sg k t, signs sg k → (if starts_with_digit t then Some (k * digits_val 0 t) else None) = Some n →
      leading_number (sp +:+ sg +:+ t) n).
    { intros sg k t Hsg. destruct (starts_with_digit t) eqn:Ht; [|done]. intros [= <-].
      destruct (digits_split t 0) as (ds&rest&Hds&Hrest&->&->&Hne). by constructor; auto. }
    destruct (skip_spaces s) as [|c t]; [by intros ?|]. case_bool_decide as Hm; [subst c; by apply (Hgo "-"%string); constructor|].
    case_bool_decide as Hp; [subst c; by apply (Hgo "+"%string); constructor|]. apply (Hgo ""%string 1); constructor.
  - intros [sp sg k ds rest Hsp Hsg Hne Hds Hrest]. unfold strtol. rewrite skip_spaces_app by done.
    destruct ds as [|d ds]; [done|]. pose proof (Forall_inv Hds) as Hd. destruct (digit_ascii_start d Hd) as (H1&H2&H3).
    assert (Hdig : starts_with_digit (numeral (d :: ds) +:+ rest) = true)
      by (cbn; by rewrite digit_of_ascii, bool_decide_true).
    destruct Hsg; cbn [String.append skip_spaces].
    + cbn [numeral foldr String.append skip_spaces] in *. rewrite H1, (bool_decide_false _ H2), (bool_decide_false _ H3), Hdig.
      f_equal. f_equal. by apply (digits_val_numeral (d :: ds)).
    + change (is_space "+") with false. cbn iota. rewrite bool_decide_false, bool_decide_true by done. cbn [fst].
      rewrite Hdig. by rewrite digits_val_numeral.
    + change (is_space "-") with false. cbn iota. rewrite bool_decide_true by done. rewrite Hdig. by rewrite digits_val_numeral.
Qed.

Lemma getlines_cons c s : c ≠ line_feed → getlines (String c s) =
  match getlines s with [] => [String c ""] | line :: lines => String c line :: lines end.
Proof. intros Hc. cbn [getlines]. by rewrite bool_decide_false. Qed.

Lemma getlines_line l s : ¬ str_in line_feed l → getlines (l +:+ String line_feed s) = l :: getlines s.
Proof.
  induction l as [|c l IH]; intros Hl; [cbn; by rewrite bool_decide_true|].
  cbn [String.append]. rewrite getlines_cons by (intros ->; apply Hl; by left).
  rewrite IH; [done|]. intros Hin. apply Hl. by right.
Qed.

Lemma getlines_rest l : ¬ str_in line_feed l → getlines l = if str_empty l then [] else [l].
Proof.
  induction l as [|c l IH]; intros Hl; [done|].
  rewrite getlines_cons by (intros ->; apply Hl; by left).
  rewrite IH by (intros Hin; apply Hl; by right). by destruct l.
Qed.

Lemma getlines_file ls rest : Forall (λ l, ¬ str_in line_feed l) ls → ¬ str_in line_feed rest →
  getlines (file_text ls rest) = ls ++ (if str_empty rest then [] else [rest]).
Proof.
  intros Hls Hr. induction Hls as [|l ls Hl _ IH]; [by apply getlines_rest|].
  cbn [file_text foldr]. fold (file_text ls rest). by rewrite getlines_line, IH.
Qed.

Lemma first_blank p s : blank p → find_first_not_blank (p +:+ s) =
  (λ n, (String.length p + n)%nat) <$> find_first_not_blank s.
Proof.
  induction p as [|c p IH]; intros Hp.
  - cbn. by destruct (find_first_not_blank s).
  - cbn [String.append find_first_not_blank]. rewrite (Hp c) by (by left).
    rewrite IH by (intros ? ?; apply Hp; by right). by destruct (find_first_not_blank s).
Qed.

Lemma last_blank p : blank p → find_last_not_blank p = None.
Proof.
  induction p as [|c p IH]; intros Hp; [done|]. cbn [find_last_not_blank].
  rewrite IH by (intros ? ?; apply Hp; by right). by rewrite (Hp c) by (by left).
Qed.

Lemma last_not_blank s c q : blank q → is_blank c = false →
  find_last_not_blank (s +:+ String c q) = Some (String.length s).
Proof.
  intros Hq Hc. induction s as [|d s IH]; cbn [String.append find_last_not_blank].
  - by rewrite last_blank, Hc.
  - by rewrite IH.
Qed.

Lemma back_snoc s c : back (s +:+ String c "") = Some c.
Proof. induction s as [|d s IH]; [done|]. cbn [String.append back]. by rewrite IH. Qed.

Lemma str_snoc s : s ≠ "" → ∃ s' c, s = s' +:+ String c "".
Proof.
  induction s as [|c s IH]; [done|]. intros _. destruct (decide (s = "")) as [->|Hs].
  - by exists "", c.
  - destruct (IH Hs) as (s'&d&->). by exists (String c s'), d.
Qed.

Lemma blank_app p q : blank p → blank q → blank (p +:+ q).
Proof. intros Hp Hq c [?|?]%str_in_app; auto. Qed.

Lemma trim_blanks p v q : blank p → blank q → trimmed v → trim (p +:+ v +:+ q) = v.
Proof.
  intros Hp Hq [Hf Hb]. unfold trim. destruct (decide (v = "")) as [->|Hv].
  { rewrite last_blank by (by apply blank_app). by destruct (find_first_not_blank _). }
  rewrite first_blank by done. destruct (str_snoc v Hv) as (s&c&->). rewrite back_snoc in Hb.
  rewrite !str_app_assoc. cbn [String.append]. rewrite <-(str_app_assoc p s).
  rewrite last_not_blank by auto. rewrite str_app_assoc.
  assert (find_first_not_blank (s +:+ String c q) = Some 0%nat) as ->.
  { destruct s as [|d s]; cbn; [by rewrite Hb|]. by rewrite (Hf d). }
  cbn [fmap option_fmap option_map]. rewrite Nat.add_0_r, str_drop_app, str_length_app.
  replace (_ + _ - _ + 1)%nat with (String.length (s +:+ String c "")) by (rewrite str_length_app; cbn; lia).
  replace (s +:+ String c q) with ((s +:+ String c "") +:+ q) by (by rewrite str_app_assoc).
  apply str_take_app.
Qed.

Lemma unquote_quotes v : unquote (in_quotes v) = v.
Proof.
  unfold unquote, in_quotes. cbn [String.length front back str_drop].
  rewrite str_length_app, back_snoc. cbn [String.length].
  rewrite (proj2 (Nat.leb_le _ _)), !bool_decide_true by (done || lia). cbn [andb].
  replace (_ - 2)%nat with (String.length v) by lia. destruct v as [|c v]; [done|]. apply str_take_app.
Qed.

Lemma quotes_trimmed v : trimmed (in_quotes v).
Proof.
  split; intros c; unfold in_quotes; cbn [front back]; rewrite ?back_snoc; by intros [= <-].
Qed.

(** A line of the form blanks, key, blanks, equals sign, blanks, value, blanks. *)
Lemma read_assignment p1 k p2 p3 v p4 :
  blank p1 → blank p2 → blank p3 → blank p4 → trimmed k → trimmed v →
  front (p1 +:+ k) ≠ Some "#"%char → ¬ str_in equals_sign k →
  read_line (p1 +:+ k +:+ p2 +:+ String equals_sign (p3 +:+ v +:+ p4)) = Some (k, unquote v).
Proof.
  intros H1 H2 H3 H4 Hk Hv Hc He. unfold read_line.
  assert (Hb : ∀ p, blank p → ¬ str_in equals_sign p) by (intros p Hp Hin; by specialize (Hp _ Hin)).
  replace (p1 +:+ k +:+ p2 +:+ String equals_sign (p3 +:+ v +:+ p4))
    with ((p1 +:+ k +:+ p2) +:+ String equals_sign (p3 +:+ v +:+ p4)) by (by rewrite !str_app_assoc).
  rewrite str_find_app by (rewrite !str_in_app; naive_solver).
  rewrite bool_decide_false.
  2: { intros E. revert Hc E. destruct p1 as [|c p1]; [|done]. destruct k as [|c k]; [|done].
       cbn [String.append]. destruct p2 as [|c p2]; [done|]. intros _ [= ->].
       by specialize (H2 _ (or_introl eq_refl)). }
  rewrite orb_false_r. destruct (str_empty _) eqn:E; [exfalso; revert E; by destruct p1, k, p2|].
  rewrite str_take_app, trim_blanks by done.
  replace (String.length (p1 +:+ k +:+ p2) + 1)%nat
    with (String.length ((p1 +:+ k +:+ p2) +:+ String equals_sign "")) by (rewrite !str_length_app; cbn; lia).
  replace ((p1 +:+ k +:+ p2) +:+ String equals_sign (p3 +:+ v +:+ p4))
    with (((p1 +:+ k +:+ p2) +:+ String equals_sign "") +:+ (p3 +:+ v +:+ p4)) by (by rewrite !str_app_assoc).
  by rewrite str_drop_app, trim_blanks.
Qed.

Lemma read_says l m : says l m → read_line l = m.
Proof.
  intros [| |l' Hl|p1 k p2 p3 v p4 H1 H2 H3 H4 Hk Hv Hc He Hq|p1 k p2 p3 v p4 H1 H2 H3 H4 Hk Hc He]; [done| | | |].
  - unfold read_line. cbn [front]. by rewrite bool_decide_true, orb_true_r.
  - unfold read_line. rewrite (proj2 (str_find_None _ _)) by done. by destruct (_ || _).
  - by rewrite read_assignment, Hq.
  - rewrite read_assignment by (done || apply quotes_trimmed). by rewrite unquote_quotes.
Qed.

Lemma load_says ls ms data_ : Forall2 says ls ms → ∀ key,
  foldl load_line data_ ls !! key =
    match last_value key (omap id ms) with Some v => Some v | None => data_ !! key end.
Proof.
  intros Hs key. revert data_. induction Hs as [|l m ls ms Hl _ IH]; intros data_; [done|].
  cbn [foldl]. rewrite IH. unfold load_line. rewrite (read_says l m) by done. cbn [omap list_omap].
  destruct m as [[k v]|]; cbn [id]; [|done]. unfold last_value. rewrite filter_cons. cbn [fst].
  destruct (decide (k = key)) as [->|Hk].
  - rewrite last_cons, lookup_insert_eq. by destruct (last (filter _ _)) as [[k v0]|].
  - by rewrite lookup_insert_ne.
Qed.

Lemma stoi_to_string n : - 2 ^ 31 ≤ n < 2 ^ 31 → stoi (to_string n) = Ok n.
Proof.
  intros Hn. unfold stoi, sto. rewrite <-(str_app_nil_r (to_string n)), strtol_to_string by done.
  rewrite (proj2 (Z.leb_le _ _)), (proj2 (Z.ltb_lt _ _)) by lia. done.
Qed.

(** ** Property *)

(** C40: a configuration file is read as its format says: the value of a key is
    that of the last line that assigns it, without the blanks around it, and
    without its quotes when it has them, whether or not the last line ends;
    comments, empty lines and lines without an equals sign assign nothing, and a
    key that no line assigns keeps its old value.  [getInt] reads the decimal
    number that the value begins with (after white space, with a sign), whatever
    follows its digits; it returns its default when the key has no value, when
    the value begins with no number, and when the number has more than 32 bits. *)
Theorem config_file_read path data_ ls ms rest mrest key :
  Forall (λ l, ¬ str_in line_feed l) ls → ¬ str_in line_feed rest →
  Forall2 says ls ms → says rest mrest →
  ∃ data', load path (Some (file_text ls rest)) data_ = Ok data' ∧
    let assigned := match last_value key (omap id (ms ++ [mrest])) with
      | Some v => Some v | None => data_ !! key end in
    (∀ d, get key d data' = default d assigned) ∧
    (∀ d n, assigned = Some (to_string n) → - 2 ^ 31 ≤ n < 2 ^ 31 → getInt key d data' = n) ∧
    (∀ d v n, assigned = Some v → leading_number v n →
       getInt key d data' = if decide (- 2 ^ 31 ≤ n < 2 ^ 31) then n else d) ∧
    (∀ d, assigned = None ∨ (∃ v, assigned = Some v ∧ ∀ n, ¬ leading_number v n) → getInt key d data' = d).
Proof.
  intros Hls Hrest Hs Hr. eexists. split; [done|]. cbv zeta. rewrite getlines_file by done.
  assert (E : foldl load_line data_ (ls ++ (if str_empty rest then [] else [rest])) !! key =
    match last_value key (omap id (ms ++ [mrest])) with Some v => Some v | None => data_ !! key end).
  { destruct rest as [|c rest]; cbn [str_empty].
    - rewrite app_nil_r, (load_says ls ms) by done. apply read_says in Hr as <-.
      change (read_line "") with (@None (string * string)). rewrite omap_app. cbn. by rewrite app_nil_r.
    - apply load_says, Forall2_app; [done|]. by constructor. }
  unfold get, getInt. rewrite E. split_and!.
  - intros d. by destruct (last_value key (omap id (ms ++ [mrest]))); [|destruct (data_ !! key)].
  - intros d n -> Hn. by rewrite stoi_to_string.
  - intros d v n -> Hv%strtol_spec. unfold stoi, sto. rewrite Hv. change (32 - 1) with 31.
    destruct (decide (- 2 ^ 31 ≤ n < 2 ^ 31)) as [Hn|Hn], (Z.leb_spec (- 2 ^ 31) n), (Z.ltb_spec n (2 ^ 31)); done || lia.
  - intros d [->|(v&->&Hv)]; [done|]. unfold stoi, sto. destruct (strtol v) as [n|] eqn:Es; [|done].
    by apply strtol_spec, Hv in Es.
Qed.

(** A file with a comment, a key that is assigned twice, the second time with
    text behind the number, a quoted value, and a last line without an end. *)
Module env_file.
Definition lines : list string := ["# TURN"; ""; "PORT_MIN=1"; " PORT_MIN = 49152tcp "].
Definition last_line : string := "REALM = " +:+ in_quotes " chat " +:+ " ".

Lemma blank_space : blank " ".
Proof. intros c [-> | []]. done. Qed.
Lemma blank_none : blank "".
Proof. by intros c. Qed.

Lemma lines_say : Forall2 says lines [None; None; Some ("PORT_MIN", "1"); Some ("PORT_MIN", "49152tcp")].
Proof.
  constructor; [apply says_comment|]. constructor; [apply says_empty|]. constructor; [|constructor; [|constructor]].
  - apply (says_value "" "PORT_MIN" "" "" "1" ""); try apply blank_none; try done; [by split; intros ? [= <-]..|].
    cbn. naive_solver.
  - apply (says_value " " "PORT_MIN" " " " " "49152tcp" " "); try apply blank_space; try done;
      [by split; intros ? [= <-]..|]. cbn. naive_solver.
Qed.

Lemma last_says : says last_line (Some ("REALM", " chat ")).
Proof.
  apply (says_quoted "" "REALM" " " " " " chat " " "); try apply blank_space; try apply blank_none; try done;
    [by split; intros ? [= <-]|]. cbn. naive_solver.
Qed.

Lemma number_first : leading_number "49152tcp" 49152.
Proof. apply (leading "" "" 1 [4; 9; 1; 5; 2] "tcp"); [done|constructor|done|compute_done|done]. Qed.

(** The number is read. *)
Lemma config_file_read_witness : ∃ data',
  load "turn.env" (Some (file_text lines last_line)) ∅ = Ok data' ∧
  getInt "PORT_MIN" 7 data' = 49152.
Proof.
  destruct (config_file_read "turn.env" ∅ lines [None; None; Some ("PORT_MIN", "1"); Some ("PORT_MIN", "49152tcp")]
    last_line (Some ("REALM", " chat ")) "PORT_MIN") as (data'&E&_&_&Hint&_).
  - repeat constructor; cbn; naive_solver.
  - cbn. naive_solver.
  - exact lines_say.
  - exact last_says.
  - exists data'. split; [exact E|]. apply (Hint 7 "49152tcp" 49152); [by vm_compute|apply number_first].
Defined.
End env_file.
