(* ===== verification/SignIn.v ===== *)
(** * Signing in, from the command line to the session table

    [HttpClient] makes the requests of the client (src/client_cli/src/http) and
    the connection of [WsClient] starts with a request too; the routes and the
    WebSocket server of the backend handle them.  Resolving a name, connecting,
    the TLS handshake and the exchange of the messages are parameters. *)

From Stdlib Require Import Ascii.
From S2P Require Export CallSetup Api.

#[local] Existing Instances ToyOpenSSL ToyOpenSSLSpec ToyJson ToyJsonSpec ToySqlite ToySqliteSpec ToySqliteUp
  ToyJwt ToyJwtSpec.

Module HttpClient.
Record HttpClient := mkHttpClient { host_ : string; port_ : Z; verify_cert_ : bool }.

Section HttpClient.
Context {endpoints : Type}.
Variable resolve : string → string → result endpoints.
(** [SSL_set_tlsext_host_name]. *)
Variable set_host_name : string → bool.
(** Connecting, the handshake, writing the request and reading the response. *)
Variable exchange : endpoints → Request → result Response.

Definition post_request (host path body content_type : string) : Request :=
  mkRequest "POST" path body
    (<["Content-Length" := to_string (Z.of_nat (String.length body))]>
      (<["Connection" := "close"]> (<["Content-Type" := content_type]> {["Host" := host]}))).

Definition get_request (host path bearer_token : string) : Request :=
  mkRequest "GET" path ""
    ((if str_empty bearer_token then id else <["Authorization" := "Bearer " +:+ bearer_token]>)
      (<["Connection" := "close"]> {["Host" := host]})).

(** What both methods do with their request. *)
Definition perform (client : HttpClient) (req : Request) : result (Z * string) :=
  results ← resolve (host_ client) (to_string (port_ client));
  if negb (set_host_name (host_ client)) then Err (Thrown HttpError "SNI setup failed") else
  resp ← exchange results req;
  mret (status resp, body resp).

Definition post (client : HttpClient) (path body content_type : string) : result (Z * string) :=
  perform client (post_request (host_ client) path body content_type).

Definition get (client : HttpClient) (path bearer_token : string) : result (Z * string) :=
  perform client (get_request (host_ client) path bearer_token).
End HttpClient.
End HttpClient.

(** The target of the handshake that [WsClient::connect] makes. *)
Definition ws_target (token : string) : string := "/ws?token=" +:+ token.

(** Tokens are in the compact serialization (RFC 7515): base64url and dots. *)
Definition token_char (c : ascii) : bool :=
  let b := ascii_byte c in
  ((48 <=? b) && (b <=? 57)) || ((65 <=? b) && (b <=? 90)) || ((97 <=? b) && (b <=? 122))
    || (b =? 45) || (b =? 95) || (b =? 46).
Class JwtCompact `{JwtCpp} :=
  jwt_compact secret u iat exp t : jwt_sign secret u iat exp = Ok t →
    t ≠ "" ∧ ∀ c, str_in c t → token_char c = true.

(** ** The client and the backend, connected *)

Section network.
Context `{OpenSSL, Json, Sqlite, JwtCpp}.
Variable cfg : TurnConfig.
Variable clock : nat → Z.

(** The response of the backend to a request, and the state after it. *)
Definition serve (s : AuthService.AuthService) (req : Request) : result Response :=
  match handle_request (registerRoutes cfg clock ∅) false req s with
  | (Ok (Answered r), _, _) => Ok r
  | (Ok (ToWebSocket _), _, _) => Err Undefined
  | (Err e, _, _) => Err e
  end.
Definition served_state (s : AuthService.AuthService) (req : Request) : AuthService.AuthService :=
  out_state (handle_request (registerRoutes cfg clock ∅) false req s).

Definition post_to (client : HttpClient.HttpClient) (s : AuthService.AuthService) (path body : string) :
    result (Z * string) :=
  HttpClient.post (λ _ _, Ok ()) (λ _, true) (λ _, serve s) client path body "application/json".

(** The body of both requests. *)
Definition credentials_text (u p : string) : string := text_of (json_texts [("userId", u); ("password", p)]).
Definition register_request (client : HttpClient.HttpClient) (u p : string) : Request :=
  HttpClient.post_request (HttpClient.host_ client) "/api/auth/register" (credentials_text u p) "application/json".
End network.

(** The session after a login. *)
Definition logged_in (u t : string) (c : Client) : Client :=
  let s := client_session c in
  with_session (mkSession u t (turnConfig s) (call s) (record s)) c.

(** ** Lemmas *)

(** A closed word is recognised by computation. *)
Lemma word_check s : s ≠ "" → forallb (λ b, negb ((b =? 32) || ((9 <=? b) && (b <=? 13)))) (bytes_of_string s) = true →
  word s.
Proof.
  intros Hne Hs. split; [done|]. clear Hne. induction s as [|c s IH]; [done|].
  cbn [bytes_of_string forallb] in Hs. apply andb_true_iff in Hs as [Hc Hs].
  intros d [-> |Hd]; [|by apply IH]. unfold is_space. by apply negb_true_iff.
Qed.

Lemma tokens_first w ch s : word w → is_space ch = true → tokens (w +:+ String ch s) "" = w :: tokens s "".
Proof.
  intros [Hne Hw] Hch.
  assert (E : ∀ cur, tokens (w +:+ String ch s) cur =
    if str_empty (cur +:+ w) then tokens s "" else (cur +:+ w) :: tokens s "").
  { clear Hne. induction w as [|c w IH]; intros cur; cbn [String.append tokens].
    - rewrite Hch, str_app_nil_r. done.
    - rewrite Hw by (by left). rewrite IH by (intros; apply Hw; by right). by rewrite str_app_assoc. }
  rewrite E. by destruct w.
Qed.

Lemma tokens_last w : word w → tokens w "" = [w].
Proof. intros [Hne Hw]. rewrite tokens_word by done. by destruct w. Qed.

Lemma parse_two cmd u p : word cmd → word u → word p →
  Cli.parse (cmd +:+ " " +:+ u +:+ " " +:+ p) = mkCommand cmd [u; p].
Proof.
  intros Hc Hu Hp. unfold Cli.parse. cbn [String.append]. by rewrite !tokens_first, tokens_last.
Qed.

Lemma search_token t : str_search "token=" (ws_target t) = Some 4%nat.
Proof. done. Qed.

Lemma extract_ws_target t : ¬ str_in "&"%char t → WsServer.extractToken (ws_target t) = t.
Proof.
  intros Ht. unfold WsServer.extractToken. rewrite search_token.
  change (str_drop 4 (ws_target t)) with ("token=" +:+ t).
  assert (E : str_find "&"%char ("token=" +:+ t) = None).
  { apply str_find_None. rewrite str_in_app. intros [Hin|?]; [|done]. cbn in Hin. naive_solver. }
  by rewrite E.
Qed.

Section facts.
Context `{OpenSSLSpec, JsonSpec, SqliteSpec, !SqliteUp, JwtCpp, !JwtCppSpec, !JwtCompact}.
Variable cfg : TurnConfig.
Variable clock : nat → Z.

(** A line that is a command of two words and prints its answer. *)
Lemma type_command http cmd u p c c' evs m r :
  word cmd → word u → word p → (dispatch http (mkCommand cmd [u; p])) (cmds c) =
    (Ok (mkCommandResult r m), c', evs) → m ≠ "" → quit_ c' = false →
  type_line http (cmd +:+ " " +:+ u +:+ " " +:+ p) c = (Ok (), with_cmds c' c, evs ++ [Printed m]).
Proof.
  intros Hc Hu Hp Hd Hm Hq. unfold type_line, processLine. rewrite parse_two by done.
  destruct Hc as [Hc _]. destruct cmd as [|ch cmd]; [done|]. cbn [String.append str_empty name].
  rewrite (bind_Ok _ _ _ _ _ _ Hd). destruct m as [|ch' m]; [done|].
  cbn [message str_empty negb]. unfold emit, when, mbind, eff_bind. by rewrite Hq.
Qed.

Lemma credentials_ok u p : text_ok u → text_ok p → json_ok (json_texts [("userId", u); ("password", p)]).
Proof. intros. apply texts_ok. repeat constructor; try done; text_lit. Qed.

Lemma credentials_fields u p : let j := json_texts [("userId", u); ("password", p)] in
  (∃ v, json_get j "userId" = Some v ∧ to_text v = Ok u) ∧ (∃ v, json_get j "password" = Some v ∧ to_text v = Ok p).
Proof.
  cbv zeta. split; eexists; (split; [by rewrite !texts_get_cons|]); unfold to_text; by rewrite string_str.
Qed.

(** What the backend does with a registration. *)
Lemma serve_register s client u p : text_ok u → text_ok p → let req := register_request client u p in
  match AuthService.registerUser u p s with
  | (Ok _, s', _) => serve cfg clock s req = Ok (respond_with 200 ok_body) ∧ served_state cfg clock s req = s'
  | (Err (Thrown UserStoreError what), s', _) =>
      serve cfg clock s req = Ok (respond_with 409 (error_body what)) ∧ served_state cfg clock s req = s'
  | _ => True
  end.
Proof.
  intros Hu Hp req. destruct (text_of_ok _ (credentials_ok u p Hu Hp)) as [_ Hparse].
  destruct (credentials_fields u p) as [(uv&Huv&Htu) (pv&Hpv&Htp)].
  assert (Hf : find_route (registerRoutes cfg clock ∅) req = Some register_route) by done.
  assert (Hr : register_route req s = match AuthService.registerUser u p s with
    | (Ok _, s', ev) => (Ok (respond_with 200 ok_body), s', ev)
    | (Err (Thrown UserStoreError what), s', ev) => (Ok (respond_with 409 (error_body what)), s', ev)
    | (Err e, s', ev) => (Err e, s', ev) end).
  { unfold register_route. change (req_body req) with (credentials_text u p). unfold credentials_text.
    rewrite Hparse, Huv, Hpv, Htu, Htp, !bind_lift. done. }
  unfold serve, served_state, out_state, handle_request. rewrite Hf. unfold try, mbind, eff_bind. rewrite Hr.
  destruct (AuthService.registerUser u p s) as [[[?|[| |[]]] s'] ev]; done.
Qed.

(** What the backend does with a login. *)
Lemma serve_login s client u p : service_ok s clock → text_ok u → text_ok p →
  let req := HttpClient.post_request (HttpClient.host_ client) "/api/auth/login" (credentials_text u p)
    "application/json" in
  serve cfg clock s req = Ok (login_answer u (AuthService.login s (clock 0%nat) u p)) ∧
  served_state cfg clock s req = s.
Proof.
  intros Hs Hu Hp req. destruct (text_of_ok _ (credentials_ok u p Hu Hp)) as [_ Hparse].
  assert (E : handle_request (registerRoutes cfg clock ∅) false req s =
    (Ok (Answered (login_answer u (AuthService.login s (clock 0%nat) u p))), s, [])).
  { eapply handle_answers; [done|]. eapply login_route_eq; [done|exact Hparse|..]; by rewrite texts_field. }
  unfold serve, served_state, out_state. by rewrite E.
Qed.

(** The two commands of the client. *)
Lemma register_runs http c u p status body : text_ok u → text_ok p →
  http "/api/auth/register" (credentials_text u p) = Ok (status, body) →
  dispatch http (mkCommand "register" [u; p]) c = (Ok (if negb (status =? 200) && negb (status =? 201)
    then mkCommandResult false ("register failed: " +:+ body)
    else mkCommandResult true ("registered as " +:+ u)), c, []).
Proof.
  intros Hu Hp Hh. destruct (text_of_ok _ (credentials_ok u p Hu Hp)) as [Hd _].
  change (dispatch http _ c) with (register_ http [u; p] c).
  unfold register_, try. rewrite Hd, bind_lift. fold (credentials_text u p). rewrite Hh, bind_lift.
  by destruct (_ && _).
Qed.

Lemma login_fails http c u p status body : text_ok u → text_ok p → status ≠ 200 →
  http "/api/auth/login" (credentials_text u p) = Ok (status, body) →
  dispatch http (mkCommand "login" [u; p]) c = (Ok (mkCommandResult false ("login failed: " +:+ body)), c, []).
Proof.
  intros Hu Hp Hst Hh. destruct (text_of_ok _ (credentials_ok u p Hu Hp)) as [Hd _].
  assert (E : login http [u; p] c = (Ok (mkCommandResult false ("login failed: " +:+ body)), c, [])).
  { unfold login, try. rewrite Hd, bind_lift. fold (credentials_text u p). rewrite Hh, bind_lift.
    by rewrite (proj2 (Z.eqb_neq status 200)). }
  unfold dispatch. cbn [name args]. rewrite bool_decide_true by done. by rewrite (bind_Ok _ _ _ _ _ _ E).
Qed.

Lemma login_succeeds http c u p t : text_ok u → text_ok p → ascii_text t → t ≠ "" →
  http "/api/auth/login" (credentials_text u p) = Ok (200, text_of (json_texts [("token", t); ("userId", u)])) →
  dispatch http (mkCommand "login" [u; p]) (cmds c) =
    (Ok (mkCommandResult true ("logged in as " +:+ u)), cmds (logged_in u t c), [LoggedIn]).
Proof.
  intros Hu Hp Ht Hne Hh. destruct (text_of_ok _ (credentials_ok u p Hu Hp)) as [Hd _].
  destruct (text_of_ok _ (login_ok_text t u Ht Hu)) as [_ Hparse].
  assert (E : login http [u; p] (cmds c) =
    (Ok (mkCommandResult true ("logged in as " +:+ u)), cmds (logged_in u t c), [])).
  { unfold login, try. rewrite Hd, bind_lift. fold (credentials_text u p). rewrite Hh, bind_lift.
    cbn [Z.eqb Pos.eqb negb]. rewrite Hparse, bind_lift, !texts_value. cbn [list_to_map foldr fst snd].
    rewrite (lookup_insert_ne _ "token" "userId"), !lookup_insert_eq by done. cbn [default from_option].
    rewrite bind_lift. destruct t as [|ch t]; [done|]. by destruct c as [[] ? ? ? ? ? ?]. }
  unfold dispatch. cbn [name args]. rewrite bool_decide_true by done. by rewrite (bind_Ok _ _ _ _ _ _ E).
Qed.

Lemma post_to_eq client s path body : post_to cfg clock client s path body =
  r ← serve cfg clock s (HttpClient.post_request (HttpClient.host_ client) path body "application/json");
  Ok (status r, Api.body r).
Proof. done. Qed.
End facts.

Section properties.
Context `{OpenSSLSpec, JsonSpec, SqliteSpec, !SqliteUp, JwtCpp, !JwtCppSpec, !JwtCompact}.

Lemma register_free s u p h : UserStore.hashPassword p = Ok h → rows (AuthService.store_ s) !! c_str u = None →
  ∃ s', AuthService.registerUser u p s = (Ok (), s', []) ∧ AuthService.jwt_ s' = AuthService.jwt_ s ∧
    AuthService.ttl_ s' = AuthService.ttl_ s ∧ rows (AuthService.store_ s') !! c_str u = Some h.
Proof.
  intros Hh Hnone. destruct (addUser_eq (AuthService.store_ s) u p h Hh) as (d'&Hadd&Hrows).
  unfold AuthService.registerUser. rewrite Hadd, Hnone, bool_decide_false by (by intros [? [=]]).
  eexists. split; [done|]. split; [done|]. split; [done|]. cbn. rewrite Hrows by done. apply lookup_insert_eq.
Qed.

Lemma register_taken s u p : is_Some (rows (AuthService.store_ s) !! c_str u) →
  AuthService.registerUser u p s = (Err (Thrown UserStoreError ("user already exists: " +:+ u)), s, []).
Proof.
  intros Hsome. destruct (hashPassword_Ok p) as (h&Hh&_).
  destruct (addUser_eq (AuthService.store_ s) u p h Hh) as (d'&Hadd&_).
  unfold AuthService.registerUser. rewrite Hadd, bool_decide_true by done. by destruct s.
Qed.

(** A verified token opens a session for its user. *)
Lemma accept_token s later t u exp sid b : t ≠ "" → (∀ c, str_in c t → token_char c = true) →
  AuthService.verifyToken s later t = Ok (mkJwtPayload u exp) →
  WsServer.accept (AuthService.verifyToken s later) sid (ws_target t) b =
    (Ok (), mkBackend (call_manager_ b) (<[u := sid]> (ws_sessions_ b)), [WsLog ("[ws] user connected: " +:+ u)]).
Proof.
  intros Hne Hchars Hv. unfold WsServer.accept. rewrite extract_ws_target by (by intros Hin%Hchars).
  destruct t as [|ch t]; [done|]. cbn [str_empty]. by rewrite Hv.
Qed.

(** C13: signing in from the command line, over the HTTP client and the routes of
    the backend, to the session table of the WebSocket server. The command
    register creates the account of a free name, and a second registration of the
    name is refused and changes nothing; the command login with a password of
    another hash is refused and leaves the session as it is; with the right one it
    stores the name and a token in the session and announces the login; and until
    the token expires, the connection that the client then opens is taken for that
    user. The user is told the outcome of each. *)
Theorem sign_in cfg clock s client c u p p' sid b :
  service_ok s clock → word u → word p → word p' → text_ok u → text_ok p → text_ok p' →
  rows (AuthService.store_ s) !! c_str u = None → UserStore.hashPassword p' ≠ UserStore.hashPassword p →
  quit_ (cmds c) = false →
  ∃ s1 t,
  let types (s : AuthService.AuthService) (cmd p : string) :=
    type_line (post_to cfg clock client s) (cmd +:+ " " +:+ u +:+ " " +:+ p) c in
  (types s "register" p = (Ok (), c, [Printed ("registered as " +:+ u)]) ∧
   served_state cfg clock s (register_request client u p) = s1) ∧
  (types s1 "register" p' =
     (Ok (), c, [Printed ("register failed: " +:+ error_body ("user already exists: " +:+ u))]) ∧
   served_state cfg clock s1 (register_request client u p') = s1) ∧
  types s1 "login" p' = (Ok (), c, [Printed ("login failed: " +:+ error_body "invalid credentials")]) ∧
  types s1 "login" p = (Ok (), logged_in u t c, [LoggedIn; Printed ("logged in as " +:+ u)]) ∧
  isLoggedIn (client_session (logged_in u t c)) = true ∧
  ∀ later req, clock 0%nat ≤ later < clock 0%nat + AuthService.ttl_ s → req_target req = ws_target t →
    handle_request (registerRoutes cfg clock ∅) true req s1 = (Ok (ToWebSocket (ws_target t)), s1, []) ∧
    WsServer.accept (AuthService.verifyToken s1 later) sid (ws_target t) b =
      (Ok (), mkBackend (call_manager_ b) (<[u := sid]> (ws_sessions_ b)),
       [WsLog ("[ws] user connected: " +:+ u)]).
Proof.
  intros Hs Wu Wp Wp' Hu Hp Hp' Hfree Hne Hq.
  destruct (hashPassword_Ok p) as (h&Hh&_), (hashPassword_Ok p') as (h'&Hh'&_).
  destruct (register_free s u p h Hh Hfree) as (s1&Hreg&Hjwt&Httl&Hrow).
  assert (Hs1 : service_ok s1 clock) by (by destruct Hs; split; rewrite ?Httl).
  destruct (sign_Ok (AuthService.jwt_ s1) (clock 0%nat) u (AuthService.ttl_ s1) _ Hu
    (clock_plus_ok s1 clock 0 Hs1)) as (t&Hsign&Hjs&Hta).
  destruct (jwt_compact _ _ _ _ _ Hjs) as [Htne Htc].
  assert (Hw : word "register" ∧ word "login") by (split; by apply word_check).
  destruct Hw as [Wr Wl]. assert (Ec : with_cmds (cmds c) c = c) by (by destruct c).
  exists s1, t. cbv zeta. split_and!.
  - pose proof (serve_register cfg clock s client u p Hu Hp) as E. cbv zeta in E. rewrite Hreg in E. destruct E as [E _].
    rewrite (type_command _ "register" u p c (cmds c) [] ("registered as " +:+ u) true); [by rewrite Ec|done|done|done| |done|done].
    etransitivity; [eapply register_runs; [done..|]; unfold register_request in E; rewrite post_to_eq, E; reflexivity|done].
  - pose proof (serve_register cfg clock s client u p Hu Hp) as E. cbv zeta in E. rewrite Hreg in E. by destruct E.
  - pose proof (serve_register cfg clock s1 client u p' Hu Hp') as E. cbv zeta in E.
    rewrite register_taken in E by (by rewrite Hrow). destruct E as [E _].
    rewrite (type_command _ "register" u p' c (cmds c) []
      ("register failed: " +:+ error_body ("user already exists: " +:+ u)) false);
      [by rewrite Ec|done|done|done| |done|done].
    etransitivity; [eapply register_runs; [done..|]; unfold register_request in E; rewrite post_to_eq, E; reflexivity|done].
  - pose proof (serve_register cfg clock s1 client u p' Hu Hp') as E. cbv zeta in E.
    rewrite register_taken in E by (by rewrite Hrow). by destruct E.
  - destruct (serve_login cfg clock s1 client u p' Hs1 Hu Hp') as [E _].
    rewrite (login_eq _ _ _ _ h'), Hrow, bool_decide_false in E by (done || congruence).
    rewrite (type_command _ "login" u p' c (cmds c) [] ("login failed: " +:+ error_body "invalid credentials") false);
      [by rewrite Ec|done|done|done| |done|done].
    eapply (login_fails _ _ _ _ 401); [done..|]. by rewrite post_to_eq, E.
  - destruct (serve_login cfg clock s1 client u p Hs1 Hu Hp) as [E _].
    rewrite (login_eq _ _ _ _ h), Hrow, bool_decide_true, Hsign in E by done.
    rewrite (type_command _ "login" u p c (cmds (logged_in u t c)) [LoggedIn] ("logged in as " +:+ u) true);
      [by destruct c|done|done|done| |done|done].
    apply login_succeeds; [done|done|exact Hta|exact Htne|]. by rewrite post_to_eq, E.
  - cbn. by destruct t.
  - intros later req Hl Hreq. unfold handle_request. split; [by rewrite Hreq|].
    eapply accept_token; [done|done|]. apply (verify_sign _ _ _ _ _ Hjs). by rewrite Httl.
Qed.
End properties.

(** ** Alice registers and signs in *)

Lemma prod_encode_not_one p q : prod_encode p q ≠ 1%positive.
Proof. by destruct p, q. Qed.

Lemma bits_nonempty p : p ≠ 1%positive → toy_json.bits p ≠ "".
Proof. by destruct p. Qed.

Lemma bits_token p c : str_in c (toy_json.bits p) → token_char c = true.
Proof. induction p as [p IH|p IH|]; cbn; [..|done]; (intros [-> |?]; [done|by apply IH]). Qed.

#[local] Instance ToyJwtCompact : JwtCompact.
Proof.
  intros secret u iat exp t [= <-]. split; [|intros c; apply bits_token].
  apply bits_nonempty. apply prod_encode_not_one.
Defined.

Module wonderland.
Definition clock (k : nat) : Z := 1000.
Definition client : HttpClient.HttpClient := HttpClient.mkHttpClient "localhost" 8080 false.

Lemma sign_in_service_good : service_ok accounts.service clock.
Proof. by split. Qed.

Lemma sign_in_witness : ∃ s1 t,
  type_line (post_to http.cfg clock client s1) "login alice wonderland" new_client =
    (Ok (), logged_in "alice" t new_client, [LoggedIn; Printed "logged in as alice"]) ∧
  WsServer.accept (AuthService.verifyToken s1 1500) 7%nat (ws_target t) (mkBackend (mkCallManager 30 ∅) ∅) =
    (Ok (), mkBackend (mkCallManager 30 ∅) {[ "alice" := 7%nat ]}, [WsLog "[ws] user connected: alice"]).
Proof.
  destruct (sign_in http.cfg clock accounts.service client new_client "alice" "wonderland" "looking-glass" 7
    (mkBackend (mkCallManager 30 ∅) ∅) sign_in_service_good) as (s1&t&_&_&_&Hlogin&_&Hws);
    [by apply word_check..|done|done|done|by vm_compute| |done|].
  - intros E. vm_compute in E. discriminate E.
  - exists s1, t. split; [exact Hlogin|].
    apply (Hws 1500 (mkRequest "GET" (ws_target t) "" ∅)); [unfold clock; change (AuthService.ttl_ accounts.service) with 3600; lia|done].
Defined.
End wonderland.
