(* ===== verification/Mains.v ===== *)
(** * The main programs (main.cpp of src/turn_server, src/backend and src/client_cli)

    What the three programs read from their configuration, what they build of
    it, and the loop of the backend: the handlers of messages and connections,
    and the timer that looks for calls nobody answers.  Loading certificates and
    opening the database are parameters; [start] is [None] where main returns
    an error, [Err] where an exception ends the program. *)

From Stdlib Require Import Ascii.
From S2P Require Export Config SignalingSafety Dispatcher.
From S2P Require Import Api.

#[local] Existing Instances ToyOpenSSL ToyOpenSSLSpec ToyJson ToyJsonSpec ToyJwt ToyJwtSpec.

(** The block around [load] in every main: without a file, the defaults. *)
Definition load_settings (path : string) (file : option string) : Config :=
  match load path file ∅ with Ok data_ => data_ | Err _ => ∅ end.

(** ** The TURN server *)

Module TurnMain.
Record Settings := mkSettings {
  cert_file : string;
  key_file : string;
  secret : string;
  rlm : string;
  relay_addr : string;
  port_min : Z;
  port_max : Z;
  log_file : string;
}.

Definition settings (cfg : Config) : Settings := {|
  cert_file := Config.get "CERT_FILE" "../backend/certs/cert.pem" cfg;
  key_file := Config.get "KEY_FILE" "../backend/certs/key.pem" cfg;
  secret := Config.get "SHARED_SECRET" "turn_shared_secret" cfg;
  rlm := Config.get "REALM" "chat.example.com" cfg;
  relay_addr := Config.get "RELAY_ADDR" "127.0.0.1" cfg;
  port_min := u16 (getInt "PORT_MIN" 49152 cfg);
  port_max := u16 (getInt "PORT_MAX" 65535 cfg);
  log_file := Config.get "LOG_FILE" "" cfg;
|}.

Definition dispatcher (s : Settings) : TurnDispatcher :=
  newTurnDispatcher (rlm s) (secret s) (relay_addr s) (port_min s) (port_max s).
End TurnMain.

(** ** The client *)

Module ClientMain.
Record Settings := mkSettings { server_host : string; server_port : Z }.
Definition settings (cfg : Config) : Settings :=
  mkSettings (Config.get "SERVER_HOST" "localhost" cfg) (u16 (getInt "SERVER_PORT" 8080 cfg)).
End ClientMain.

(** ** The backend *)

Module BackendMain.
Record Settings := mkSettings {
  listen_host : string;
  listen_port : Z;
  db_path : string;
  jwt_secret : string;
  jwt_ttl : Z;
  cert_file : string;
  key_file : string;
  turn_config : TurnConfig;
  expire_interval : Z;
  log_file : string;
}.

Definition settings (cfg : Config) : Settings := {|
  listen_host := Config.get "HOST" "0.0.0.0" cfg;
  listen_port := u16 (getInt "PORT" 8080 cfg);
  db_path := Config.get "DB_PATH" "../data/chat.db" cfg;
  jwt_secret := Config.get "JWT_SECRET" "change_me_in_production" cfg;
  jwt_ttl := getInt "JWT_TTL" 86400 cfg;
  cert_file := Config.get "CERT_FILE" "../backend/certs/cert.pem" cfg;
  key_file := Config.get "KEY_FILE" "../backend/certs/key.pem" cfg;
  turn_config := mkTurnConfig (Config.get "TURN_HOST" "localhost" cfg) (u16 (getInt "TURN_PORT_PLAIN" 3478 cfg))
    (u16 (getInt "TURN_PORT_TLS" 5349 cfg)) (Config.get "TURN_SECRET" "turn_shared_secret" cfg)
    (getInt "TURN_TTL" 3600 cfg);
  expire_interval := getInt "EXPIRE_INTERVAL" 5 cfg;
  log_file := Config.get "LOG_FILE" "" cfg;
|}.

(** The objects of main that change: the service of the HTTP routes, the calls and
    the sessions, and the deadline of the timer. *)
Section objects.
Context `{Sqlite}.
Record Program := mkProgram {
  auth_service : AuthService.AuthService;
  backend : Backend;
  expire_timer : Z;
}.

(** [expires_after]. *)
Definition schedule (s : Settings) (now : Z) : Z := now + seconds (expire_interval s).

Section start.
(** Loading the certificate and the key, opening the database, creating its table. *)
Variable load_tls : string → string → result ().
Variable sqlite_open : string → string + database.
Variable init_schema : database → string + database.

Definition open_store (path : string) : result database :=
  match sqlite_open path with
  | inl err => Err (Thrown UserStoreError ("cannot open database: " +:+ err))
  | inr db =>
      match init_schema db with
      | inl err => Err (Thrown UserStoreError ("initSchema failed: " +:+ err))
      | inr db => mret db
      end
  end.

Definition new_service (s : Settings) : result AuthService.AuthService :=
  db ← open_store (db_path s);
  mret (AuthService.mkAuthService (jwt_secret s) db (jwt_ttl s)).

Definition start (cfg : Config) (now : Z) : result (option Program) :=
  let s := settings cfg in
  match load_tls (cert_file s) (key_file s) with
  | Err (Thrown _ _) => mret None
  | Err e => Err e
  | Ok _ =>
      service ← new_service s;
      mret (Some (mkProgram service (mkBackend (newCallManager 30) ∅) (schedule s now)))
  end.
End start.

Section loop.
Context `{OpenSSL, Json, JwtCpp, !IterOrder string CallSession}.
Variable s : Settings.

(** A part of the program that works on the calls and the sessions only. *)
Definition on_backend {A} (m : B A) : eff Program WsEvent A := λ p,
  let '(r, b, ev) := m (backend p) in (r, mkProgram (auth_service p) b (expire_timer p), ev).

(** The callback of [ws_server.onMessage]. *)
Definition on_message (env : RouterInputs) (userId msg : string) : eff Program WsEvent () :=
  on_backend (Router.handle (generateRtcConfig (turn_config s)) env userId msg).

(** The handler of the timer; [now] is the clock when the timer is set again. *)
Definition set_timer (now : Z) : eff Program WsEvent () := λ p,
  (Ok (), mkProgram (auth_service p) (backend p) (schedule s now), []).
Definition on_timer (cancelled : bool) (env : RouterInputs) (now : Z) : eff Program WsEvent () :=
  if cancelled then mret () else
  on_backend (Router.checkExpired env);; set_timer now.

(** An upgrade to a WebSocket, and the end of a session. *)
Definition on_upgrade (now : Z) (session : nat) (target : string) : eff Program WsEvent () := λ p,
  on_backend (WsServer.accept (AuthService.verifyToken (auth_service p) now) session target) p.
Definition on_close (userId : string) : eff Program WsEvent () := on_backend (WsServer.removeSession userId).

(** The program as time passes, from [t0] on.  The timer is handled after its
    deadline, and nothing starts more than [busy] nanoseconds after it: the time
    the threads may be kept busy by other handlers. *)
Inductive running (p0 : Program) (t0 busy : Z) : Z → Program → Prop :=
  | running_start : running p0 t0 busy t0 p0
  | running_message t p env u raw : running p0 t0 busy t p →
      inputs_ok env → authenticated (jwt_secret s) u → t ≤ steady env ≤ expire_timer p + busy →
      running p0 t0 busy (steady env) (out_state (on_message env u raw p))
  | running_upgrade t p now wall sid target : running p0 t0 busy t p → t ≤ now ≤ expire_timer p + busy →
      running p0 t0 busy now (out_state (on_upgrade wall sid target p))
  | running_close t p now u : running p0 t0 busy t p → t ≤ now ≤ expire_timer p + busy →
      running p0 t0 busy now (out_state (on_close u p))
  | running_timer t p env now : running p0 t0 busy t p →
      t ≤ steady env → expire_timer p ≤ steady env ≤ now → now ≤ expire_timer p + busy →
      running p0 t0 busy now (out_state (on_timer false env now p)).
End loop.
End objects.
End BackendMain.

(** ** Lemmas *)

Lemma getInt_bound key d cfg : - 2 ^ 31 ≤ d < 2 ^ 31 → - 2 ^ 31 ≤ getInt key d cfg < 2 ^ 31.
Proof.
  intros Hd. unfold getInt. destruct (cfg !! key) as [v|]; [|done].
  unfold stoi, sto. destruct (strtol v) as [n|]; [|done].
  change (32 - 1) with 31. destruct (Z.leb_spec (- 2 ^ 31) n), (Z.ltb_spec n (2 ^ 31)); cbn [andb]; done.
Qed.

Section facts.
Context `{OpenSSLSpec, JsonSpec, Sqlite, JwtCpp, !JwtCppSpec, !IterOrder string CallSession}.
Import BackendMain.

(** What a request leaves ringing was ringing, or rings from now on. *)
Lemma respond_ringing cfg env u r cm k c : sessions_ (respond cfg env u r cm).1 !! k = Some c →
  state c = CallState.Ringing → sessions_ cm !! k = Some c ∨ createdAt c = steady env.
Proof.
  destruct r; cbn [respond answer fst]; try by left.
  - rewrite create_eq. destruct (isBusy u cm); [by left|]. destruct (isBusy callee cm); [by left|].
    cbn. intros [[_ <-]|[_ ?]]%lookup_insert_Some; [by right|by left].
  - rewrite accept_eq. destruct (sessions_ cm !! call) as [s0|]; [|by left]. do 2 (case_match; [by left|]).
    cbn. intros [[_ <-]|[_ ?]]%lookup_insert_Some; [done|by left].
  - rewrite reject_eq. destruct (sessions_ cm !! call) as [s0|]; [|by left]. do 2 (case_match; [by left|]).
    cbn. intros [_ ?]%lookup_delete_Some; by left.
  - rewrite hangup_eq. destruct (sessions_ cm !! call) as [s0|]; [|by left]. case_match; [|by left].
    cbn. intros [_ ?]%lookup_delete_Some; by left.
Qed.

Lemma respond_timeout cfg env u r cm : ring_timeout_ (respond cfg env u r cm).1 = ring_timeout_ cm.
Proof.
  destruct r; cbn [respond answer fst]; rewrite ?create_eq, ?accept_eq, ?reject_eq, ?hangup_eq; try done;
    repeat case_match; done.
Qed.
End facts.

Section properties.
Context `{OpenSSLSpec, JsonSpec, Sqlite, JwtCpp, !JwtCppSpec, !IterOrder string CallSession}.
Import BackendMain.
Variable load_tls : string → string → result ().
Variable sqlite_open : string → string + database.
Variable init_schema : database → string + database.

(** The state of the program between two handlers: [late] bounds how far the
    deadline of the timer lies behind what a ringing call needs. *)
Record loop_inv (s : Settings) (busy t : Z) (p : Program) : Prop := {
  loop_backend : backend_inv (backend p);
  loop_timeout : ring_timeout_ (call_manager_ (backend p)) = 30;
  loop_service : AuthService.jwt_ (auth_service p) = jwt_secret s;
  loop_time : t ≤ expire_timer p + busy ∧ expire_timer p ≤ t + seconds (expire_interval s);
  loop_ringing k c : sessions_ (call_manager_ (backend p)) !! k = Some c → state c = CallState.Ringing →
    expire_timer p ≤ createdAt c + seconds (30 + expire_interval s) + busy;
}.

Lemma on_backend_Ok {A} (m : B A) p b' a ev : m (backend p) = (Ok a, b', ev) →
  on_backend m p = (Ok a, mkProgram (auth_service p) b' (expire_timer p), ev).
Proof. unfold on_backend. by intros ->. Qed.

Lemma start_inv cfg t0 p0 busy : 0 ≤ expire_interval (settings cfg) → 0 ≤ busy →
  start load_tls sqlite_open init_schema cfg t0 = Ok (Some p0) → loop_inv (settings cfg) busy t0 p0.
Proof.
  intros HI Hb. unfold start. destruct (load_tls _ _) as [|[| |]]; try done.
  unfold new_service. destruct (open_store _ _ _) as [db|e]; [|done]. intros [= <-].
  split; cbn [backend auth_service expire_timer call_manager_ sessions_ ring_timeout_].
  - split; cbn; [apply call_run_inv; exists 30; apply rtc_refl|intros k c; by rewrite lookup_empty].
  - done.
  - done.
  - unfold schedule, seconds. lia.
  - intros k c. cbn. by rewrite lookup_empty.
Qed.

Lemma message_inv s busy t p env u raw : cfg_ok (turn_config s) → 0 ≤ expire_interval s → 0 ≤ busy →
  loop_inv s busy t p →
  inputs_ok env → authenticated (jwt_secret s) u → t ≤ steady env ≤ expire_timer p + busy →
  loop_inv s busy (steady env) (out_state (on_message s env u raw p)).
Proof.
  intros Hcfg HI Hb [Ib It Is Ht Ir] Henv Hu%authenticated_text Hnow.
  destruct (wp_run _ _ _ (implements_handle (turn_config s) env Hcfg Henv (backend p) u raw Ib Hu))
    as ([]&b'&ev&E&->&_). unfold on_message. rewrite (on_backend_Ok _ _ _ _ _ E).
  split; unfold out_state; cbn [fst snd backend auth_service expire_timer call_manager_].
  - by apply respond_inv.
  - by rewrite respond_timeout.
  - done.
  - lia.
  - intros k c Hk Hr. destruct (respond_ringing _ _ _ _ _ _ _ Hk Hr) as [?|Hc]; [by apply (Ir k)|].
    unfold seconds in *. lia.
Qed.

Lemma upgrade_inv s busy t p now wall sid target : loop_inv s busy t p → t ≤ now ≤ expire_timer p + busy →
  loop_inv s busy now (out_state (on_upgrade wall sid target p)).
Proof.
  intros [Ib It Is Ht Ir] Hnow. unfold on_upgrade, on_backend.
  pose proof (accept_calls (AuthService.verifyToken (auth_service p) wall) sid target (backend p)) as E.
  destruct (WsServer.accept _ _ _ _) as [[r b'] ev]. unfold out_state in *. cbn [fst snd] in *.
  split; cbn [backend auth_service expire_timer]; rewrite ?E; try done; [|lia].
  destruct Ib as [I1 I2]. rewrite <-E in I1, I2. by split.
Qed.

Lemma close_inv s busy t p now u : loop_inv s busy t p → t ≤ now ≤ expire_timer p + busy →
  loop_inv s busy now (out_state (on_close u p)).
Proof.
  intros [[I1 I2] It Is Ht Ir] Hnow.
  assert (E : out_state (on_close u p) = mkProgram (auth_service p)
    (mkBackend (call_manager_ (backend p)) (delete u (ws_sessions_ (backend p)))) (expire_timer p)) by done.
  rewrite E. split; cbn [backend auth_service expire_timer call_manager_]; try done. lia.
Qed.

(** The handler of the timer: what it removes and whom it tells. *)
Lemma timer_runs s busy t p env now : loop_inv s busy t p →
  ∃ ev, on_timer s false env now p = (Ok (), mkProgram (auth_service p)
      (mkBackend (sweep env (call_manager_ (backend p))).1 (ws_sessions_ (backend p))) (schedule s now), ev) ∧
    writes ev = delivery (backend p) (sweep env (call_manager_ (backend p))).2.
Proof.
  intros [Ib _ _ _ _].
  destruct (wp_run _ _ _ (implements_checkExpired env (backend p) Ib)) as ([]&b'&ev&E&->&Hw&_).
  unfold on_timer. rewrite (bind_Ok _ _ _ _ _ _ (on_backend_Ok _ _ _ _ _ E)). unfold set_timer.
  rewrite app_nil_r. by exists ev.
Qed.

Lemma timer_inv s busy t p env now : 0 ≤ expire_interval s → 0 ≤ busy → loop_inv s busy t p →
  t ≤ steady env → expire_timer p ≤ steady env ≤ now → now ≤ expire_timer p + busy →
  loop_inv s busy now (out_state (on_timer s false env now p)).
Proof.
  intros HI Hb I Ht Hn Hnow. destruct (timer_runs s busy t p env now I) as (ev&->&_).
  destruct I as [Ib It Is _ _]. split; unfold out_state; cbn [fst snd backend auth_service expire_timer call_manager_].
  - by apply expire_inv.
  - destruct (expireRinging_spec (steady env) (call_manager_ (backend p))) as (_&_&E). cbn. by rewrite E.
  - done.
  - unfold schedule, seconds. lia.
  - intros k c Hk Hr. destruct (expireRinging_spec (steady env) (call_manager_ (backend p))) as (_&E&_).
    cbn [sweep fst] in Hk. rewrite E in Hk. apply map_lookup_filter_Some in Hk as [_ Hout]. cbn in Hout.
    unfold timed_out in Hout. rewrite It, bool_decide_true in Hout by done. cbn [andb] in Hout. brefl.
    unfold schedule, seconds in *. lia.
Qed.

Lemma running_inv s busy t0 t p0 p : cfg_ok (turn_config s) → 0 ≤ expire_interval s → 0 ≤ busy →
  loop_inv s busy t0 p0 → running s p0 t0 busy t p → loop_inv s busy t p.
Proof.
  intros Hcfg HI Hb I0. induction 1; eauto using upgrade_inv, close_inv, timer_inv.
  eapply message_inv; eauto.
Qed.

(** C12: a call that nobody answers ends. When the backend has started with a
    configuration file whose EXPIRE_INTERVAL is not negative, and whose TURN_HOST is
    a UTF-8 text and TURN_TTL not negative, then whatever messages and connections
    it handles, no call rings for longer than the 30 seconds of the call manager,
    the interval at which the timer runs, and twice the time [busy] for which other
    handlers may delay one.  The handler of the timer does not fail; it removes
    every call that has rung for more than 30 seconds, and hands a message for both
    parties to their sessions, as far as they are connected. *)
Theorem unanswered_calls_end cfg t0 p0 busy t p :
  start load_tls sqlite_open init_schema cfg t0 = Ok (Some p0) →
  let s := settings cfg in
  cfg_ok (turn_config s) → 0 ≤ expire_interval s → 0 ≤ busy → running s p0 t0 busy t p →
  (∀ k c, sessions_ (call_manager_ (backend p)) !! k = Some c → state c = CallState.Ringing →
     t - createdAt c ≤ seconds (30 + expire_interval s) + 2 * busy) ∧
  (∀ env now, ∃ p' ev, on_timer s false env now p = (Ok (), p', ev) ∧
     ∀ k c, sessions_ (call_manager_ (backend p)) !! k = Some c → state c = CallState.Ringing →
       seconds 30 < steady env - createdAt c →
       sessions_ (call_manager_ (backend p')) !! k = None ∧
       ∀ u sid, u = callerId c ∨ u = calleeId c → ws_sessions_ (backend p) !! u = Some sid →
         (sid, text_of (json_texts [("type", "call.failed"); ("callId", callId c); ("reason", "timeout")]))
           ∈ writes ev).
Proof.
  cbv zeta. intros Hstart Hcfg HI Hb Hrun.
  pose proof (running_inv _ busy t0 t p0 p Hcfg HI Hb (start_inv cfg t0 p0 busy HI Hb Hstart) Hrun) as I.
  split.
  - intros k c Hk Hr. pose proof (loop_ringing _ _ _ _ I k c Hk Hr). pose proof (loop_time _ _ _ _ I). lia.
  - intros env now. destruct (timer_runs _ busy t p env now I) as (ev&E&Hw). do 2 eexists. split; [exact E|].
    intros k c Hk Hr Hlong. cbn [backend call_manager_ sweep fst snd] in *.
    assert (Hto : timed_out (ring_timeout_ (call_manager_ (backend p))) (steady env) c = true).
    { unfold timed_out. rewrite (loop_timeout _ _ _ _ I), bool_decide_true by done. by apply Z.ltb_lt. }
    destruct (expireRinging_spec (steady env) (call_manager_ (backend p))) as (Hex&Hs&_). split.
    + rewrite Hs. apply map_lookup_filter_None. right. intros c' Hk'. rewrite Hk in Hk'. simplify_eq. cbn. congruence.
    + intros u sid Hu Hsid. rewrite Hw. unfold delivery. apply list_elem_of_omap.
      exists (u, json_texts [("type", "call.failed"); ("callId", callId c); ("reason", "timeout")]).
      split; [|by rewrite Hsid]. apply list_elem_of_bind. exists (set_state CallState.Ended c). split.
      * unfold timeout_msgs. cbn [callerId calleeId callId set_state]. destruct Hu as [-> | ->]; set_solver.
      * rewrite Hex. apply list_elem_of_fmap. exists c. split; [done|]. apply list_elem_of_fmap.
        exists (k, c). split; [done|]. apply elem_of_map_to_list, map_lookup_filter_Some. done.
Qed.
End properties.

(** ** A call that bob does not answer *)

#[local] Existing Instances ToySqlite.

Module unanswered.
Import BackendMain.
#[local] Existing Instance talk.sessions_order.

Definition cfg : Config := load_settings "backend.env" (Some ("JWT_SECRET=jwt-secret" +:+ String line_feed "EXPIRE_INTERVAL=5")).
Definition load_tls (cert key : string) : result () := Ok ().
Definition sqlite_open (path : string) : string + database := inr (∅ : gmap string string).
Definition init_schema (db : database) : string + database := inr db.
Definition main (t0 : Z) : result (option Program) := start load_tls sqlite_open init_schema cfg t0.
Definition p0 : Program := match main 0 with Ok (Some p) => p | _ =>
  mkProgram (AuthService.mkAuthService "" (∅ : gmap string string) 0) (mkBackend (newCallManager 0) ∅) 0 end.
Definition p1 : Program :=
  out_state (on_upgrade 250 1%nat ("/ws?token=" +:+ talk.token_of "alice") p0).
Definition p2 : Program := out_state (on_message (settings cfg) (talk.inputs 310) "alice"
  (text_of (json_texts [("type", "call.create"); ("to", "bob")])) p1).
Definition id : string := generateUuid 310 310.

Lemma p2_running : running (settings cfg) p0 0 0 310 p2.
Proof.
  apply (running_message (settings cfg) p0 0 0 300 p1 (talk.inputs 310));
    [|by apply talk.inputs_good|by apply talk.known; set_solver|by vm_compute].
  apply (running_upgrade (settings cfg) p0 0 0 0 p0 300); [apply running_start|by vm_compute].
Qed.

Lemma unanswered_calls_end_witness : ∃ p' ev,
  on_timer (settings cfg) false (talk.inputs 35000000310) 35000000320 p2 = (Ok (), p', ev) ∧
  sessions_ (call_manager_ (backend p')) !! id = None ∧
  (1%nat, text_of (json_texts [("type", "call.failed"); ("callId", id); ("reason", "timeout")])) ∈ writes ev.
Proof.
  destruct (unanswered_calls_end load_tls sqlite_open init_schema cfg 0 p0 0 310 p2) as [_ Htimer];
    [by vm_compute|by split|by vm_compute|done|exact p2_running|].
  destruct (Htimer (talk.inputs 35000000310) 35000000320) as (p'&ev&E&Hend).
  destruct (Hend id (mkCallSession id "alice" "bob" CallState.Ringing 310)) as [Hgone Htold];
    [by vm_compute|done|by vm_compute|].
  exists p', ev. split; [exact E|]. split; [exact Hgone|].
  apply (Htold "alice" 1%nat); [by left|by vm_compute].
Defined.
End unanswered.
