(* ===== verification/RelayAccess.v ===== *)
(** * From a configured deployment to a relay address

    The backend and the TURN server as their configuration files set them up,
    and a client between them: it reads the credentials that the backend sends
    with a call, asks the TURN server for an allocation, is challenged, and asks
    again with a signature made of the credentials and the challenge.  What the
    WebRTC library of the client sends is built as RFC 5389 and RFC 5766 say. *)

From S2P Require Export Mains CallSetup Server.

#[local] Existing Instances ToyOpenSSL ToyOpenSSLSpec ToyJson ToyJsonSpec DottedAddress DottedAddressSpec.

(** ** What packets leave as it is *)

Section facts.
Context `{OpenSSLSpec} `{BoostAddressSpec} `{!IterOrder string ptr} `{!IterOrder Z ChannelBinding}.

(** The states that packets lead to from [d0]. *)
Inductive serves (d0 : TurnDispatcher) : TurnDispatcher → Prop :=
  | serves_refl : serves d0 d0
  | serves_packet env data from t d d' ev :
      serves d0 d → DispatcherFacts.inputs_ok env d → bytes_ok data →
      onPacket env data from t d = (Ok (), d', ev) → serves d0 d'.

Lemma serves_served d0 d : served d0 → serves d0 d → served d.
Proof. induction 2; [done|]. eapply served_next; eauto. Qed.

Lemma same_config_trans am1 am2 am3 : same_config am1 am2 → same_config am2 am3 → same_config am1 am3.
Proof. unfold same_config. naive_solver congruence. Qed.

(** The realm, the secret, the lifetime of nonces and the relay addresses are
    fixed, and a nonce that is in use stays what it is. *)
Record same_server (d d' : TurnDispatcher) : Prop := {
  same_realm : LongTermCred.realm_ (long_term_cred_ d') = LongTermCred.realm_ (long_term_cred_ d);
  same_validator : LongTermCred.hmac_validator_ (long_term_cred_ d') = LongTermCred.hmac_validator_ (long_term_cred_ d);
  same_ttl : ttl_ (LongTermCred.nonce_manager_ (long_term_cred_ d')) =
    ttl_ (LongTermCred.nonce_manager_ (long_term_cred_ d));
  same_manager : same_config (alloc_manager_ d) (alloc_manager_ d');
  same_nonces time n : isValid time n (LongTermCred.nonce_manager_ (long_term_cred_ d)) = true →
    isValid time n (LongTermCred.nonce_manager_ (long_term_cred_ d')) = true;
}.

Lemma same_server_refl d : same_server d d.
Proof. by split. Qed.

Lemma same_server_trans d1 d2 d3 : same_server d1 d2 → same_server d2 d3 → same_server d1 d3.
Proof.
  intros [R1 V1 T1 M1 N1] [R2 V2 T2 M2 N2]. split; try congruence; [by eapply same_config_trans|auto].
Qed.

Lemma challenged_same env t nonce d d' : challenged env t nonce d d' → same_server d d'.
Proof.
  intros (Ham&_&Hr&Hv&_&Hf&_&Hn&Ht&_). split; try done; [by rewrite Ham|].
  intros time n Hvalid. rewrite Hn; [done|]. intros ->. unfold isValid in Hvalid. by rewrite Hf in Hvalid.
Qed.

Lemma stun_post_same env msg raw from t d d' ev : stun_post env msg raw from t d d' ev → same_server d d'.
Proof.
  unfold stun_post. case_bool_decide; [by intros [-> _]; split|]. intros (res&_&Hres).
  destruct res; try (destruct Hres as (nonce&?&_); by eapply challenged_same);
    [|by destruct Hres as [-> _]; split].
  destruct Hres as (p&resp&am'&signed&_&Hh&_&->&_). split; try done. by eapply handled_config.
Qed.

Lemma serves_same d0 d : served d0 → serves d0 d → same_server d0 d.
Proof.
  intros Hs. induction 1 as [|env data from t d d' ev Hd IH Hin Hok E]; [apply same_server_refl|].
  eapply same_server_trans; [exact IH|].
  pose proof (wp_onPacket_cases env data from t d (served_inv d (serves_served d0 d Hs Hd)) Hin Hok) as W.
  unfold wp in W. rewrite E in W. destruct W as [->|[msg Hpost]]; [apply same_server_refl|by eapply stun_post_same].
Qed.

(** A request without a user name is challenged. *)
Lemma unsigned_missing ltc steady now msg raw allocated : msg_class msg ≠ MessageClass.Indication →
  findAttr msg AttrType.Username = None →
  LongTermCred.authenticate ltc steady now msg raw allocated = Ok AuthResult.MissingCredentials.
Proof. intros Hc Hu. unfold LongTermCred.authenticate. by rewrite bool_decide_false, Hu. Qed.
End facts.

(** ** The exchange with the TURN server *)

Definition udp_transport : Attribute := mkAttribute AttrType.RequestedTransport [17; 0; 0; 0].

(** The first request, and the second one with its integrity attribute. *)
Definition first_request (tid : bytes) : bytes :=
  build (add_attrs (newBuilder Method.Allocate MessageClass.Request tid) [udp_transport]).
Definition second_request (tid : bytes) (u r n : string) (mac : bytes) : bytes :=
  build (add_attrs (newBuilder Method.Allocate MessageClass.Request tid)
    (request_attrs u r n [udp_transport] ++ [mkAttribute AttrType.MessageIntegrity mac])).
(** The MAC of the second request under the key of the credentials. *)
Definition request_mac `{OpenSSL} (tid : bytes) (u r n p : string) : result bytes :=
  crypto.hmac_sha1 (crypto.long_term_key_md5 u r p)
    (string_of_bytes (md5_text (encodeType Method.Allocate MessageClass.Request) tid
      (request_attrs u r n [udp_transport]))).

Lemma udp_transport_ok : attr_ok udp_transport.
Proof. split_and!; compute_done. Qed.

Lemma request_attrs_ok u r n : Z.of_nat (String.length u) < 1000 → Z.of_nat (String.length r) < 1000 →
  String.length n = 32%nat →
  Forall attr_ok (request_attrs u r n [udp_transport]) ∧
  Z.of_nat (length (attrs_bytes (request_attrs u r n [udp_transport]))) + 36 < 65536.
Proof.
  intros Hu Hr Hn. unfold request_attrs. split.
  - repeat (constructor; [by apply string_attr_ok; [done..|lia]|]). constructor; [apply udp_transport_ok|done].
  - rewrite !length_attrs_cons. unfold udp_transport. cbn [attr_value]. rewrite !length_bytes_of_string.
    change (length (attrs_bytes [])) with 0%nat. change (length [17; 0; 0; 0]) with 4%nat.
    pose proof (pad4_lt (String.length u)). pose proof (pad4_lt (String.length r)).
    pose proof (pad4_lt (String.length n)). pose proof (pad4_lt 4). lia.
Qed.

(** What a client reads from a challenge. *)
Lemma challenge_strings len tid v r n :
  let m := mkTurnMessage MessageClass.ErrorResponse Method.Allocate len tid
    (mkAttribute AttrType.ErrorCode v :: challenge r n) in
  attr_string m AttrType.Realm = Some r ∧ attr_string m AttrType.Nonce = Some n.
Proof.
  cbv zeta. unfold attr_string. split.
  - change (findAttr _ _) with (Some (mkAttribute AttrType.Realm (bytes_of_string r))).
    cbn. by rewrite string_of_bytes_of_string.
  - change (findAttr _ _) with (Some (mkAttribute AttrType.Nonce (bytes_of_string n))).
    cbn. by rewrite string_of_bytes_of_string.
Qed.

(** A range of the configuration that is not empty. *)
Lemma port_between am port : port_in_range am port → 0 ≤ relay_port_min_ am ≤ relay_port_max_ am →
  relay_port_max_ am < 65536 → relay_port_min_ am ≤ port ≤ relay_port_max_ am.
Proof.
  intros [Hp Hr] [H1 H2] H3. unfold u16 in Hr. rewrite (Z.mod_small (relay_port_max_ am - relay_port_min_ am)) in Hr by lia.
  destruct (decide (relay_port_min_ am ≤ port)); [rewrite Z.mod_small in Hr; lia|].
  replace (port - relay_port_min_ am) with ((port - relay_port_min_ am + 65536) + (-1) * 65536) in Hr by lia.
  rewrite Z_mod_plus_full, Z.mod_small in Hr; lia.
Qed.

Section exchange.
Context `{OpenSSLSpec} `{BoostAddressSpec} `{!IterOrder string ptr} `{!IterOrder Z ChannelBinding}.

(** The first request is challenged. *)
Lemma first_answer env tid from t d : served d → DispatcherFacts.inputs_ok env d → length tid = 12%nat →
  bytes_ok tid → Z.of_nat (String.length (LongTermCred.realm_ (long_term_cred_ d))) < 1000 →
  ∃ d' ev reply nonce len, onPacket env (first_request tid) from t d = (Ok (), d', ev) ∧
    datagrams ev = [(t, reply, from)] ∧ challenged env t nonce d d' ∧
    ∀ out, parse reply out = Ok (ParseResult.Ok, mkTurnMessage MessageClass.ErrorResponse Method.Allocate len tid
      (mkAttribute AttrType.ErrorCode (error_value 401 "Unauthorized") ::
       challenge (LongTermCred.realm_ (long_term_cred_ d)) nonce)).
Proof.
  intros Hs Hin Htid Htb Hr. set (l := [udp_transport]).
  assert (Hl : Forall attr_ok l) by (constructor; [apply udp_transport_ok|done]).
  pose proof (parse_build_attrs Method.Allocate MessageClass.Request tid l [] empty_message Htid Hl ltac:(by vm_compute))
    as Hparse. rewrite app_nil_r in Hparse. set (msg := mkTurnMessage _ _ _ _ _) in Hparse.
  destruct (refusal env (first_request tid) msg from t d AuthResult.MissingCredentials Hs Hin) as (d'&ev&E&nonce&Hc&Hev).
  - by apply build_bytes_ok.
  - exact Hparse.
  - done.
  - by apply unsigned_missing.
  - pose proof Hc as (_&_&_&_&Hn&_). do 5 eexists. split; [exact E|]. split; [exact Hev|]. split; [exact Hc|].
    intros out. apply is_reply_parse; [done|]. apply is_reply_challenge; [done..|lia].
Qed.
End exchange.

Section properties.
Context `{OpenSSLSpec} `{BoostAddressSpec} `{!IterOrder string ptr} `{!IterOrder Z ChannelBinding}
  `{JsonSpec, !IterOrder string CallSession}.
Variable rtc_init : ClientTurn → result ().
Variable rtc_apply : ClientEvent → result ().

Lemma access_password secret u e t : - 2 ^ 63 ≤ e < 2 ^ 63 → relay_access secret u e t →
  HmacValidator.parseExpiry (turn_username t) = Some e ∧
  HmacValidator.computeHmac (HmacValidator.mkHmacValidator secret) (turn_username t) = Ok (turn_credential t).
Proof.
  intros He (Hu&Hp&_). pose proof (parseExpiry_username e u He) as Hpe. rewrite <-Hu in Hpe.
  split; [done|]. by rewrite <-(getPassword_parse _ _ _ Hpe).
Qed.

(** C4: a client of a configured deployment obtains its relay address. The
    configuration files of the backend and of the TURN server have the same secret,
    a TURN_HOST in UTF-8, a TURN_TTL that is not negative, an IPv4 address as
    RELAY_ADDR, and a REALM that, like the name in the credentials, is shorter than
    1000 characters; the clock is below 2^62. The client gives what the backend
    makes for a call to libdatachannel, which returns or throws. A first request for
    an allocation, in any state of the TURN server and over any transport but DTLS,
    is answered by 401 with the realm and a nonce, if random bytes can be drawn; a
    second one, signed with the credentials and these two, is granted whatever
    packets came in between, if it comes before the nonce and the credentials
    expire, the client has no allocation, its user is within the quota and a port
    that is drawn is free: the transport is given a signed response with an address
    at RELAY_ADDR, and a port from PORT_MIN to PORT_MAX when these are in order,
    which the server holds for the client. *)
Theorem relay_obtained bfile tfile now u id c env1 d1 tid1 from tr ip :
  let cfg := BackendMain.turn_config (BackendMain.settings bfile) in
  let srv := TurnMain.settings tfile in
  shared_secret cfg = TurnMain.secret srv →
  cfg_ok cfg → 0 ≤ now < 2 ^ 62 → text_ok u → text_ok id → library_answers rtc_init rtc_apply →
  make_address_v4 (TurnMain.relay_addr srv) = Some ip → tr ≠ DtlsTransport →
  Z.of_nat (String.length (rtc_username cfg now u)) < 1000 → Z.of_nat (String.length (TurnMain.rlm srv)) < 1000 →
  serves (TurnMain.dispatcher srv) d1 → DispatcherFacts.inputs_ok env1 d1 → length tid1 = 12%nat → bytes_ok tid1 →
  ∃ turn c' evs, on_message rtc_init rtc_apply (text_of (rtc_msg cfg now u id)) c = (Ok (), c', evs) ∧
    turnConfig (client_session c') = turn ∧ (rtc_init turn = Ok () → RtcInit turn ∈ evs) ∧
  ∃ d1' ev1 challenge1 nonce, onPacket env1 (first_request tid1) from tr d1 = (Ok (), d1', ev1) ∧
    datagrams ev1 = [(tr, challenge1, from)] ∧
    (∀ out, ∃ m v, parse challenge1 out = Ok (ParseResult.Ok, m) ∧ msg_class m = MessageClass.ErrorResponse ∧
       transaction_id m = tid1 ∧ findAttr m AttrType.ErrorCode = Some v ∧
       error_code_of (attr_value v) = Some (401, "Unauthorized") ∧
       attr_string m AttrType.Realm = Some (TurnMain.rlm srv) ∧ attr_string m AttrType.Nonce = Some nonce) ∧
  ∀ env2 d2 tid2, serves d1' d2 → DispatcherFacts.inputs_ok env2 d2 → length tid2 = 12%nat → bytes_ok tid2 →
    in_steady env2 < in_challenge env1 + seconds 3600 → in_now env2 ≤ now + ttl cfg →
    alloc_of (alloc_manager_ d2) from = None → Z.of_nat (user_allocs (alloc_manager_ d2) (turn_username turn)) < 10 →
    (∃ k, (k < 1000)%nat ∧
       used_ports_ (alloc_manager_ d2) !! drawn_port (alloc_manager_ d2) (in_dist env2) k = None) →
    ∃ mac d3 ev2 reply port a,
      request_mac tid2 (turn_username turn) (TurnMain.rlm srv) nonce (turn_credential turn) = Ok mac ∧
      onPacket env2 (second_request tid2 (turn_username turn) (TurnMain.rlm srv) nonce mac) from tr d2 =
        (Ok (), d3, ev2) ∧ datagrams ev2 = [(tr, reply, from)] ∧
      (∀ out, ∃ m, parse reply out = Ok (ParseResult.Ok, m) ∧ msg_class m = MessageClass.SuccessResponse ∧
         transaction_id m = tid2 ∧
         attr_value <$> findAttr m AttrType.XorRelayedAddress =
           Some (xor_value ip port)) ∧
      LongTermCred.verifyMessageIntegrityMd5 (TurnMain.rlm srv) reply (turn_username turn)
        (turn_credential turn) = Ok true ∧
      (TurnMain.port_min srv ≤ TurnMain.port_max srv → TurnMain.port_min srv ≤ port ≤ TurnMain.port_max srv) ∧
      alloc_of (alloc_manager_ d3) from = Some a ∧ relayedAddr a = mkEndpoint (TurnMain.relay_addr srv) port ∧
      username a = turn_username turn.
Proof.
  cbv zeta. set (cfg := BackendMain.turn_config _). set (srv := TurnMain.settings _).
  intros Hsecret Hcfg Hnow Hu Hid Hlib Hip _ Hulen Hrlen Hd1 Hin1 Htid1 Htb1.
  assert (Hz : address_or_zero (TurnMain.relay_addr srv) = ip) by (unfold address_or_zero; by rewrite Hip).
  destruct (rtc_config_runs rtc_init rtc_apply cfg now u id c Hcfg Hnow Hu Hid Hlib)
    as (turn&c'&evs&Erun&_&Hconn&Hacc).
  destruct (access_password (shared_secret cfg) u (now + ttl cfg) turn ltac:(destruct Hcfg; lia) Hacc) as [Hexp Hpw]. pose proof Hacc as (Huser&_).
  change (to_string (now + ttl cfg) +:+ ":" +:+ u) with (rtc_username cfg now u) in Huser.
  assert (Hs0 : served (TurnMain.dispatcher srv)) by apply served_start.
  pose proof (serves_served _ _ Hs0 Hd1) as Hs1. destruct (serves_same _ _ Hs0 Hd1) as [R1 V1 T1 M1 _].
  cbn [TurnMain.dispatcher newTurnDispatcher long_term_cred_ LongTermCred.realm_ LongTermCred.hmac_validator_
    LongTermCred.nonce_manager_ alloc_manager_] in R1, V1, T1.
  destruct (first_answer env1 tid1 from tr d1 Hs1 Hin1 Htid1 Htb1 ltac:(by rewrite R1))
    as (d1'&ev1&ch&nonce&len&E1&Hev1&Hch&Hparse1).
  exists turn, c', evs. split; [exact Erun|]. split; [by rewrite (connection_session _ _ _ _ _ Hconn)|].
  split; [intros Hi; unfold connection in Hconn; rewrite Hi in Hconn; apply Hconn|]. exists d1', ev1, ch, nonce. split; [exact E1|]. split; [exact Hev1|].
  split.
  { intros out. do 2 eexists. split; [apply Hparse1|]. split; [done|]. split; [done|]. split; [done|].
    split; [by apply error_code_of_value|]. rewrite <-R1. apply challenge_strings. }
  intros env2 d2 tid2 Hd2 Hin2 Htid2 Htb2 Hst Hn Hnone Hq Hfree.
  assert (Hd1' : served d1').
  { eapply served_next; [exact Hs1|exact Hin1| |exact E1]. apply build_bytes_ok; [done|].
    constructor; [apply udp_transport_ok|done]. }
  pose proof (serves_served _ _ Hd1' Hd2) as Hs2.
  destruct (challenged_same _ _ _ _ _ Hch) as [R1' V1' T1' M1' _].
  destruct (serves_same _ _ Hd1' Hd2) as [R2 V2 T2 M2 N2].
  pose proof (same_config_trans _ _ _ M1 (same_config_trans _ _ _ M1' M2)) as (Haddr&Hmin&Hmax&Hquota&_).
  cbn [relay_address_ relay_port_min_ relay_port_max_ max_alloc_per_user_ TurnMain.dispatcher newTurnDispatcher
    alloc_manager_ setPeerSendCallback setClientSendCallback newAllocationManager] in Haddr, Hmin, Hmax, Hquota.
  pose proof Hch as (_&_&_&_&Hnl&_&Hnv&_).
  rewrite <-Huser in Hulen. destruct (request_attrs_ok (turn_username turn) (TurnMain.rlm srv) nonce Hulen Hrlen Hnl)
    as [Hok Hlen].
  destruct (hmac_sha1_Ok (crypto.long_term_key_md5 (turn_username turn) (TurnMain.rlm srv) (turn_credential turn))
    (string_of_bytes (md5_text (encodeType Method.Allocate MessageClass.Request) tid2
      (request_attrs (turn_username turn) (TurnMain.rlm srv) nonce [udp_transport])))) as (mac&Hmac&_).
  assert (Hr2 : LongTermCred.realm_ (long_term_cred_ d2) = TurnMain.rlm srv) by congruence.
  destruct (allocate_answer env2 tr d2 from tid2 (turn_username turn) (TurnMain.rlm srv) nonce (now + ttl cfg)
    (turn_credential turn) mac [] Hs2 Hin2 Htid2 Htb2 Hok ltac:(constructor) Hlen)
    as (d3&ev2&reply&port&lifetime&mac'&a&E2&Hev2&Hp2&Hver&_&Hrange&_&Ha&Hrel&Hua&_).
  - apply N2. rewrite Hnv, T1. by apply Z.ltb_lt.
  - exact Hexp.
  - exact Hn.
  - rewrite V2, V1', V1, <-Hsecret. exact Hpw.
  - rewrite Hr2. exact Hmac.
  - exact Hnone.
  - rewrite Hquota. exact Hq.
  - exact Hfree.
  - exists mac, d3, ev2, reply, port, a. rewrite Haddr in Hrel. rewrite Hr2 in Hver.
    split; [exact Hmac|]. split; [exact E2|]. split; [exact Hev2|]. split; [|split; [exact Hver|]].
    + intros out. destruct (Hp2 out) as (len2&Hp). eexists. split; [exact Hp|]. rewrite Haddr, <-Hz. done.
    + split; [|done]. intros Hle. pose proof (port_between _ _ Hrange) as Hb. rewrite Hmin, Hmax in Hb.
      apply Hb; [split; [|done]|]; cbn [TurnMain.port_min TurnMain.port_max srv TurnMain.settings]; 
        apply Z.mod_pos_bound; lia.
Qed.
End properties.

(** ** Alice's client at a server with its own relay address *)

Module deployment.
#[local] Existing Instances talk.sessions_order session.clients_order session.channels_order.

Definition backend_env : Config := load_settings "backend.env" (Some ("TURN_SECRET=s3cret" +:+ String line_feed "")).
Definition turn_env : Config :=
  load_settings "turn.env" (Some (file_text ["SHARED_SECRET = s3cret"; "RELAY_ADDR=192.168.1.20"] "REALM=chat")).
Definition srv : TurnMain.Settings := TurnMain.settings turn_env.
Definition start : TurnDispatcher := TurnMain.dispatcher srv.
Definition challenged_state : TurnDispatcher :=
  out_state (onPacket session.env (first_request session.tid) session.c1 UdpTransport start).

Lemma relay_obtained_witness : ∃ user pass nonce mac d3 ev reply port,
  request_mac session.tid user "chat" nonce pass = Ok mac ∧
  onPacket session.env (second_request session.tid user "chat" nonce mac) session.c1 UdpTransport challenged_state =
    (Ok (), d3, ev) ∧ datagrams ev = [(UdpTransport, reply, session.c1)] ∧ 49152 ≤ port ≤ 65535 ∧
  relayedAddr <$> alloc_of (alloc_manager_ d3) session.c1 = Some (mkEndpoint "192.168.1.20" port).
Proof.
  destruct (relay_obtained dial.rtc_init dial.rtc_apply backend_env turn_env 1000 "alice" "call-1"
    new_client session.env start session.tid session.c1 UdpTransport 3232235796)
    as (turn&c'&evs&_&_&_&d1'&ev1&ch&nonce&E1&_&_&Hsecond);
    [reflexivity|by split|lia|exact I|exact I|exact dial.answers|by vm_compute|discriminate|by vm_compute|by vm_compute|apply serves_refl
    |apply session.env_ok; vm_compute; lia|reflexivity|compute_done|].
  assert (E : d1' = challenged_state) by (unfold challenged_state; by rewrite E1).
  rewrite E in Hsecond.
  destruct (Hsecond session.env challenged_state session.tid)
    as (mac&d3&ev2&reply&port&a&Hmac&E2&Hev2&_&_&Hport&Ha&Hrel&_);
    [apply serves_refl|apply session.env_ok; vm_compute; lia|reflexivity|compute_done|vm_compute; reflexivity
    |vm_compute; discriminate|by vm_compute|by vm_compute|exists 0%nat; split; [lia|by vm_compute]|].
  exists (turn_username turn), (turn_credential turn), nonce, mac, d3, ev2, reply, port.
  split; [exact Hmac|]. split; [exact E2|]. split; [exact Hev2|].
  split; [apply Hport; vm_compute; discriminate|]. rewrite Ha. cbn. by rewrite Hrel.
Defined.
End deployment.
