(* ===== verification/Tls.v ===== *)
(** * The TLS transport (src/turn_server/src/transport/tls_transport.cpp)

    A [TlsSession] is driven by completions: after the handshake it asks for one
    byte, then for the rest of a header, then for the body, each time with an
    [asio::async_read] whose handler runs when that many decrypted bytes are
    there.  Here the bytes arrive in pieces of any size; [feed] appends a piece
    and runs the handlers it completes.

    The packets that a session gives to [on_receive_] are events here; Streams has
    the dispatcher behind the callback, and the table of the sessions. *)

From S2P Require Export TcpFraming Server.

#[local] Existing Instances ToyOpenSSL ToyOpenSSLSpec DottedAddress DottedAddressSpec.

Module TlsSession.

(** The outstanding operation: the handshake, or a read, with the buffer that its
    handler captures. *)
Inductive operation :=
  | Handshake
  | FirstByte
  | StunHeader
  | StunBody (header : bytes) (attrs_len : nat)
  | ChannelHeader
  | ChannelBody (header : bytes) (data_len padded_len : Z).

(** [pending_] is [None] when the session has no operation and is destroyed;
    [arrived_] are the bytes that no completed read has taken. *)
Record TlsSession := mkTlsSession {
  key_ : string;
  from_ : Endpoint;
  first_byte_ : Z;
  pending_ : option operation;
  arrived_ : bytes;
}.

Inductive SessionEvent :=
  | Received (packet : bytes) (from : Endpoint)
  | Removed (key : string).

Abbreviation M := (eff TlsSession SessionEvent).

(** The constructor. *)
Definition new_session (from : Endpoint) : TlsSession := mkTlsSession (endpointKey from) from 0 None [].

Definition start_operation (op : operation) : M () := λ s,
  (Ok (), mkTlsSession (key_ s) (from_ s) (first_byte_ s) (Some op) (arrived_ s), []).
Definition set_first_byte (b : Z) : M () := λ s,
  (Ok (), mkTlsSession (key_ s) (from_ s) b (pending_ s) (arrived_ s), []).
(** [removeSession], and no further operation: the last reference goes. *)
Definition remove : M () := λ s,
  (Ok (), mkTlsSession (key_ s) (from_ s) (first_byte_ s) None (arrived_ s), [Removed (key_ s)]).
Definition receive (packet : bytes) : M () := s ← get; emit (Received packet (from_ s)).

Definition run : M () := start_operation Handshake.
Definition read_first_byte : M () := start_operation FirstByte.
Definition on_handshake (ec : bool) : M () := if ec then remove else read_first_byte.

(** The handlers of the reads, given the bytes they waited for. *)
Definition on_first_byte (data : bytes) : M () :=
  b ← lift (rd data 0);
  set_first_byte b;;
  let top2 := (b .>> 6) .& 0x03 in
  if top2 =? 0x01 then start_operation ChannelHeader else start_operation StunHeader.

Definition on_stun_header (data : bytes) : M () :=
  s ← get;
  let header := first_byte_ s :: data in
  h2 ← lift (rd header 2); h3 ← lift (rd header 3);
  start_operation (StunBody header (Z.to_nat (be16 h2 h3))).

Definition on_stun_body (header data : bytes) : M () :=
  receive (header ++ data);;
  read_first_byte.

Definition on_channel_header (data : bytes) : M () :=
  s ← get;
  c1 ← lift (rd data 1); c2 ← lift (rd data 2);
  let data_len := be16 c1 c2 in
  let padded := u16 (data_len + (if negb (data_len mod 4 =? 0) then 4 - data_len mod 4 else 0)) in
  start_operation (ChannelBody (first_byte_ s :: data) data_len padded).

Definition on_channel_body (header : bytes) (data_len : Z) (data : bytes) : M () :=
  packet ← lift (rd_range (header ++ data) 0 (4 + Z.to_nat data_len));
  receive packet;;
  read_first_byte.

(** How many bytes an operation waits for, and its handler. *)
Definition wanted (op : operation) : option nat :=
  match op with
  | Handshake => None
  | FirstByte => Some 1%nat
  | StunHeader => Some 19%nat
  | StunBody _ attrs_len => Some attrs_len
  | ChannelHeader => Some 3%nat
  | ChannelBody _ _ padded_len => Some (Z.to_nat padded_len)
  end.

Definition complete (op : operation) (data : bytes) : M () :=
  match op with
  | Handshake => mret ()
  | FirstByte => on_first_byte data
  | StunHeader => on_stun_header data
  | StunBody header _ => on_stun_body header data
  | ChannelHeader => on_channel_header data
  | ChannelBody header data_len _ => on_channel_body header data_len data
  end.

(** The handlers that the bytes that have arrived complete. *)
Definition take_bytes (n : nat) : M bytes := λ s,
  (Ok (take n (arrived_ s)),
   mkTlsSession (key_ s) (from_ s) (first_byte_ s) (pending_ s) (drop n (arrived_ s)), []).

Definition ready (s : TlsSession) : option (operation * nat) :=
  op ← pending_ s; n ← wanted op;
  if (n <=? length (arrived_ s))%nat then Some (op, n) else None.

Fixpoint handlers (fuel : nat) : M () :=
  s ← get;
  match ready s with
  | None => mret ()
  | Some (op, n) =>
      match fuel with
      | O => lift (Err OutOfFuel)
      | S fuel => data ← take_bytes n; complete op data;; handlers fuel
      end
  end.

(** A piece of the decrypted stream arrives: two handlers per byte are enough. *)
Definition arrive (piece : bytes) : M () := λ s,
  (Ok (), mkTlsSession (key_ s) (from_ s) (first_byte_ s) (pending_ s) (arrived_ s ++ piece), []).
Definition feed (piece : bytes) : M () :=
  arrive piece;;
  s ← get;
  handlers (2 * length (arrived_ s) + 1).

Fixpoint feed_all (pieces : list bytes) : M () :=
  match pieces with [] => mret () | p :: pieces => feed p;; feed_all pieces end.

(** The stream ends or fails: the outstanding operation gets an error. *)
Definition on_end : M () :=
  s ← get; match pending_ s with Some _ => remove | None => mret () end.
End TlsSession.

(** ** Packets at the front of a stream *)

Section splits.

(** [splits s ps s']: the packets [ps] are cut off [s], and [s'] is left. *)
Inductive splits : bytes → list bytes → bytes → Prop :=
  | splits_nil s : splits s [] s
  | splits_cons s p s1 ps s2 :
      TcpFraming.read_first_byte s = Ok (Some (p, s1)) → splits s1 ps s2 → splits s (p :: ps) s2.

Lemma splits_app s1 ps s2 qs s3 : splits s1 ps s2 → splits s2 qs s3 → splits s1 (ps ++ qs) s3.
Proof. induction 1; [done|]. intros. econstructor; eauto. Qed.

Lemma async_read_more n s a b c : async_read n s = Some (a, b) → async_read n (s ++ c) = Some (a, b ++ c).
Proof.
  unfold async_read. destruct (Nat.leb_spec n (length s)); [|done]. intros [= <- <-].
  rewrite (proj2 (Nat.leb_le _ _)) by (rewrite length_app; lia).
  by rewrite take_app_le, drop_app_le by lia.
Qed.

(** More bytes behind a packet do not change it, nor what is undefined. *)
Lemma read_more s c :
  (∀ p s1, TcpFraming.read_first_byte s = Ok (Some (p, s1)) →
     TcpFraming.read_first_byte (s ++ c) = Ok (Some (p, s1 ++ c))) ∧
  (∀ e, TcpFraming.read_first_byte s = Err e → TcpFraming.read_first_byte (s ++ c) = Err e).
Proof.
  unfold TcpFraming.read_first_byte. destruct (async_read 1 s) as [[b s1]|] eqn:E1; [|done].
  rewrite (async_read_more _ _ _ _ c E1). destruct (rd b 0) as [b0|e]; [|done]. rsimpl. case_match.
  - unfold TcpFraming.read_channel_header. destruct (async_read 3 s1) as [[h s2]|] eqn:E2; [|done].
    rewrite (async_read_more _ _ _ _ c E2). destruct (rd h 1) as [c1|e]; [|done].
    destruct (rd h 2) as [c2|e]; [|done]. rsimpl. unfold TcpFraming.read_channel_body.
    destruct (async_read _ s2) as [[d s3]|] eqn:E3; [|done]. rewrite (async_read_more _ _ _ _ c E3).
    destruct (rd_range _ _ _); [|done]. rsimpl. split; [by intros ? ? [= <- <-]|done].
  - unfold TcpFraming.read_stun_header. destruct (async_read 19 s1) as [[h s2]|] eqn:E2; [|done].
    rewrite (async_read_more _ _ _ _ c E2). destruct (rd _ 2) as [c1|e]; [|done].
    destruct (rd _ 3) as [c2|e]; [|done]. rsimpl. unfold TcpFraming.read_stun_body.
    destruct (async_read _ s2) as [[d s3]|] eqn:E3; [|done]. rewrite (async_read_more _ _ _ _ c E3).
    split; [by intros ? ? [= <- <-]|done].
Qed.

Lemma splits_more s ps s' c : splits s ps s' → splits (s ++ c) ps (s' ++ c).
Proof. induction 1 as [|s p s1 ps s2 E _ IH]; [constructor|]. econstructor; [by apply read_more|exact IH]. Qed.

Lemma async_read_length n s a b : async_read n s = Some (a, b) → length s = (n + length b)%nat.
Proof.
  unfold async_read. destruct (Nat.leb_spec n (length s)); [|done]. intros [= <- <-]. rewrite length_drop. lia.
Qed.

Lemma read_shorter s p s1 : TcpFraming.read_first_byte s = Ok (Some (p, s1)) → (length s1 < length s)%nat.
Proof.
  unfold TcpFraming.read_first_byte. destruct (async_read 1 s) as [[b s']|] eqn:E1; [|done].
  apply async_read_length in E1. destruct (rd b 0) as [b0|]; [|done]. rsimpl. case_match.
  - unfold TcpFraming.read_channel_header. destruct (async_read 3 s') as [[h s2]|] eqn:E2; [|done].
    apply async_read_length in E2. destruct (rd h 1), (rd h 2); try done. rsimpl. unfold TcpFraming.read_channel_body.
    destruct (async_read _ s2) as [[d s3]|] eqn:E3; [|done]. apply async_read_length in E3.
    destruct (rd_range _ _ _); [|done]. rsimpl. intros [= _ <-]. lia.
  - unfold TcpFraming.read_stun_header. destruct (async_read 19 s') as [[h s2]|] eqn:E2; [|done].
    apply async_read_length in E2. destruct (rd _ 2), (rd _ 3); try done. rsimpl. unfold TcpFraming.read_stun_body.
    destruct (async_read _ s2) as [[d s3]|] eqn:E3; [|done]. apply async_read_length in E3. intros [= _ <-]. lia.
Qed.

(** What [run] makes of a stream that splits. *)
Lemma run_splits s ps s' fuel : splits s ps s' → (length s < fuel)%nat →
  TcpFraming.run fuel s =
    match TcpFraming.read_first_byte s' with
    | Ok None => Ok ps
    | Ok (Some _) => TcpFraming.run fuel s
    | Err e => Err e
    end.
Proof.
  intros Hs. revert fuel. induction Hs as [s|s p s1 ps s2 E _ IH]; intros fuel Hf;
    (destruct fuel as [|fuel]; [lia|]); cbn [TcpFraming.run].
  - destruct (TcpFraming.read_first_byte s) as [[[p s1]|]|e]; done.
  - rewrite E. rsimpl. pose proof (read_shorter _ _ _ E). rewrite IH by lia.
    destruct (TcpFraming.read_first_byte s2) as [[[p2 s3]|]|e]; [|done..]. by destruct (TcpFraming.run fuel s1).
Qed.
End splits.

(** ** The states of a session *)

Module TlsFacts.
Import TlsSession.

(** The first byte is that of ChannelData. *)
Definition channel_byte (b : Z) : bool := (b .>> 6) .& 0x03 =? 0x01.

(** What the handlers have taken of the current packet, and what the packet says. *)
Definition taken (s : TlsSession) : bytes :=
  match pending_ s with
  | Some StunHeader | Some ChannelHeader => [first_byte_ s]
  | Some (StunBody header _) => header
  | Some (ChannelBody header _ _) => header
  | _ => []
  end.
Definition unread (s : TlsSession) : bytes := taken s ++ arrived_ s.

Definition consistent (s : TlsSession) : Prop :=
  match pending_ s with
  | Some FirstByte => True
  | Some StunHeader => channel_byte (first_byte_ s) = false
  | Some ChannelHeader => channel_byte (first_byte_ s) = true
  | Some (StunBody header attrs_len) => ∃ b d1 d2 d3 rest, header = b :: d1 :: d2 :: d3 :: rest ∧
      length rest = 16%nat ∧ channel_byte b = false ∧ attrs_len = Z.to_nat (be16 d2 d3)
  | Some (ChannelBody header data_len padded_len) => ∃ b c0 c1 c2, header = [b; c0; c1; c2] ∧
      channel_byte b = true ∧ data_len = be16 c1 c2 ∧ padded_len = padded data_len
  | Some Handshake | None => False
  end.

Definition measure (s : TlsSession) : nat :=
  2 * length (arrived_ s) + match pending_ s with Some (StunBody _ _) | Some (ChannelBody _ _ _) => 1 | _ => 0 end.

(** The rounds of [TcpFraming] on a stream that begins as the state says. *)
Lemma read_first b s : TcpFraming.read_first_byte (b :: s) =
  if channel_byte b then TcpFraming.read_channel_header b s else TcpFraming.read_stun_header b s.
Proof. done. Qed.

Lemma read_stun b d1 d2 d3 rest s : channel_byte b = false → length rest = 16%nat →
  TcpFraming.read_first_byte ((b :: d1 :: d2 :: d3 :: rest) ++ s) =
    TcpFraming.read_stun_body (b :: d1 :: d2 :: d3 :: rest) (Z.to_nat (be16 d2 d3)) s.
Proof.
  intros Hb Hl. cbn [app]. rewrite read_first, Hb. unfold TcpFraming.read_stun_header.
  change (d1 :: d2 :: d3 :: rest ++ s) with ((d1 :: d2 :: d3 :: rest) ++ s).
  rewrite async_read_app by (cbn [length]; lia). done.
Qed.

Lemma read_channel b c0 c1 c2 s : channel_byte b = true →
  TcpFraming.read_first_byte ([b; c0; c1; c2] ++ s) =
    TcpFraming.read_channel_body b [c0; c1; c2] (be16 c1 c2) (padded (be16 c1 c2)) s.
Proof.
  intros Hb. cbn [app]. rewrite read_first, Hb. unfold TcpFraming.read_channel_header.
  change (c0 :: c1 :: c2 :: s) with ([c0; c1; c2] ++ s). by rewrite async_read_app.
Qed.

(** An operation that waits: the round of [TcpFraming] has no packet. *)
Lemma waiting s : consistent s → ready s = None → TcpFraming.read_first_byte (unread s) = Ok None.
Proof.
  destruct s as [k f b op a]. unfold consistent, ready, unread, taken. cbn [pending_ first_byte_ arrived_].
  destruct op as [[| | |h n| |h dl pl]|]; cbn [mbind option_bind wanted]; try done.
  - destruct a; [done|]. by destruct (Nat.leb_spec 1 (length (z :: a))); [|cbn [length] in *; lia].
  - intros Hb Hr. cbn [app]. rewrite read_first, Hb. unfold TcpFraming.read_stun_header, async_read.
    by destruct (19 <=? length a)%nat.
  - intros (b0&d1&d2&d3&rest&->&Hl&Hb&->) Hr. rewrite read_stun by done.
    unfold TcpFraming.read_stun_body, async_read. by destruct (_ <=? length a)%nat.
  - intros Hb Hr. cbn [app]. rewrite read_first, Hb. unfold TcpFraming.read_channel_header, async_read.
    by destruct (3 <=? length a)%nat.
  - intros (b0&c0&c1&c2&->&Hb&->&->) Hr. rewrite read_channel by done.
    unfold TcpFraming.read_channel_body, async_read. by destruct (_ <=? length a)%nat.
Qed.

Definition one_handler (op : operation) (n : nat) : M () := data ← take_bytes n; complete op data.

(** The identity of a session. *)
Definition same_session (s s' : TlsSession) : Prop := key_ s' = key_ s ∧ from_ s' = from_ s.

(** What one handler does: it moves on within a packet, completes one, or fails
    where [TcpFraming] fails. *)
Inductive progress (s : TlsSession) : result () * TlsSession * list SessionEvent → Prop :=
  | progress_within s' : consistent s' → same_session s s' → unread s' = unread s → (measure s' < measure s)%nat →
      progress s (Ok (), s', [])
  | progress_packet s' p : consistent s' → same_session s s' → (measure s' < measure s)%nat →
      TcpFraming.read_first_byte (unread s) = Ok (Some (p, unread s')) →
      progress s (Ok (), s', [Received p (from_ s)])
  | progress_fails s' : TcpFraming.read_first_byte (unread s) = Err Undefined → (0 < measure s)%nat →
      progress s (Err Undefined, s', []).

Lemma ready_Some s op n : ready s = Some (op, n) →
  pending_ s = Some op ∧ wanted op = Some n ∧ (n ≤ length (arrived_ s))%nat.
Proof.
  unfold ready. destruct (pending_ s) as [op'|]; [|done]. cbn. destruct (wanted op') as [n'|] eqn:Hw; [|done]. cbn.
  destruct (Nat.leb_spec n' (length (arrived_ s))); [|done]. by intros [= <- <-].
Qed.

Lemma handler_progress s op n : consistent s → ready s = Some (op, n) → progress s (one_handler op n s).
Proof.
  intros Hc (Hop&Hn&Hl)%ready_Some. destruct s as [k f b op' a]. cbn [pending_ arrived_] in *. subst op'.
  unfold one_handler. destruct op as [| | |h m| |h dl pl]; cbn [wanted] in Hn; simplify_eq; cbn in Hc; try done.
  - destruct a as [|b0 a]; [cbn in Hl; lia|].
    set (op := if channel_byte b0 then ChannelHeader else StunHeader).
    assert (E : (data ← take_bytes 1; complete FirstByte data) (mkTlsSession k f b (Some FirstByte) (b0 :: a)) =
      (Ok (), mkTlsSession k f b0 (Some op) a, [])).
    { unfold op, channel_byte, complete, on_first_byte, take_bytes, set_first_byte, start_operation, lift, mbind, eff_bind.
      cbn [arrived_ take]. change (rd (b0 :: take 0 a) 0) with (Ok b0). cbv beta iota zeta.
      by destruct ((b0 .>> 6) .& 3 =? 1). }
    rewrite E. unfold op. destruct (channel_byte b0) eqn:Eb; (constructor; [exact Eb|done|done|cbn; lia]).
  - destruct a as [|d1 [|d2 [|d3 a]]]; try (cbn in Hl; lia).
    change (take 19 (d1 :: d2 :: d3 :: a)) with (d1 :: d2 :: d3 :: take 16 a).
    constructor.
    + cbn. do 5 eexists. split; [reflexivity|]. split; [|done]. rewrite length_take. cbn [length] in Hl. lia.
    + done.
    + cbn. do 4 f_equal. apply take_drop.
    + cbn. rewrite length_drop. cbn [length] in Hl. lia.
  - destruct Hc as (b0&d1&d2&d3&rest&->&Hr&Hb&->).
    set (s' := mkTlsSession k f b (Some FirstByte) (drop (Z.to_nat (be16 d2 d3)) a)).
    set (p := (b0 :: d1 :: d2 :: d3 :: rest) ++ take (Z.to_nat (be16 d2 d3)) a).
    match goal with |- progress ?s _ => change (progress s (Ok (), s', [Received p (from_ s)])) end.
    apply progress_packet; [done|done| |].
    + cbn. rewrite length_drop. lia.
    + unfold unread, taken. cbn [pending_ arrived_]. rewrite read_stun by done.
      unfold TcpFraming.read_stun_body, async_read. by rewrite (proj2 (Nat.leb_le _ _)).
  - destruct a as [|c0 [|c1 [|c2 a]]]; try (cbn in Hl; lia).
    set (s' := mkTlsSession k f b (Some (ChannelBody [b; c0; c1; c2] (be16 c1 c2) (padded (be16 c1 c2)))) a).
    match goal with |- progress ?s _ => change (progress s (Ok (), s', [])) end.
    apply progress_within; [by exists b, c0, c1, c2|done|done|cbn; lia].
  - destruct Hc as (b0&c0&c1&c2&->&Hb&->&->).
    assert (E : TcpFraming.read_first_byte ([b0; c0; c1; c2] ++ a) =
      packet ← rd_range ([b0; c0; c1; c2] ++ take (Z.to_nat (padded (be16 c1 c2))) a) 0 (4 + Z.to_nat (be16 c1 c2));
      mret (Some (packet, drop (Z.to_nat (padded (be16 c1 c2))) a))).
    { rewrite read_channel by done. unfold TcpFraming.read_channel_body, async_read.
      by rewrite (proj2 (Nat.leb_le _ _)). }
    unfold complete, on_channel_body, take_bytes, mbind, eff_bind, lift. cbn [arrived_ key_ from_ first_byte_ pending_].
    destruct (rd_range _ _ _) as [packet|e] eqn:Er.
    + set (s' := mkTlsSession k f b (Some FirstByte) (drop (Z.to_nat (padded (be16 c1 c2))) a)).
      match goal with |- progress ?s _ => change (progress s (Ok (), s', [Received packet (from_ s)])) end.
      apply progress_packet; [done|done| |exact E]. cbn. rewrite length_drop. lia.
    + assert (e = Undefined) as -> by (revert Er; unfold rd_range; case_match; congruence).
      apply progress_fails; [exact E|cbn; lia].
Qed.

Lemma handlers_S fuel s op n : ready s = Some (op, n) → handlers (S fuel) s =
  (one_handler op n;; handlers fuel) s.
Proof.
  intros Hr. unfold handlers at 1. fold handlers. unfold get, one_handler, mbind, eff_bind. rewrite Hr.
  unfold take_bytes. destruct (complete op _ _) as [[[?|?] s'] ?]; [|done]. by destruct (handlers fuel s') as [[??]?].
Qed.

Lemma handlers_waiting fuel s : ready s = None → handlers fuel s = (Ok (), s, []).
Proof. intros Hr. unfold handlers, get, mbind, eff_bind. by destruct fuel; rewrite Hr. Qed.

(** The packets that the handlers receive. *)
Definition receipts (s : TlsSession) (ps : list bytes) : list SessionEvent := (λ p, Received p (from_ s)) <$> ps.

(** What a session makes of the bytes that have arrived. *)
Inductive fed (s : TlsSession) (stream : bytes) : result () * TlsSession * list SessionEvent → Prop :=
  | fed_all s' ps : consistent s' → ready s' = None → same_session s s' → splits stream ps (unread s') →
      fed s stream (Ok (), s', receipts s ps)
  | fed_fails s' ps rest : splits stream ps rest → TcpFraming.read_first_byte rest = Err Undefined →
      fed s stream (Err Undefined, s', receipts s ps).

Lemma same_session_trans s1 s2 s3 : same_session s1 s2 → same_session s2 s3 → same_session s1 s3.
Proof. unfold same_session. naive_solver congruence. Qed.

Lemma handlers_fed fuel s : consistent s → (measure s ≤ fuel)%nat → fed s (unread s) (handlers fuel s).
Proof.
  revert s. induction fuel as [|fuel IH]; intros s Hc Hf; destruct (ready s) as [[op n]|] eqn:Hr;
    try (rewrite handlers_waiting by done; apply (fed_all _ _ _ []); [done..|constructor]).
  { destruct (handler_progress s op n Hc Hr); lia. }
  rewrite (handlers_S _ _ _ _ Hr). unfold mbind, eff_bind.
  destruct (handler_progress s op n Hc Hr) as [s' Hc' Hs Hu Hm|s' p Hc' Hs Hm Hp|s' Hu _].
  - specialize (IH s' Hc' ltac:(lia)). rewrite Hu in IH.
    destruct IH as [s2 ps ?? Hs2 ?|s2 ps rest ??]; cbn [app]; unfold receipts; rewrite (proj2 Hs).
    + apply fed_all; try done. by eapply same_session_trans.
    + by eapply fed_fails.
  - specialize (IH s' Hc' ltac:(lia)).
    destruct IH as [s2 ps ?? Hs2 ?|s2 ps rest ??]; cbn [app]; unfold receipts; rewrite (proj2 Hs).
    + apply (fed_all _ _ _ (p :: ps)); try done; [by eapply same_session_trans|by econstructor].
    + apply (fed_fails _ _ _ (p :: ps) rest); [by econstructor|done].
  - apply (fed_fails _ _ s' [] (unread s)); [constructor|done].
Qed.

Lemma feed_fed s piece : consistent s → fed s (unread s ++ piece) (feed piece s).
Proof.
  intros Hc. destruct s as [k f b op a]. set (s' := mkTlsSession k f b op (a ++ piece)).
  assert (Hm : (measure s' ≤ 2 * length (a ++ piece) + 1)%nat)
    by (unfold measure; cbn; destruct op as [[]|]; lia).
  pose proof (handlers_fed _ s' Hc Hm) as Hf.
  assert (E : feed piece (mkTlsSession k f b op a) = handlers (2 * length (a ++ piece) + 1) s').
  { unfold feed, arrive, get, mbind, eff_bind. cbn [key_ from_ first_byte_ pending_ arrived_].
    fold s'. by destruct (handlers _ s') as [[[?|?] ?] ?]. }
  rewrite E. assert (Hu : unread s' = unread (mkTlsSession k f b op a) ++ piece)
    by (unfold unread, taken; cbn; by rewrite app_assoc).
  rewrite <-Hu. destruct Hf as [s2 ps ????|s2 ps rest ??].
  - exact (fed_all (mkTlsSession k f b op a) _ s2 ps ltac:(done) ltac:(done) ltac:(done) ltac:(done)).
  - exact (fed_fails (mkTlsSession k f b op a) _ s2 ps rest ltac:(done) ltac:(done)).
Qed.

Lemma feed_all_fed pieces : ∀ s, consistent s → ready s = None →
  fed s (unread s ++ concat pieces) (feed_all pieces s).
Proof.
  induction pieces as [|p pieces IH]; intros s Hc Hr; cbn [feed_all concat].
  { rewrite app_nil_r. apply (fed_all _ _ _ []); [done..|constructor]. }
  unfold mbind, eff_bind. destruct (feed_fed s p Hc) as [s' ps Hc' Hr' Hs Hsp|s' ps rest Hsp Hu].
  - specialize (IH s' Hc' Hr'). rewrite app_assoc.
    pose proof (splits_more _ _ _ (concat pieces) Hsp) as Hsp'.
    destruct IH as [s2 ps2 ?? Hs2 Hsp2|s2 ps2 rest Hsp2 ?]; unfold receipts; rewrite (proj2 Hs), <-fmap_app.
    + apply fed_all; [done..|by eapply same_session_trans|by eapply splits_app].
    + eapply fed_fails; [by eapply splits_app|done].
  - rewrite app_assoc. apply (fed_fails _ _ _ _ (rest ++ concat pieces)); [by apply splits_more|by apply read_more].
Qed.

(** A session after its handshake. *)
Definition established (from : Endpoint) : TlsSession :=
  out_state ((run;; on_handshake false) (new_session from)).
End TlsFacts.

(** C28: a TLS session cuts the decrypted stream into packets as a TCP session does,
    in whatever pieces it arrives. With [TcpFraming.run] as the reference, which
    reads the whole stream: the session receives the same packets in the same
    order, it goes on waiting for more, and when the stream then ends it is removed;
    and it fails exactly on the streams on which the reference is undefined. A
    session whose handshake fails is removed and receives nothing. *)
Theorem tls_framing_equivalent from :
  ((TlsSession.run;; TlsSession.on_handshake true) (TlsSession.new_session from)).2 =
    [TlsSession.Removed (endpointKey from)] ∧
  ∀ pieces fuel, (length (concat pieces) < fuel)%nat →
    match TcpFraming.run fuel (concat pieces) with
    | Ok ps => ∃ s', TlsSession.feed_all pieces (TlsFacts.established from) =
          (Ok (), s', (λ p, TlsSession.Received p from) <$> ps) ∧
        (TlsSession.on_end s').2 = [TlsSession.Removed (endpointKey from)]
    | Err e => e = Undefined ∧ ∃ s' ps, TlsSession.feed_all pieces (TlsFacts.established from) =
          (Err Undefined, s', (λ p, TlsSession.Received p from) <$> ps)
    end.
Proof.
  split; [done|]. intros pieces fuel Hf.
  pose proof (TlsFacts.feed_all_fed pieces (TlsFacts.established from) I eq_refl) as Hfed.
  change (TlsFacts.unread _ ++ concat pieces) with (concat pieces) in Hfed.
  remember (TlsSession.feed_all pieces _) as out eqn:Eout.
  destruct Hfed as [s' ps Hc Hr Hs Hsp|s' ps rest Hsp Hu]; rewrite (run_splits _ _ _ _ Hsp Hf).
  - rewrite (TlsFacts.waiting s' Hc Hr). exists s'. split; [done|]. destruct Hs as [Hk _].
    unfold TlsSession.on_end, get, mbind, eff_bind. unfold TlsFacts.consistent in Hc.
    destruct (TlsSession.pending_ s'); [|done]. cbn. by rewrite Hk.
  - rewrite Hu. split; [done|]. by exists s', ps.
Qed.

(** A STUN message and a channel frame in three pieces. *)
Lemma tls_framing_equivalent_witness :
  let stun := build (newBuilder Method.Refresh MessageClass.Request (replicate 12 7)) in
  let stream := stun ++ make_channel_data 0x4001 [1; 2; 3] in
  ∃ s', TlsSession.feed_all [take 5 stream; drop 5 stun; drop 20 stream]
      (TlsFacts.established (mkEndpoint "10.1.1.1" 1111)) =
    (Ok (), s', (λ p, TlsSession.Received p (mkEndpoint "10.1.1.1" 1111)) <$> [stun; [64; 1; 0; 3; 1; 2; 3]]).
Proof.
  pose proof (proj2 (tls_framing_equivalent (mkEndpoint "10.1.1.1" 1111))
    [take 5 (build (newBuilder Method.Refresh MessageClass.Request (replicate 12 7)));
     drop 5 (build (newBuilder Method.Refresh MessageClass.Request (replicate 12 7)));
     make_channel_data 0x4001 [1; 2; 3]] 100%nat ltac:(vm_compute; lia)) as (s'&E&_).
  exists s'. exact E.
Defined.
