(* ===== verification/Streams.v ===== *)
(** * The TCP and TLS listeners (src/turn_server/src/transport/tcp_transport.cpp, tls_transport.cpp)

    A transport keeps a table from the key of a peer to its session, which
    [send] looks up and [removeSession] erases; a session lives as long as one of
    its operations is outstanding, in the table or not.  Each step is one
    completion handler of the [io_context], so the handlers of several sessions
    interleave.  A write is in progress from [async_write] to its handler; one that
    starts while another of its session is in progress, which Boost.Asio does not
    allow, is marked by the event [Overlapping].  What a session receives goes to the dispatcher, as main.cpp
    connects them, and the dispatcher sends over the same transport before it
    returns. *)

From S2P Require Export Tls.

(** What happens to a transport. *)
Inductive completion :=
  | Accepted (peer : option Endpoint)          (* the connection may be gone again *)
  | AcceptFailed
  | Handshaken (id : nat) (ec : bool)
  | Arrived (id : nat) (piece : bytes)
  | Completed (id : nat)                       (* the outstanding read has its bytes *)
  | Ended (id : nat)
  | WriteDone (id : nat) (ec : bool).

Inductive StreamEvent :=
  | Written (id : nat) (data : bytes) (to : Endpoint)
  | Overlapping (id : nat)                     (* the write that follows, with one in progress *)
  | NoSession (key : string)
  | OtherSend (event : Event).

(** [objects]: the sessions that were made, one without an operation being
    destroyed; [sessions_]: those in the table; [writing_]: the sessions of the
    writes in progress, each as often as it has one. *)
Record StreamServer := mkStreamServer {
  sessions_ : gmap string nat;
  objects : gmap nat TlsSession.TlsSession;
  next_session : nat;
  dispatcher : TurnDispatcher;
  writing_ : list nat;
}.

Section server.
Context `{OpenSSL} `{BoostAddress} `{!IterOrder string ptr} `{!IterOrder Z ChannelBinding}.

(** Which of the two it is. *)
Variable transport : Transport.

Abbreviation M := (eff StreamServer StreamEvent).

Definition put_sessions (m : gmap string nat) : M () := λ w,
  (Ok (), mkStreamServer m (objects w) (next_session w) (dispatcher w) (writing_ w), []).
Definition put_dispatcher (d : TurnDispatcher) : M () := λ w,
  (Ok (), mkStreamServer (sessions_ w) (objects w) (next_session w) d (writing_ w), []).
Definition put_object (id : nat) (s : TlsSession.TlsSession) : M () := λ w,
  (Ok (), mkStreamServer (sessions_ w) (<[id := s]> (objects w)) (next_session w) (dispatcher w) (writing_ w), []).
Definition put_writing (l : list nat) : M () := λ w,
  (Ok (), mkStreamServer (sessions_ w) (objects w) (next_session w) (dispatcher w) l, []).

(** [TcpSession::send], [TlsSession::send]: an [async_write] starts. *)
Definition session_send (id : nat) (data : bytes) (to : Endpoint) : M () :=
  w ← get;
  (if bool_decide (id ∈ writing_ w) then emit (Overlapping id) else mret ());;
  put_writing (id :: writing_ w);;
  emit (Written id data to).

(** [TcpTransport::send], [TlsTransport::send]. *)
Definition send (data : bytes) (to : Endpoint) : M () :=
  w ← get;
  match session_for (sessions_ w) to with
  | Some id => session_send id data to
  | None => emit (NoSession (endpointKey to))
  end.

Definition remove_session (key : string) : M () :=
  w ← get; put_sessions (removeSession key (sessions_ w)).

(** What [onPacket] sends, over this transport or another. *)
Fixpoint dispatch_events (events : list Event) : M () :=
  match events with
  | [] => mret ()
  | Send t data to :: events =>
      (if bool_decide (t = transport) then send data to else emit (OtherSend (Send t data to)));;
      dispatch_events events
  | e :: events => emit (OtherSend e);; dispatch_events events
  end.

(** The callback that main.cpp installs. *)
Definition on_receive (env : Inputs) (packet : bytes) (from : Endpoint) : M () :=
  w ← get;
  let '(r, d, events) := onPacket env packet from transport (dispatcher w) in
  put_dispatcher d;;
  dispatch_events events;;
  lift r.

Definition on_session_event (env : Inputs) (e : TlsSession.SessionEvent) : M () :=
  match e with
  | TlsSession.Received packet from => on_receive env packet from
  | TlsSession.Removed key => remove_session key
  end.
Fixpoint on_session_events (env : Inputs) (events : list TlsSession.SessionEvent) : M () :=
  match events with
  | [] => mret ()
  | e :: events => on_session_event env e;; on_session_events env events
  end.

(** A handler of the session [id] runs. *)
Definition on_session (env : Inputs) (id : nat) (m : TlsSession.M ()) : M () :=
  w ← get;
  match objects w !! id with
  | None => mret ()
  | Some s =>
      let '(r, s', events) := m s in
      put_object id s';;
      on_session_events env events;;
      lift r
  end.

(** [TcpSession::run] reads at once, [TlsSession::run] waits for the handshake. *)
Definition run_session : TlsSession.M () :=
  if bool_decide (transport = TlsTransport) then TlsSession.run else TlsSession.read_first_byte.

(** The handler of [accept]: [remote_endpoint] throws for a connection that is
    gone, and nothing catches that. *)
Definition accept (env : Inputs) (peer : option Endpoint) : M () :=
  match peer with
  | None => throw RuntimeError "remote_endpoint: Transport endpoint is not connected"
  | Some from =>
      let session := TlsSession.new_session from in
      w ← get;
      let id := next_session w in
      put (mkStreamServer (accept_session (TlsSession.key_ session) id (sessions_ w))
             (<[id := session]> (objects w)) (S id) (dispatcher w) (writing_ w));;
      on_session env id run_session
  end.

(** The outstanding read completes. *)
Definition handler : TlsSession.M () :=
  s ← get;
  match TlsSession.ready s with
  | Some (op, n) => data ← TlsSession.take_bytes n; TlsSession.complete op data
  | None => mret ()
  end.

(** The handler of [async_write]. *)
Definition on_written (id : nat) (s : TlsSession.TlsSession) (ec : bool) : M () :=
  w ← get;
  put_writing (one_less id (writing_ w));;
  if ec then remove_session (TlsSession.key_ s) else mret ().

Definition on_completion (env : Inputs) (c : completion) : M () :=
  match c with
  | Accepted peer => accept env peer
  | AcceptFailed => mret ()
  | Handshaken id ec =>
      w ← get;
      match TlsSession.pending_ <$> objects w !! id with
      | Some (Some TlsSession.Handshake) => on_session env id (TlsSession.on_handshake ec)
      | _ => mret ()
      end
  | Arrived id piece => on_session env id (TlsSession.arrive piece)
  | Completed id => on_session env id handler
  | Ended id => on_session env id TlsSession.on_end
  | WriteDone id ec =>
      w ← get;
      match objects w !! id with
      | Some s => if bool_decide (id ∈ writing_ w) then on_written id s ec else mret ()
      | None => mret ()
      end
  end.

(** A transport before anyone has connected, and the states it gets to: every
    handler reads the clock and the random source anew, the other transports use
    the dispatcher too, and a write may end at any time. *)
Definition new_server (d : TurnDispatcher) : StreamServer := mkStreamServer ∅ ∅ 0 d [].

Inductive listening : StreamServer → Prop :=
  | listening_start d : served d → listening (new_server d)
  | listening_step w env c w' ev : listening w → DispatcherFacts.inputs_ok env (dispatcher w) →
      (∀ id piece, c = Arrived id piece → bytes_ok piece) →
      on_completion env c w = (Ok (), w', ev) → listening w'
  | listening_elsewhere w d : listening w → served d →
      listening (mkStreamServer (sessions_ w) (objects w) (next_session w) d (writing_ w)).
End server.

(** ** Lemmas *)

(** A stream that begins with a channel frame whose padded length wraps. *)
Definition oversized (stream : bytes) : Prop :=
  ∃ c0 c1 l0 l1 rest, stream = c0 :: c1 :: l0 :: l1 :: rest ∧ 64 ≤ c0 < 128 ∧ 65533 ≤ be16 l0 l1.

(** What is written goes to a session of the endpoint that is not destroyed. *)
Definition write_ok (objects : gmap nat TlsSession.TlsSession) (e : StreamEvent) : Prop :=
  match e with
  | Written id _ to => ∃ s, objects !! id = Some s ∧ TlsSession.key_ s = endpointKey to ∧ TlsSession.pending_ s ≠ None
  | _ => True
  end.

Definition session_ok (s : TlsSession.TlsSession) : Prop :=
  TlsSession.key_ s = endpointKey (TlsSession.from_ s) ∧ bytes_ok (TlsFacts.unread s) ∧
  match TlsSession.pending_ s with
  | None | Some TlsSession.Handshake => True
  | Some _ => TlsFacts.consistent s
  end.

Definition table_ok (sessions : gmap string nat) (objects : gmap nat TlsSession.TlsSession) : Prop :=
  ∀ key id, sessions !! key = Some id →
    ∃ s, objects !! id = Some s ∧ TlsSession.key_ s = key ∧ TlsSession.pending_ s ≠ None.

Section facts.
Context `{OpenSSLSpec} `{BoostAddressSpec} `{!IterOrder string ptr} `{!IterOrder Z ChannelBinding}.

Record stream_inv (w : StreamServer) : Prop := {
  inv_served : served (dispatcher w);
  inv_objects id s : objects w !! id = Some s → (id < next_session w)%nat ∧ session_ok s;
  inv_table : table_ok (sessions_ w) (objects w);
}.

(** The bytes of a packet are those of the stream. *)
Lemma async_read_ok n s a b : bytes_ok s → async_read n s = Some (a, b) → bytes_ok a ∧ bytes_ok b.
Proof.
  unfold async_read. intros Hs. case_match; [|done]. intros [= <- <-].
  split; [by apply Forall_take|by apply Forall_drop].
Qed.

Lemma rd_ok l i b : bytes_ok l → rd l i = Ok b → byte_ok b.
Proof.
  unfold rd. intros Hl. destruct (l !! i) as [x|] eqn:E; [|done]. intros [= <-].
  exact (Forall_lookup_1 _ _ _ _ Hl E).
Qed.

Lemma read_first_byte_ok s p rest : bytes_ok s → TcpFraming.read_first_byte s = Ok (Some (p, rest)) →
  bytes_ok p ∧ bytes_ok rest.
Proof.
  intros Hs. unfold TcpFraming.read_first_byte. destruct (async_read 1 s) as [[b s1]|] eqn:E1; [|done].
  apply async_read_ok in E1 as [Hb Hs1]; [|done]. destruct (rd b 0) as [b0|e] eqn:E0; [|done].
  apply rd_ok in E0; [|done]. rsimpl. case_match.
  - unfold TcpFraming.read_channel_header. destruct (async_read 3 s1) as [[h s2]|] eqn:E2; [|done].
    apply async_read_ok in E2 as [Hh Hs2]; [|done]. destruct (rd h 1), (rd h 2); try done. rsimpl.
    unfold TcpFraming.read_channel_body. destruct (async_read _ s2) as [[d s3]|] eqn:E3; [|done].
    apply async_read_ok in E3 as [Hd Hs3]; [|done]. unfold rd_range. case_match; [|done]. rsimpl. intros [= <- <-].
    split; [|done]. apply Forall_take, Forall_drop. constructor; [done|]. by apply Forall_app.
  - unfold TcpFraming.read_stun_header. destruct (async_read 19 s1) as [[h s2]|] eqn:E2; [|done].
    apply async_read_ok in E2 as [Hh Hs2]; [|done]. destruct (rd _ 2), (rd _ 3); try done. rsimpl.
    unfold TcpFraming.read_stun_body. destruct (async_read _ s2) as [[d s3]|] eqn:E3; [|done].
    apply async_read_ok in E3 as [Hd Hs3]; [|done]. intros [= <- <-]. split; [|done].
    constructor; [done|]. by apply Forall_app.
Qed.

(** Handlers of the transport that leave the sessions alone. *)
Definition same_sessions (w w' : StreamServer) : Prop :=
  sessions_ w' = sessions_ w ∧ objects w' = objects w ∧ next_session w' = next_session w.

Definition with_writing (l : list nat) (w : StreamServer) : StreamServer :=
  mkStreamServer (sessions_ w) (objects w) (next_session w) (dispatcher w) l.

(** What [send] does. *)
Lemma send_eq data to w : send data to w =
  match sessions_ w !! endpointKey to with
  | Some id => (Ok (), with_writing (id :: writing_ w) w,
      (if bool_decide (id ∈ writing_ w) then [Overlapping id] else []) ++ [Written id data to])
  | None => (Ok (), w, [NoSession (endpointKey to)])
  end.
Proof.
  unfold send, session_for. rewrite bind_get. destruct (sessions_ w !! endpointKey to) as [id|]; [|done].
  unfold session_send. rewrite bind_get. by case_bool_decide.
Qed.

Lemma wp_dispatch_events t w evs : table_ok (sessions_ w) (objects w) →
  wp (dispatch_events t evs) (λ _ w' ev, (∃ l, w' = with_writing l w) ∧ Forall (write_ok (objects w)) ev) w.
Proof.
  assert (Hw : ∀ w, w = with_writing (writing_ w) w) by (by intros []).
  revert w. induction evs as [|e evs IH]; intros w Ht; cbn [dispatch_events].
  { split; [|constructor]. by exists (writing_ w). }
  assert (Hnext : ∀ m : eff StreamServer StreamEvent (),
    wp m (λ _ w' ev, (∃ l, w' = with_writing l w) ∧ Forall (write_ok (objects w)) ev) w →
    wp (m;; dispatch_events t evs) (λ _ w' ev, (∃ l, w' = with_writing l w) ∧ Forall (write_ok (objects w)) ev) w).
  { intros m Hm. apply wp_bind. eapply wp_mono; [exact Hm|]. intros [] w' l [[ws ->] Hl].
    eapply wp_mono; [by apply IH|]. intros [] w'' l' [[ws' ->] Hl']. split; [by exists ws'|]. by apply Forall_app. }
  destruct e as [t' data to|line|line]; apply Hnext; try (split; [by exists (writing_ w)|]; by repeat constructor).
  case_bool_decide; [|split; [by exists (writing_ w)|]; by repeat constructor].
  unfold wp. rewrite send_eq. destruct (sessions_ w !! endpointKey to) as [id|] eqn:E.
  - split; [by eexists|]. destruct (Ht _ _ E) as (s&Hs&Hk&Hp).
    apply Forall_app. split; [case_bool_decide; by repeat constructor|]. constructor; [|constructor]. by exists s.
  - split; [by exists (writing_ w)|]. by repeat constructor.
Qed.

(** A packet is received. *)
Lemma wp_on_receive t env packet from w : stream_inv w → DispatcherFacts.inputs_ok env (dispatcher w) →
  bytes_ok packet →
  wp (on_receive t env packet from) (λ _ w' ev, stream_inv w' ∧ same_sessions w w' ∧
    Forall (write_ok (objects w)) ev) w.
Proof.
  intros [Hs Ho Ht] Hin Hok. unfold on_receive. apply wp_bind, wp_get.
  destruct (server_total env packet from t (dispatcher w) Hs Hin Hok) as (d'&ev&E). rewrite E.
  apply wp_bind. unfold put_dispatcher, wp at 1. apply wp_bind.
  eapply wp_mono; [by apply wp_dispatch_events|]. intros [] w' l [[ws ->] Hl]. unfold wp, lift. cbn [app].
  rewrite app_nil_r. split_and!; [split; [by eapply served_next|done|done]|by split|done].
Qed.
(** *** A handler of a session *)

Definition with_object (id : nat) (s : TlsSession.TlsSession) (w : StreamServer) : StreamServer :=
  mkStreamServer (sessions_ w) (<[id := s]> (objects w)) (next_session w) (dispatcher w) (writing_ w).

Lemma on_session_eq t env id (m : TlsSession.M ()) s s' evs r w : objects w !! id = Some s → m s = (r, s', evs) →
  on_session t env id m w = (on_session_events t env evs;; lift r) (with_object id s' w).
Proof.
  intros Hs E. unfold on_session, get, mbind at 1, eff_bind at 1. rewrite Hs, E.
  unfold put_object, mbind at 1, eff_bind at 1. fold (with_object id s' w).
  by destruct ((on_session_events t env evs;; lift r) _) as [[? ?] ?].
Qed.

Lemma with_object_inv id s s' w : stream_inv w → objects w !! id = Some s → session_ok s' →
  TlsSession.key_ s' = TlsSession.key_ s → (TlsSession.pending_ s' = None → TlsSession.pending_ s = None) →
  stream_inv (with_object id s' w).
Proof.
  intros [Hs Ho Ht] Hid Hok Hk Hp. split; cbn; [done| |].
  - intros id' s'' E. destruct (decide (id' = id)) as [->|Hne].
    + rewrite lookup_insert_eq in E. simplify_eq. split; [by eapply Ho|done].
    + rewrite lookup_insert_ne in E by done. by eapply Ho.
  - intros key id' E. destruct (Ht _ _ E) as (s0&E0&Hk0&Hp0). destruct (decide (id' = id)) as [->|Hne].
    + exists s'. rewrite lookup_insert_eq. simplify_eq. split_and!; [done|congruence|auto].
    + exists s0. by rewrite lookup_insert_ne.
Qed.

(** A session leaves the table and has no operation left. *)
Lemma removed_inv id s s' w l : stream_inv w → objects w !! id = Some s → session_ok s' →
  TlsSession.key_ s' = TlsSession.key_ s →
  stream_inv (mkStreamServer (delete (TlsSession.key_ s) (sessions_ w)) (<[id := s']> (objects w))
    (next_session w) (dispatcher w) l).
Proof.
  intros [Hs Ho Ht] Hid Hok Hk. split; cbn; [done| |].
  - intros id' s'' E. destruct (decide (id' = id)) as [->|Hne].
    + rewrite lookup_insert_eq in E. simplify_eq. split; [by eapply Ho|done].
    + rewrite lookup_insert_ne in E by done. by eapply Ho.
  - intros key id' E. apply lookup_delete_Some in E as [Hne E]. destruct (Ht _ _ E) as (s0&E0&Hk0&Hp0).
    exists s0. rewrite lookup_insert_ne; [done|]. intros ->. simplify_eq.
Qed.

(** The entry of a session is erased. *)
Lemma erased_inv key w l : stream_inv w →
  stream_inv (mkStreamServer (delete key (sessions_ w)) (objects w) (next_session w) (dispatcher w) l).
Proof.
  intros [Hs Ho Ht]. split; cbn; [done..|]. intros key' id E. apply lookup_delete_Some in E as [_ E]. by apply Ht.
Qed.

(** What a completion comes to. *)
Definition step_spec (w : StreamServer) (c : completion) (o : result () * StreamServer * list StreamEvent) : Prop :=
  match o with
  | (Ok (), w', ev) => stream_inv w' ∧ Forall (write_ok (objects w')) ev
  | (Err Undefined, _, _) => ∃ id s, c = Completed id ∧ objects w !! id = Some s ∧ oversized (TlsFacts.unread s)
  | (Err (Thrown k _), _, _) => k = RuntimeError ∧ c = Accepted None
  | (Err _, _, _) => False
  end.

Lemma step_quiet w c w' : stream_inv w' → step_spec w c (Ok (), w', []).
Proof. by split. Qed.

Lemma on_session_quiet t env id (m : TlsSession.M ()) s s' w c : stream_inv w → objects w !! id = Some s →
  m s = (Ok (), s', []) → session_ok s' → TlsSession.key_ s' = TlsSession.key_ s →
  (TlsSession.pending_ s' = None → TlsSession.pending_ s = None) → step_spec w c (on_session t env id m w).
Proof.
  intros Hw Hid E Hok Hk Hp. rewrite (on_session_eq _ _ _ _ _ _ _ _ _ Hid E). apply step_quiet.
  by eapply with_object_inv.
Qed.
Lemma consistent_pending s : TlsFacts.consistent s → TlsSession.pending_ s ≠ None.
Proof. unfold TlsFacts.consistent. by destruct (TlsSession.pending_ s). Qed.

Lemma consistent_ok s s' : session_ok s → TlsFacts.same_session s s' → TlsFacts.consistent s' →
  bytes_ok (TlsFacts.unread s') → session_ok s'.
Proof.
  intros (Hk&_) [Hk' Hf] Hc Hb. split; [congruence|]. split; [done|].
  destruct (TlsSession.pending_ s') as [[]|] eqn:E; done.
Qed.

Lemma handler_ready s op n : TlsSession.ready s = Some (op, n) → handler s = TlsFacts.one_handler op n s.
Proof.
  intros E. unfold handler, get, mbind at 1, eff_bind at 1. rewrite E. unfold TlsFacts.one_handler.
  by destruct ((data ← TlsSession.take_bytes n; TlsSession.complete op data) s) as [[? ?] ?].
Qed.

Lemma handler_waiting s : TlsSession.ready s = None → handler s = (Ok (), s, []).
Proof. intros E. unfold handler, get, mbind, eff_bind. by rewrite E. Qed.

Lemma step_handler t env id s w : stream_inv w → DispatcherFacts.inputs_ok env (dispatcher w) →
  objects w !! id = Some s → step_spec w (Completed id) (on_session t env id handler w).
Proof.
  intros Hw Hin Hid. destruct (inv_objects w Hw _ _ Hid) as [_ Hok].
  destruct (TlsSession.ready s) as [[op n]|] eqn:Er.
  2:{ eapply on_session_quiet; [done..|by apply handler_waiting|done|done|done]. }
  assert (Hc : TlsFacts.consistent s).
  { apply TlsFacts.ready_Some in Er as (Hp&Hn&_). destruct Hok as (_&_&Hc). rewrite Hp in Hc. by destruct op. }
  pose proof (TlsFacts.handler_progress s op n Hc Er) as Hprog. rewrite <-handler_ready in Hprog by done.
  remember (handler s) as out eqn:Eout. symmetry in Eout.
  destruct Hprog as [s' Hc' Hs Hu _|s' p Hc' Hs _ Hp|s' Hu _].
  - eapply on_session_quiet; [done..| |apply Hs|by intros ?%consistent_pending].
    apply (consistent_ok s); try done. rewrite Hu. apply Hok.
  - destruct (read_first_byte_ok _ _ _ (proj1 (proj2 Hok)) Hp) as [Hpb Hub].
    assert (Hw' : stream_inv (with_object id s' w)).
    { eapply with_object_inv; [done..|by apply (consistent_ok s)|apply Hs|by intros ?%consistent_pending]. }
    rewrite (on_session_eq _ _ _ _ _ _ _ _ _ Hid Eout). cbn [on_session_events on_session_event].
    destruct (wp_run _ _ _ (wp_on_receive t env p (TlsSession.from_ s) _ Hw' Hin Hpb)) as ([]&w'&ev&E&Hi&Hss&Hev).
    unfold mbind, eff_bind. rewrite E. cbn. rewrite !app_nil_r. split; [done|].
    by rewrite (proj1 (proj2 Hss)).
  - rewrite (on_session_eq _ _ _ _ _ _ _ _ _ Hid Eout). exists id, s. split_and!; [done..|].
    destruct (TcpFraming.read_overrun (TlsFacts.unread s) (proj1 (proj2 Hok))) as [[o E]|[_ Hover]]; [congruence|done].
Qed.

(** The session ends. *)
Lemma step_removed t env id (m : TlsSession.M ()) s s' c w : stream_inv w → objects w !! id = Some s →
  m s = (Ok (), s', [TlsSession.Removed (TlsSession.key_ s)]) → session_ok s' →
  TlsSession.key_ s' = TlsSession.key_ s → step_spec w c (on_session t env id m w).
Proof.
  intros Hw Hid E Hok Hk. rewrite (on_session_eq _ _ _ _ _ _ _ _ _ Hid E).
  change (step_spec w c (Ok (), mkStreamServer (delete (TlsSession.key_ s) (sessions_ w)) (<[id := s']> (objects w))
    (next_session w) (dispatcher w) (writing_ w), [])).
  apply step_quiet. by eapply removed_inv.
Qed.

(** A session at its first operation. *)
Definition first_operation (t : Transport) (from : Endpoint) : TlsSession.TlsSession :=
  TlsSession.mkTlsSession (endpointKey from) from 0
    (Some (if bool_decide (t = TlsTransport) then TlsSession.Handshake else TlsSession.FirstByte)) [].

Definition accepted (t : Transport) (from : Endpoint) (w : StreamServer) : StreamServer :=
  mkStreamServer (<[endpointKey from := next_session w]> (sessions_ w))
    (<[next_session w := first_operation t from]> (objects w)) (S (next_session w)) (dispatcher w) (writing_ w).

Lemma stream_accept_eq t env from w : accept t env (Some from) w = (Ok (), accepted t from w, []).
Proof.
  unfold accept, on_session, get, put, mbind, eff_bind, accept_session. cbn [objects sessions_].
  rewrite lookup_insert_eq. unfold run_session, accepted, first_operation.
  by case_bool_decide; cbn; rewrite insert_insert_eq.
Qed.

Lemma accepted_inv t from w : stream_inv w → stream_inv (accepted t from w).
Proof.
  intros [Hs Ho Ht]. split; cbn; [done| |].
  - intros id s E. destruct (decide (id = next_session w)) as [->|Hne].
    + rewrite lookup_insert_eq in E. simplify_eq. split; [lia|]. split; [done|].
      unfold first_operation, TlsFacts.unread, TlsFacts.taken. cbn.
      case_bool_decide; (split; [constructor|done]).
    + rewrite lookup_insert_ne in E by done. destruct (Ho _ _ E). split; [lia|done].
  - intros key id E. destruct (decide (key = endpointKey from)) as [->|Hne].
    + rewrite lookup_insert_eq in E. simplify_eq. exists (first_operation t from). by rewrite lookup_insert_eq.
    + rewrite lookup_insert_ne in E by done. destruct (Ht _ _ E) as (s&E'&Hs').
      exists s. rewrite lookup_insert_ne; [done|]. intros <-. destruct (Ho _ _ E'). lia.
Qed.

(** What [on_written] does. *)
Lemma on_written_eq id s ec w : on_written id s ec w =
  (Ok (), mkStreamServer (if ec then delete (TlsSession.key_ s) (sessions_ w) else sessions_ w) (objects w)
    (next_session w) (dispatcher w) (one_less id (writing_ w)), []).
Proof. by destruct ec. Qed.

Lemma step_completion t env c w : stream_inv w → DispatcherFacts.inputs_ok env (dispatcher w) →
  (∀ id piece, c = Arrived id piece → bytes_ok piece) → step_spec w c (on_completion t env c w).
Proof.
  intros Hw Hin Hpiece.
  assert (Habsent : ∀ id m, objects w !! id = None → step_spec w c (on_session t env id m w)).
  { intros id m E. unfold on_session, get, mbind, eff_bind. rewrite E. by apply step_quiet. }
  destruct c as [[from|]| |id ec|id piece|id|id|id ec]; cbn [on_completion]; try (by apply step_quiet);
    try (destruct (objects w !! id) as [s|] eqn:Hid; [destruct (inv_objects w Hw _ _ Hid) as [_ Hok]|]).
  - rewrite stream_accept_eq. by apply step_quiet, accepted_inv.
  - done.
  - rewrite bind_get, Hid. cbn [fmap option_fmap option_map]. destruct (TlsSession.pending_ s) as [[]|] eqn:Hp;
      try (by apply step_quiet).
    set (s' op := TlsSession.mkTlsSession (TlsSession.key_ s) (TlsSession.from_ s) (TlsSession.first_byte_ s) op
      (TlsSession.arrived_ s)).
    assert (Hs' : ∀ op, op = None ∨ op = Some TlsSession.FirstByte → session_ok (s' op)).
    { intros op Hop. destruct Hok as (Hk&Hb&_). split; [done|]. unfold TlsFacts.unread, TlsFacts.taken in *.
      rewrite Hp in Hb. by destruct Hop as [->| ->]. }
    destruct ec; [eapply (step_removed _ _ _ _ _ (s' None))|eapply (on_session_quiet _ _ _ _ _ (s' (Some TlsSession.FirstByte)))];
      try done; [by apply Hs'; left|by apply Hs'; right].
  - by rewrite bind_get, Hid; apply step_quiet.
  - eapply on_session_quiet; [done..| |done|done].
    destruct Hok as (Hk&Hb&Hc). split; [done|]. split; [|exact Hc].
    unfold TlsFacts.unread in *. cbn. apply Forall_app in Hb as [??]. repeat apply Forall_app_2; try done.
    by eapply Hpiece.
  - by apply Habsent.
  - by apply step_handler with s.
  - by apply Habsent.
  - assert (E : TlsSession.on_end s = match TlsSession.pending_ s with
      | Some _ => (Ok (), out_state (TlsSession.remove s), [TlsSession.Removed (TlsSession.key_ s)])
      | None => (Ok (), s, []) end) by (unfold TlsSession.on_end; rewrite bind_get; by case_match).
    destruct (TlsSession.pending_ s) eqn:Hp; [eapply step_removed|eapply on_session_quiet]; try done.
    destruct Hok as (Hk&Hb&_). split; [done|]. split; [|done]. by apply Forall_app in Hb as [??].
  - by apply Habsent.
  - rewrite bind_get, Hid. case_bool_decide; [|by apply step_quiet]. rewrite on_written_eq. apply step_quiet.
    destruct ec; [by apply erased_inv|]. by destruct Hw.
  - rewrite bind_get, Hid. by apply step_quiet.
Qed.
Lemma listening_inv t w : listening t w → stream_inv w.
Proof.
  induction 1 as [d Hs|w env c w' ev _ IH Hin Hp E|w d _ [Hs Ho Ht] Hd]; [by split| |by split].
  pose proof (step_completion t env c w IH Hin Hp) as Hstep. rewrite E in Hstep. apply Hstep.
Qed.

(** The three handlers that a STUN message completes. *)
Lemma stun_handlers k f b data rest : packet_ok (StunPacket data) → ∃ b' op1 arrived1 op2 arrived2,
  handler (TlsSession.mkTlsSession k f b (Some TlsSession.FirstByte) (data ++ rest)) =
    (Ok (), TlsSession.mkTlsSession k f b' op1 arrived1, []) ∧
  handler (TlsSession.mkTlsSession k f b' op1 arrived1) = (Ok (), TlsSession.mkTlsSession k f b' op2 arrived2, []) ∧
  handler (TlsSession.mkTlsSession k f b' op2 arrived2) =
    (Ok (), TlsSession.mkTlsSession k f b' (Some TlsSession.FirstByte) rest, [TlsSession.Received data f]).
Proof.
  intros (d0&d1&d2&d3&r&->&Hd0&Hok&Hl). assert (byte_ok d0) by (by apply Forall_cons in Hok as [? _]).
  exists d0, (Some TlsSession.StunHeader), ((d1 :: d2 :: d3 :: r) ++ rest),
    (Some (TlsSession.StunBody (d0 :: d1 :: d2 :: d3 :: take 16 r) (Z.to_nat (be16 d2 d3)))), (drop 16 r ++ rest).
  split_and!.
  - rewrite (handler_ready _ TlsSession.FirstByte 1) by done.
    unfold TlsFacts.one_handler, TlsSession.complete, TlsSession.on_first_byte, TlsSession.take_bytes,
      TlsSession.set_first_byte, TlsSession.start_operation, lift, mbind, eff_bind.
    cbn [TlsSession.arrived_ app take]. change (rd [d0] 0) with (Ok d0). cbv beta iota zeta.
    by rewrite top2_byte, (proj2 (Z.leb_gt 64 d0)) by (done || lia).
  - rewrite (handler_ready _ TlsSession.StunHeader 19).
    2:{ unfold TlsSession.ready. cbn [TlsSession.pending_ TlsSession.arrived_ mbind option_bind TlsSession.wanted].
        rewrite (proj2 (Nat.leb_le _ _)); [done|]. rewrite length_app. cbn [length]. lia. }
    assert (E1 : take 19 ((d1 :: d2 :: d3 :: r) ++ rest) = d1 :: d2 :: d3 :: take 16 r)
      by (cbn [app]; rewrite !firstn_cons, take_app_le by lia; done).
    assert (E2 : drop 19 ((d1 :: d2 :: d3 :: r) ++ rest) = drop 16 r ++ rest)
      by (cbn [app]; rewrite !skipn_cons, drop_app_le by lia; done).
    unfold TlsFacts.one_handler, TlsSession.take_bytes, mbind at 1, eff_bind at 1.
    cbn [TlsSession.arrived_ TlsSession.key_ TlsSession.from_ TlsSession.first_byte_ TlsSession.pending_].
    by rewrite E1, E2.
  - rewrite (handler_ready _ (TlsSession.StunBody (d0 :: d1 :: d2 :: d3 :: take 16 r) (Z.to_nat (be16 d2 d3)))
      (Z.to_nat (be16 d2 d3))).
    2:{ unfold TlsSession.ready. cbn [TlsSession.pending_ TlsSession.arrived_ mbind option_bind TlsSession.wanted].
        rewrite (proj2 (Nat.leb_le _ _)); [done|]. rewrite length_app, length_drop. lia. }
    unfold TlsFacts.one_handler, TlsSession.take_bytes, mbind at 1, eff_bind at 1.
    cbn [TlsSession.arrived_ TlsSession.key_ TlsSession.from_ TlsSession.first_byte_ TlsSession.pending_].
    rewrite take_app_length', drop_app_length' by (rewrite length_drop; lia).
    assert (E : (d0 :: d1 :: d2 :: d3 :: take 16 r) ++ drop 16 r = d0 :: d1 :: d2 :: d3 :: r)
      by (cbn [app]; by rewrite take_drop).
    unfold TlsSession.complete, TlsSession.on_stun_body. by rewrite E.
Qed.

(** What a transport writes. *)
Definition writes (events : list StreamEvent) : list (nat * bytes * Endpoint) :=
  omap (λ e, match e with Written id data to => Some (id, data, to) | _ => None end) events.

(** The writes that start while another of the session is in progress. *)
Definition overlaps (events : list StreamEvent) : list nat :=
  omap (λ e, match e with Overlapping id => Some id | _ => None end) events.

(** An answer is written to the session that the table has for its endpoint. *)
Definition answered (w : StreamServer) (to : Endpoint) : StreamServer :=
  match sessions_ w !! endpointKey to with
  | Some id => with_writing (id :: writing_ w) w
  | None => w
  end.

Lemma dispatch_answer t w evs r to : datagrams evs = [(t, r, to)] →
  ∃ l, dispatch_events t evs w = (Ok (), answered w to, l) ∧
    writes l = match sessions_ w !! endpointKey to with Some id => [(id, r, to)] | None => [] end ∧
    overlaps l = match sessions_ w !! endpointKey to with
      | Some id => if bool_decide (id ∈ writing_ w) then [id] else [] | None => [] end.
Proof.
  intros Hd. assert (Hother : ∀ e evs w w' l, dispatch_events t evs w = (Ok (), w', l) →
    (emit (OtherSend e);; dispatch_events t evs) w = (Ok (), w', OtherSend e :: l))
    by (intros e evs' w0 w' l E; by rewrite (bind_Ok _ _ () w0 w0 [OtherSend e] eq_refl), E).
  assert (Hnone : ∀ evs w, datagrams evs = [] → ∃ l, dispatch_events t evs w = (Ok (), w, l) ∧ writes l = [] ∧ overlaps l = []).
  { clear evs w Hd. intros evs w. induction evs as [|[t' data to'|line|line] evs IH]; intros Hd; [by exists []|done|..];
      (destruct (IH Hd) as (l&E&Hl&Hl')); cbn [dispatch_events]; rewrite (Hother _ _ _ _ _ E); by eexists. }
  induction evs as [|[t' data to'|line|line] evs IH]; [done|..]; cbn [dispatch_events].
  - injection Hd as -> -> -> Hd. rewrite bool_decide_true by done. pose proof (send_eq r to w) as Es.
    unfold answered. destruct (sessions_ w !! endpointKey to) as [id|].
    + destruct (Hnone evs (with_writing (id :: writing_ w) w) Hd) as (l&E&Hl&Hl').
      rewrite (bind_Ok _ _ _ _ _ _ Es), E. eexists. split; [done|]. unfold writes, overlaps in *.
      rewrite !omap_app, Hl, Hl'. by case_bool_decide.
    + destruct (Hnone evs w Hd) as (l&E&Hl&Hl'). rewrite (bind_Ok _ _ _ _ _ _ Es), E. eexists. split; [done|].
      unfold writes, overlaps in *. rewrite !omap_app, Hl, Hl'. done.
  - destruct (IH Hd) as (l&E&Hl). rewrite (Hother _ _ _ _ _ E). by eexists.
  - destruct (IH Hd) as (l&E&Hl). rewrite (Hother _ _ _ _ _ E). by eexists.
Qed.
End facts.

(** ** Properties *)

Section properties.
Context `{OpenSSLSpec} `{BoostAddressSpec} `{!IterOrder string ptr} `{!IterOrder Z ChannelBinding}.

(** The listeners keep their tables. However connections, handshakes, bytes,
    ends and completed writes follow each other, the table of a transport maps the
    key of a peer to a session of that peer that is not destroyed, and what is
    sent to an endpoint is written to such a session. A handler fails in two ways
    only: on a connection that is gone when it is accepted, and on a channel frame
    that announces 65533 bytes or more. *)
Lemma sessions_in_table transport env c w :
  listening transport w → DispatcherFacts.inputs_ok env (dispatcher w) →
  (∀ id piece, c = Arrived id piece → bytes_ok piece) →
  match on_completion transport env c w with
  | (Ok (), w', ev) => table_ok (sessions_ w') (objects w') ∧ Forall (write_ok (objects w')) ev
  | (Err Undefined, _, _) => ∃ id s, c = Completed id ∧ objects w !! id = Some s ∧ oversized (TlsFacts.unread s)
  | (Err (Thrown k _), _, _) => k = RuntimeError ∧ c = Accepted None
  | (Err _, _, _) => False
  end.
Proof.
  intros Hw Hin Hp. pose proof (step_completion transport env c w (listening_inv _ _ Hw) Hin Hp) as Hstep.
  destruct (on_completion transport env c w) as [[[[]|[]] w'] ev]; try done.
  destruct Hstep as [Hi Hev]. split; [apply Hi|done].
Qed.


(** A session that fails late erases the entry of a newer one of the same peer,
    which then cannot be reached. *)
Lemma stale_session_erases transport env w id s from data :
  listening transport w → objects w !! id = Some s → TlsSession.key_ s = endpointKey from → id ∈ writing_ w →
  ∃ w', (on_completion transport env (Accepted (Some from));; on_completion transport env (WriteDone id true);;
         send data from) w = (Ok (), w', [NoSession (endpointKey from)]) ∧
    objects w' !! next_session w = Some (first_operation transport from).
Proof.
  intros Hw%listening_inv Hid Hk Hwr. destruct (inv_objects w Hw _ _ Hid) as [Hlt _].
  set (w1 := accepted transport from w).
  assert (Hid1 : objects w1 !! id = Some s) by (cbn; rewrite lookup_insert_ne by lia; done).
  set (w2 := mkStreamServer (delete (endpointKey from) (sessions_ w1)) (objects w1) (next_session w1) (dispatcher w1)
    (one_less id (writing_ w1))).
  exists w2. split; [|cbn; by rewrite lookup_insert_eq].
  cbn [on_completion]. rewrite (bind_Ok _ _ _ _ _ _ (stream_accept_eq transport env from w)). fold w1.
  pose proof (on_written_eq id s true w1) as E. rewrite Hk in E.
  rewrite (bind_Ok _ _ () w1 w2 []); [|rewrite bind_get, Hid1, bool_decide_true by done; exact E].
  rewrite send_eq. unfold w2. cbn [sessions_]. by rewrite lookup_delete_eq.
Qed.
End properties.

(** ** A TLS client's first request *)

Module tls_client.
Import Server.session.
#[local] Existing Instances ToyOpenSSL ToyOpenSSLSpec DottedAddress DottedAddressSpec clients_order channels_order.

Definition w0 : StreamServer := new_server d0.
Definition step (c : completion) (w : StreamServer) : StreamServer := out_state (on_completion TlsTransport env c w).
Definition w1 : StreamServer := step (Accepted (Some c1)) w0.
Definition w2 : StreamServer := step (Handshaken 0 false) w1.
Definition w3 : StreamServer := step (Arrived 0 (take 7 unsigned)) w2.
Definition w4 : StreamServer := step (Arrived 0 (drop 7 unsigned ++ [1])) w3.
Definition s4 : TlsSession.TlsSession := default (TlsSession.new_session c1) (objects w4 !! 0%nat).

Lemma w4_listening : listening TlsTransport w4.
Proof.
  eapply (listening_step _ w3 env (Arrived 0 (drop 7 unsigned ++ [1]))); [|apply env_ok; vm_compute; lia
    |intros ?? [= _ <-]; compute_done|reflexivity].
  eapply (listening_step _ w2 env (Arrived 0 (take 7 unsigned))); [|apply env_ok; vm_compute; lia
    |intros ?? [= _ <-]; compute_done|reflexivity].
  eapply (listening_step _ w1 env (Handshaken 0 false)); [|apply env_ok; vm_compute; lia|done|reflexivity].
  eapply (listening_step _ w0 env (Accepted (Some c1))); [|apply env_ok; vm_compute; lia|done|reflexivity].
  constructor. apply served_start.
Qed.

Lemma sessions_in_table_witness :
  ∃ w' ev, on_completion TlsTransport env (Completed 0) w4 = (Ok (), w', ev) ∧ table_ok (sessions_ w') (objects w').
Proof.
  pose proof (sessions_in_table TlsTransport env (Completed 0) w4 w4_listening
    ltac:(apply env_ok; vm_compute; lia) ltac:(done)) as Hstep.
  destruct (on_completion TlsTransport env (Completed 0) w4) as [[r w'] ev] eqn:E.
  assert (r = Ok ()) as -> by (change r with (out_result (r, w', ev)); rewrite <-E; by vm_compute).
  exact (ex_intro _ w' (ex_intro _ ev (conj eq_refl (proj1 Hstep)))).
Defined.

End tls_client.
