(* ===== verification/Udp.v ===== *)
(** * The UDP transport (src/turn_server/src/transport/udp_transport.cpp)

    One outstanding [async_receive_from], whose handler runs the dispatcher and
    starts the next one, unless the operation failed.  [make_address] may throw
    for the address that a datagram is sent to. *)

From S2P Require Export Server.

Definition kMaxPacketSize : Z := 65536.

(** [receiving_]: a receive is outstanding. *)
Record UdpServer := mkUdpServer { receiving_ : bool; udp_dispatcher : TurnDispatcher }.

Inductive UdpEvent :=
  | SendTo (data : bytes) (dest : string) (port : Z)
  | OtherSend (event : Event).

Section udp.
Context `{OpenSSL} `{BoostAddress} `{!IterOrder string ptr} `{!IterOrder Z ChannelBinding}.
(** [asio::ip::make_address(address)], by its text. *)
Variable canonical : string → result string.

Abbreviation M := (eff UdpServer UdpEvent).

Definition send (data : bytes) (to : Endpoint) : M () :=
  address ← lift (canonical (ep_address to));
  emit (SendTo data address (ep_port to)).

Fixpoint dispatch_events (events : list Event) : M () :=
  match events with
  | [] => mret ()
  | Send UdpTransport data to :: events => send data to;; dispatch_events events
  | e :: events => emit (OtherSend e);; dispatch_events events
  end.

(** The callback of main.cpp. *)
Definition on_receive (env : Inputs) (data : bytes) (from : Endpoint) : M () := λ w,
  let '(r, d, events) := onPacket env data from UdpTransport (udp_dispatcher w) in
  (dispatch_events events;; lift r) (mkUdpServer (receiving_ w) d).

Definition set_receiving (b : bool) : M () := λ w, (Ok (), mkUdpServer b (udp_dispatcher w), []).
Definition receive : M () := set_receiving true.

(** The handler of [receive]; [None] is an error. *)
Definition on_datagram (env : Inputs) (o : option (bytes * Endpoint)) : M () :=
  w ← get;
  if negb (receiving_ w) then mret () else
  set_receiving false;;
  match o with
  | Some (data, from) =>
      let data := take (Z.to_nat kMaxPacketSize) data in
      (if (0 <? length data)%nat then on_receive env data from else mret ());;
      receive
  | None => mret ()
  end.

Fixpoint on_datagrams (l : list (Inputs * option (bytes * Endpoint))) : M () :=
  match l with [] => mret () | (env, o) :: l => on_datagram env o;; on_datagrams l end.

(** [run], on a new transport. *)
Definition run (d : TurnDispatcher) : UdpServer := out_state (receive (mkUdpServer false d)).

(** What is sent over this transport. *)
Definition sent (events : list UdpEvent) : list (bytes * string * Z) :=
  omap (λ e, match e with SendTo data dest port => Some (data, dest, port) | _ => None end) events.
End udp.

(** ** Lemmas *)

Section facts.
Context `{OpenSSLSpec} `{BoostAddressSpec} `{!IterOrder string ptr} `{!IterOrder Z ChannelBinding}.
Variable canonical : string → result string.

Lemma dispatch_other e evs w l : dispatch_events canonical evs w = (Ok (), w, l) →
  (emit (OtherSend e);; dispatch_events canonical evs) w = (Ok (), w, OtherSend e :: l).
Proof. intros E. by rewrite (bind_Ok _ _ () w w [OtherSend e] eq_refl), E. Qed.

(** The datagrams of the dispatcher, when each goes to an address that is one. *)
Lemma dispatch_events_sent evs w : Forall (λ '(t, _, to), t = UdpTransport →
    canonical (ep_address to) = Ok (ep_address to)) (datagrams evs) →
  ∃ l, dispatch_events canonical evs w = (Ok (), w, l) ∧
    sent l = omap (λ '(t, data, to), if bool_decide (t = UdpTransport)
      then Some (data, ep_address to, ep_port to) else None) (datagrams evs).
Proof.
  induction evs as [|[t data to|line|line] evs IH]; intros Hok; [by exists []|..]; cbn [dispatch_events];
    try (destruct (IH Hok) as (l&E&Hl); rewrite (dispatch_other _ _ _ _ E); by eexists).
  apply Forall_cons in Hok as [Hto Hok]. destruct (IH Hok) as (l&E&Hl).
  destruct t; try (rewrite (dispatch_other _ _ _ _ E); by eexists).
  assert (Es : send canonical data to w = (Ok (), w, [SendTo data (ep_address to) (ep_port to)]))
    by (unfold send; rewrite (Hto eq_refl), bind_lift; done).
  rewrite (bind_Ok _ _ _ _ _ _ Es), E. eexists. split; [done|].
  change (sent ([?e] ++ l)) with ((data, ep_address to, ep_port to) :: sent l). by rewrite Hl.
Qed.

(** A datagram that is received, with what it makes the dispatcher send. *)
Lemma on_datagram_sends env data from d d' evs : Z.of_nat (length data) ≤ kMaxPacketSize → data ≠ [] →
  onPacket env data from UdpTransport d = (Ok (), d', evs) →
  Forall (λ '(t, _, to), t = UdpTransport → canonical (ep_address to) = Ok (ep_address to)) (datagrams evs) →
  ∃ l, on_datagram canonical env (Some (data, from)) (run d) = (Ok (), run d', l) ∧
    sent l = omap (λ '(t, data, to), if bool_decide (t = UdpTransport)
      then Some (data, ep_address to, ep_port to) else None) (datagrams evs).
Proof.
  intros Hlen Hne E Hto. destruct (dispatch_events_sent evs (mkUdpServer false d') Hto) as (l'&El&Hl).
  exists l'. split; [|exact Hl].
  unfold on_datagram. rewrite bind_get. change (negb (receiving_ (run d))) with false. cbv iota.
  rewrite (bind_Ok (set_receiving false) _ () (run d) (mkUdpServer false d) [] eq_refl), take_ge by lia.
  rewrite (proj2 (Nat.ltb_lt _ _)) by (destruct data; [done|cbn; lia]).
  assert (Erec : on_receive canonical env data from (mkUdpServer false d) = (Ok (), mkUdpServer false d', l')).
  { unfold on_receive. cbn [udp_dispatcher receiving_]. rewrite E, (bind_Ok _ _ _ _ _ _ El). unfold lift.
    by rewrite app_nil_r. }
  rewrite (bind_Ok _ _ _ _ _ _ Erec). unfold receive, set_receiving. cbn [app]. by rewrite app_nil_r.
Qed.

Lemma on_datagrams_stopped l w : receiving_ w = false → on_datagrams canonical l w = (Ok (), w, []).
Proof.
  intros Hw. induction l as [|[env o] l IH]; [done|]. cbn [on_datagrams].
  assert (E : on_datagram canonical env o w = (Ok (), w, [])) by (unfold on_datagram; by rewrite bind_get, Hw).
  by rewrite (bind_Ok _ _ _ _ _ _ E), IH.
Qed.
End facts.

(** ** Property *)

Section properties.
Context `{OpenSSLSpec} `{BoostAddressSpec} `{!IterOrder string ptr} `{!IterOrder Z ChannelBinding}.
Variable canonical : string → result string.

(** A client of the UDP transport is answered, until a receive fails: a STUN
    request that arrives is answered with exactly one datagram to the address it
    came from, a response with its transaction id, and the transport receives
    again; but after the first receive that ends with an error it never does,
    and whatever arrives then has no effect. *)
Lemma udp_answers_until_error env d data from msg out failed later :
  served d → DispatcherFacts.inputs_ok env d → bytes_ok data → Z.of_nat (length data) ≤ kMaxPacketSize →
  canonical (ep_address from) = Ok (ep_address from) →
  parse data empty_message = Ok (ParseResult.Ok, msg) → msg_class msg ≠ MessageClass.Indication →
  Z.of_nat (String.length (LongTermCred.realm_ (long_term_cred_ d))) < 1000 →
  ∃ d' ev r m c n l,
    on_datagram canonical env (Some (data, from)) (run d) = (Ok (), run d', ev) ∧ served d' ∧
    sent ev = [(r, ep_address from, ep_port from)] ∧
    parse r out = Ok (ParseResult.Ok, mkTurnMessage c m n (transaction_id msg) l) ∧
    (c = MessageClass.ErrorResponse ∨ c = MessageClass.SuccessResponse ∧ m = method msg) ∧
    on_datagrams canonical ((failed, None) :: later) (run d') = (Ok (), mkUdpServer false d', []).
Proof.
  intros Hs Hin Hok Hlen Hcan Hp Hcl Hrl.
  destruct (request_answer env data msg from UdpTransport d out Hs Hin Hok Hp Hcl Hrl)
    as (d'&evs&r&m&c&n&l&E&Hdg&Hr&Hc).
  destruct (on_datagram_sends canonical env data from d d' evs Hlen ltac:(by intros ->) E) as (l'&El&Hl).
  { rewrite Hdg. by constructor. }
  rewrite Hdg in Hl. cbn in Hl.
  exists d', l', r, m, c, n, l. split; [exact El|]. split_and!; try done; [by eapply served_next|].
  cbn [on_datagrams].
  rewrite (bind_Ok (on_datagram canonical failed None) _ () (run d') (mkUdpServer false d') [] eq_refl).
  by rewrite on_datagrams_stopped.
Qed.
End properties.

Section relaying.
Context `{OpenSSLSpec} `{BoostAddressSpec} `{!IterOrder string ptr} `{!IterOrder Z ChannelBinding}.
Variable canonical : string → result string.

(** C20: ChannelData that client A sends on a channel bound to the relay address
    of client B, under a live permission, makes the dispatcher hand exactly one
    datagram, addressed to B, to the transport that A uses, with no change of
    state: ChannelData on the channel that B bound to A's relay address, or a
    Data indication from A's relay address when B has bound none; B decodes the
    payload from it.  If that is the UDP transport, the datagram is sent to B's
    address and port, so B receives it when B uses UDP as well; a client B of
    another transport than A's does not.  The payload has fewer than 65000 bytes,
    and the relay address of the server is an IPv4 address. *)
Theorem channel_data_between_clients env d c1 c2 a1 a2 b n ip payload tail t out out' :
  let data := make_channel_data n payload ++ tail in
  served d → DispatcherFacts.inputs_ok env d →
  relay_address_ (alloc_manager_ d) = v4_to_string ip → 0 ≤ ip < 2 ^ 32 →
  alloc_of (alloc_manager_ d) c1 = Some a1 → alloc_of (alloc_manager_ d) c2 = Some a2 →
  channels a1 !! n = Some b → peer b = relayedAddr a2 →
  hasPermission (in_clk env 0) (ep_address (relayedAddr a2)) a1 = true →
  bytes_ok payload → bytes_ok tail → Z.of_nat (length payload) < 65000 →
  ∃ ev r, onPacket env data c1 t d = (Ok (), d, ev) ∧ datagrams ev = [(t, r, c2)] ∧
    ((∃ n' b', channels a2 !! n' = Some b' ∧ peer b' = relayedAddr a1 ∧
        parse_channel_data r out = Ok (ChannelDataResult.Ok, mkChannelData n' payload)) ∨
     ((∀ n' b', channels a2 !! n' = Some b' → peer b' ≠ relayedAddr a1) ∧
        ∃ m, parse r out' = Ok (ParseResult.Ok, m) ∧ msg_class m = MessageClass.Indication ∧
          method m = Method.Data ∧ peer_attr m = Some (relayedAddr a1) ∧
          attr_value <$> findAttr m AttrType.Data = Some payload)) ∧
    (t = UdpTransport → Z.of_nat (length data) ≤ kMaxPacketSize →
     canonical (ep_address c2) = Ok (ep_address c2) →
     ∃ ev', on_datagram canonical env (Some (data, c1)) (run d) = (Ok (), run d, ev') ∧
       sent ev' = [(r, ep_address c2, ep_port c2)]).
Proof.
  cbv zeta. intros Hs Hin Haddr Hip Ha1 Ha2 Hb Hpeer Hperm Hpb Htb Hl.
  destruct (channel_data_answer env d c1 c2 a1 a2 b n ip payload tail t out out') as (ev&r&E&Hev&Hdec); [done..|].
  exists ev, r. split; [exact E|]. split; [exact Hev|]. split; [exact Hdec|]. intros -> Hlen Hcan.
  destruct (on_datagram_sends canonical env (make_channel_data n payload ++ tail) c1 d d ev Hlen ltac:(done) E)
    as (ev'&E'&Hsent); [rewrite Hev; by constructor|]. exists ev'. split; [exact E'|]. rewrite Hsent, Hev. done.
Qed.
End relaying.

Module udp_client.
Import Server.session.
#[local] Existing Instances ToyOpenSSL ToyOpenSSLSpec DottedAddress DottedAddressSpec clients_order channels_order.
Definition canonical (s : string) : result string := Ok s.

Lemma udp_answers_until_error_witness : ∃ d' ev r,
  on_datagram canonical env (Some (unsigned, c1)) (run d4) = (Ok (), run d', ev) ∧
  sent ev = [(r, "10.1.1.1", 1111)] ∧
  on_datagrams canonical [(env, None); (env, Some (unsigned, c1))] (run d') = (Ok (), mkUdpServer false d', []).
Proof.
  destruct (udp_answers_until_error canonical env d4 unsigned c1 unsigned_msg empty_message env
    [(env, Some (unsigned, c1))]) as (d'&ev&r&m&c&n&l&E&_&Hsent&_&_&Hstop);
    [apply d4_served|apply d4_ok|compute_done|by vm_compute|done|reflexivity|done|by vm_compute|].
  exact (ex_intro _ d' (ex_intro _ ev (ex_intro _ r (conj E (conj Hsent Hstop))))).
Defined.

(** Both clients use UDP. *)
Lemma channel_data_between_clients_witness : ∃ ev r,
  on_datagram canonical env (Some (make_channel_data 0x4001 [104; 105] ++ [], c1)) (run d4) = (Ok (), run d4, ev) ∧
  sent ev = [(r, "10.1.1.2", 2222)] ∧
  (∃ m, parse r empty_message = Ok (ParseResult.Ok, m) ∧ attr_value <$> findAttr m AttrType.Data = Some [104; 105]).
Proof.
  destruct (channel_data_between_clients canonical env d4 c1 c2 (alloc c1) (alloc c2)
    (mkChannelBinding 0x4001 (relayedAddr (alloc c2)) (6 + seconds 600)) 0x4001 0xC0A80114 [104; 105] []
    UdpTransport (mkChannelData 0 []) empty_message) as (ev0&r&_&_&Hdec&Hudp);
    [apply d4_served|apply d4_ok|by vm_compute|lia|by vm_compute..|compute_done|compute_done|done|].
  destruct (Hudp eq_refl ltac:(vm_compute; discriminate) eq_refl) as (ev&E&Hsent).
  destruct Hdec as [(n'&b'&Hb&_)|(_&m&Hp&_&_&_&Hd)].
  - exfalso. assert (Hnone : channels (alloc c2) = ∅) by (by vm_compute). rewrite Hnone, lookup_empty in Hb. discriminate Hb.
  - exact (ex_intro _ ev (ex_intro _ r (conj E (conj Hsent (ex_intro _ m (conj Hp Hd)))))).
Defined.
End udp_client.
