(* ===== verification/WsClient.v ===== *)
(** * The WebSocket client (src/client_cli/src/signaling/ws_client.cpp)

    Three threads share a [WsClient]: the caller, which logs in, sends and at last
    disconnects; a thread that reads; and, when the connection is lost, a thread
    that tries to connect again.  [step] is one action of one thread between two
    accesses to what they share, so a list of labels is an interleaving; it has no
    result where the thread waits.  Assigning to a [std::thread] that has not been
    joined, or destroying one, ends the program.

    The network is the [bool] of a label: whether the operation succeeds. *)

From S2P Require Export SignIn.

Module WsClient.

Definition kMaxRetries : Z := 10.
Definition kBaseDelayMs : Z := 500.
Definition kMaxDelayMs : Z := 30000.

(** Where a thread is in [connect], in [readLoop] and in [reconnectLoop]. *)
Inductive connect_pc := Resolving | Upgrading | Flagging | Starting.
#[export] Instance connect_pc_eq_dec : EqDecision connect_pc.
Proof. solve_decision. Defined.
Inductive read_pc := LoopTop | Reading | Dropped | JoinReconnect | StartReconnect.
Inductive reconnect_pc :=
  | Attempt (attempt delay : Z)
  | Sleeping (attempt delay elapsed : Z)
  | JoinRead (attempt delay : Z)
  | ResetWs (attempt delay : Z)
  | Connecting (attempt delay : Z) (pc : connect_pc).
Inductive thread := TRead (pc : read_pc) | TReconnect (pc : reconnect_pc) | TDone.

(** The caller: in none of the functions, or where in which. *)
Inductive caller :=
  | Idle
  | Login (pc : connect_pc)
  | Sending (message : string)
  | Closing | JoiningRead | Resetting | JoiningReconnect
  | Destroyed.

Inductive status := Running | Terminated | NullDereference.

(** [ws_] by the target it was opened with; a thread object by the thread it
    stands for, [None] when it is not joinable. *)
Record Client := mkClient {
  ws_ : option string;
  connected_ : bool;
  stop_ : bool;
  last_token_ : string;
  read_thread_ : option nat;
  reconnect_thread_ : option nat;
  threads : gmap nat thread;
  next_id : nat;
  calling : caller;
  program : status;
}.

Inductive WsClientEvent :=
  | OnMessage
  | OnClose
  | Wrote (target message : string)
  | Closed
  | LogLine (line : string).

Definition new_client : Client := mkClient None false false "" None None ∅ 0 Idle Running.

Definition set_ws (x : option string) (s : Client) : Client :=
  mkClient x (connected_ s) (stop_ s) (last_token_ s) (read_thread_ s) (reconnect_thread_ s) (threads s) (next_id s)
    (calling s) (program s).
Definition set_connected (b : bool) (s : Client) : Client :=
  mkClient (ws_ s) b (stop_ s) (last_token_ s) (read_thread_ s) (reconnect_thread_ s) (threads s) (next_id s)
    (calling s) (program s).
Definition set_stop (b : bool) (s : Client) : Client :=
  mkClient (ws_ s) (connected_ s) b (last_token_ s) (read_thread_ s) (reconnect_thread_ s) (threads s) (next_id s)
    (calling s) (program s).
Definition set_token (t : string) (s : Client) : Client :=
  mkClient (ws_ s) (connected_ s) (stop_ s) t (read_thread_ s) (reconnect_thread_ s) (threads s) (next_id s)
    (calling s) (program s).
Definition set_read_thread (x : option nat) (s : Client) : Client :=
  mkClient (ws_ s) (connected_ s) (stop_ s) (last_token_ s) x (reconnect_thread_ s) (threads s) (next_id s)
    (calling s) (program s).
Definition set_reconnect_thread (x : option nat) (s : Client) : Client :=
  mkClient (ws_ s) (connected_ s) (stop_ s) (last_token_ s) (read_thread_ s) x (threads s) (next_id s)
    (calling s) (program s).
Definition set_calling (c : caller) (s : Client) : Client :=
  mkClient (ws_ s) (connected_ s) (stop_ s) (last_token_ s) (read_thread_ s) (reconnect_thread_ s) (threads s) (next_id s)
    c (program s).
Definition set_program (p : status) (s : Client) : Client :=
  mkClient (ws_ s) (connected_ s) (stop_ s) (last_token_ s) (read_thread_ s) (reconnect_thread_ s) (threads s) (next_id s)
    (calling s) p.
Definition goes (id : nat) (t : thread) (s : Client) : Client :=
  mkClient (ws_ s) (connected_ s) (stop_ s) (last_token_ s) (read_thread_ s) (reconnect_thread_ s) (<[id := t]> (threads s))
    (next_id s) (calling s) (program s).
(** [std::thread(f)]. *)
Definition spawn (t : thread) (s : Client) : nat * Client :=
  (next_id s, mkClient (ws_ s) (connected_ s) (stop_ s) (last_token_ s) (read_thread_ s) (reconnect_thread_ s)
     (<[next_id s := t]> (threads s)) (S (next_id s)) (calling s) (program s)).

(** [join], by any thread but the one that is joined: [None] is that it waits. *)
Definition joined (x : option nat) (s : Client) : bool :=
  match x with
  | None => true
  | Some id => match threads s !! id with Some TDone => true | _ => false end
  end.

(** ** connect *)

Inductive outcome := Goes (pc : connect_pc) | Returns | Throws.

Definition connect (ok : bool) (pc : connect_pc) (s : Client) : outcome * Client :=
  match pc with
  | Resolving =>                                   (* resolve, SNI, TCP and TLS *)
      if ok then (Goes Upgrading, set_ws (Some (ws_target (last_token_ s))) s) else (Throws, s)
  | Upgrading => if ok then (Goes Flagging, s) else (Throws, s)
  | Flagging => (Goes Starting, set_connected true s)
  | Starting =>
      match read_thread_ s with
      | Some _ => (Returns, set_program Terminated s)
      | None => let '(id, s) := spawn (TRead LoopTop) s in (Returns, set_read_thread (Some id) s)
      end
  end.

(** ** readLoop *)

Definition readLoop (id : nat) (ok : bool) (pc : read_pc) (s : Client) : option (Client * list WsClientEvent) :=
  match pc with
  | LoopTop =>
      if stop_ s then Some (goes id TDone s, []) else
      match ws_ s with
      | None => Some (goes id TDone s, [])
      | Some _ => Some (goes id (TRead Reading) s, [])
      end
  | Reading =>
      if ok then Some (goes id (TRead LoopTop) s, [OnMessage]) else
      Some (goes id (TRead Dropped) (set_connected false s), [])
  | Dropped =>
      if stop_ s then Some (goes id TDone s, []) else
      Some (goes id (TRead JoinReconnect) s, [OnClose])
  | JoinReconnect =>
      if joined (reconnect_thread_ s) s
      then Some (goes id (TRead StartReconnect) (set_reconnect_thread None s), [])
      else None
  | StartReconnect =>
      match reconnect_thread_ s with
      | Some _ => Some (set_program Terminated s, [])
      | None =>
          let '(id', s) := spawn (TReconnect (Attempt 1 kBaseDelayMs)) s in
          Some (goes id TDone (set_reconnect_thread (Some id') s), [])
      end
  end.

(** ** reconnectLoop *)

Definition reconnectLoop (id : nat) (ok : bool) (pc : reconnect_pc) (s : Client) :
    option (Client * list WsClientEvent) :=
  match pc with
  | Attempt attempt delay =>
      if (attempt <=? kMaxRetries) && negb (stop_ s)
      then Some (goes id (TReconnect (Sleeping attempt delay 0)) s, [])
      else Some (goes id TDone s, [LogLine "[ws] max retries reached, giving up"])
  | Sleeping attempt delay elapsed =>
      if (elapsed <? delay) && negb (stop_ s)
      then Some (goes id (TReconnect (Sleeping attempt delay (elapsed + 100))) s, [])
      else if stop_ s then Some (goes id TDone s, [])
      else Some (goes id (TReconnect (JoinRead attempt delay)) s,
                 [LogLine ("[ws] reconnect attempt " +:+ to_string attempt)])
  | JoinRead attempt delay =>
      if joined (read_thread_ s) s
      then Some (goes id (TReconnect (ResetWs attempt delay)) (set_read_thread None s), [])
      else None
  | ResetWs attempt delay =>
      Some (goes id (TReconnect (Connecting attempt delay Resolving)) (set_ws None s), [])
  | Connecting attempt delay pc =>
      let '(o, s) := connect ok pc s in
      match o with
      | Goes pc => Some (goes id (TReconnect (Connecting attempt delay pc)) s, [])
      | Returns => Some (goes id TDone s, [LogLine "[ws] reconnected"])
      | Throws =>
          Some (goes id (TReconnect (Attempt (attempt + 1) (Z.min (delay * 2) kMaxDelayMs))) s,
                [LogLine "[ws] reconnect failed"])
      end
  end.

(** ** The caller: connect at a login, send, and the destructor *)

Definition call (ok : bool) (s : Client) : option (Client * list WsClientEvent) :=
  match calling s with
  | Idle | Destroyed => None
  | Login pc =>
      let '(o, s) := connect ok pc s in
      match o with
      | Goes pc => Some (set_calling (Login pc) s, [])
      | Returns => Some (set_calling Idle s, [])
      | Throws => Some (set_calling Idle s, [LogLine "[ws] connect failed"])
      end
  | Sending message =>
      match ws_ s with
      | None => Some (set_program NullDereference s, [])
      | Some target => Some (set_calling Idle s, if ok then [Wrote target message] else [LogLine "[ws] send error"])
      end
  | Closing => Some (set_calling JoiningRead s, match ws_ s with Some _ => [Closed] | None => [] end)
  | JoiningRead =>
      if joined (read_thread_ s) s then Some (set_calling Resetting (set_read_thread None s), []) else None
  | Resetting => Some (set_calling JoiningReconnect (set_ws None s), [])
  | JoiningReconnect =>                            (* and the members are destroyed *)
      if joined (reconnect_thread_ s) s then
        let s := set_calling Destroyed (set_reconnect_thread None s) in
        Some (match read_thread_ s with Some _ => set_program Terminated s | None => s end, [])
      else None
  end.

Inductive label :=
  | CallConnect (token : string)
  | CallSend (message : string)
  | CallDisconnect
  | CallGoesOn (ok : bool)
  | ThreadGoesOn (id : nat) (ok : bool).

Definition step (l : label) (s : Client) : option (Client * list WsClientEvent) :=
  match program s, l, calling s with
  | Running, CallConnect token, Idle => Some (set_calling (Login Resolving) (set_token token s), [])
  | Running, CallSend message, Idle =>
      if connected_ s then Some (set_calling (Sending message) s, [])
      else Some (s, [LogLine "[ws] send failed: not connected"])
  | Running, CallDisconnect, Idle =>
      Some (set_calling Closing (set_connected false (set_stop true s)), [])
  | Running, CallGoesOn ok, _ => call ok s
  | Running, ThreadGoesOn id ok, _ =>
      match threads s !! id with
      | Some (TRead pc) => readLoop id ok pc s
      | Some (TReconnect pc) => reconnectLoop id ok pc s
      | Some TDone | None => None
      end
  | _, _, _ => None
  end.

Fixpoint run (ls : list label) (s : Client) : option (Client * list WsClientEvent) :=
  match ls with
  | [] => Some (s, [])
  | l :: ls =>
      '(s, e) ← step l s;
      '(s, e') ← run ls s;
      Some (s, e ++ e')
  end.
End WsClient.

(** ** Lemmas *)

Module WsClientFacts.
Import WsClient.

(** The caller logs in when there is no connection and none is being tried, does
    not disconnect, and no thread moves in the middle of a [send]. *)
Definition careful (l : label) (s : Client) : bool :=
  match l, calling s with
  | CallDisconnect, _ => false
  | CallConnect _, _ => bool_decide (read_thread_ s = None) && joined (reconnect_thread_ s) s
  | ThreadGoesOn _ _, Sending _ => false
  | _, _ => true
  end.
Fixpoint careful_run (ls : list label) (s : Client) : bool :=
  match ls with
  | [] => true
  | l :: ls => careful l s && match step l s with Some (s', _) => careful_run ls s' | None => true end
  end.

(** The stream that is open, or being opened, was opened with the last token. *)
Definition opened (s : Client) : Prop := ws_ s = Some (ws_target (last_token_ s)).

Definition connect_ok (pc : connect_pc) (s : Client) : Prop :=
  connected_ s = bool_decide (pc = Starting) ∧ (pc = Resolving ∨ opened s).

Definition others_done (me : option nat) (m : gmap nat thread) : Prop :=
  ∀ id t, m !! id = Some t → me ≠ Some id → t = TDone.
Definition ids_below (n : nat) (m : gmap nat thread) : Prop := ∀ id t, m !! id = Some t → (id < n)%nat.

Definition reading_ok (pc : read_pc) (s : Client) : Prop :=
  match pc with
  | LoopTop | Reading => connected_ s = true ∧ opened s
  | Dropped | JoinReconnect => connected_ s = false
  | StartReconnect => connected_ s = false ∧ reconnect_thread_ s = None
  end.

Definition reconnecting_ok (pc : reconnect_pc) (s : Client) : Prop :=
  match pc with
  | Attempt attempt _ => connected_ s = false ∧ (attempt = 1 ∨ read_thread_ s = None)
  | Sleeping _ _ _ | JoinRead _ _ => connected_ s = false
  | ResetWs _ _ => connected_ s = false ∧ read_thread_ s = None
  | Connecting _ _ pc => connect_ok pc s ∧ read_thread_ s = None
  end.

Definition pc_ok (pc : reconnect_pc) : Prop :=
  match pc with
  | Attempt a d => a ≤ kMaxRetries + 1 ∧ d ≤ kMaxDelayMs
  | Sleeping a d e => a ≤ kMaxRetries ∧ d ≤ kMaxDelayMs ∧ 0 ≤ e
  | JoinRead a d | ResetWs a d | Connecting a d _ => a ≤ kMaxRetries ∧ d ≤ kMaxDelayMs
  end.

(** At most one thread runs beside the caller. *)
Inductive phase (s : Client) : Prop :=
  | Offline : others_done None (threads s) → read_thread_ s = None →
      match calling s with
      | Idle => connected_ s = false
      | Login pc => connect_ok pc s
      | _ => False
      end → phase s
  | Online r pc : threads s !! r = Some (TRead pc) → others_done (Some r) (threads s) → read_thread_ s = Some r →
      reading_ok pc s →
      match calling s with Idle => True | Sending _ => connected_ s = true | _ => False end → phase s
  | Reconnecting c pc : threads s !! c = Some (TReconnect pc) → others_done (Some c) (threads s) →
      reconnect_thread_ s = Some c → pc_ok pc → reconnecting_ok pc s →
      match calling s with Idle => True | Sending _ => connected_ s = true | _ => False end → phase s.

(** The thread objects stand for different threads that were started. *)
Definition objects_ok (rt ct : option nat) (m : gmap nat thread) : Prop :=
  (∀ id, rt = Some id ∨ ct = Some id → is_Some (m !! id)) ∧ ∀ id, rt = Some id → ct ≠ Some id.

Record inv (s : Client) : Prop := {
  inv_running : program s = Running;
  inv_stop : stop_ s = false;
  inv_ids : ids_below (next_id s) (threads s);
  inv_objects : objects_ok (read_thread_ s) (reconnect_thread_ s) (threads s);
  inv_phase : phase s;
}.

Lemma others_insert id t m : others_done (Some id) m → others_done (Some id) (<[id := t]> m).
Proof.
  intros Ho id' t' E Hne. rewrite lookup_insert_ne in E by congruence. by apply (Ho id').
Qed.

Lemma others_finished id m : others_done (Some id) m → others_done None (<[id := TDone]> m).
Proof.
  intros Ho id' t' E _. destruct (decide (id = id')) as [<-|Hne].
  - rewrite lookup_insert_eq in E. congruence.
  - rewrite lookup_insert_ne in E by done. apply (Ho id'); congruence.
Qed.

Lemma others_new id t m : others_done None m → others_done (Some id) (<[id := t]> m).
Proof.
  intros Ho id' t' E Hne. rewrite lookup_insert_ne in E by congruence. by apply (Ho id').
Qed.

Lemma ids_insert id t n m : ids_below n m → (id < n)%nat → ids_below n (<[id := t]> m).
Proof.
  intros Hi Hn i u E. destruct (decide (id = i)) as [<-|Hne]; [done|].
  rewrite lookup_insert_ne in E by done. by eapply Hi.
Qed.

Lemma ids_new t n m : ids_below n m → ids_below (S n) (<[n := t]> m).
Proof. intros Hi. apply ids_insert; [|lia]. intros i u E. pose proof (Hi i u E). lia. Qed.

Lemma objects_insert rt ct id t m : objects_ok rt ct m → objects_ok rt ct (<[id := t]> m).
Proof.
  intros [Hs Hd]. split; [|done]. intros i Hi. apply lookup_insert_is_Some'. right. by apply Hs.
Qed.
Lemma objects_no_read rt ct m : objects_ok rt ct m → objects_ok None ct m.
Proof. intros [Hs Hd]. split; [|done]. intros i [?|?]; [done|]. apply Hs. by right. Qed.
Lemma objects_no_reconnect rt ct m : objects_ok rt ct m → objects_ok rt None m.
Proof. intros [Hs Hd]. split; [|done]. intros i [?|?]; [|done]. apply Hs. by left. Qed.
Lemma objects_new_read ct n t m : ids_below n m → objects_ok None ct m → objects_ok (Some n) ct (<[n := t]> m).
Proof.
  intros Hn [Hs Hd]. split.
  - intros i [[= <-]|Hi]; apply lookup_insert_is_Some'; [by left|]. right. apply Hs. by right.
  - intros i [= <-] Hc. destruct (Hs n (or_intror Hc)) as [t' E]. pose proof (Hn _ _ E). lia.
Qed.
Lemma objects_new_reconnect rt n t m : ids_below n m → objects_ok rt None m → objects_ok rt (Some n) (<[n := t]> m).
Proof.
  intros Hn [Hs Hd]. split.
  - intros i [Hi|[= <-]]; apply lookup_insert_is_Some'; [|by left]. right. apply Hs. by left.
  - intros i Hi [= <-]. destruct (Hs n (or_introl Hi)) as [t' E]. pose proof (Hn _ _ E). lia.
Qed.
#[local] Hint Resolve objects_insert objects_no_read objects_no_reconnect objects_new_read objects_new_reconnect
  ids_insert ids_new : core.

(** The thread that runs is the one of the phase. *)
Lemma running_is me m id t : others_done me m → m !! id = Some t → t ≠ TDone → me = Some id.
Proof. intros Ho E Hne. destruct (decide (me = Some id)) as [?|Hme]; [done|]. by destruct (Hne (Ho id t E Hme)). Qed.

(** *** The steps of [connect] *)
Lemma connect_goes ok pc s pc' s' : connect ok pc s = (Goes pc', s') → connect_ok pc s →
  connect_ok pc' s' ∧ threads s' = threads s ∧ next_id s' = next_id s ∧ read_thread_ s' = read_thread_ s ∧
  reconnect_thread_ s' = reconnect_thread_ s ∧ calling s' = calling s ∧ program s' = program s ∧ stop_ s' = stop_ s ∧
  last_token_ s' = last_token_ s.
Proof.
  intros E [Hc Ho]. destruct pc; cbn in E; repeat case_match; simplify_eq; cbn; split_and!; try done.
  - split; [done|]. right. done.
  - split; [done|]. right. by destruct Ho as [?|?].
  - split; [done|]. right. by destruct Ho as [?|?].
Qed.

Lemma connect_throws ok pc s s' : connect ok pc s = (Throws, s') → connect_ok pc s → s' = s ∧ connected_ s = false.
Proof. intros E [Hc Ho]. destruct pc; cbn in E; repeat case_match; simplify_eq; cbn; by split. Qed.

Lemma connect_returns ok pc s s' : connect ok pc s = (Returns, s') → connect_ok pc s → read_thread_ s = None →
  s' = set_read_thread (Some (next_id s)) (spawn (TRead LoopTop) s).2 ∧ connected_ s = true ∧ opened s.
Proof.
  intros E [Hc Ho] Hr. destruct pc; cbn in E; repeat case_match; simplify_eq; cbn.
  split_and!; [done|done|]. by destruct Ho.
Qed.
(** *** What the steps keep *)

Lemma read_inv id ok pc s s' e : inv s → threads s !! id = Some (TRead pc) → (∀ m, calling s ≠ Sending m) →
  readLoop id ok pc s = Some (s', e) → inv s'.
Proof.
  intros [Hp Hst Hi Hob Hph] Eid Hns E. pose proof (Hi _ _ Eid) as Hlt.
  destruct Hph as [Ho _ _|r pc' Er Ho Hr Hok Hcall|c pc' Ec Ho Hr Hpc Hok Hcall].
  { by pose proof (running_is _ _ _ _ Ho Eid ltac:(done)). }
  2:{ pose proof (running_is _ _ _ _ Ho Eid ltac:(done)). simplify_eq. }
  pose proof (running_is _ _ _ _ Ho Eid ltac:(done)) as [= <-]. rewrite Eid in Er. injection Er as <-.
  assert (Hidle : calling s = Idle) by (destruct (calling s) eqn:Ec; try done; by destruct (Hns message)).
  assert (Hon : ∀ pc s', threads s' = <[r := TRead pc]> (threads s) → next_id s' = next_id s → read_thread_ s' = Some r →
    calling s' = Idle → program s' = Running → stop_ s' = false →
    (reconnect_thread_ s' = reconnect_thread_ s ∨ reconnect_thread_ s' = None) → reading_ok pc s' → inv s').
  { intros pc' s0 Et En Er Ec Ep Es Hrc Hok'. split; rewrite ?Et, ?En; [done|done|by apply ids_insert| |].
    { rewrite Er, <-Hr. by destruct Hrc as [->| ->]; eauto. }
    apply (Online _ r pc'); rewrite ?Et, ?Ec; [by rewrite lookup_insert_eq|by apply others_insert|done..]. }
  destruct pc; cbn in E, Hok; rewrite ?Hst in E.
  - destruct Hok as [Hc Ho']. rewrite Ho' in E. simplify_eq. by apply (Hon Reading); [..|left|split].
  - destruct Hok as [Hc Ho']. destruct ok; simplify_eq; [by apply (Hon LoopTop); [..|left|split]|by apply (Hon Dropped); [..|left|]].
  - simplify_eq. by apply (Hon JoinReconnect); [..|left|].
  - destruct (joined _ _); simplify_eq. by apply (Hon StartReconnect); [..|right|split].
  - destruct Hok as [Hc Hn]. rewrite Hn in E. simplify_eq. split; cbn; [done|done| | |].
    + apply ids_insert; [by apply ids_new|lia].
    + rewrite Hn in Hob. eauto.
    + apply (Reconnecting _ (next_id s) (Attempt 1 kBaseDelayMs)); cbn; rewrite ?Hidle; try done.
      * rewrite lookup_insert_ne by lia. by rewrite lookup_insert_eq.
      * rewrite insert_insert_ne by lia. by apply others_new, others_finished.
      * split; [done|by left].
Qed.

Lemma reconnect_inv id ok pc s s' e : inv s → threads s !! id = Some (TReconnect pc) → (∀ m, calling s ≠ Sending m) →
  reconnectLoop id ok pc s = Some (s', e) → inv s'.
Proof.
  intros [Hp Hst Hi Hob Hph] Eid Hns E. pose proof (Hi _ _ Eid) as Hlt.
  destruct Hph as [Ho _ _|r pc' Er Ho Hr Hok Hcall|c pc' Ec Ho Hr Hpc Hok Hcall].
  { by pose proof (running_is _ _ _ _ Ho Eid ltac:(done)). }
  { pose proof (running_is _ _ _ _ Ho Eid ltac:(done)). simplify_eq. }
  pose proof (running_is _ _ _ _ Ho Eid ltac:(done)) as [= <-]. rewrite Eid in Ec. injection Ec as <-.
  assert (Hidle : calling s = Idle) by (destruct (calling s) eqn:Ec; try done; by destruct (Hns message)).
  assert (Hon : ∀ pc s', pc_ok pc → threads s' = <[c := TReconnect pc]> (threads s) → next_id s' = next_id s →
    reconnect_thread_ s' = Some c → calling s' = Idle → program s' = Running → stop_ s' = false →
    (read_thread_ s' = read_thread_ s ∨ read_thread_ s' = None) → reconnecting_ok pc s' → inv s').
  { intros pc' s0 Hpc' Et En Er Ec Ep Es Hrd Hok'. split; rewrite ?Et, ?En; [done|done|by apply ids_insert| |].
    { rewrite Er, <-Hr. by destruct Hrd as [->| ->]; eauto. }
    apply (Reconnecting _ c pc'); rewrite ?Et, ?Ec; [by rewrite lookup_insert_eq|by apply others_insert|done..]. }
  destruct pc as [a d|a d el|a d|a d|a d pc]; cbn in E, Hok, Hpc; rewrite ?Hst in E.
  - destruct Hok as [Hc Hn]. destruct (_ && _) eqn:Eb; simplify_eq.
    { apply andb_true_iff in Eb as [Ha%Z.leb_le _]. eapply Hon; try done; [cbn; lia|by left]. }
    destruct Hn as [->|Hn]; [done|]. split; cbn; [done|done|by apply ids_insert|by eauto|].
    apply Offline; cbn; [by apply others_finished|done|by rewrite Hidle].
  - case_match; simplify_eq; eapply Hon; try done; try (by left); cbn; lia.
  - destruct (joined _ _); simplify_eq. by apply (Hon (ResetWs a d)); [..|right|].
  - simplify_eq. destruct Hok. apply (Hon (Connecting a d Resolving)); try done; [by left|]. split; [split; [done|by left]|done].
  - destruct Hok as [Hc Hn]. destruct (connect ok pc s) as [[pc'| |] s1] eqn:Econ; simplify_eq.
    + destruct (connect_goes _ _ _ _ _ Econ Hc) as (Hc'&Et&En&Er&Erc&Ec&Ep&Es&_).
      eapply (Hon (Connecting a d pc')); cbn; try congruence; try (by left). split; [exact Hc'|cbn; congruence].
    + destruct (connect_returns _ _ _ _ Econ Hc Hn) as (->&Hcon&Hop). split; cbn; [done|done| | |].
      * apply ids_insert; [by apply ids_new|lia].
      * rewrite Hn in Hob. eauto.
      * apply (Online _ (next_id s) LoopTop); cbn; rewrite ?Hidle; try done.
        -- rewrite lookup_insert_ne by lia. by rewrite lookup_insert_eq.
        -- rewrite insert_insert_ne by lia. by apply others_new, others_finished.
    + destruct (connect_throws _ _ _ _ Econ Hc) as [-> Hcon].
      apply (Hon (Attempt (a + 1) (Z.min (d * 2) kMaxDelayMs))); try done; [cbn; lia|by left|]. split; [done|by right].
Qed.
Lemma call_inv ok s s' e : inv s → call ok s = Some (s', e) → inv s'.
Proof.
  intros [Hp Hst Hi Hob Hph] E. unfold call in E. destruct (calling s) as [|pc|m| | | | |] eqn:Hc; try done;
    try (by destruct Hph as [?? Hx|?????? Hx|??????? Hx]; rewrite Hc in Hx).
  - assert (Hoff : others_done None (threads s) ∧ read_thread_ s = None ∧ connect_ok pc s)
      by (destruct Hph as [?? Hx|?????? Hx|??????? Hx]; rewrite Hc in Hx; try done; by split_and!).
    destruct Hoff as (Ho&Hr&Hok). destruct (connect ok pc s) as [[pc'| |] s1] eqn:Econ; simplify_eq.
    + destruct (connect_goes _ _ _ _ _ Econ Hok) as (Hok'&Et&En&Er&Erc&Ec&Ep&Es&_).
      split; cbn; try congruence; [by rewrite Et, En|].
      apply Offline; cbn; [by rewrite Et|congruence|exact Hok'].
    + destruct (connect_returns _ _ _ _ Econ Hok Hr) as (->&Hcon&Hop). split; cbn; [done|done|by eauto| |].
      * rewrite Hr in Hob. eauto.
      * apply (Online _ (next_id s) LoopTop); cbn; [by rewrite lookup_insert_eq|by apply others_new|done..].
    + destruct (connect_throws _ _ _ _ Econ Hok) as [-> Hcon]. split; cbn; try done. by apply Offline.
  - assert (Hcon : connected_ s = true)
      by (destruct Hph as [?? Hx|?????? Hx|??????? Hx]; rewrite Hc in Hx; done).
    assert (Hw : ∃ t, ws_ s = Some t).
    { destruct Hph as [?? Hx|?[]??? Hk|?[]???? Hk]; try (by rewrite Hc in Hx); cbn in Hk;
        unfold opened, connect_ok in Hk; try (by eexists; apply Hk); try (destruct Hk; congruence); try congruence.
      destruct Hk as [[Hk [->|Ho]] _]; [by rewrite Hk in Hcon|by eexists]. }
    destruct Hw as [t Hw]. rewrite Hw in E. simplify_eq. split; cbn; [done..|].
    destruct Hph as [?? Hx|r pc' ????|c pc' ?????]; [by rewrite Hc in Hx|by eapply (Online _ r)|by eapply (Reconnecting _ c)].
Qed.

Lemma step_inv l s s' e : inv s → careful l s = true → step l s = Some (s', e) → inv s'.
Proof.
  intros Hinv Hcare E. pose proof Hinv as [Hp Hst Hi Hob Hph]. unfold step in E. rewrite Hp in E.
  destruct l as [token|m| |ok|id ok].
  - destruct (calling s) eqn:Hc; try done. simplify_eq. unfold careful in Hcare.
    apply andb_true_iff in Hcare as [Hr%bool_decide_eq_true Hj]. unfold joined in Hj.
    split; cbn; [done..|]. destruct Hph as [Ho _ Hx|r pc E1 Ho Hr0|c pc E1 Ho Hrc]; [|congruence|].
    + rewrite Hc in Hx. apply Offline; cbn; try done. split; [done|by left].
    + by rewrite Hrc, E1 in Hj.
  - destruct (calling s) eqn:Hc; try done. destruct (connected_ s) eqn:Hcon; simplify_eq; [|done].
    split; cbn; [done..|]. destruct Hph as [?? Hx|r pc' ????|c pc' ?????];
      [by rewrite Hc, Hcon in Hx|by eapply (Online _ r)|by eapply (Reconnecting _ c)].
  - done.
  - by eapply call_inv.
  - assert (Hns : ∀ m, calling s ≠ Sending m) by (intros m Hm; unfold careful in Hcare; by rewrite Hm in Hcare).
    assert (E' : match threads s !! id with Some (TRead pc) => readLoop id ok pc s
        | Some (TReconnect pc) => reconnectLoop id ok pc s | _ => None end = Some (s', e))
      by (destruct (calling s), (threads s !! id) as [[]|]; done).
    destruct (threads s !! id) as [[pc|pc|]|] eqn:Et; try done; [by eapply read_inv|by eapply reconnect_inv].
Qed.

Lemma run_inv ls : ∀ s s' e, inv s → careful_run ls s = true → run ls s = Some (s', e) → inv s'.
Proof.
  induction ls as [|l ls IH]; intros s s' e Hs Hc E; cbn in Hc, E; [by simplify_eq|].
  apply andb_true_iff in Hc as [Hl Hc]. destruct (step l s) as [[s1 e1]|] eqn:Es; [|done]. cbn in E.
  destruct (run ls s1) as [[s2 e2]|] eqn:Er; [|done]. cbn in E. simplify_eq. eapply IH; [|done..]. by eapply step_inv.
Qed.

Lemma new_inv : inv new_client.
Proof.
  split; try done; [by split; [intros ? [|]|]|]. by apply Offline.
Qed.

(** A thread that is not done is never blocked. *)
Lemma never_blocked s id t ok : inv s → threads s !! id = Some t → t ≠ TDone → step (ThreadGoesOn id ok) s ≠ None.
Proof.
  intros [Hp Hst Hi Hob Hph] Et Hne. destruct t as [pc|pc|]; [| |done].
  - assert (E : step (ThreadGoesOn id ok) s = readLoop id ok pc s)
      by (unfold step; rewrite Hp, Et; by destruct (calling s)).
    rewrite E. destruct pc; cbn; repeat case_match; try done. unfold joined in *.
    destruct (reconnect_thread_ s) as [c|] eqn:Hrc; [|done]. destruct (proj1 Hob c (or_intror eq_refl)) as [t Ec].
    rewrite Ec in *. destruct Hph as [Ho|r pc Er Ho Hr|r pc Er Ho Hr].
    + by rewrite (Ho _ _ Ec) in *.
    + rewrite (Ho c t Ec) in *; [done|]. intros [= ->]. by apply (proj2 Hob c).
    + pose proof (running_is _ _ _ _ Ho Et ltac:(done)). simplify_eq.
  - assert (E : step (ThreadGoesOn id ok) s = reconnectLoop id ok pc s)
      by (unfold step; rewrite Hp, Et; by destruct (calling s)).
    rewrite E. destruct pc; cbn; repeat case_match; try done. unfold joined in *.
    destruct (read_thread_ s) as [c|] eqn:Hrc; [|done]. destruct (proj1 Hob c (or_introl eq_refl)) as [t Ec].
    rewrite Ec in *. destruct Hph as [Ho|r pc Er Ho Hr|r pc Er Ho Hr].
    + by rewrite (Ho _ _ Ec) in *.
    + pose proof (running_is _ _ _ _ Ho Et ltac:(done)). simplify_eq.
    + rewrite (Ho c t Ec) in *; [done|]. intros [= ->]. by apply (proj2 Hob c).
Qed.
(** *** The work that a reconnecting thread has left *)

(** The rounds of the sleeping loop, and one for its end. *)
Definition naps (ms : Z) : nat := Z.to_nat ((ms + 99) / 100).
Definition tries (attempt : Z) : nat := Z.to_nat (kMaxRetries - attempt).
Definition work (pc : reconnect_pc) : nat :=
  match pc with
  | Attempt a _ => Z.to_nat (kMaxRetries + 1 - a) * 320 + 1
  | Sleeping a d e => tries a * 320 + 10 + naps (d - e)
  | JoinRead a _ => tries a * 320 + 9
  | ResetWs a _ => tries a * 320 + 8
  | Connecting a _ Resolving => tries a * 320 + 7
  | Connecting a _ Upgrading => tries a * 320 + 6
  | Connecting a _ Flagging => tries a * 320 + 5
  | Connecting a _ Starting => tries a * 320 + 4
  end.

Lemma reconnect_work id ok pc s s' e : pc_ok pc → threads s !! id = Some (TReconnect pc) → (id < next_id s)%nat →
  reconnectLoop id ok pc s = Some (s', e) →
  (threads s' !! id = Some TDone ∨
   ∃ pc', threads s' !! id = Some (TReconnect pc') ∧ pc_ok pc' ∧ (work pc' < work pc)%nat) ∧ (id < next_id s')%nat.
Proof.
  intros Hpc Eid Hid E. destruct pc as [a d|a d el|a d|a d|a d pc]; cbn [pc_ok] in Hpc; cbn in E.
  - destruct (Z.leb_spec a kMaxRetries); cbn in E; [destruct (stop_ s); cbn in E|]; simplify_eq; cbn;
      rewrite lookup_insert_eq; (split; [|done]); [by left| |by left]. right. eexists. split; [done|].
    unfold pc_ok, work, tries, naps, kMaxRetries, kMaxDelayMs in *. split; [lia|].
    assert ((d - 0 + 99) / 100 < 301) by (apply Z.div_lt_upper_bound; lia). lia.
  - destruct (Z.ltb_spec el d), (stop_ s); cbn in E; simplify_eq; cbn; rewrite lookup_insert_eq; (split; [|done]);
      try (by left); right; eexists; (split; [done|]);
      unfold pc_ok, work, tries, naps, kMaxRetries, kMaxDelayMs in *; (split; [lia|]); [|lia].
    replace ((d - el + 99) / 100) with (1 + (d - (el + 100) + 99) / 100); [|].
    { assert (0 ≤ (d - (el + 100) + 99) / 100) by (apply Z.div_pos; lia). lia. }
    rewrite <-(Z.div_add_l 1 100) by lia. f_equal. lia.
  - destruct (joined _ _); simplify_eq. cbn. rewrite lookup_insert_eq. split; [|done]. right. eexists.
    split; [done|]. split; [done|]. cbn. lia.
  - simplify_eq. cbn. rewrite lookup_insert_eq. split; [|done]. right. eexists.
    split; [done|]. split; [done|]. cbn. lia.
  - destruct (connect ok pc s) as [[pc'| |] s1] eqn:Econ; simplify_eq; cbn; rewrite lookup_insert_eq.
    + assert (next_id s1 = next_id s ∧ (work (Connecting a d pc') < work (Connecting a d pc))%nat) as [-> Hw]
        by (destruct pc; cbn in Econ; repeat case_match; simplify_eq; cbn; split; (done || lia)).
      split; [|done]. right. by eexists.
    + assert (next_id s ≤ next_id s1)%nat by (destruct pc; cbn in Econ; repeat case_match; simplify_eq; cbn; lia).
      split; [by left|lia].
    + assert (s1 = s) as -> by (destruct pc; cbn in Econ; repeat case_match; by simplify_eq).
      split; [|done]. right. eexists. split; [done|]. destruct Hpc. split; [split; lia|].
      unfold work, tries. destruct pc; lia.
Qed.

(** The other threads and the caller leave it alone. *)
Lemma others_leave l s s' e id t : step l s = Some (s', e) → threads s !! id = Some t →
  (id < next_id s)%nat → (∀ ok, l ≠ ThreadGoesOn id ok) →
  threads s' !! id = Some t ∧ (id < next_id s')%nat.
Proof.
  intros E Eid Hid Hl.
  assert (Hconnect : ∀ ok pc0 o s1, connect ok pc0 s = (o, s1) → threads s1 !! id = Some t ∧ (id < next_id s1)%nat).
  { intros ok pc0 o s1 Ec. destruct pc0; cbn in Ec; repeat case_match; simplify_eq; cbn; try done.
    rewrite lookup_insert_ne by lia. split; [done|lia]. }
  unfold step in E. destruct (program s); [|done..]. destruct l as [token|m| |ok|id' ok].
  - destruct (calling s); by simplify_eq.
  - destruct (calling s); repeat case_match; by simplify_eq.
  - destruct (calling s); by simplify_eq.
  - unfold call in E. destruct (calling s); try done; try (repeat case_match; by simplify_eq).
    destruct (connect ok _ s) as [[]] eqn:Ec; simplify_eq; by eapply Hconnect in Ec.
  - assert (id' ≠ id) as Hne by (intros ->; by apply (Hl ok)).
    assert (E' : match threads s !! id' with Some (TRead pc) => readLoop id' ok pc s
        | Some (TReconnect pc) => reconnectLoop id' ok pc s | _ => None end = Some (s', e))
      by (destruct (calling s), (threads s !! id') as [[]|]; done).
    destruct (threads s !! id') as [[pc0|pc0|]|] eqn:Et; try done.
    + destruct pc0; cbn in E'; repeat case_match; simplify_eq; cbn; rewrite ?lookup_insert_ne by lia; split; (done || lia).
    + destruct pc0; cbn in E'; try (repeat case_match; simplify_eq; cbn; by rewrite lookup_insert_ne).
      destruct (connect ok _ s) as [[]] eqn:Ec; simplify_eq; eapply Hconnect in Ec; cbn; by rewrite lookup_insert_ne.
Qed.

(** How often a thread goes on. *)
Fixpoint goes_on (id : nat) (ls : list label) : nat :=
  match ls with
  | [] => 0
  | ThreadGoesOn i _ :: ls => (if bool_decide (i = id) then 1 else 0) + goes_on id ls
  | _ :: ls => goes_on id ls
  end.
Lemma goes_on_other id l ls : (∀ ok, l ≠ ThreadGoesOn id ok) → goes_on id (l :: ls) = goes_on id ls.
Proof.
  intros Hl. destruct l as [| | | |i ok]; try done. cbn. rewrite bool_decide_false; [done|].
  intros ->. by apply (Hl ok).
Qed.

Lemma goes_on_done ls : ∀ s s' e id, threads s !! id = Some TDone → (id < next_id s)%nat →
  run ls s = Some (s', e) → goes_on id ls = 0%nat.
Proof.
  induction ls as [|l ls IH]; intros s s' e id Et Hid E; [done|]. cbn [run] in E.
  destruct (step l s) as [[s1 e1]|] eqn:Es; [|done]. cbn in E.
  destruct (run ls s1) as [[s2 e2]|] eqn:Er; [|done].
  assert (Hl : ∀ ok, l ≠ ThreadGoesOn id ok)
    by (intros ok ->; unfold step in Es; rewrite Et in Es; by destruct (program s), (calling s)).
  destruct (others_leave l s s1 e1 id TDone Es Et Hid Hl) as [Et1 Hid1].
  rewrite goes_on_other by done. by eapply IH.
Qed.

Lemma step_reconnect id ok pc s : threads s !! id = Some (TReconnect pc) → program s = Running →
  step (ThreadGoesOn id ok) s = reconnectLoop id ok pc s.
Proof. intros Et Hp. unfold step. rewrite Hp, Et. by destruct (calling s). Qed.

Lemma step_running l s s' e : step l s = Some (s', e) → program s = Running.
Proof. unfold step. by destruct (program s). Qed.

Lemma goes_on_bound ls : ∀ s s' e id pc, pc_ok pc → threads s !! id = Some (TReconnect pc) → (id < next_id s)%nat →
  run ls s = Some (s', e) → (goes_on id ls ≤ work pc)%nat.
Proof.
  induction ls as [|l ls IH]; intros s s' e id pc Hpc Et Hid E; [cbn; lia|]. cbn [run] in E.
  destruct (step l s) as [[s1 e1]|] eqn:Es; [|done]. cbn in E.
  destruct (run ls s1) as [[s2 e2]|] eqn:Er; [|done].
  assert (Hcases : (∃ ok, l = ThreadGoesOn id ok) ∨ ∀ ok, l ≠ ThreadGoesOn id ok).
  { destruct l as [| | | |i ok]; try (by right). destruct (decide (i = id)) as [->|Hne]; [by left; eexists|].
    right. intros ok' [= ? _]. done. }
  destruct Hcases as [[ok ->]|Hl].
  - rewrite (step_reconnect id ok pc s Et (step_running _ _ _ _ Es)) in Es.
    destruct (reconnect_work _ _ _ _ _ _ Hpc Et Hid Es) as [[Hd|(pc'&Et'&Hpc'&Hw)] Hid'];
      cbn [goes_on]; rewrite bool_decide_true by done.
    + rewrite (goes_on_done ls _ _ _ id Hd Hid' Er).
      destruct pc as [| | | |?? []]; cbn [work]; lia.
    + pose proof (IH _ _ _ _ _ Hpc' Et' Hid' Er). lia.
  - destruct (others_leave l s s1 e1 id _ Es Et Hid Hl) as [Et1 Hid1].
    rewrite goes_on_other by done. by eapply IH.
Qed.
End WsClientFacts.

(** ** Properties *)

Section properties.
Import WsClient WsClientFacts.

(** C31: the threads of the client keep to their roles. Whatever the network does
    and however the threads interleave, as long as the caller logs in only when
    there is no connection and none is being tried, no thread moves in the middle
    of a [send], and the client is not destroyed: the program is not terminated,
    at most one thread reads or reconnects, it is never blocked, and while the
    client says it is connected its stream is the one opened with the last
    token. *)
Theorem ws_client_threads ls s e :
  careful_run ls new_client = true → run ls new_client = Some (s, e) →
  program s = Running ∧
  (connected_ s = true → ws_ s = Some (ws_target (last_token_ s))) ∧
  (∀ i j t u, threads s !! i = Some t → threads s !! j = Some u → t ≠ TDone → u ≠ TDone → i = j) ∧
  (∀ i t ok, threads s !! i = Some t → t ≠ TDone → step (ThreadGoesOn i ok) s ≠ None).
Proof.
  intros Hc E. pose proof (run_inv ls _ _ _ new_inv Hc E) as Hinv. split; [apply Hinv|].
  split_and!; [|destruct (inv_phase s Hinv) as [Ho|r pc Er Ho|c pc Ec Ho]|intros; by eapply never_blocked].
  - intros Hcon. destruct (inv_phase s Hinv) as [Ho Hr Hcall|r [] Er Ho Hr Hok|c [] Ec Ho Hr _ Hok]; try cbn in Hok;
      unfold connect_ok, opened in *; try (by apply Hok); try (destruct Hok; congruence); try congruence.
    + destruct (calling s); try done; [congruence|]. destruct Hcall as [Hk [->|?]]; [by rewrite Hk in Hcon|done].
    + destruct Hok as [[Hk [->|?]] _]; [by rewrite Hk in Hcon|done].
  - intros i j t u Hi Hj Ht. by destruct (Ht (Ho i t Hi ltac:(done))).
  - intros i j t u Hi Hj Ht Hu. pose proof (running_is _ _ _ _ Ho Hi Ht). pose proof (running_is _ _ _ _ Ho Hj Hu). congruence.
  - intros i j t u Hi Hj Ht Hu. pose proof (running_is _ _ _ _ Ho Hi Ht). pose proof (running_is _ _ _ _ Ho Hj Hu). congruence.
Qed.

(** C32: a thread that reconnects comes to an end: it goes on at most [work] times,
    whatever the network does and whoever moves in between, which is 3201 for a
    new one, and it is never blocked before. *)
Theorem reconnecting_ends ls s e id pc :
  careful_run ls new_client = true → run ls new_client = Some (s, e) → threads s !! id = Some (TReconnect pc) →
  (∀ ls' s' e', run ls' s = Some (s', e') → (goes_on id ls' ≤ work pc)%nat) ∧
  (∀ ls' s' e' t ok, careful_run ls' s = true → run ls' s = Some (s', e') → threads s' !! id = Some t → t ≠ TDone →
     step (ThreadGoesOn id ok) s' ≠ None) ∧
  work (Attempt 1 kBaseDelayMs) = 3201%nat.
Proof.
  intros Hc E Et. pose proof (run_inv ls _ _ _ new_inv Hc E) as Hinv. split_and!; [| |done].
  - intros ls' s' e' E'. eapply goes_on_bound; [|exact Et|by eapply (inv_ids s Hinv)|exact E'].
    destruct (inv_phase s Hinv) as [Ho|r pc' Er Ho|c pc' Ec Ho _ Hpc].
    + by pose proof (running_is _ _ _ _ Ho Et ltac:(done)).
    + pose proof (running_is _ _ _ _ Ho Et ltac:(done)). simplify_eq.
    + pose proof (running_is _ _ _ _ Ho Et ltac:(done)). by simplify_eq.
  - intros ls' s' e' t ok Hc' E' Ht Hne. eapply never_blocked; [|done..]. by eapply run_inv.
Qed.

(** Why the caller has to be careful: a second login while connected, and leaving
    the program during an attempt that succeeds, end the program; a message sent
    while the connection is given up dereferences no stream. *)
Lemma ws_client_hazards :
  let connects := replicate 4%nat (CallGoesOn true) in
  let reconnects n := replicate n (ThreadGoesOn 1 true) in
  let lost := [ThreadGoesOn 0 true; ThreadGoesOn 0 false; ThreadGoesOn 0 true; ThreadGoesOn 0 true; ThreadGoesOn 0 true] in
  let ends ls := (λ o : Client * list WsClientEvent, program o.1) <$> run ls new_client in
  ends (CallConnect "t" :: connects ++ CallConnect "t" :: connects) = Some Terminated ∧
  ends (CallConnect "t" :: connects ++ lost ++ reconnects 10%nat ++
        [CallDisconnect; CallGoesOn true; CallGoesOn true; CallGoesOn true] ++ reconnects 3%nat ++ [CallGoesOn true]) =
    Some Terminated ∧
  ends (CallConnect "t" :: connects ++ [CallSend "hello"] ++ lost ++ reconnects 9%nat ++ [CallGoesOn true]) = Some NullDereference.
Proof. split_and!; by vm_compute. Qed.
End properties.

(** ** An outage

    The client logs in, loses the connection, and the network stays away: ten
    attempts, after 0.5, 1, 2, 4, 8, 16 and four times 30 seconds. *)
Module outage.
Import WsClient WsClientFacts.

Definition login : list label := CallConnect "t" :: replicate 4%nat (CallGoesOn true).
Definition lost : list label :=
  [ThreadGoesOn 0 true; ThreadGoesOn 0 true; ThreadGoesOn 0 true; ThreadGoesOn 0 false; ThreadGoesOn 0 true;
   ThreadGoesOn 0 true; ThreadGoesOn 0 true].
Definition after : Client := match run (login ++ lost) new_client with Some (s, _) => s | None => new_client end.
Definition events : list WsClientEvent :=
  match run (login ++ lost) new_client with Some (_, e) => e | None => [] end.

Lemma after_eq : run (login ++ lost) new_client = Some (after, events).
Proof. by vm_compute. Qed.

Lemma ws_client_threads_witness : program after = Running ∧ events = [OnMessage; OnClose].
Proof.
  destruct (ws_client_threads (login ++ lost) after events) as [H _]; [by vm_compute|exact after_eq|].
  exact (conj H eq_refl).
Defined.

Definition outage_steps : nat := 1566.
Lemma reconnecting_ends_witness :
  (∃ s e, run (replicate outage_steps (ThreadGoesOn 1 false)) after = Some (s, e) ∧
     threads s !! 1%nat = Some TDone ∧ length e = 21%nat) ∧
  ∀ ls' s' e', run ls' after = Some (s', e') → (goes_on 1 ls' ≤ 3201)%nat.
Proof.
  destruct (reconnecting_ends (login ++ lost) after events 1 (Attempt 1 kBaseDelayMs)) as (H&_&E);
    [by vm_compute|exact after_eq|reflexivity|].
  split; [|rewrite E in H; exact H].
  eexists _, _. split; [vm_compute; reflexivity|]. split; reflexivity.
Defined.
End outage.
