(* ===== verification/WsSessions.v ===== *)
(** * The WebSocket sessions of the backend (WsSession and WsServer in src/backend/signaling/ws_server.cpp)

    Signaling has the session table and the router; here the sessions around
    them live: a [WsSession] waits for its handshake, then for one message after
    the other, each of which goes to the router with the name that was in the
    token, and tells the server when an operation fails.  A step is one completion
    handler, so sessions, users and the timer interleave.

    A message is written by an [async_write], which is in progress until its
    handler runs.  Boost.Beast does not allow a second one on the stream before
    that, and the sessions have no queue: a handler that starts one is
    [Undefined]. *)

From Stdlib Require Import Ascii.
From S2P Require Export SignalingSafety.

Module WsSession.

(** The outstanding operation; [Closed] is none, and no handler starts another. *)
Inductive waiting := Accepting | Reading | Closed.
#[export] Instance waiting_eq_dec : EqDecision waiting.
Proof. solve_decision. Defined.

Record WsSession := mkWsSession { userId_ : string; pending_ : waiting }.

(** [sessions]: every session that was made; those in the table are in [backend_].
    [writing]: the sessions with a write in progress. *)
Record SignalServer := mkSignalServer {
  backend_ : Backend;
  sessions : gmap nat WsSession;
  next_session : nat;
  writing : list nat;
}.

Inductive completion :=
  | Upgraded (now : Z) (target : string)       (* the HTTP server hands a stream over *)
  | Accepted (id : nat) (ec : bool)
  | Read (id : nat) (message : option string)  (* None is an error *)
  | WriteDone (id : nat) (ec : bool)
  | Expired.                                   (* the timer of main *)

Section server.
Context `{OpenSSL, Json, JwtCpp, !IterOrder string CallSession}.
Variable secret : string.
Variable cfg : TurnConfig.

Abbreviation M := (eff SignalServer WsEvent).

(** [do_send], for the messages that are sent one after the other. *)
Fixpoint start_writes (events : list WsEvent) (busy : list nat) : result (list nat) :=
  match events with
  | [] => mret busy
  | WsWrite id _ :: events => if bool_decide (id ∈ busy) then Err Undefined else start_writes events (id :: busy)
  | _ :: events => start_writes events busy
  end.

Definition on_backend {A} (m : B A) : M A := λ w,
  let '(r, b, ev) := m (backend_ w) in
  match start_writes ev (writing w) with
  | Ok busy => (r, mkSignalServer b (sessions w) (next_session w) busy, ev)
  | Err e => (Err e, mkSignalServer b (sessions w) (next_session w) (writing w), ev)
  end.
Definition put_session (id : nat) (s : WsSession) : M () := λ w,
  (Ok (), mkSignalServer (backend_ w) (<[id := s]> (sessions w)) (next_session w) (writing w), []).
Definition new_session (s : WsSession) : M () := λ w,
  (Ok (), mkSignalServer (backend_ w) (<[next_session w := s]> (sessions w)) (S (next_session w)) (writing w), []).
Definition put_writing (l : list nat) : M () := λ w,
  (Ok (), mkSignalServer (backend_ w) (sessions w) (next_session w) l, []).

(** [WsServer::accept]: the session that it makes and runs. *)
Definition accept (now : Z) (target : string) : M () :=
  w ← get;
  on_backend (WsServer.accept (Jwt.verify secret now) (next_session w) target);;
  let token := WsServer.extractToken target in
  if str_empty token then mret () else
  match Jwt.verify secret now token with
  | Ok payload => new_session (mkWsSession (JwtPayload_userId payload) Accepting)
  | Err _ => mret ()
  end.

(** [on_close_(userId_)]. *)
Definition on_close (s : WsSession) : M () := on_backend (WsServer.removeSession (userId_ s)).

(** The handlers of [run], [read] and [do_send]. *)
Definition on_accept (id : nat) (s : WsSession) (ec : bool) : M () :=
  if ec then put_session id (mkWsSession (userId_ s) Closed);; on_close s
  else put_session id (mkWsSession (userId_ s) Reading).

Definition on_read (env : RouterInputs) (id : nat) (s : WsSession) (message : option string) : M () :=
  match message with
  | None => put_session id (mkWsSession (userId_ s) Closed);; on_close s
  | Some msg =>
      on_backend (Router.handle (generateRtcConfig cfg) env (userId_ s) msg);;
      put_session id (mkWsSession (userId_ s) Reading)
  end.

Definition on_write (id : nat) (s : WsSession) (ec : bool) : M () :=
  w ← get;
  put_writing (one_less id (writing w));;
  if ec then on_close s else mret ().

Definition on_completion (env : RouterInputs) (c : completion) : M () :=
  w ← get;
  match c with
  | Upgraded now target => accept now target
  | Accepted id ec =>
      match sessions w !! id with
      | Some s => if decide (pending_ s = Accepting) then on_accept id s ec else mret ()
      | None => mret ()
      end
  | Read id message =>
      match sessions w !! id with
      | Some s => if decide (pending_ s = Reading) then on_read env id s message else mret ()
      | None => mret ()
      end
  | WriteDone id ec =>
      match sessions w !! id with
      | Some s => if bool_decide (id ∈ writing w) then on_write id s ec else mret ()
      | None => mret ()
      end
  | Expired => on_backend (Router.checkExpired env)
  end.

(** The states of the server, from its start. *)
Definition new_server (timeout : Z) : SignalServer := mkSignalServer (mkBackend (newCallManager timeout) ∅) ∅ 0 [].

Inductive serving : SignalServer → Prop :=
  | serving_start timeout : serving (new_server timeout)
  | serving_step w env c w' ev : serving w → inputs_ok env → on_completion env c w = (Ok (), w', ev) → serving w'.
End server.
End WsSession.

(** ** Lemmas *)

Module WsSessionFacts.
Import WsSession.

Definition live (s : WsSession) : Prop := pending_ s ≠ Closed.

(** The table has sessions of its users that are not closed. *)
Definition table_ok (table : gmap string nat) (m : gmap nat WsSession) : Prop :=
  ∀ u id, table !! u = Some id → ∃ s, m !! id = Some s ∧ userId_ s = u ∧ live s.

Section facts.
Context `{OpenSSLSpec, JsonSpec, !JwtCpp, !JwtCppSpec, !IterOrder string CallSession}.
Context (secret : string) (cfg : TurnConfig) (cfg_good : cfg_ok cfg).

Record inv (w : SignalServer) : Prop := {
  inv_backend : backend_inv (backend_ w);
  inv_sessions id s : sessions w !! id = Some s → (id < next_session w)%nat ∧ authenticated secret (userId_ s);
  inv_table : table_ok (ws_sessions_ (backend_ w)) (sessions w);
}.

(** What is written goes to sessions that are not closed. *)
Definition write_ok (m : gmap nat WsSession) (e : WsEvent) : Prop :=
  match e with WsWrite id _ => ∃ s, m !! id = Some s ∧ live s | _ => True end.

Lemma writes_delivered b out evs m : writes evs = delivery b out → table_ok (ws_sessions_ b) m → Forall (write_ok m) evs.
Proof.
  intros Hw Ht. apply Forall_forall. intros [id text|?|?] Hin; [|done..].
  assert (Hd : (id, text) ∈ delivery b out) by (rewrite <-Hw; apply list_elem_of_omap; by exists (WsWrite id text)).
  apply list_elem_of_omap in Hd as ([u j]&_&Hx). destruct (ws_sessions_ b !! u) as [id'|] eqn:Hu; [|done].
  injection Hx as <- _. destruct (Ht _ _ Hu) as (s&?&_&?). by exists s.
Qed.

(** A message is sent to a session while another one to it is being written. *)
Definition overlapping (busy : list nat) (events : list WsEvent) : Prop :=
  ∃ l1 id text l2, events = l1 ++ WsWrite id text :: l2 ∧ (id ∈ busy ∨ ∃ text', WsWrite id text' ∈ l1).

Lemma overlapping_cons e events busy busy' : (∀ id, id ∈ busy' → id ∈ busy ∨ ∃ text, e = WsWrite id text) →
  overlapping busy' events → overlapping busy (e :: events).
Proof.
  intros Hb (l1&id&text&l2&->&Hid). exists (e :: l1), id, text, l2. split; [done|].
  destruct Hid as [[?|[text' ->]]%Hb|[text' ?]]; [by left|right; exists text'; by left|right; exists text'; by right].
Qed.

(** The writes start, or one of them overlaps. *)
Lemma start_writes_spec events busy :
  match start_writes events busy with
  | Ok busy' => ¬ overlapping busy events
  | Err e => e = Undefined ∧ overlapping busy events
  end.
Proof.
  assert (Hcons : ∀ e events busy busy', (∀ id, id ∈ busy → id ∈ busy') → (∀ id text, e = WsWrite id text → id ∉ busy ∧ id ∈ busy') →
    ¬ overlapping busy' events → ¬ overlapping busy (e :: events)).
  { intros e evs b b' Hb He Hno (l1&id&text&l2&E&Hid). destruct l1 as [|e1 l1]; simplify_list_eq.
    - destruct (He id text eq_refl) as [Hn _]. destruct Hid as [?|[? []%not_elem_of_nil]]. done.
    - apply Hno. exists l1, id, text, l2. split; [done|]. destruct Hid as [?|[text' [Ee|?]%elem_of_cons]];
        [left; auto|left; by apply (He id text')|right; eauto]. }
  revert busy. induction events as [|e events IH]; intros busy; cbn [start_writes].
  { intros (l1&id&text&l2&E&_). by destruct l1. }
  assert (Hskip : (∀ id text, e ≠ WsWrite id text) → match start_writes events busy with
    | Ok busy' => ¬ overlapping busy (e :: events) | Err e' => e' = Undefined ∧ overlapping busy (e :: events) end).
  { intros He. specialize (IH busy). destruct (start_writes events busy) as [b|e'].
    - apply (Hcons _ _ _ busy); [done|by intros id text ?%He|done].
    - destruct IH as [-> Ho]. split; [done|]. eapply overlapping_cons; [|exact Ho]. intros i ?. by left. }
  destruct e as [id text|?|?]; [|by apply Hskip..]. case_bool_decide as Hin.
  - split; [done|]. exists [], id, text, events. split; [done|by left].
  - specialize (IH (id :: busy)). destruct (start_writes events (id :: busy)) as [b|e'].
    + apply (Hcons _ _ _ (id :: busy)); [by right|intros i t [= <- <-]; split; [done|by left]|done].
    + destruct IH as [-> Ho]. split; [done|]. eapply overlapping_cons; [|exact Ho].
      intros i [->|?]%elem_of_cons; [right; eauto|by left].
Qed.

(** A step of the backend that leaves the table as it is. *)
Lemma on_backend_keeps (m : B ()) r w : inv w → implements (backend_ w) r m →
  backend_inv (mkBackend r.1 (ws_sessions_ (backend_ w))) →
  match on_backend m w with
  | (Ok _, w', ev) => inv w' ∧ sessions w' = sessions w ∧ next_session w' = next_session w ∧
      ws_sessions_ (backend_ w') = ws_sessions_ (backend_ w) ∧ Forall (write_ok (sessions w)) ev
  | (Err e, _, ev) => e = Undefined ∧ overlapping (writing w) ev
  end.
Proof.
  intros [Ib Is It] Hi Hb. unfold implements, wp in Hi. unfold on_backend.
  destruct (m (backend_ w)) as [[[[]|e] b'] ev]; [|done]. destruct Hi as (->&Hw&_).
  pose proof (start_writes_spec ev (writing w)) as Hs. destruct (start_writes ev (writing w)) as [busy|e]; [|exact Hs].
  cbn. split_and!; try done. by eapply writes_delivered.
Qed.

Lemma put_session_inv id s s' w : inv w → sessions w !! id = Some s → userId_ s' = userId_ s → live s' →
  inv (mkSignalServer (backend_ w) (<[id := s']> (sessions w)) (next_session w) (writing w)).
Proof.
  intros [Ib Is It] Hid Hu Hl. destruct (Is _ _ Hid) as [Hlt Ha]. split; cbn; [done| |].
  - intros i t E. destruct (decide (i = id)) as [->|Hne].
    + rewrite lookup_insert_eq in E. simplify_eq. split; [done|by rewrite Hu].
    + rewrite lookup_insert_ne in E by done. by eapply Is.
  - intros u i E. destruct (It _ _ E) as (t&Et&Hut&Hlt'). destruct (decide (i = id)) as [->|Hne].
    + exists s'. rewrite lookup_insert_eq. simplify_eq. by split_and!.
    + exists t. by rewrite lookup_insert_ne.
Qed.

(** A session closes and its user leaves the table. *)
Definition closed (id : nat) (s : WsSession) (w : SignalServer) : SignalServer :=
  mkSignalServer (mkBackend (call_manager_ (backend_ w)) (delete (userId_ s) (ws_sessions_ (backend_ w))))
    (<[id := mkWsSession (userId_ s) Closed]> (sessions w)) (next_session w) (writing w).

Lemma close_eq id s w : (put_session id (mkWsSession (userId_ s) Closed);; on_close s) w =
  (Ok (), closed id s w, [WsLog ("[ws] user disconnected: " +:+ userId_ s)]).
Proof. done. Qed.

Lemma closed_inv id s w : inv w → sessions w !! id = Some s → inv (closed id s w).
Proof.
  intros [Ib Is It] Hid. destruct (Is _ _ Hid) as [Hlt Ha]. split; cbn.
  - by destruct Ib.
  - intros i t E. destruct (decide (i = id)) as [->|Hne].
    + rewrite lookup_insert_eq in E. by simplify_eq.
    + rewrite lookup_insert_ne in E by done. by eapply Is.
  - intros u i [Hne E]%lookup_delete_Some. destruct (It _ _ E) as (t&Et&Hut&Hlt').
    exists t. rewrite lookup_insert_ne; [done|]. intros <-. simplify_eq.
Qed.

Lemma on_write_eq id s ec w : on_write id s ec w =
  (Ok (), mkSignalServer (if ec then mkBackend (call_manager_ (backend_ w)) (delete (userId_ s) (ws_sessions_ (backend_ w)))
      else backend_ w) (sessions w) (next_session w) (one_less id (writing w)),
   if ec then [WsLog ("[ws] user disconnected: " +:+ userId_ s)] else []).
Proof. by destruct ec. Qed.

Lemma on_write_inv id s ec w : inv w → inv (out_state (on_write id s ec w)).
Proof.
  intros [Ib Is It]. rewrite on_write_eq. destruct ec; (split; cbn; [|done|]); [by destruct Ib| |done|done].
  intros u i [_ E]%lookup_delete_Some. by apply It.
Qed.

Lemma verify_thrown now t : (∃ p, Jwt.verify secret now t = Ok p) ∨ ∃ k what, Jwt.verify secret now t = Err (Thrown k what).
Proof.
  unfold Jwt.verify. destruct (jwt_decode t) as [|d]; [right; eauto|].
  destruct (jwt_verify _ _ _); [right; destruct (str_contains _ _); eauto|].
  destruct (jwt_userId d); [right; eauto|]. destruct (jwt_expires_at d); [right|left]; eauto.
Qed.

(** The state after a connection. *)
Definition connected (u : string) (w : SignalServer) : SignalServer :=
  mkSignalServer (mkBackend (call_manager_ (backend_ w)) (<[u := next_session w]> (ws_sessions_ (backend_ w))))
    (<[next_session w := mkWsSession u Accepting]> (sessions w)) (S (next_session w)) (writing w).

Lemma accept_cases now target w :
  accept secret now target w = (Ok (), w, []) ∨
  ∃ p, Jwt.verify secret now (WsServer.extractToken target) = Ok p ∧
    accept secret now target w = (Ok (), connected (JwtPayload_userId p) w,
      [WsLog ("[ws] user connected: " +:+ JwtPayload_userId p)]).
Proof.
  unfold accept. rewrite bind_get. unfold on_backend, WsServer.accept, mbind at 1, eff_bind at 1.
  destruct (str_empty (WsServer.extractToken target)); [left; by destruct w as [[]]|].
  destruct (verify_thrown now (WsServer.extractToken target)) as [[p ->]|(k&what&->)].
  - right. exists p. by split.
  - left. by destruct w as [[]].
Qed.

Lemma connected_inv u w : inv w → authenticated secret u → inv (connected u w).
Proof.
  intros [Ib Is It] Hu. split; cbn; [by destruct Ib| |].
  - intros i t E. destruct (decide (i = next_session w)) as [->|Hne].
    + rewrite lookup_insert_eq in E. simplify_eq. split; [lia|done].
    + rewrite lookup_insert_ne in E by done. destruct (Is _ _ E). split; [lia|done].
  - intros v i E. destruct (decide (v = u)) as [->|Hne].
    + rewrite lookup_insert_eq in E. simplify_eq. exists (mkWsSession u Accepting). by rewrite lookup_insert_eq.
    + rewrite lookup_insert_ne in E by done. destruct (It _ _ E) as (t&Et&Hut). destruct (Is _ _ Et).
      exists t. rewrite lookup_insert_ne by lia. done.
Qed.
Lemma write_ok_insert id s m e : live s → write_ok m e → write_ok (<[id := s]> m) e.
Proof.
  intros Hl. destruct e as [i text|?|?]; [|done..]. intros (t&Et&Ht). destruct (decide (i = id)) as [->|Hne].
  - exists s. by rewrite lookup_insert_eq.
  - exists t. by rewrite lookup_insert_ne.
Qed.

(** What a handler comes to. *)
Definition outcome (w : SignalServer) (o : result () * SignalServer * list WsEvent) : Prop :=
  match o with
  | (Ok _, w', ev) => inv w' ∧ Forall (write_ok (sessions w')) ev
  | (Err e, _, ev) => e = Undefined ∧ overlapping (writing w) ev
  end.

(** A message is read, and the next read starts. *)
Lemma read_outcome env id s msg w : inv w → inputs_ok env → sessions w !! id = Some s → pending_ s = Reading →
  outcome w (on_read cfg env id s (Some msg) w).
Proof.
  intros Hw Henv Hid Hp. destruct (inv_sessions w Hw _ _ Hid) as [_ Hu%authenticated_text].
  pose proof (on_backend_keeps _ _ w Hw (implements_handle cfg env cfg_good Henv (backend_ w) (userId_ s) msg
    (inv_backend w Hw) Hu) (respond_inv cfg env _ msg _ (inv_backend w Hw) Hu)) as Hk.
  unfold on_read, mbind, eff_bind. destruct (on_backend _ w) as [[[[]|e] w1] ev]; [|exact Hk].
  destruct Hk as (Hw1&Es&En&Et&Hev). rewrite <-Es in Hid. cbn. rewrite app_nil_r.
  split; [by eapply put_session_inv|]. rewrite Es. eapply Forall_impl; [exact Hev|].
  intros ev0. by apply write_ok_insert.
Qed.

Lemma step_outcome env c w : inv w → inputs_ok env → outcome w (on_completion secret cfg env c w).
Proof.
  intros Hw Henv. assert (Hstay : outcome w (Ok (), w, [])) by (by split).
  assert (Hclose : ∀ id s, sessions w !! id = Some s →
    outcome w (Ok (), closed id s w, [WsLog ("[ws] user disconnected: " +:+ userId_ s)]))
    by (intros id s E; split; [by apply closed_inv|by repeat constructor]).
  unfold on_completion. rewrite bind_get.
  destruct c as [now target|id ec|id message|id ec|].
  - destruct (accept_cases now target w) as [->|(p&Hp&->)]; [done|].
    split; [|by repeat constructor]. apply connected_inv; [done|]. by exists now, (WsServer.extractToken target), p.
  - destruct (sessions w !! id) as [s|] eqn:Hid; [|done]. destruct (decide (pending_ s = Accepting)); [|done].
    unfold on_accept. destruct ec; [rewrite close_eq; by apply Hclose|]. split; [by eapply put_session_inv|done].
  - destruct (sessions w !! id) as [s|] eqn:Hid; [|done]. destruct (decide (pending_ s = Reading)); [|done].
    destruct message as [msg|]; [by apply read_outcome|]. unfold on_read. rewrite close_eq. by apply Hclose.
  - destruct (sessions w !! id) as [s|] eqn:Hid; [|done]. case_bool_decide; [|done].
    pose proof (on_write_inv id s ec w Hw) as Hw'. rewrite on_write_eq in *. split; [exact Hw'|].
    destruct ec; by repeat constructor.
  - pose proof (on_backend_keeps _ _ w Hw (implements_checkExpired env _ (inv_backend w Hw))
      (expire_inv env _ (inv_backend w Hw))) as Hk.
    destruct (on_backend _ w) as [[[[]|e] w1] ev]; [|exact Hk]. destruct Hk as (Hw1&Es&_&_&Hev).
    split; [done|]. by rewrite Es.
Qed.

Lemma serving_inv w : serving secret cfg w → inv w.
Proof.
  induction 1 as [t|w env c w' ev _ IH Henv E].
  - split; cbn; [|done|done]. split; cbn; [apply call_run_inv; exists t; apply rtc_refl|].
    intros k s. by rewrite lookup_empty.
  - pose proof (step_outcome env c w IH Henv) as Hs. rewrite E in Hs. apply Hs.
Qed.

(** *** Runs in which every user has one session at a time *)

(** Nobody connects who has a session, and no write fails. *)
Definition polite (c : completion) (w : SignalServer) : Prop :=
  match c with
  | Upgraded now target => ∀ p id s, Jwt.verify secret now (WsServer.extractToken target) = Ok p →
      sessions w !! id = Some s → userId_ s = JwtPayload_userId p → ¬ live s
  | WriteDone _ ec => ec = false
  | _ => True
  end.

Inductive orderly : SignalServer → Prop :=
  | orderly_start timeout : orderly (new_server timeout)
  | orderly_step w env c w' ev : orderly w → inputs_ok env → polite c w →
      on_completion secret cfg env c w = (Ok (), w', ev) → orderly w'.

Lemma orderly_serving w : orderly w → serving secret cfg w.
Proof. induction 1; [constructor|by eapply serving_step]. Qed.

(** Every session that is not closed is the one of its user. *)
Definition reachable (w : SignalServer) : Prop :=
  ∀ id s, sessions w !! id = Some s → live s → ws_sessions_ (backend_ w) !! userId_ s = Some id.

Lemma reachable_put id s s' w : reachable w → sessions w !! id = Some s → userId_ s' = userId_ s → live s →
  reachable (mkSignalServer (backend_ w) (<[id := s']> (sessions w)) (next_session w) (writing w)).
Proof.
  intros Hr Hid Hu Hl i t E Ht. cbn in *. destruct (decide (i = id)) as [->|Hne].
  - rewrite lookup_insert_eq in E. simplify_eq. rewrite Hu. by apply Hr.
  - rewrite lookup_insert_ne in E by done. by apply Hr.
Qed.

Lemma reachable_closed id s w : inv w → reachable w → sessions w !! id = Some s → live s → reachable (closed id s w).
Proof.
  intros Hw Hr Hid Hl i t E Ht. cbn in *. destruct (decide (i = id)) as [->|Hne].
  - rewrite lookup_insert_eq in E. by simplify_eq.
  - rewrite lookup_insert_ne in E by done. rewrite lookup_delete_ne; [by apply Hr|].
    intros Hu. pose proof (Hr _ _ E Ht) as E1. rewrite <-Hu, (Hr _ _ Hid Hl) in E1. congruence.
Qed.

Lemma reachable_same w w' : sessions w' = sessions w → ws_sessions_ (backend_ w') = ws_sessions_ (backend_ w) →
  reachable w → reachable w'.
Proof. unfold reachable. by intros -> ->. Qed.

Lemma reachable_connected u w : inv w → reachable w → (∀ id s, sessions w !! id = Some s → userId_ s = u → ¬ live s) →
  reachable (connected u w).
Proof.
  intros Hw Hr Hnew i t E Ht. cbn in *. destruct (decide (i = next_session w)) as [->|Hne].
  - rewrite lookup_insert_eq in E. simplify_eq. cbn. by rewrite lookup_insert_eq.
  - rewrite lookup_insert_ne in E by done. rewrite lookup_insert_ne; [by apply Hr|].
    intros Hu. by apply (Hnew i t).
Qed.

(** A handler that did nothing. *)
Ltac stays E := cbv [mret eff_ret] in E; by injection E as <- <-.

Lemma step_reachable env c w w' ev : inv w → inputs_ok env → reachable w → polite c w →
  on_completion secret cfg env c w = (Ok (), w', ev) → reachable w'.
Proof.
  intros Hw Henv Hr Hp E. unfold on_completion in E. rewrite bind_get in E.
  destruct c as [now target|id ec|id message|id ec|].
  - destruct (accept_cases now target w) as [E'|(p&Hv&E')]; rewrite E' in E; simplify_eq; [done|].
    apply reachable_connected; [done..|]. intros id s Hid Hu. exact (Hp p id s Hv Hid Hu).
  - destruct (sessions w !! id) as [s|] eqn:Hid; [|stays E].
    destruct (decide (pending_ s = Accepting)) as [Ha|]; [|stays E].
    assert (live s) by (unfold live; congruence).
    unfold on_accept in E. destruct ec; [rewrite close_eq in E|unfold put_session in E]; injection E as <- <-;
      [by apply reachable_closed|by apply (reachable_put id s)].
  - destruct (sessions w !! id) as [s|] eqn:Hid; [|stays E].
    destruct (decide (pending_ s = Reading)) as [Ha|]; [|stays E].
    assert (live s) by (unfold live; congruence).
    unfold on_read in E. destruct message as [msg|]; [|rewrite close_eq in E; simplify_eq; by apply reachable_closed].
    destruct (inv_sessions w Hw _ _ Hid) as [_ Hu%authenticated_text].
    pose proof (on_backend_keeps _ _ w Hw (implements_handle cfg env cfg_good Henv (backend_ w) (userId_ s) msg
      (inv_backend w Hw) Hu) (respond_inv cfg env _ msg _ (inv_backend w Hw) Hu)) as Hk.
    destruct (on_backend _ w) as [[[[]|e] w1] ev1] eqn:E1; unfold mbind, eff_bind in E; rewrite E1 in E; [|done].
    destruct Hk as (Hw1&Es&En&Et&_). unfold put_session in E. injection E as <- <-.
    eapply reachable_put; [by eapply reachable_same|by rewrite Es|done|done].
  - destruct (sessions w !! id) as [s|] eqn:Hid; [|stays E]. cbn in Hp. subst ec.
    case_bool_decide; [|stays E]. rewrite on_write_eq in E. injection E as <- <-. exact Hr.
  - pose proof (on_backend_keeps _ _ w Hw (implements_checkExpired env _ (inv_backend w Hw))
      (expire_inv env _ (inv_backend w Hw))) as Hk.
    rewrite E in Hk. destruct Hk as (Hw1&Es&En&Et&_). by eapply reachable_same.
Qed.
Lemma orderly_reachable w : orderly w → reachable w.
Proof.
  induction 1 as [t|w env c w' ev Ho IH Henv Hp E]; [done|].
  eapply step_reachable; [by apply serving_inv, orderly_serving|done..].
Qed.
End facts.
End WsSessionFacts.

(** ** A user who connects twice *)

Section properties.
Import WsSession WsSessionFacts.
Context `{OpenSSLSpec, JsonSpec, !JwtCpp, !JwtCppSpec, !IterOrder string CallSession}.

(** When a user has connected again and the older session ends, the newer one is
    not reached any more. *)
Lemma superseded_session_unreachable secret cfg env w u id s text :
  cfg_ok cfg → serving secret cfg w → sessions w !! id = Some s → pending_ s = Reading → userId_ s = u →
  let w1 := connected u w in
  ∃ w2 ev, on_completion secret cfg env (Read id None) w1 = (Ok (), w2, ev) ∧
    sessions w2 !! next_session w = Some (mkWsSession u Accepting) ∧
    (WsServer.send u text (backend_ w2)).2 = [WsLogError ("[ws] send failed: " +:+ u +:+ " not connected")].
Proof.
  intros Hcfg Hw Hid Hp Hu w1. subst u. pose proof (serving_inv secret cfg Hcfg w Hw) as Hinv.
  destruct (inv_sessions _ _ Hinv _ _ Hid) as [Hlt _].
  assert (Hid1 : sessions w1 !! id = Some s) by (cbn; rewrite lookup_insert_ne by lia; done).
  exists (closed id s w1), [WsLog ("[ws] user disconnected: " +:+ userId_ s)]. split_and!.
  - unfold on_completion. rewrite bind_get, Hid1. destruct (decide (pending_ s = Reading)); [|done].
    unfold on_read. by rewrite close_eq.
  - cbn. rewrite lookup_insert_ne by lia. by rewrite lookup_insert_eq.
  - unfold WsServer.send. rewrite bind_get. cbn. by rewrite lookup_delete_eq.
Qed.
End properties.
