(* ===== verification/Devices.v ===== *)
(** * The threads of the sound devices (src/client_cli/src/audio/playback.cpp, capture.cpp)

    [Playback] and [Capture] are the same around their loops: [start] makes a
    thread, which opens the device, loops while [running_], and closes the device;
    [stop] ends the loop, joins the thread and closes the device if it is still
    open.  [Rounds] is what a round of the loop does with the rest of the object;
    a step is the opening or closing of the device, a test of [running_], a round
    of the loop, one of the three accesses of [start] to what it shares, [stop] up to
    its [join] or from there on, or a call of another method.  One thread may be in
    [start] while another one is in [stop]: in the client the first is called by
    libdatachannel, the second by the thread that reads messages.  Two threads in
    the same one of them are not modelled, nor a [start] between the [join] of a
    [stop] and its closing of the device.  The callback of [Capture] is not empty:
    main.cpp gives it one.

    The kernel has the set of open descriptors; closing one that is not open is
    [Err Undefined], and assigning to a [std::thread] that is not joined ends the
    program. *)

From S2P Require Export JitterBuffer Recording.

(** One round of the loop, and what else works on the rest of the object: [stop]
    and the other methods. *)
Class Rounds (X I O U : Type) := {
  round : bool → bool → I → X → result (X * list O * bool);  (* running, has_device; whether it breaks *)
  stopping : X → X;
  use : U → X → result X;
}.
Class RoundsOk {X I O U} (R : Rounds X I O U) (ok : X → Prop) := {
  round_ok running has_device i x : ok x →
    ∃ x' out brk, round running has_device i x = Ok (x', out, brk) ∧ ok x';
  stopping_ok x : ok x → ok (stopping x);
  use_ok u x : ok x → ∃ x', use u x = Ok x' ∧ ok x';
}.

Module Sound.

(** How [open] and the three [ioctl] calls of [openDevice] end. *)
Record open_result := mkOpenResult { opens : bool; setfmt : bool; channels : bool; speed : bool }.

Inductive loop_pc :=
  | Opening
  | Looping (has_device : bool)    (* before the test of [running_] *)
  | InRound (has_device : bool)
  | Leaving (has_device : bool)
  | Finished.
Inductive caller := Idle | Stopping.
(** [start] after its test of [running_], and after it has set it. *)
Inductive starter := NotStarting | Loaded | Stored.

Section sound.
Context {X I O U : Type} {R : Rounds X I O U}.

Record Sound := mkSound {
  running_ : bool;
  fd_ : option nat;
  thread_ : option loop_pc;        (* None: not joinable *)
  rest_ : X;
  open_fds : gset nat;
  next_fd : nat;
  calling : caller;
  terminated : bool;
  starting : starter;
}.

Inductive label :=
  | Start
  | StartGoesOn
  | Stop
  | StopGoesOn
  | Use (u : U)
  | ThreadGoesOn (o : open_result) (i : I).

Definition new_sound (x : X) : Sound := mkSound false None None x ∅ 0 Idle false NotStarting.

Definition set_running (b : bool) (s : Sound) : Sound :=
  mkSound b (fd_ s) (thread_ s) (rest_ s) (open_fds s) (next_fd s) (calling s) (terminated s) (starting s).
Definition set_thread (t : option loop_pc) (s : Sound) : Sound :=
  mkSound (running_ s) (fd_ s) t (rest_ s) (open_fds s) (next_fd s) (calling s) (terminated s) (starting s).
Definition set_rest (x : X) (s : Sound) : Sound :=
  mkSound (running_ s) (fd_ s) (thread_ s) x (open_fds s) (next_fd s) (calling s) (terminated s) (starting s).
Definition set_calling (c : caller) (s : Sound) : Sound :=
  mkSound (running_ s) (fd_ s) (thread_ s) (rest_ s) (open_fds s) (next_fd s) c (terminated s) (starting s).
Definition set_terminated (s : Sound) : Sound :=
  mkSound (running_ s) (fd_ s) (thread_ s) (rest_ s) (open_fds s) (next_fd s) (calling s) true (starting s).
Definition set_starting (st : starter) (s : Sound) : Sound :=
  mkSound (running_ s) (fd_ s) (thread_ s) (rest_ s) (open_fds s) (next_fd s) (calling s) (terminated s) st.

(** A descriptor that [fd_] held before would be lost. *)
Definition openDevice (o : open_result) (s : Sound) : bool * Sound :=
  if negb (opens o) then
    (false, mkSound (running_ s) None (thread_ s) (rest_ s) (open_fds s) (next_fd s) (calling s) (terminated s) (starting s))
  else
    (setfmt o && channels o && speed o,
     mkSound (running_ s) (Some (next_fd s)) (thread_ s) (rest_ s) ({[next_fd s]} ∪ open_fds s) (S (next_fd s))
       (calling s) (terminated s) (starting s)).

Definition closeDevice (s : Sound) : result Sound :=
  match fd_ s with
  | None => Ok s
  | Some fd =>
      if decide (fd ∈ open_fds s)
      then Ok (mkSound (running_ s) None (thread_ s) (rest_ s) (open_fds s ∖ {[fd]}) (next_fd s) (calling s) (terminated s) (starting s))
      else Err Undefined
  end.

(** [start], up to its test; and from there on. *)
Definition start (s : Sound) : Sound := if running_ s then s else set_starting Loaded s.
Definition start_goes_on (s : Sound) : option Sound :=
  match starting s with
  | NotStarting => None
  | Loaded => Some (set_starting Stored (set_running true s))
  | Stored =>
      let s := set_starting NotStarting s in
      Some (match thread_ s with Some _ => set_terminated s | None => set_thread (Some Opening) s end)
  end.

(** [stop], up to the [join]; and from there on. *)
Definition stop (s : Sound) : Sound := set_calling Stopping (set_rest (stopping (rest_ s)) (set_running false s)).
Definition stop_joined (s : Sound) : option (result Sound) :=
  match thread_ s with
  | None | Some Finished => Some (set_calling Idle <$> closeDevice (set_thread None s))
  | _ => None
  end.

Definition loop (o : open_result) (i : I) (pc : loop_pc) (s : Sound) : option (result (Sound * list O)) :=
  match pc with
  | Opening => let '(has_device, s) := openDevice o s in Some (Ok (set_thread (Some (Looping has_device)) s, []))
  | Looping has_device =>
      Some (Ok (set_thread (Some (if running_ s then InRound has_device else Leaving has_device)) s, []))
  | InRound has_device =>
      Some ((λ '(x, out, brk), (set_thread (Some (if brk : bool then Leaving has_device else Looping has_device))
                                  (set_rest x s), out)) <$> round (running_ s) has_device i (rest_ s))
  | Leaving has_device =>
      Some ((λ s, (set_thread (Some Finished) s, [])) <$> (if has_device then closeDevice s else Ok s))
  | Finished => None
  end.

Definition step (l : label) (s : Sound) : option (result (Sound * list O)) :=
  if terminated s then None else
  match l with
  | Start => match starting s with NotStarting => Some (Ok (start s, [])) | _ => None end
  | StartGoesOn => match start_goes_on s with Some s => Some (Ok (s, [])) | None => None end
  | Stop => match calling s with Idle => Some (Ok (stop s, [])) | Stopping => None end
  | StopGoesOn =>
      match calling s with
      | Idle => None
      | Stopping => match stop_joined s with Some r => Some ((λ s, (s, [])) <$> r) | None => None end
      end
  | Use u => Some ((λ x, (set_rest x s, [])) <$> use u (rest_ s))
  | ThreadGoesOn o i => pc ← thread_ s; loop o i pc s
  end.

Fixpoint run (ls : list label) (s : Sound) : option (result (Sound * list O)) :=
  match ls with
  | [] => Some (Ok (s, []))
  | l :: ls =>
      match step l s with
      | None => None
      | Some (Err e) => Some (Err e)
      | Some (Ok (s, out)) =>
          match run ls s with Some r => Some ((λ '(s, out'), (s, out ++ out')) <$> r) | None => None end
      end
  end.

(** No thread is in [start] while another one is in [stop]. *)
Fixpoint apart (ls : list label) (s : Sound) : Prop :=
  match ls with
  | [] => True
  | l :: ls =>
      match l with Start => calling s = Idle | Stop => starting s = NotStarting | _ => True end ∧
      match step l s with Some (Ok (s, _)) => apart ls s | _ => True end
  end.
End sound.
Arguments Sound : clear implicits.
Arguments label : clear implicits.
End Sound.

(** ** Playback and capture *)

Module PlaybackLoop.
Record Rest := mkRest { frame_size_ : nat; jitter_buffer_ : JitterBuffer.JitterBuffer }.
Definition newRest (sample_rate frame_ms : Z) : Rest :=
  mkRest (Z.to_nat (u32 (sample_rate * frame_ms) / 1000)) (JitterBuffer.newJitterBuffer 50 sample_rate).

Inductive Output := DeviceWrite (frame : list Z) | WriteError.

(** [written]: whether [::write] succeeds. *)
Definition round (running has_device written : bool) (x : Rest) : result (Rest * list Output * bool) :=
  '(frame, jb) ← JitterBuffer.read (frame_size_ x) (jitter_buffer_ x);
  let x := mkRest (frame_size_ x) jb in
  if has_device then
    if written then Ok (x, [DeviceWrite frame], false)
    else Ok (x, if running then [WriteError] else [], true)
  else Ok (x, [], false).

(** [write] and [playFile]. *)
Definition use (data : list Z) (x : Rest) : result Rest :=
  jb ← JitterBuffer.write data (jitter_buffer_ x); Ok (mkRest (frame_size_ x) jb).

#[export] Instance playback_rounds : Rounds Rest bool Output (list Z) := {
  round := round;
  stopping x := mkRest (frame_size_ x) (JitterBuffer.clear (jitter_buffer_ x));
  use := use;
}.
End PlaybackLoop.

Module CaptureLoop.
Inductive Output := Callback (samples : list Z) | ReadError.
Inductive Method := SetMuted (muted : bool) | StartRecording | StopRecording.

(** [samples]: what [::read] gets, [None] when it gets nothing. *)
Definition round (running has_device : bool) (samples : option (list Z)) (c : Capture.Capture) :
    result (Capture.Capture * list Output * bool) :=
  if has_device then
    match samples with
    | None => Ok (c, if running then [ReadError] else [], true)
    | Some samples => let '(out, c) := Capture.frame (Some samples) c in Ok (c, [Callback out], false)
    end
  else let '(out, c) := Capture.frame None c in Ok (c, [Callback out], false).

Definition use (m : Method) (c : Capture.Capture) : result Capture.Capture :=
  Ok (match m with
      | SetMuted b => Capture.mkCapture (Capture.frame_size_ c) (Capture.running_ c) (Capture.recording_ c) b
                        (Capture.record_buf_ c)
      | StartRecording => Capture.startRecording c
      | StopRecording => (Capture.stopRecording c).2
      end).

#[export] Instance capture_rounds : Rounds Capture.Capture (option (list Z)) Output Method := {
  round := round;
  stopping c := c;
  use := use;
}.
End CaptureLoop.
#[export] Existing Instances PlaybackLoop.playback_rounds CaptureLoop.capture_rounds.

(** ** Lemmas *)

Module SoundFacts.
Import Sound.

Section facts.
Context {X I O U : Type} (R : Rounds X I O U) (ok : X → Prop) {Hok : RoundsOk R ok}.

(** At most one descriptor is open, the one in [fd_]. *)
Record inv (s : Sound X) : Prop := {
  inv_alive : terminated s = false;
  inv_fds : open_fds s = match fd_ s with Some fd => {[fd]} | None => ∅ end;
  inv_thread : match thread_ s with
    | None => fd_ s = None ∧ (running_ s = true ↔ starting s = Stored)
    | Some Opening => fd_ s = None ∧ starting s = NotStarting
    | Some _ => starting s = NotStarting
    end;
  inv_apart : calling s = Stopping → starting s = NotStarting;
  inv_idle : calling s = Idle → thread_ s ≠ None → running_ s = true;
  inv_stopping : calling s = Stopping → running_ s = false;
  inv_rest : ok (rest_ s);
}.

Lemma sound_new x : ok x → inv (new_sound x).
Proof. by split. Qed.

(** The device is closed, whoever does it. *)
Definition released (s : Sound X) : Sound X :=
  mkSound (running_ s) None (thread_ s) (rest_ s) ∅ (next_fd s) (calling s) (terminated s) (starting s).

Lemma closeDevice_eq s : open_fds s = match fd_ s with Some fd => {[fd]} | None => ∅ end →
  closeDevice s = Ok (released s).
Proof.
  intros Hf. destruct s as [r f t x o n c te]. unfold closeDevice. cbn in *.
  destruct f as [fd|]; subst o; [|done]. rewrite decide_True by set_solver. unfold released. cbn.
  by replace ({[fd]} ∖ {[fd]} : gset nat) with (∅ : gset nat) by set_solver.
Qed.

Lemma loop_inv o i pc s : inv s → thread_ s = Some pc →
  match loop o i pc s with
  | Some (Ok (s', _)) => inv s' ∧ calling s' = calling s
  | Some (Err _) => False
  | None => pc = Finished
  end.
Proof.
  intros Hs Ht. pose proof Hs as [Ha Hf Hth Hap Hi Hst Hr]. rewrite Ht in Hth.
  assert (Hrun : calling s = Idle → running_ s = true) by (intros Hc; apply Hi; [done|by rewrite Ht]).
  destruct pc as [|b|b|b|]; cbn [loop].
  - destruct Hth as [Hfd Hns]. unfold openDevice. destruct (opens o); cbn; (split; [split; cbn|]); try done.
    + rewrite Hf, Hfd. set_solver.
    + intros Hc _. by apply Hrun.
    + by rewrite Hf, Hfd.
    + intros Hc _. by apply Hrun.
  - split; [|done]. split; cbn; try done; [by destruct (running_ s)|]. intros Hc _. by apply Hrun.
  - destruct (round_ok (running_ s) b i (rest_ s) Hr) as (x'&out&brk&->&Hx'). cbn. split; [|done].
    split; cbn; try done; [by destruct brk|]. intros Hc _. by apply Hrun.
  - destruct b; [rewrite closeDevice_eq by done|]; cbn; (split; [split; cbn|]); try done; intros Hc _; by apply Hrun.
  - done.
Qed.

Lemma start_tested_inv s : inv s → calling s = Idle → starting s = NotStarting → inv (start s).
Proof.
  intros Hs Hc Hn. pose proof Hs as [Ha Hf Hth Hap Hi Hst Hr]. unfold start. destruct (running_ s) eqn:Hrun; [done|].
  destruct (thread_ s) as [pc|] eqn:Ht; [by specialize (Hi Hc ltac:(done))|].
  split; cbn; rewrite ?Ht, ?Hrun; try done; [|congruence].
  destruct Hth as [Hfd _]. split; [done|]. split; [discriminate|discriminate].
Qed.

Lemma start_goes_on_inv s s' : inv s → start_goes_on s = Some s' → inv s'.
Proof.
  intros Hs. pose proof Hs as [Ha Hf Hth Hap Hi Hst Hr]. unfold start_goes_on.
  assert (Hc : starting s ≠ NotStarting → calling s = Idle) by (intros Hn; destruct (calling s) eqn:Hc; [done|by destruct Hn, Hap]).
  assert (Ht : starting s ≠ NotStarting → thread_ s = None).
  { intros Hn. destruct (thread_ s) as [[]|]; try done; [by destruct Hth|by destruct (Hn Hth)..]. }
  destruct (starting s) eqn:Hs'; [done|..]; intros [= <-]; rewrite Ht in Hth by done; destruct Hth as [Hfd Hiff].
  - split; cbn; rewrite ?Ht by done; try done; by intros ?%Hap.
  - cbn. rewrite Ht by done. split; cbn; try done. intros _ _. by apply Hiff.
Qed.

(** The steps that keep apart [start] and [stop]. *)
Definition apart_step (l : label I U) (s : Sound X) : Prop :=
  match l with Start => calling s = Idle | Stop => starting s = NotStarting | _ => True end.

Lemma sound_step l s : inv s → apart_step l s →
  match step l s with Some (Ok (s', _)) => inv s' | Some (Err _) => False | None => True end.
Proof.
  intros Hs Hl. pose proof Hs as [Ha Hf Hth Hap Hi Hst Hr]. unfold step. rewrite Ha. destruct l as [| | | |u|o i]; cbn in Hl.
  - destruct (starting s) eqn:Hn; [|done..]. by apply start_tested_inv.
  - destruct (start_goes_on s) as [s'|] eqn:E; [|done]. by eapply start_goes_on_inv.
  - destruct (calling s) eqn:Hc; [|done]. unfold stop. split; cbn; try done; [|by apply stopping_ok].
    destruct (thread_ s) as [[]|]; try done. destruct Hth as [Hfd _]. rewrite Hl. by split.
  - destruct (calling s) eqn:Hc; [done|]. unfold stop_joined.
    assert (Hclose : closeDevice (set_thread None s) = Ok (released (set_thread None s))) by (by apply closeDevice_eq).
    destruct (thread_ s) as [[| | | |]|]; try done; rewrite Hclose; cbn; split; cbn; try done;
      (split; [done|]; rewrite (Hst eq_refl), (Hap eq_refl); by split).
  - destruct (use_ok u (rest_ s) Hr) as (x'&->&Hx'). cbn. by split.
  - destruct (thread_ s) as [pc|] eqn:Ht; [|done]. cbn. pose proof (loop_inv o i pc s Hs Ht) as Hloop.
    destruct (loop o i pc s) as [[[s' out]|e]|]; [apply Hloop|done..].
Qed.

Lemma sound_run ls : ∀ s, inv s → apart ls s →
  match run ls s with Some (Ok (s', _)) => inv s' | Some (Err _) => False | None => True end.
Proof.
  induction ls as [|l ls IH]; intros s Hs Hls; cbn [run]; [done|]. destruct Hls as [Hl Hls].
  pose proof (sound_step l s Hs Hl) as Hstep.
  destruct (step l s) as [[[s1 out]|e]|]; [|done..]. specialize (IH s1 Hstep Hls).
  by destruct (run ls s1) as [[[s2 out2]|e]|].
Qed.

(** A [start] while a [stop] waits: the flag is down and the thread not joined. *)
Lemma start_terminates s pc : terminated s = false → thread_ s = Some pc → running_ s = false →
  starting s = NotStarting →
  ∃ s', run [Start : label I U; StartGoesOn; StartGoesOn] s = Some (Ok (s', [])) ∧ terminated s' = true.
Proof.
  intros Ha Ht Hr Hn. destruct s as [r f t x o n c te st]. cbn in *. subst. by eexists.
Qed.
Lemma start_while_stopping s pc : terminated s = false → thread_ s = Some pc → calling s = Idle →
  starting s = NotStarting →
  ∃ s', run [Stop : label I U; Start; StartGoesOn; StartGoesOn] s = Some (Ok (s', [])) ∧ terminated s' = true.
Proof.
  intros Ha Ht Hc Hn. destruct (start_terminates (stop s) pc) as (s'&E&Hs'); [done..|]. exists s'. split; [|done].
  cbn [run]. unfold step at 1. rewrite Ha, Hc. cbn [run] in E. by rewrite E.
Qed.

(** When [stop] waits, the thread ends on its own, after at most three actions. *)
Definition goes (io : open_result * I) : label I U := ThreadGoesOn io.1 io.2.

Definition stop_ends (s : Sound X) : Prop :=
  calling s = Stopping → ∀ ios : list (open_result * I), length ios = 3%nat →
  ∃ k s' out, (k ≤ 3)%nat ∧ run (map goes (take k ios) ++ [StopGoesOn]) s = Some (Ok (s', out)) ∧
    calling s' = Idle ∧ thread_ s' = None ∧ open_fds s' = ∅.

Definition after (pc : loop_pc) : nat :=
  match pc with Opening | InRound _ => 3 | Looping _ => 2 | Leaving _ => 1 | Finished => 0 end.

Lemma stop_joins s : inv s → calling s = Stopping → thread_ s = None ∨ thread_ s = Some Finished →
  ∃ s', step (StopGoesOn : label I U) s = Some (Ok (s', [])) ∧ calling s' = Idle ∧ thread_ s' = None ∧ open_fds s' = ∅.
Proof.
  intros [Ha Hf _ _ _ _ _] Hc Ht. exists (set_calling Idle (released (set_thread None s))).
  assert (Hclose : closeDevice (set_thread None s) = Ok (released (set_thread None s))) by (by apply closeDevice_eq).
  split; [|done]. unfold step, stop_joined. rewrite Ha, Hc. by destruct Ht as [->| ->]; rewrite Hclose.
Qed.

(** One action of the thread, once [running_] is false. *)
Lemma loop_on o i pc s : inv s → running_ s = false → thread_ s = Some pc → pc ≠ Finished →
  ∃ s' out pc', loop o i pc s = Some (Ok (s', out)) ∧ thread_ s' = Some pc' ∧ (after pc' < after pc)%nat.
Proof.
  intros Hs Hrun Ht Hpc. destruct pc as [|b|b|b|]; cbn [loop after]; [| | | |done].
  - destruct (openDevice o s) as [b s1]. do 3 eexists. split; [done|]. split; [done|]. cbn. lia.
  - rewrite Hrun. do 3 eexists. split; [done|]. split; [done|]. cbn. lia.
  - destruct (round_ok (running_ s) b i (rest_ s) (inv_rest s Hs)) as (x'&out&brk&->&_).
    do 3 eexists. split; [done|]. split; [done|]. destruct brk; cbn; lia.
  - exists (set_thread (Some Finished) (if b then released s else s)), [], Finished. split; [|cbn; split; [done|lia]].
    destruct b; [rewrite closeDevice_eq by apply Hs|]; done.
Qed.

Lemma thread_ends n : ∀ s pc (ios : list (open_result * I)), inv s → calling s = Stopping → thread_ s = Some pc →
  (after pc ≤ n ≤ length ios)%nat →
  ∃ k s' out, (k ≤ n)%nat ∧ run (map goes (take k ios) ++ [StopGoesOn]) s = Some (Ok (s', out)) ∧
    calling s' = Idle ∧ thread_ s' = None ∧ open_fds s' = ∅.
Proof.
  induction n as [|n IH]; intros s pc ios Hs Hc Ht Hn; (destruct (decide (after pc = 0%nat)) as [E0|E0]; [|try lia]);
    try (assert (pc = Finished) as -> by (by destruct pc);
      destruct (stop_joins s Hs Hc (or_intror Ht)) as (s'&E&Hs'); exists 0%nat, s', []; split; [lia|]; split; [|done];
      rewrite firstn_O; cbn [map app run]; by rewrite E).
  destruct ios as [|[o i] ios]; [cbn in Hn; lia|].
  assert (Hstep : step (goes (o, i)) s = loop o i pc s)
    by (unfold step, goes; rewrite (inv_alive s Hs); cbn; by rewrite Ht).
  destruct (loop_on o i pc s Hs (inv_stopping s Hs Hc) Ht) as (s1&out&pc'&E1&Ht'&Hpc'); [by intros ->|].
  pose proof (loop_inv o i pc s Hs Ht) as Hinv. rewrite E1 in Hinv. destruct Hinv as [Hs1 Hc1].
  destruct (IH s1 pc' ios Hs1 ltac:(congruence) Ht' ltac:(cbn in Hn; lia)) as (k&s'&out'&Hk&E&Hs').
  exists (S k), s', (out ++ out'). split; [lia|]. split; [|done].
  rewrite firstn_cons. cbn [map app run]. rewrite Hstep, E1, E. done.
Qed.

Lemma inv_stop_ends s : inv s → stop_ends s.
Proof.
  intros Hs Hc ios Hl. destruct (thread_ s) as [pc|] eqn:Ht.
  - apply (thread_ends 3 s pc); try done. rewrite Hl. split; [destruct pc; cbn; lia|lia].
  - destruct (stop_joins s Hs Hc (or_introl Ht)) as (s'&E&Hs'). exists 0%nat, s', []. split; [lia|]. split; [|done].
    rewrite firstn_O. cbn [map app run]. by rewrite E.
Qed.

(** What a caller may rely on. *)
Definition safe (s : Sound X) : Prop :=
  terminated s = false ∧ (size (open_fds s) ≤ 1)%nat ∧ (thread_ s = None → open_fds s = ∅) ∧ stop_ends s.

Lemma inv_safe s : inv s → safe s.
Proof.
  intros Hs. split; [apply Hs|]. split_and!; [| |by apply inv_stop_ends].
  - rewrite (inv_fds s Hs). destruct (fd_ s); [by rewrite size_singleton|]. rewrite size_empty. lia.
  - intros Ht. rewrite (inv_fds s Hs). pose proof (inv_thread s Hs) as Hth. rewrite Ht in Hth. by destruct Hth as [-> _].
Qed.

Lemma run_safe ls x : ok x → apart ls (new_sound x) →
  match run ls (new_sound x) with Some (Ok (s, _)) => safe s | Some (Err _) => False | None => True end.
Proof.
  intros Hx Hls. pose proof (sound_run ls _ (sound_new x Hx) Hls) as Hr.
  destruct (run ls (new_sound x)) as [[[s out]|e]|]; [by apply inv_safe|done..].
Qed.
End facts.
End SoundFacts.

Section instances.
Import PlaybackLoop.

Definition playback_ok (x : Rest) : Prop := ∃ q, holds (jitter_buffer_ x) q.

#[export] Instance playback_rounds_ok : RoundsOk playback_rounds playback_ok.
Proof.
  split.
  - intros running has_device written x [q Hq]. cbn. unfold round.
    destruct (read_holds (frame_size_ x) _ q Hq) as (jb&->&_&Hjb). rsimpl. destruct has_device, written;
      do 3 eexists; (split; [done|]); by eexists.
  - intros x [q Hq]. exists []. by eapply holds_clear.
  - intros data x [q Hq]. cbn. unfold use. destruct (write_holds data _ q Hq) as (jb&->&_&Hjb). rsimpl.
    eexists. split; [done|]. by eexists.
Qed.

#[export] Instance capture_rounds_ok : RoundsOk CaptureLoop.capture_rounds (λ _, True).
Proof.
  split; [|done|by eexists].
  intros running has_device samples c _. cbn. unfold CaptureLoop.round.
  destruct has_device, samples; do 3 eexists; done.
Qed.
End instances.

(** ** Property *)


