(* ===== verification/Media.v ===== *)
(** * The media of a call (src/client_cli/src/rtc/peer_connection.cpp, and the threads that main.cpp makes of it)

    [PeerConnection] is the object around the connection of libdatachannel; what
    the library answers to a call is the argument [rtc].  [Media] are the objects of
    main.cpp that carry the sound: the capture thread reads the pointer [pc] for
    every frame, while [initRtc] and [cleanupCall] replace it.  A step is one access
    of the capture thread to [pc] or to the object behind it, or one action of
    [initRtc] or [cleanupCall]; an access to an object that was deleted, or through
    a null pointer, is [Err Undefined].

    [initRtc], [cleanupCall] and the callbacks of the library exclude each other in
    this model.  The code has no lock for that: the first runs on the thread that
    reads messages, the others on that or on a thread of libdatachannel. *)

From S2P Require Export ClientMessages Recording.

Module PeerConnection.

Record IceServer := mkIceServer { url : string; username : string; password : string }.
Record Configuration := mkConfiguration { iceServers : list IceServer; relay_only : bool }.

(** What the library is asked. *)
Inductive RtcCall :=
  | MakeIceServer (url : string)
  | MakePeerConnection (config : Configuration)
  | AddTrack                       (* audio, Opus as 111, both ways *)
  | SetLocalOffer
  | SetRemoteOffer (sdp : string)
  | SetRemoteAnswer (sdp : string)
  | AddRemoteCandidate (candidate mid : string)
  | Close.

(** The pointers by whether they are set. *)
Record PeerConnection := mkPeerConnection {
  pc_ : bool;
  audio_track_ : bool;
  connected_ : bool;
  reconnect_attempts_ : Z;
  on_track_ : bool;
}.

Definition newPeerConnection : PeerConnection := mkPeerConnection false false false 0 false.

Section ops.
Variable rtc : RtcCall → result ().

Abbreviation M := (eff PeerConnection RtcCall).

Definition ask (c : RtcCall) : M () := emit c;; lift (rtc c).
Definition set_pc_ (b : bool) : M () := λ p,
  (Ok (), mkPeerConnection b (audio_track_ p) (connected_ p) (reconnect_attempts_ p) (on_track_ p), []).
Definition set_track (b : bool) : M () := λ p,
  (Ok (), mkPeerConnection (pc_ p) b (connected_ p) (reconnect_attempts_ p) (on_track_ p), []).
Definition set_connected_ (b : bool) : M () := λ p,
  (Ok (), mkPeerConnection (pc_ p) (audio_track_ p) b (reconnect_attempts_ p) (on_track_ p), []).
Definition reset_attempts : M () := λ p,
  (Ok (), mkPeerConnection (pc_ p) (audio_track_ p) (connected_ p) 0 (on_track_ p), []).
Definition onTrack : M () := λ p,
  (Ok (), mkPeerConnection (pc_ p) (audio_track_ p) (connected_ p) (reconnect_attempts_ p) true, []).

(** The servers with the credentials of the session. *)
Definition turn_configuration (turn : ClientTurn) : Configuration :=
  mkConfiguration [mkIceServer (turnUrl turn) (turn_username turn) (turn_credential turn);
                   mkIceServer (turnsUrl turn) (turn_username turn) (turn_credential turn)] true.

Definition init (turn : ClientTurn) : M () :=
  ask (MakeIceServer (turnUrl turn));;
  ask (MakeIceServer (turnsUrl turn));;
  ask (MakePeerConnection (turn_configuration turn));;
  set_pc_ true.

(** [if (!pc_) return;] *)
Definition if_pc (m : M ()) : M () := p ← get; if pc_ p then m else mret ().

Definition createOffer : M () := if_pc (ask AddTrack;; set_track true;; ask SetLocalOffer).
Definition applyOffer (sdp : string) : M () := if_pc (ask (SetRemoteOffer sdp)).
Definition applyAnswer (sdp : string) : M () := if_pc (ask (SetRemoteAnswer sdp)).
Definition addRemoteCandidate (candidate mid : string) (mlineindex : Z) : M () :=
  if_pc (ask (AddRemoteCandidate candidate mid)).

(** [closed]: whether the state of the library's object is [Closed] already. *)
Definition close (closed : bool) : M () :=
  if_pc (try (if closed then mret () else ask Close) (λ _ _, mret ());; set_pc_ false);;
  set_track false;;
  set_connected_ false.

(** The destructor. *)
Definition destroy (closed : bool) : M () :=
  p ← get; if pc_ p && negb closed then close closed else mret ().

(** [handleStateChange] on the members; it returns whether [on_failed_] is called. *)
Definition state_changed (state : PcState) : M bool :=
  match state with
  | PcConnected => set_connected_ true;; reset_attempts;; mret false
  | PcFailed => set_connected_ false;; mret true
  | PcDisconnected | PcClosed => set_connected_ false;; mret false
  | PcConnecting | PcOther => mret false
  end.
End ops.
End PeerConnection.

Module Media.
Import PeerConnection.

(** Where the capture thread is: in its loop, or in the callback with a frame, before
    each read of [pc] and before each use of what it read. *)
Inductive capture_pc :=
  | Looping
  | Reading
  | Test (data : list Z)
  | GetConnected (data : list Z)
  | IsConnected (p : nat) (data : list Z)
  | GetTrack (data : list Z)
  | HasTrack (p : nat) (data : list Z)
  | GetSender (data : list Z)
  | Sending (p : nat) (data : list Z)
  | Finished.

Record Capture := mkCapture { running_ : bool; thread_ : capture_pc }.

(** What is left of [initRtc] and [cleanupCall]. *)
Inductive action :=
  | ClosePc
  | ResetPc
  | DeletePc (p : nat)
  | MakePc
  | InitPc (turn : ClientTurn)
  | StopCapture
  | JoinCapture
  | StartCapture
  | StopPlayback
  | MakePlayback
  | OnTrack
  | CreateOffer.

Record Media := mkMedia {
  pc : option nat;
  pcs : gmap nat PeerConnection;      (* the objects that are not deleted *)
  next_pc : nat;
  capture : option Capture;
  playback : option Playback.Playback;
  call_cleanup_done : bool;
  owner : list action;
}.

Inductive MediaEvent := Asked (p : nat) (c : RtcCall) | Sent (data : bytes).

Inductive message := Binary (data : bytes) | Text (text : string).

Inductive label :=
  | InitRtc (turn : ClientTurn) (calling : bool)   (* whether the session is [Calling] then *)
  | CleanupCall
  | OwnerGoesOn (closed : bool)
  | StateChange (state : PcState)
  | CaptureGoesOn (samples : list Z)               (* those of the device, when it reads *)
  | TrackArrives
  | TrackData (data : message).

Definition new_media : Media := mkMedia None ∅ 0 None None false [].

Definition set_pc (x : option nat) (s : Media) : Media :=
  mkMedia x (pcs s) (next_pc s) (capture s) (playback s) (call_cleanup_done s) (owner s).
Definition set_pcs (m : gmap nat PeerConnection) (s : Media) : Media :=
  mkMedia (pc s) m (next_pc s) (capture s) (playback s) (call_cleanup_done s) (owner s).
Definition set_capture (c : option Capture) (s : Media) : Media :=
  mkMedia (pc s) (pcs s) (next_pc s) c (playback s) (call_cleanup_done s) (owner s).
Definition set_playback (p : option Playback.Playback) (s : Media) : Media :=
  mkMedia (pc s) (pcs s) (next_pc s) (capture s) p (call_cleanup_done s) (owner s).
Definition set_owner (l : list action) (s : Media) : Media :=
  mkMedia (pc s) (pcs s) (next_pc s) (capture s) (playback s) (call_cleanup_done s) l.
Definition set_cleaned (b : bool) (s : Media) : Media :=
  mkMedia (pc s) (pcs s) (next_pc s) (capture s) (playback s) b (owner s).

Section steps.
Variable rtc : RtcCall → result ().

Definition initRtc (turn : ClientTurn) (calling : bool) (s : Media) : Media :=
  set_owner (match pc s with Some _ => [ClosePc; ResetPc] | None => [] end ++
    [MakePc; InitPc turn; StopCapture; JoinCapture; StartCapture; MakePlayback; OnTrack] ++
    (if calling then [CreateOffer] else [])) (set_cleaned false s).

Definition cleanupCall (s : Media) : Media :=
  if call_cleanup_done s then s else
  set_owner ([StopCapture; JoinCapture; StopPlayback] ++ match pc s with Some _ => [ClosePc] | None => [] end ++ [ResetPc])
    (set_cleaned true s).

(** A method of the object [p]. *)
Definition with_pc {A} (p : nat) (m : eff PeerConnection RtcCall A) (s : Media) : result (result A * Media * list MediaEvent) :=
  match pcs s !! p with
  | None => Err Undefined
  | Some x =>
      match m x with
      | (Err Undefined, _, _) => Err Undefined
      | (r, x, ev) => Ok (r, set_pcs (<[p := x]> (pcs s)) s, map (Asked p) ev)
      end
  end.

(** [pc->m()]; the exceptions of [initRtc] and of [createOffer] end up in the
    [catch (...)] of the message callback, which skips the rest. *)
Definition through_pc (m : eff PeerConnection RtcCall ()) (s : Media) : result (Media * list MediaEvent) :=
  match pc s with
  | None => Err Undefined
  | Some p =>
      '(r, s, ev) ← with_pc p m s;
      Ok (match r with Ok _ => s | Err _ => set_owner [] s end, ev)
  end.

(** One action; [None]: the join waits. *)
Definition act (closed : bool) (a : action) (s : Media) : option (result (Media * list MediaEvent)) :=
  match a with
  | ClosePc => Some (through_pc (close rtc closed) s)
  | ResetPc =>
      Some (Ok (match pc s with Some p => set_owner (DeletePc p :: owner s) (set_pc None s) | None => s end, []))
  | DeletePc p =>
      Some ('(_, s, ev) ← with_pc p (destroy rtc closed) s; Ok (set_pcs (delete p (pcs s)) s, ev))
  | MakePc =>
      Some (Ok (mkMedia (Some (next_pc s)) (<[next_pc s := newPeerConnection]> (pcs s)) (S (next_pc s)) (capture s)
                  (playback s) (call_cleanup_done s) (owner s), []))
  | InitPc turn => Some (through_pc (init rtc turn) s)
  | StopCapture =>
      Some (Ok (match capture s with Some c => set_capture (Some (mkCapture false (thread_ c))) s | None => s end, []))
  | JoinCapture =>
      match capture s with
      | None | Some (mkCapture _ Finished) => Some (Ok (s, []))
      | _ => None
      end
  | StartCapture => Some (Ok (set_capture (Some (mkCapture true Looping)) s, []))
  | StopPlayback => Some (Ok (set_playback (Playback.stop <$> playback s) s, []))
  | MakePlayback => Some (Ok (set_playback (Some (Playback.newPlayback 48000)) s, []))
  | OnTrack => Some (through_pc onTrack s)
  | CreateOffer => Some (through_pc (createOffer rtc) s)
  end.

(** The lambda given to [capture->start], in the loop of the thread. *)
Definition capture_loop (samples : list Z) (c : Capture) (s : Media) : result (Media * list MediaEvent) :=
  let goes (t : capture_pc) := Ok (set_capture (Some (mkCapture (running_ c) t)) s, []) in
  let get (next : nat → capture_pc) := match pc s with Some p => goes (next p) | None => Err Undefined end in
  let use (p : nat) (k : PeerConnection → result (Media * list MediaEvent)) :=
    match pcs s !! p with Some x => k x | None => Err Undefined end in
  match thread_ c with
  | Looping => goes (if running_ c then Reading else Finished)
  | Reading => goes (Test samples)
  | Test data => goes match pc s with Some _ => GetConnected data | None => Looping end
  | GetConnected data => get (λ p, IsConnected p data)
  | IsConnected p data => use p (λ x, goes (if connected_ x then GetTrack data else Looping))
  | GetTrack data => get (λ p, HasTrack p data)
  | HasTrack p data => use p (λ x, goes (if audio_track_ x then GetSender data else Looping))
  | GetSender data => get (λ p, Sending p data)
  | Sending p data => use p (λ x,
      if audio_track_ x
      then Ok (set_capture (Some (mkCapture (running_ c) Looping)) s, [Sent (data ≫= sample_bytes)])
      else Err Undefined)
  | Finished => Ok (s, [])
  end.

(** [track->onMessage]. *)
Definition track_message (data : message) (s : Media) : result Media :=
  match data with
  | Text _ => Ok s
  | Binary data =>
      match playback s with
      | None => Err Undefined
      | Some p => p ← Playback.write (samples_of data) p; Ok (set_playback (Some p) s)
      end
  end.

Definition step (l : label) (s : Media) : option (result (Media * list MediaEvent)) :=
  match l, owner s with
  | InitRtc turn calling, [] => Some (Ok (initRtc turn calling s, []))
  | CleanupCall, [] => Some (Ok (cleanupCall s, []))
  | OwnerGoesOn closed, a :: l => act closed a (set_owner l s)
  | StateChange state, [] =>
      p ← pc s; x ← pcs s !! p;
      if pc_ x then
        Some ('(r, s, ev) ← with_pc p (state_changed state) s;
              Ok (match r with Ok true => cleanupCall s | _ => s end, ev))
      else None
  | CaptureGoesOn samples, _ => c ← capture s; Some (capture_loop samples c s)
  | TrackArrives, [] =>
      p ← pc s; x ← pcs s !! p;
      if pc_ x && on_track_ x then
        Some (match playback s with Some b => Ok (set_playback (Some (Playback.start b)) s, []) | None => Err Undefined end)
      else None
  | TrackData data, [] =>
      p ← pc s; x ← pcs s !! p;
      if pc_ x && on_track_ x then Some ((λ s, (s, [])) <$> track_message data s) else None
  | _, _ => None
  end.

Fixpoint run (ls : list label) (s : Media) : option (result (Media * list MediaEvent)) :=
  match ls with
  | [] => Some (Ok (s, []))
  | l :: ls =>
      match step l s with
      | None => None
      | Some (Err e) => Some (Err e)
      | Some (Ok (s, out)) =>
          match run ls s with Some r => Some ((λ '(s, out'), (s, out ++ out')) <$> r) | None => None end
      end
  end.
End steps.
End Media.

(** ** Lemmas *)

Module MediaFacts.
Import PeerConnection Media.

Section facts.
Variable rtc : RtcCall → result ().
(** The library returns or throws. *)
Hypothesis rtc_throws : ∀ c, rtc c = Ok () ∨ ∃ k what, rtc c = Err (Thrown k what).

(** A method of the object does not fail but with an exception, and keeps [P]. *)
Definition returns {A} (P : PeerConnection → PeerConnection → Prop) (m : eff PeerConnection RtcCall A) : Prop :=
  ∀ x, match m x with (Err Undefined, _, _) => False | (_, x', _) => P x x' end.

(** No method takes the callback away; only [close] takes the track. *)
Definition keeps_callback (x x' : PeerConnection) : Prop := on_track_ x' = on_track_ x.
Definition keeps_track (x x' : PeerConnection) : Prop :=
  keeps_callback x x' ∧ (audio_track_ x = true → audio_track_ x' = true).
Definition makes_no_track (x x' : PeerConnection) : Prop := audio_track_ x' = true → audio_track_ x = true.

Ltac methods := intros [[] ? ? ? ?]; cbv -[rtc]; repeat match goal with |- context [rtc ?c] =>
    destruct (rtc_throws c) as [->|(?&?&->)] end; by repeat split.

Lemma close_returns closed : returns keeps_callback (close rtc closed).
Proof. destruct closed; methods. Qed.
Lemma destroy_returns closed : returns keeps_callback (destroy rtc closed).
Proof. destruct closed; methods. Qed.
Lemma init_returns turn : returns keeps_track (init rtc turn).
Proof. methods. Qed.
Lemma createOffer_returns : returns keeps_track (createOffer rtc).
Proof. methods. Qed.
Lemma state_returns state : returns keeps_track (state_changed state).
Proof. destruct state; methods. Qed.

(** The capture thread has ended, or was never started. *)
Definition quiet (s : Media) : bool :=
  match capture s with None | Some (mkCapture _ Finished) => true | _ => false end.

(** What the capture thread has read of [pc], and whether it has seen the track. *)
Definition pointed (t : capture_pc) : option nat :=
  match t with IsConnected p _ | HasTrack p _ | Sending p _ => Some p | _ => None end.
Definition tracked (t : capture_pc) : bool :=
  match t with GetSender _ | Sending _ _ => true | _ => false end.

(** While the capture thread runs, [pc] is the object that it uses. *)
Record core (s : Media) : Prop := {
  core_pc p : pc s = Some p → is_Some (pcs s !! p);
  core_live c : capture s = Some c → thread_ c = Finished ∨
    ∃ p x, pc s = Some p ∧ pcs s !! p = Some x ∧ (∀ p', pointed (thread_ c) = Some p' → p' = p) ∧
      (tracked (thread_ c) = true → audio_track_ x = true);
  core_sound p x : pcs s !! p = Some x → on_track_ x = true → is_Some (playback s);
  core_buffer b : playback s = Some b → ∃ q, holds (Playback.jitter_buffer_ b) q;
}.

(** What is left to do touches [pc] only when the capture thread has ended, and
    nothing that is not there: [q], [has] and [sound] are whether the thread has
    ended, [pc] is set and [playback] is set. *)
Fixpoint plan (q has sound : bool) (l : list action) : bool :=
  match l with
  | [] => true
  | a :: l =>
      match a with
      | ClosePc | InitPc _ => q && has && plan q has sound l
      | ResetPc => q && plan q false sound l
      | DeletePc _ => false
      | MakePc => q && plan q true sound l
      | StopCapture | StopPlayback => plan q has sound l
      | JoinCapture => plan true has sound l
      | StartCapture => q && has && plan false has sound l
      | MakePlayback => plan q has true l
      | OnTrack => has && sound && plan q has sound l
      | CreateOffer => has && plan q has sound l
      end
  end.

Definition isset {A} (o : option A) : bool := match o with Some _ => true | None => false end.

Definition planned (q : bool) (l : list action) (s : Media) : Prop :=
  (q = true → quiet s = true) ∧ plan q (isset (pc s)) (isset (playback s)) l = true.

Definition owner_ok (s : Media) : Prop :=
  match owner s with
  | DeletePc p :: l => pc s = None ∧ is_Some (pcs s !! p) ∧ planned true l s
  | l => ∃ q, planned q l s
  end.

Definition inv (s : Media) : Prop := core s ∧ owner_ok s.

Lemma new_media_inv : inv new_media.
Proof. split; [by split|]. by exists true. Qed.

(** Without a deletion pending. *)
Lemma planned_ok q s : planned q (owner s) s → owner_ok s.
Proof. intros Hp. unfold owner_ok. destruct (owner s) as [|[] l] eqn:E; try by exists q. by destruct Hp as [_ ?]. Qed.

Lemma quiet_finished s c : quiet s = true → capture s = Some c → thread_ c = Finished.
Proof. unfold quiet. intros Hq E. rewrite E in Hq. by destruct c as [? []]. Qed.

(** An object changes. *)
Definition changed (p : nat) (x : PeerConnection) (s : Media) : Media := set_pcs (<[p := x]> (pcs s)) s.

Lemma changed_core p x x' s : core s → pcs s !! p = Some x →
  (on_track_ x' = true → on_track_ x = true ∨ is_Some (playback s)) →
  quiet s = true ∨ (audio_track_ x = true → audio_track_ x' = true) → core (changed p x' s).
Proof.
  intros [Hpc Hl Hs Hb] Hp Ht Hk. split; cbn; [| | |done].
  - intros p' E. destruct (decide (p' = p)) as [->|]; [by rewrite lookup_insert_eq|].
    rewrite lookup_insert_ne by done. by apply Hpc.
  - intros c E. destruct Hk as [Hq|Hk]; [left; by eapply quiet_finished|].
    destruct (Hl c E) as [?|(p'&y&Epc&Ey&Hptr&Htr)]; [by left|right].
    exists p'. destruct (decide (p' = p)) as [->|].
    + rewrite lookup_insert_eq. exists x'. simplify_eq. split_and!; try done. intros Hd. by apply Hk, Htr.
    + rewrite lookup_insert_ne by done. by exists y.
  - intros p' y E Hy. destruct (decide (p' = p)) as [->|].
    + rewrite lookup_insert_eq in E. simplify_eq. destruct (Ht Hy); [by eapply Hs|done].
    + rewrite lookup_insert_ne in E by done. by eapply Hs.
Qed.

(** A method called through [pc]. *)
Lemma through_ok P m s l q : returns P m → core s → owner s = l → planned q l s → isset (pc s) = true →
  (∀ p x x', pc s = Some p → pcs s !! p = Some x → P x x' → core (changed p x' s)) →
  ∃ s' ev, through_pc m s = Ok (s', ev) ∧ inv s'.
Proof.
  intros Hm Hc Ho [Hq Hp] Hpc HP. destruct (pc s) as [p|] eqn:E; [|done]. destruct (core_pc s Hc p E) as [x Hx].
  unfold through_pc, with_pc. rewrite E, Hx. specialize (Hm x). specialize (HP p x).
  assert (Hdone : ∀ x', P x x' → inv (changed p x' s) ∧ inv (set_owner [] (changed p x' s))).
  { intros x' Hx'. specialize (HP x' eq_refl Hx Hx'). split; (split; [by destruct HP|]).
    - apply (planned_ok q). split; [done|]. cbn. by rewrite E, Ho.
    - by exists q. }
  destruct (m x) as [[[a|[| |k what]] x'] ev]; [|done|..]; cbn; do 2 eexists; (split; [done|]); by apply Hdone.
Qed.

(** What a step comes to. *)
Definition fine (r : option (result (Media * list MediaEvent))) : Prop :=
  match r with Some (Ok (s, _)) => inv s | Some (Err _) => False | None => True end.

Lemma fine_through P m s q l : returns P m → core s → owner s = l → planned q l s → isset (pc s) = true →
  (∀ p x x', pc s = Some p → pcs s !! p = Some x → P x x' → core (changed p x' s)) → fine (Some (through_pc m s)).
Proof. intros. by edestruct through_ok as (s'&ev&->&?). Qed.

Lemma core_owner l s : core s → core (set_owner l s).
Proof. by destruct 1. Qed.

Lemma core_capture_none s c : core s → thread_ c = Finished → core (set_capture (Some c) s).
Proof. intros [Hpc Hl Hs Hb] Hc. split; cbn; [done| |done..]. intros c' [= <-]. by left. Qed.

(** [pc] changes while the capture thread is not there. *)
Lemma core_quiet x m s n : core s → quiet s = true → (∀ p, x = Some p → is_Some (m !! p)) →
  (∀ p y, m !! p = Some y → on_track_ y = true → ∃ p' y', pcs s !! p' = Some y' ∧ on_track_ y' = true) →
  core (mkMedia x m n (capture s) (playback s) (call_cleanup_done s) (owner s)).
Proof.
  intros [Hpc Hl Hs Hb] Hq Hx Hm. split; cbn; [done| | |done].
  - intros c E. left. by eapply quiet_finished.
  - intros p y E Hy. destruct (Hm p y E Hy) as (p'&y'&E'&Hy'). by eapply Hs.
Qed.

Lemma delete_fine p s closed : core s → planned true (owner s) s → pc s = None → is_Some (pcs s !! p) →
  fine (act rtc closed (DeletePc p) s).
Proof.
  intros Hc [Hq Hp] Hpc [x Hx]. cbn. unfold with_pc. rewrite Hx. pose proof (destroy_returns closed x) as Hd.
  assert (Hdone : ∀ x', keeps_callback x x' → inv (set_pcs (delete p (pcs (changed p x' s))) (changed p x' s))).
  { intros x' Hx'. specialize (Hq eq_refl). split; [|apply (planned_ok true); by split].
    apply (core_quiet (pc s) _ s (next_pc s)); [done..|by rewrite Hpc|]. intros p' y [Hne E]%lookup_delete_Some Hy. cbn in E.
    rewrite lookup_insert_ne in E by done. by exists p', y. }
  destruct (destroy rtc closed x) as [[[a|[| |k what]] x'] ev]; [|done|..]; cbn; by apply Hdone.
Qed.

Lemma act_fine closed a l s q : core s → owner s = l → planned q (a :: l) s → fine (act rtc closed a s).
Proof.
  intros Hc Ho [Hq Hp]. cbn [plan] in Hp.
  assert (Hk : ∀ P, (∀ x x', P x x' → keeps_callback x x') → q = true → ∀ p x x', pc s = Some p → pcs s !! p = Some x →
    P x x' → core (changed p x' s)).
  { intros P HP Hq' p x x' _ E Hx'. apply (changed_core p x x' s Hc E); [|left; by apply Hq].
    intros Ht. left. by rewrite <-(HP _ _ Hx'). }
  destruct a; cbn [act].
  - apply andb_true_iff in Hp as [[Hq' Hpc]%andb_true_iff Hp].
    by eapply (fine_through keeps_callback); [by apply close_returns|..]; try done; apply Hk.
  - apply andb_true_iff in Hp as [-> Hp]. specialize (Hq eq_refl).
    assert (Hn : core (set_pc None s)) by (apply (core_quiet None _ s); try done; by eauto).
    destruct (pc s) as [p|] eqn:E; cbn.
    + split; [by apply core_owner|]. split; [done|]. split; [by apply (core_pc s Hc)|]. by rewrite Ho.
    + split; [done|]. apply (planned_ok true). rewrite Ho. split; [done|by rewrite E].
  - done.
  - apply andb_true_iff in Hp as [-> Hp]. specialize (Hq eq_refl). split; [|apply (planned_ok true); by rewrite <-Ho in Hp].
    apply core_quiet; try done.
    + intros p [= <-]. by rewrite lookup_insert_eq.
    + intros p y E Hy. destruct (decide (p = next_pc s)) as [->|]; [rewrite lookup_insert_eq in E; by simplify_eq|].
      rewrite lookup_insert_ne in E by done. by eauto.
  - apply andb_true_iff in Hp as [[Hq' Hpc]%andb_true_iff Hp].
    eapply (fine_through keeps_track); [by apply init_returns|..]; try done. apply Hk; [by intros ?? []|done].
  - destruct (capture s) as [c|] eqn:E; cbn; (split; [|apply (planned_ok q); cbn; rewrite Ho]); try done.
    + destruct Hc as [Hpc Hl Hs Hb]. split; cbn; [done| |done..]. intros c' [= <-]. exact (Hl c E).
    + split; [|done]. unfold quiet in *. rewrite E in Hq. by destruct c as [? []].
  - destruct (capture s) as [[run []]|] eqn:E; cbn; try done; (split; [done|]); apply (planned_ok true); rewrite Ho;
      (split; [|done]); intros _; unfold quiet; by rewrite E.
  - apply andb_true_iff in Hp as [[-> Hpc]%andb_true_iff Hp]. split; cbn; [|apply (planned_ok false); cbn; by rewrite Ho].
    destruct (pc s) as [p|] eqn:E; [|done]. destruct (core_pc s Hc p E) as [x Hx]. destruct Hc as [? ? ? ?].
    split; cbn; [done| |done..]. intros c [= <-]. right. by exists p, x.
  - split; cbn; [|apply (planned_ok q); cbn; rewrite Ho; split; [done|]; cbn; by destruct (playback s)].
    destruct Hc as [Hpc Hl Hs Hb]. split; cbn; [done..| |].
    + intros p x E Hx. destruct (Hs p x E Hx) as [b ->]. done.
    + intros b. destruct (playback s) as [b'|]; [|done]. intros [= <-]. destruct (Hb b' eq_refl) as [z Hz].
      exists []. by eapply holds_clear.
  - split; cbn; [|apply (planned_ok q); cbn; by rewrite Ho]. destruct Hc as [Hpc Hl Hs Hb]. split; cbn; [done..| |].
    + done.
    + intros b [= <-]. exists []. apply holds_new.
  - apply andb_true_iff in Hp as [[Hpc Hsnd]%andb_true_iff Hp].
    eapply (fine_through (λ x x', audio_track_ x' = audio_track_ x)); [by intros []|..]; try done.
    intros p x x' _ E Hx'. apply (changed_core p x x' s Hc E); [|right; congruence].
    intros _. right. by destruct (playback s).
  - apply andb_true_iff in Hp as [Hpc Hp].
    eapply (fine_through keeps_track); [by apply createOffer_returns|..]; try done.
    intros p x x' _ E [Hcb Ht]. apply (changed_core p x x' s Hc E); [|by right]. intros Hx'. left. by rewrite <-Hcb.
Qed.

(** *** The capture thread *)

Lemma capture_goes t c s p x : inv s → capture s = Some c → thread_ c ≠ Finished → pc s = Some p → pcs s !! p = Some x →
  (∀ p', pointed t = Some p' → p' = p) → (tracked t = true → audio_track_ x = true) →
  inv (set_capture (Some (mkCapture (running_ c) t)) s).
Proof.
  intros [[Hpc Hl Hs Hb] Ho] E Ht Ep Ex Hptr Htr. split.
  - split; cbn; [done| |done..]. intros c' [= <-]. right. by exists p, x.
  - assert (Hq : quiet s = false) by (unfold quiet; rewrite E; by destruct c as [? []]).
    assert (Hplan : ∀ q l, planned q l s → planned q l (set_capture (Some (mkCapture (running_ c) t)) s)).
    { intros [] l [Hq' Hp]; [by rewrite Hq' in Hq|]. by split. }
    unfold owner_ok in *. cbn. destruct (owner s) as [|[] l]; try (destruct Ho as [q Ho]; exists q; by apply Hplan).
    destruct Ho as (?&?&Ho). split_and!; [done..|]. by apply Hplan.
Qed.

Lemma capture_fine samples c s : inv s → capture s = Some c → fine (Some (capture_loop samples c s)).
Proof.
  intros Hs E. destruct (core_live s (proj1 Hs) c E) as [Hf|(p&x&Ep&Ex&Hptr&Htr)].
  - unfold capture_loop. rewrite Hf. exact Hs.
  - assert (thread_ c = Finished ∨ thread_ c ≠ Finished) as [Hf|Hf] by (destruct (thread_ c); by auto);
      [unfold capture_loop; rewrite Hf; exact Hs|].
    assert (Hgoes : ∀ t, (∀ p', pointed t = Some p' → p' = p) → (tracked t = true → audio_track_ x = true) →
      inv (set_capture (Some (mkCapture (running_ c) t)) s)) by (intros t; by eapply capture_goes).
    unfold capture_loop. destruct (thread_ c) as [| | | |p' data| |p' data| |p' data|]; cbn in Hptr, Htr;
      try (specialize (Hptr p' eq_refl); subst p'); rewrite ?Ep, ?Ex; cbn.
    all: try (destruct (connected_ x)); try (destruct (running_ c)); try (destruct (audio_track_ x) eqn:Hx).
    all: try done; try (by specialize (Htr eq_refl)).
    all: apply Hgoes; cbn; try done; by intros ? [= <-].
Qed.

(** *** Steps and runs *)

Lemma initRtc_inv turn calling s : inv s → owner s = [] → quiet s = true → inv (initRtc turn calling s).
Proof.
  intros [Hc _] _ Hq. split; [by destruct Hc|]. apply (planned_ok true). split; [done|].
  unfold initRtc. cbn. destruct (pc s), calling; reflexivity.
Qed.

Lemma cleanupCall_inv s : inv s → inv (cleanupCall s).
Proof.
  intros Hs. unfold cleanupCall. destruct (call_cleanup_done s); [done|].
  split; [by destruct (proj1 Hs)|]. apply (planned_ok false). split; [done|]. cbn. by destruct (pc s).
Qed.

Lemma state_fine state p x s : inv s → owner s = [] → pc s = Some p → pcs s !! p = Some x →
  fine (Some ('(r, s, ev) ← with_pc p (state_changed state) s;
              Ok (match r with Ok true => cleanupCall s | _ => s end, ev))).
Proof.
  intros [Hc Ho] E Ep Ex. unfold with_pc. rewrite Ex. pose proof (state_returns state x) as Hst.
  assert (Hch : ∀ x', keeps_track x x' → inv (changed p x' s)).
  { intros x' [Hcb Ht]. split; [apply (changed_core p x); [done..| |by right]; intros ?; left; by rewrite <-Hcb|].
    unfold owner_ok in *. cbn. by rewrite E in *. }
  destruct (state_changed state x) as [[[[]|[| |k what]] x'] ev]; try done; cbn; try (apply cleanupCall_inv); by apply Hch.
Qed.

Lemma playback_inv b s : inv s → playback s ≠ None → (∃ q, holds (Playback.jitter_buffer_ b) q) → inv (set_playback (Some b) s).
Proof.
  intros [[Hpc Hl Hs Hb] Ho] Hn Hq. destruct (playback s) eqn:E; [|done]. split.
  - split; cbn; [done..| |by intros ? [= <-]]. intros; by eexists.
  - unfold owner_ok, planned in *. cbn. by rewrite E in Ho.
Qed.

Lemma message_fine data s : inv s → playback s ≠ None → ∃ s', track_message data s = Ok s' ∧ inv s'.
Proof.
  intros Hs Hn. destruct data as [data|text]; [|by exists s]. cbn. destruct (playback s) as [b|] eqn:E; [|done].
  destruct (core_buffer s (proj1 Hs) b E) as [q Hq]. unfold Playback.write.
  destruct (write_holds (samples_of data) _ q Hq) as (jb&->&_&Hjb). cbn. eexists. split; [done|].
  apply playback_inv; [done|by rewrite E|]. by eexists.
Qed.

(** [initRtc] starts when the capture thread has ended. *)
Definition careful (l : label) (s : Media) : bool := match l with InitRtc _ _ => quiet s | _ => true end.

Lemma step_fine l s : inv s → careful l s = true → fine (step rtc l s).
Proof.
  intros Hs Hl. pose proof Hs as [Hc Ho]. unfold step.
  destruct l as [turn calling| |closed|state|samples| |data].
  - destruct (owner s) eqn:E; [|done]. by apply initRtc_inv.
  - destruct (owner s) eqn:E; [|done]. by apply cleanupCall_inv.
  - destruct (owner s) as [|a l] eqn:E; [done|]. pose proof Hc as Hc'%(core_owner l). unfold owner_ok in Ho. rewrite E in Ho.
    destruct a; try (destruct Ho as [q Ho]; by eapply act_fine). destruct Ho as (?&?&?). by apply delete_fine.
  - destruct (owner s) eqn:E; [|done]. destruct (pc s) as [p|] eqn:Ep; [|done]. cbn.
    destruct (pcs s !! p) as [x|] eqn:Ex; [|done]. cbn. destruct (pc_ x); [|done]. by apply (state_fine state p x).
  - destruct (capture s) as [c|] eqn:E; [|done]. by apply capture_fine.
  - destruct (owner s) eqn:E; [|done]. destruct (pc s) as [p|] eqn:Ep; [|done]. cbn.
    destruct (pcs s !! p) as [x|] eqn:Ex; [|done]. cbn. destruct (pc_ x && on_track_ x) eqn:Hx; [|done].
    apply andb_true_iff in Hx as [_ Hx]. destruct (core_sound s Hc p x Ex Hx) as [b Eb]. rewrite Eb.
    apply playback_inv; [done|by rewrite Eb|]. exact (core_buffer s Hc b Eb).
  - destruct (owner s) eqn:E; [|done]. destruct (pc s) as [p|] eqn:Ep; [|done]. cbn.
    destruct (pcs s !! p) as [x|] eqn:Ex; [|done]. cbn. destruct (pc_ x && on_track_ x) eqn:Hx; [|done].
    apply andb_true_iff in Hx as [_ Hx]. destruct (core_sound s Hc p x Ex Hx) as [b Eb].
    destruct (message_fine data s Hs) as (s'&->&?); [by rewrite Eb|done].
Qed.

Fixpoint careful_run (ls : list label) (s : Media) : bool :=
  match ls with
  | [] => true
  | l :: ls => careful l s && match step rtc l s with Some (Ok (s, _)) => careful_run ls s | _ => true end
  end.

Lemma careful_fine ls : ∀ s, inv s → careful_run ls s = true → fine (run rtc ls s).
Proof.
  induction ls as [|l ls IH]; intros s Hs Hc; cbn [run]; [done|]. apply andb_true_iff in Hc as [Hl Hc].
  pose proof (step_fine l s Hs Hl) as Hf. destruct (step rtc l s) as [[[s1 ev]|e]|]; [|done..].
  specialize (IH s1 Hf Hc). by destruct (run rtc ls s1) as [[[s2 ev2]|e]|].
Qed.

(** *** What is sent *)

Definition sent (evs : list MediaEvent) : list bytes := omap (λ e, match e with Sent data => Some data | _ => None end) evs.

Lemma sent_asked p l : sent (map (Asked p) l) = [].
Proof. by induction l. Qed.

(** Nobody has a track to send on, or is about to get one. *)
Definition silent (s : Media) : Prop :=
  (∀ p x, pcs s !! p = Some x → audio_track_ x = false) ∧ CreateOffer ∉ owner s.

Definition silent_after (r : option (result (Media * list MediaEvent))) : Prop :=
  match r with Some (Ok (s, ev)) => silent s ∧ sent ev = [] | _ => True end.

Lemma changed_silent p x x' s : silent s → pcs s !! p = Some x → makes_no_track x x' → silent (changed p x' s).
Proof.
  intros [Hs Ho] E Hx. split; [|done]. intros p' y Ey. cbn in Ey. destruct (decide (p' = p)) as [->|].
  - rewrite lookup_insert_eq in Ey. injection Ey as <-. specialize (Hs p x E). unfold makes_no_track in Hx.
    destruct (audio_track_ x'); [by rewrite Hx in Hs|done].
  - rewrite lookup_insert_ne in Ey by done. by eapply Hs.
Qed.

Lemma silent_owner l s : silent s → CreateOffer ∉ l → silent (set_owner l s).
Proof. by intros []. Qed.

Lemma with_silent {A} p (m : eff PeerConnection RtcCall A) s r s' ev : returns makes_no_track m → silent s →
  with_pc p m s = Ok (r, s', ev) → silent s' ∧ sent ev = [].
Proof.
  intros Hm Hs E. unfold with_pc in E. destruct (pcs s !! p) as [x|] eqn:Ex; [|done]. specialize (Hm x).
  destruct (m x) as [[[a|[| |k what]] x'] evs]; try done; simplify_eq/=; (split; [by eapply changed_silent|apply sent_asked]).
Qed.

Lemma through_silent m s : returns makes_no_track m → silent s → silent_after (Some (through_pc m s)).
Proof.
  intros Hm Hs. unfold through_pc. destruct (pc s) as [p|]; [|done].
  destruct (with_pc p m s) as [[[r s'] ev]|] eqn:E; [|done]. cbn.
  destruct (with_silent p m s r s' ev Hm Hs E) as [Hs' Hev]. split; [|done].
  destruct r; [done|]. apply silent_owner; [done|]. apply not_elem_of_nil.
Qed.

Lemma close_no_track closed : returns makes_no_track (close rtc closed).
Proof. destruct closed; methods. Qed.
Lemma destroy_no_track closed : returns makes_no_track (destroy rtc closed).
Proof. destruct closed; methods. Qed.
Lemma init_no_track turn : returns makes_no_track (init rtc turn).
Proof. methods. Qed.
Lemma onTrack_no_track : returns makes_no_track onTrack.
Proof. methods. Qed.
Lemma state_no_track state : returns makes_no_track (state_changed state).
Proof. destruct state; methods. Qed.

(** What the other actions do not touch. *)
Lemma silent_same s s' : silent s → pcs s' = pcs s → owner s' = owner s → silent s'.
Proof. unfold silent. by intros ? -> ->. Qed.

Lemma act_silent closed a s : silent s → a ≠ CreateOffer → silent_after (act rtc closed a s).
Proof.
  intros Hs Ha. destruct a; cbn [act]; try done.
  - apply through_silent; [apply close_no_track|done].
  - destruct (pc s); [|done]. split; [|done]. destruct Hs as [Hx Ho]. split; [done|].
    by intros [?|?]%elem_of_cons.
  - destruct (with_pc p (destroy rtc closed) s) as [[[r s'] ev]|] eqn:E; [|done]. cbn.
    destruct (with_silent p _ s r s' ev (destroy_no_track closed) Hs E) as [[Hx Ho] Hev]. split; [|done]. split; [|done].
    intros p' x E'. cbn in E'. apply lookup_delete_Some in E' as [_ E']. by eapply Hx.
  - split; [|done]. destruct Hs as [Hx Ho]. split; [|done]. intros p x Ex. cbn in Ex.
    destruct (decide (p = next_pc s)) as [->|]; [rewrite lookup_insert_eq in Ex; by simplify_eq|].
    rewrite lookup_insert_ne in Ex by done. by eapply Hx.
  - apply through_silent; [apply init_no_track|done].
  - destruct (capture s) as [[]|]; by split.
  - by destruct (capture s) as [[? []]|].
  - apply through_silent; [apply onTrack_no_track|done].
Qed.

Lemma capture_silent samples c s : silent s → silent_after (Some (capture_loop samples c s)).
Proof.
  intros Hs. pose proof Hs as [Hx Ho]. unfold capture_loop.
  destruct (thread_ c) as [| | | |p data| |p data| |p data|]; try (by split); cbn;
    try (by destruct (pc s)); (destruct (pcs s !! p) as [x|] eqn:E; [|done]); try (by split).
  rewrite (Hx p x E). done.
Qed.

Lemma cleanupCall_silent s : silent s → silent (cleanupCall s).
Proof.
  intros Hs. unfold cleanupCall. destruct (call_cleanup_done s); [done|]. destruct Hs as [Hx _]. split; [done|]. cbn.
  destruct (pc s); set_solver.
Qed.

Definition not_calling (l : label) : Prop := match l with InitRtc _ calling => calling = false | _ => True end.

Lemma step_silent l s : silent s → not_calling l → silent_after (step rtc l s).
Proof.
  intros Hs Hl. pose proof Hs as [Hx Ho]. unfold step. destruct l as [turn calling| |closed|state|samples| |data].
  - destruct (owner s); [|done]. cbn in Hl. subst calling. split; [|done]. split; [done|]. cbn. destruct (pc s); set_solver.
  - destruct (owner s); [|done]. split; [|done]. by apply cleanupCall_silent.
  - destruct (owner s) as [|a l] eqn:E; [done|]. apply not_elem_of_cons in Ho as [Ha Ho].
    apply act_silent; [by apply silent_owner|congruence].
  - destruct (owner s) eqn:E; [|done]. destruct (pc s) as [p|]; [|done]. cbn. destruct (pcs s !! p) as [x|]; [|done]. cbn.
    destruct (pc_ x); [|done]. destruct (with_pc p (state_changed state) s) as [[[r s'] ev]|] eqn:Ew; [|done].
    destruct (with_silent p _ s r s' ev (state_no_track state) Hs Ew) as [Hs' Hev]. cbn. split; [|done].
    destruct r as [[]|]; try done. by apply cleanupCall_silent.
  - destruct (capture s); [|done]. by apply capture_silent.
  - destruct (owner s) eqn:E; [|done]. destruct (pc s) as [p|]; [|done]. cbn. destruct (pcs s !! p) as [x|]; [|done]. cbn.
    destruct (_ && _); [|done]. destruct (playback s); [|done]. by split.
  - destruct (owner s) eqn:E; [|done]. destruct (pc s) as [p|]; [|done]. cbn. destruct (pcs s !! p) as [x|]; [|done]. cbn.
    destruct (_ && _); [|done]. destruct data; cbn; [|by split]. destruct (playback s) as [b|]; [|done].
    by destruct (Playback.write _ b).
Qed.

Lemma run_silent ls : ∀ s, silent s → Forall not_calling ls → silent_after (run rtc ls s).
Proof.
  induction ls as [|l ls IH]; intros s Hs Hl; cbn [run]; [by split|]. apply Forall_cons in Hl as [Hl Hls].
  pose proof (step_silent l s Hs Hl) as Hst. destruct (step rtc l s) as [[[s1 ev]|e]|]; [|done..].
  destruct Hst as [Hs1 Hev]. specialize (IH s1 Hs1 Hls). destruct (run rtc ls s1) as [[[s2 ev2]|e]|]; [|done..].
  destruct IH as [? Hev2]. split; [done|]. unfold sent in *. by rewrite omap_app, Hev, Hev2.
Qed.

(** A frame read while the connection is up and has a track. *)
Lemma frame_sent data s p x b : capture s = Some (mkCapture b Reading) → pc s = Some p → pcs s !! p = Some x →
  connected_ x = true → audio_track_ x = true →
  run rtc (replicate 8 (CaptureGoesOn data)) s =
    Some (Ok (set_capture (Some (mkCapture b Looping)) s, [Sent (data ≫= sample_bytes)])).
Proof.
  destruct s as [pc0 m n c pb cl ow]. cbn. intros -> -> Ex Hc Ht. cbn. do 6 (rewrite ?Ex; cbn; rewrite ?Hc, ?Ht; cbn). done.
Qed.

(** *** A capture that was told to stop ends *)

Definition left_over (t : capture_pc) : nat :=
  match t with
  | Finished => 0 | Looping => 1 | Sending _ _ => 2 | GetSender _ => 3 | HasTrack _ _ => 4 | GetTrack _ => 5
  | IsConnected _ _ => 6 | GetConnected _ => 7 | Test _ => 8 | Reading => 9
  end.

Lemma capture_advances c s : running_ c = false → thread_ c ≠ Finished →
  match capture_loop [] c s with
  | Ok (s', _) => ∃ t, capture s' = Some (mkCapture false t) ∧ (left_over t < left_over (thread_ c))%nat
  | Err _ => True
  end.
Proof.
  destruct c as [b t]. cbn. intros -> Ht. destruct t as [| | | |p data| |p data| |p data|]; cbn; try done;
    try (destruct (pc s)); try (destruct (pcs s !! p) as [x|]; [|done]); try (destruct (connected_ x));
    try (destruct (audio_track_ x)); cbn; try done; (eexists; split; [done|cbn; lia]).
Qed.

Lemma stopped_ends n : ∀ s c, inv s → capture s = Some c → running_ c = false → (left_over (thread_ c) ≤ n)%nat →
  ∃ k s' ev, (k ≤ n)%nat ∧ run rtc (replicate k (CaptureGoesOn [])) s = Some (Ok (s', ev)) ∧ quiet s' = true.
Proof.
  induction n as [|n IH]; intros s c Hs E Hr Hn;
    (assert (thread_ c = Finished ∨ thread_ c ≠ Finished) as [Hf|Hf] by (destruct (thread_ c); by auto);
      [exists 0%nat, s, []; split; [lia|]; split; [done|]; unfold quiet; rewrite E; by destruct c as [? []]|]).
  { destruct (thread_ c); cbn in Hn; (done || lia). }
  pose proof (capture_fine [] c s Hs E) as Hi. pose proof (capture_advances c s Hr Hf) as Ha.
  destruct (capture_loop [] c s) as [[s1 ev1]|] eqn:Es; [|done]. destruct Ha as (t&E1&Ht).
  destruct (IH s1 _ Hi E1 eq_refl) as (k&s'&ev&Hk&Hrun&Hq); [cbn; lia|].
  exists (S k), s', (ev1 ++ ev). split; [lia|]. split; [|done].
  cbn [replicate run]. unfold step. rewrite E. cbn. by rewrite Es, Hrun.
Qed.
End facts.
End MediaFacts.

(** ** Property *)

Section example.
Import Media.

(** A call that connects, and is given up by the user alone: the session is reset
    and the capture thread goes on, into a frame, when the next call begins. *)
Definition first_call (turn : ClientTurn) : list label :=
  InitRtc turn true :: replicate 8 (OwnerGoesOn false) ++ [StateChange PcConnected; CaptureGoesOn []].
Definition second_call (turn : ClientTurn) : list label :=
  first_call turn ++ [CaptureGoesOn []; CaptureGoesOn []; InitRtc turn true; OwnerGoesOn false; OwnerGoesOn false;
    CaptureGoesOn []].

(** C35: the sound of a call.  When [initRtc] runs only after the capture of the
    call before has ended, which [cleanupCall] sees to, every interleaving of the
    capture thread with [initRtc], [cleanupCall] and the callbacks is safe: no
    object is used that was deleted or never made, and a capture that was told to
    stop ends within nine actions.  Without that it is not: [second_call] uses the
    connection that is being replaced.  A client that did not make the offer sends
    nothing, ever; one whose connection is up and has a track sends each frame,
    and what the other party plays from the bytes are the samples of the frame. *)
Theorem media_threads rtc : (∀ c, rtc c = Ok () ∨ ∃ k what, rtc c = Err (Thrown k what)) →
  (∀ ls, MediaFacts.careful_run rtc ls new_media = true →
    match run rtc ls new_media with
    | Some (Ok (s, _)) => ∀ c, capture s = Some c → running_ c = false →
        ∃ k s' ev, (k ≤ 9)%nat ∧ run rtc (replicate k (CaptureGoesOn [])) s = Some (Ok (s', ev)) ∧
          MediaFacts.quiet s' = true
    | Some (Err _) => False
    | None => True
    end) ∧
  (∀ turn, run (λ _, Ok ()) (second_call turn) new_media = Some (Err Undefined)) ∧
  (∀ ls, Forall MediaFacts.not_calling ls →
    match run rtc ls new_media with Some (Ok (_, ev)) => MediaFacts.sent ev = [] | _ => True end) ∧
  (∀ data s p x b, capture s = Some (mkCapture b Reading) → pc s = Some p → pcs s !! p = Some x →
    PeerConnection.connected_ x = true → PeerConnection.audio_track_ x = true → Forall sample_ok data →
    ∃ packet, run rtc (replicate 8 (CaptureGoesOn data)) s =
        Some (Ok (set_capture (Some (mkCapture b Looping)) s, [Sent packet])) ∧
      ∀ other player, playback other = Some player →
        track_message (Binary packet) other = (λ p, set_playback (Some p) other) <$> Playback.write data player).
Proof.
  intros Hrtc. split_and!.
  - intros ls Hc. pose proof (MediaFacts.careful_fine rtc Hrtc ls _ MediaFacts.new_media_inv Hc) as Hf.
    destruct (run rtc ls new_media) as [[[s ev]|e]|]; [|done..]. intros c E Hr.
    apply (MediaFacts.stopped_ends rtc 9 s c); [done..|]. destruct (thread_ c); cbn; lia.
  - reflexivity.
  - intros ls Hl. assert (Hs : MediaFacts.silent new_media) by (split; [done|apply not_elem_of_nil]).
    pose proof (MediaFacts.run_silent rtc Hrtc ls _ Hs Hl) as Hr.
    destruct (run rtc ls new_media) as [[[s ev]|e]|]; [apply Hr|done..].
  - intros data s p x b Ec Ep Ex Hc Ht Hd. exists (data ≫= sample_bytes).
    split; [by eapply MediaFacts.frame_sent|]. intros other player E. unfold track_message.
    rewrite E, samples_of_bytes by done. by destruct (Playback.write data player).
Qed.

(** The call of [first_call], one frame of it, and the beginning of its end. *)
Lemma media_threads_witness :
  let turn := mkClientTurn "turn:t" "turns:t" "u" "p" in
  ∃ s ev, run (λ _, Ok ()) (first_call turn ++ replicate 8 (CaptureGoesOn [1; -2]) ++ [CleanupCall; OwnerGoesOn false])
      new_media = Some (Ok (s, ev)) ∧ MediaFacts.sent ev = [[1; 0; 254; 255]] ∧
    ∃ k s' ev', (k ≤ 9)%nat ∧ run (λ _, Ok ()) (replicate k (CaptureGoesOn [])) s = Some (Ok (s', ev')) ∧
      MediaFacts.quiet s' = true.
Proof.
  cbv zeta. destruct (run _ _ new_media) as [[[s ev]|e]|] eqn:E; [|by vm_compute in E..].
  exists s, ev. split; [done|]. split; [vm_compute in E; by injection E as _ <-|].
  pose proof (proj1 (media_threads (λ _, Ok ()) ltac:(by left))
    (first_call (mkClientTurn "turn:t" "turns:t" "u" "p") ++ replicate 8 (CaptureGoesOn [1; -2]) ++
      [CleanupCall; OwnerGoesOn false]) ltac:(by vm_compute)) as Hs.
  rewrite E in Hs. vm_compute in E. injection E as <- _. by eapply Hs.
Defined.
End example.
