(* ===== verification/HttpSessions.v ===== *)
(** * The backend, handler by handler (Session and HttpServer in src/backend/api/http_server.cpp)

    A [Session] handshakes, reads one request, and either answers it and shuts the
    stream down, or hands the stream to the WebSocket server.  With the sessions of
    WsSessions behind it this is the whole backend as a client sees it; main.cpp
    sets the WebSocket server before it runs the HTTP server.  A step is one
    completion handler. *)

From Stdlib Require Import Ascii.
From S2P Require Export WsSessions.
From S2P Require Import Api.

Module HttpSession.

(** The outstanding operation, or how the session ended. *)
Inductive waiting := Handshaking | ReadingRequest | Writing | ShutDown | HandedOver | Failed.
#[export] Instance waiting_eq_dec : EqDecision waiting.
Proof. solve_decision. Defined.

Inductive completion :=
  | SocketAccepted (ec : bool)
  | HandshakeDone (id : nat) (ec : bool)
  | RequestRead (id : nat) (request : option (bool * Request))   (* whether it is an upgrade; None is an error *)
  | ResponseWritten (id : nat)
  | Signal (c : WsSession.completion).

Inductive HttpEvent := Wrote (id : nat) (response : Response) | Shutdown (id : nat) | Ws (e : WsEvent).

Section server.
Context `{OpenSSL, Json, Sqlite, JwtCpp, !IterOrder string CallSession}.

Record HttpServer := mkHttpServer {
  auth_service : AuthService.AuthService;
  ws_server_ : WsSession.SignalServer;
  sessions : gmap nat waiting;
  next_session : nat;
}.

Abbreviation M := (eff HttpServer HttpEvent).

Variable turn_config : TurnConfig.

Definition set_session (id : nat) (x : waiting) : M () := λ w,
  (Ok (), mkHttpServer (auth_service w) (ws_server_ w) (<[id := x]> (sessions w)) (next_session w), []).
Definition with_service {A} (m : eff AuthService.AuthService Empty_set A) : M A := λ w,
  let '(r, s, _) := m (auth_service w) in (r, mkHttpServer s (ws_server_ w) (sessions w) (next_session w), []).
Definition with_ws_server {A} (m : eff WsSession.SignalServer WsEvent A) : M A := λ w,
  let '(r, s, ev) := m (ws_server_ w) in
  (r, mkHttpServer (auth_service w) s (sessions w) (next_session w), map Ws ev).

(** [HttpServer::accept], with the construction and the [run] of the session. *)
Definition accept (ec : bool) : M () := λ w,
  if ec then (Ok (), w, []) else
  (Ok (), mkHttpServer (auth_service w) (ws_server_ w) (<[next_session w := Handshaking]> (sessions w))
            (S (next_session w)), []).

Definition on_handshake (id : nat) (ec : bool) : M () := set_session id (if ec then Failed else ReadingRequest).

(** The handler of [read_request], with [handle_request]; the clock is that of the
    handler of the route or of the verification of the token. *)
Definition on_request (env : RouterInputs) (clock : nat → Z) (id : nat) (request : option (bool * Request)) : M () :=
  match request with
  | None => set_session id Failed
  | Some (is_upgrade, req) =>
      a ← with_service (handle_request (registerRoutes turn_config clock ∅) is_upgrade req);
      match a with
      | ToWebSocket target =>
          set_session id HandedOver;;
          w ← get;
          with_ws_server (WsSession.on_completion (AuthService.jwt_ (auth_service w)) turn_config env
            (WsSession.Upgraded (clock 0%nat) target))
      | Answered response => set_session id Writing;; emit (Wrote id response)
      end
  end.

(** The stream is shut down whether or not the response was written. *)
Definition on_written (id : nat) : M () := set_session id ShutDown;; emit (Shutdown id).

(** A handler runs for the operation that a session waits for. *)
Definition when_waiting (id : nat) (x : waiting) (m : M ()) : M () :=
  w ← get; if decide (sessions w !! id = Some x) then m else mret ().

Definition on_completion (env : RouterInputs) (clock : nat → Z) (c : completion) : M () :=
  match c with
  | SocketAccepted ec => accept ec
  | HandshakeDone id ec => when_waiting id Handshaking (on_handshake id ec)
  | RequestRead id request => when_waiting id ReadingRequest (on_request env clock id request)
  | ResponseWritten id => when_waiting id Writing (on_written id)
  | Signal (WsSession.Upgraded _ _) => mret ()       (* only from a session *)
  | Signal c =>
      w ← get;
      with_ws_server (WsSession.on_completion (AuthService.jwt_ (auth_service w)) turn_config env c)
  end.

Definition new_server (service : AuthService.AuthService) (timeout : Z) : HttpServer :=
  mkHttpServer service (WsSession.new_server timeout) ∅ 0.

(** The states of the backend and what it did, from its start. *)
Inductive serving (service : AuthService.AuthService) : HttpServer → list HttpEvent → Prop :=
  | serving_start timeout : serving service (new_server service timeout) []
  | serving_step w evs env clock c w' ev : serving service w evs → inputs_ok env → (∀ k, 0 ≤ clock k < 2 ^ 32) →
      on_completion env clock c w = (Ok (), w', ev) → serving service w' (evs ++ ev).
End server.
End HttpSession.

(** ** Lemmas *)

Module HttpSessionFacts.
Import HttpSession.

Section facts.
Context `{OpenSSLSpec, JsonSpec, SqliteSpec, !SqliteUp, !JwtCpp, !JwtCppSpec, !IterOrder string CallSession}.
Context (cfg : TurnConfig) (cfg_good : cfg_ok cfg).

(** No handler changes the secret or the lifetime of the tokens. *)
Definition keeps {A} (s : AuthService.AuthService) (o : result A * AuthService.AuthService * list Empty_set) : Prop :=
  AuthService.jwt_ (out_state o) = AuthService.jwt_ s ∧ AuthService.ttl_ (out_state o) = AuthService.ttl_ s.

Lemma register_keeps req s : keeps s (register_route req s).
Proof.
  unfold keeps, register_route. destruct (json_parse (req_body req)) as [j|]; [|done].
  destruct (json_get j "userId") as [uv|]; [|done]. destruct (json_get j "password") as [pv|]; [|done].
  destruct (to_text uv) as [u|[| |k w]]; [|done..|by destruct k]. rewrite bind_lift.
  destruct (to_text pv) as [p|[| |k w]]; [|done..|by destruct k]. rewrite bind_lift.
  unfold AuthService.registerUser. destruct (UserStore.addUser u p (AuthService.store_ s)) as [[[[]|[| |k w]] d] ev];
    [done..|by destruct k].
Qed.

(** Every request is handled, and leaves the service as it was but for its users. *)
Lemma request_handled clock up req s : service_ok s clock →
  ∃ a s', handle_request (registerRoutes cfg clock ∅) up req s = (Ok a, s', []) ∧
    AuthService.jwt_ s' = AuthService.jwt_ s ∧ AuthService.ttl_ s' = AuthService.ttl_ s.
Proof.
  intros Hs. destruct (handle_safe (registerRoutes cfg clock ∅) up req s) as (a&s'&E&Hs').
  { intros h [[_ ->]|[[_ ->]|[_ ->]]]%route_lookup; [apply register_safe| |by apply login_safe].
    unfold safe. by rewrite credentials_route_eq. }
  exists a, s'. split; [done|]. destruct Hs' as [->|(h&Hh&<-)]; [done|].
  destruct (route_lookup _ _ _ _ Hh) as [[_ ->]|[[_ ->]|[_ ->]]]; [apply register_keeps|by rewrite credentials_route_eq|].
  by rewrite (proj2 (login_safe clock req s Hs)).
Qed.

(** What a session did. *)
Definition about (id : nat) (e : HttpEvent) : bool :=
  match e with Wrote i _ | Shutdown i => bool_decide (i = id) | Ws _ => false end.
Definition of_session (id : nat) (evs : list HttpEvent) : list HttpEvent := filter (λ e, about id e = true) evs.

(** Nothing is written before a request was read, and then one response; the
    stream is shut down after it. *)
Definition history (id : nat) (x : option waiting) (evs : list HttpEvent) : Prop :=
  match x with
  | Some Writing => ∃ r, of_session id evs = [Wrote id r]
  | Some ShutDown => ∃ r, of_session id evs = [Wrote id r; Shutdown id]
  | _ => of_session id evs = []
  end.

Lemma of_session_app id l l' : of_session id (l ++ l') = of_session id l ++ of_session id l'.
Proof. apply filter_app. Qed.
Lemma of_session_ws id l : of_session id (map Ws l) = [].
Proof. by induction l. Qed.

(** The events of other sessions. *)
Lemma history_other id x evs ev : history id x evs → of_session id ev = [] → history id x (evs ++ ev).
Proof. unfold history. rewrite of_session_app. intros Hh ->. by rewrite app_nil_r. Qed.

Variable service : AuthService.AuthService.
Let secret : string := AuthService.jwt_ service.

Record inv (w : HttpServer) (evs : list HttpEvent) : Prop := {
  inv_secret : AuthService.jwt_ (auth_service w) = secret;
  inv_ttl : AuthService.ttl_ (auth_service w) = AuthService.ttl_ service;
  inv_ws : WsSession.serving secret cfg (ws_server_ w);
  inv_fresh id : is_Some (sessions w !! id) → (id < next_session w)%nat;
  inv_history id : history id (sessions w !! id) evs;
}.

(** The writes of the WebSocket sessions go to sessions that are not closed. *)
Definition ws_ok (w : HttpServer) (e : HttpEvent) : Prop :=
  match e with Ws e => WsSessionFacts.write_ok (WsSession.sessions (ws_server_ w)) e | _ => True end.

(** The events of the WebSocket server. *)
Definition ws_events (evs : list HttpEvent) : list WsEvent :=
  omap (λ e, match e with Ws e => Some e | _ => None end) evs.

(** A message is sent to a WebSocket session to which another is being written. *)
Definition overlap (w : HttpServer) (ev : list HttpEvent) : Prop :=
  WsSessionFacts.overlapping (WsSession.writing (ws_server_ w)) (ws_events ev).

(** What a handler comes to. *)
Definition good (w : HttpServer) (evs : list HttpEvent) (o : result () * HttpServer * list HttpEvent) : Prop :=
  match o with
  | (Ok _, w', ev) => inv w' (evs ++ ev) ∧ Forall (ws_ok w') ev
  | (Err e, _, ev) => e = Undefined ∧ overlap w ev
  end.

Lemma moved id x w evs ev : inv w evs → (id < next_session w)%nat → history id (Some x) (evs ++ ev) →
  (∀ i, i ≠ id → of_session i ev = []) →
  inv (mkHttpServer (auth_service w) (ws_server_ w) (<[id := x]> (sessions w)) (next_session w)) (evs ++ ev).
Proof.
  intros [Hs Ht Hw Hf Hh] Hid Hx Hev. split; cbn; [done..| |].
  - intros i Hi. destruct (decide (i = id)) as [->|]; [done|]. rewrite lookup_insert_ne in Hi by done. by apply Hf.
  - intros i. destruct (decide (i = id)) as [->|]; [by rewrite lookup_insert_eq|].
    rewrite lookup_insert_ne by done. apply history_other; auto.
Qed.

Lemma ws_events_ws ev : ws_events (map Ws ev) = ev.
Proof. induction ev as [|e ev IH]; [done|]. change (e :: ws_events (map Ws ev) = e :: ev). by rewrite IH. Qed.

Lemma signal_good env c w evs : inv w evs → inputs_ok env →
  good w evs (with_ws_server (WsSession.on_completion secret cfg env c) w).
Proof.
  intros [Hs Ht Hw Hf Hh] Henv. pose proof (WsSessionFacts.serving_inv secret cfg cfg_good _ Hw) as Hi.
  pose proof (WsSessionFacts.step_outcome secret cfg cfg_good env c _ Hi Henv) as Ho.
  unfold with_ws_server. destruct (WsSession.on_completion secret cfg env c (ws_server_ w)) as [[[[]|e] s'] ev] eqn:E.
  - destruct Ho as [_ Hev]. split.
    + split; cbn; [done..|by eapply WsSession.serving_step|done|]. intros id. apply history_other; [done|apply of_session_ws].
    + apply Forall_map. eapply Forall_impl; [exact Hev|]. done.
  - unfold good, overlap. by rewrite ws_events_ws.
Qed.

(** An upgrade writes nothing to the sessions there are. *)
Lemma upgrade_returns env now target w : ∃ w' ev,
  WsSession.on_completion secret cfg env (WsSession.Upgraded now target) w = (Ok (), w', ev).
Proof.
  unfold WsSession.on_completion. rewrite bind_get.
  destruct (WsSessionFacts.accept_cases secret now target w) as [->|(p&_&->)]; eauto.
Qed.

(** The states in which a session waits. *)
Lemma history_quiet id x y evs : history id (Some x) evs → x = Handshaking ∨ x = ReadingRequest →
  y ≠ Writing → y ≠ ShutDown → history id (Some y) (evs ++ []).
Proof. rewrite app_nil_r. intros Hh [-> | ->] ??; by destruct y. Qed.

Lemma request_good env clock id request w evs : inv w evs → inputs_ok env → service_ok (auth_service w) clock →
  sessions w !! id = Some ReadingRequest → good w evs (on_request cfg env clock id request w).
Proof.
  intros Hw Henv Hsv Hid. pose proof (inv_history w evs Hw id) as Hh. rewrite Hid in Hh.
  assert (Hlt : (id < next_session w)%nat) by (apply (inv_fresh w evs Hw); by rewrite Hid).
  destruct request as [[up req]|]; [|split; [|done]; apply moved; try done; by eapply history_quiet; eauto].
  destruct (request_handled clock up req _ Hsv) as (a&s'&E&Hj&Ht). unfold on_request.
  set (w1 := mkHttpServer s' (ws_server_ w) (sessions w) (next_session w)).
  assert (Hw1 : inv w1 evs) by (destruct Hw; split; cbn; [congruence..|done|done|done]).
  rewrite (bind_Ok _ _ a w w1 []); [|unfold with_service; by rewrite E]. destruct a as [target|response].
  - pose proof (moved id HandedOver w1 evs [] Hw1 Hlt ltac:(by eapply history_quiet; eauto) ltac:(done)) as Hw2.
    rewrite app_nil_r in Hw2.
    pose proof (signal_good env (WsSession.Upgraded (clock 0%nat) target) _ evs Hw2 Henv) as Hg.
    rewrite (bind_Ok _ _ () w1 _ []) by reflexivity. rewrite bind_get. rewrite (inv_secret _ _ Hw2).
    destruct (with_ws_server _ _) as [[[]?]?]; exact Hg.
  - rewrite (bind_Ok _ _ () w1 _ []) by reflexivity. split; [|by repeat constructor]. cbn.
    apply (moved id Writing w1 evs [Wrote id response] Hw1 Hlt).
    + exists response. rewrite of_session_app, Hh. unfold of_session. cbn. by rewrite bool_decide_true.
    + intros i Hi. unfold of_session. cbn. by rewrite bool_decide_false.
Qed.

Lemma inv_quiet w evs : inv w evs → inv w (evs ++ []).
Proof. by rewrite app_nil_r. Qed.

(** Handlers that wait for a session. *)
Lemma when_good id x m w evs : inv w evs → (sessions w !! id = Some x → good w evs (m w)) →
  good w evs (when_waiting id x m w).
Proof.
  intros Hw Hm. unfold when_waiting. rewrite bind_get. destruct (decide (sessions w !! id = Some x)) as [E|];
    [by apply Hm|]. by split; [apply inv_quiet|].
Qed.

Lemma completion_good env clock c w evs : inv w evs → inputs_ok env → service_ok (auth_service w) clock →
  good w evs (on_completion cfg env clock c w).
Proof.
  intros Hw Henv Hsv. destruct c as [ec|id ec|id request|id|c]; cbn [on_completion].
  - unfold accept. destruct ec; [by split; [apply inv_quiet|]|]. split; [|done].
    destruct Hw as [Hs Ht Hws Hf Hh]. split; cbn; [done..| |].
    + intros id Hi. destruct (decide (id = next_session w)) as [->|]; [lia|].
      rewrite lookup_insert_ne in Hi by done. specialize (Hf id Hi). lia.
    + intros id. apply history_other; [|done]. destruct (decide (id = next_session w)) as [->|].
      * rewrite lookup_insert_eq. specialize (Hh (next_session w)).
        destruct (sessions w !! next_session w) eqn:E; [|done]. specialize (Hf (next_session w)). rewrite E in Hf.
        specialize (Hf ltac:(done)). lia.
      * by rewrite lookup_insert_ne.
  - apply when_good; [done|]. intros E. unfold on_handshake. split; [|done]. pose proof (inv_history w evs Hw id) as Hh.
    rewrite E in Hh. apply moved; try done; [by apply (inv_fresh w evs Hw); rewrite E|].
    by destruct ec; eapply history_quiet; eauto.
  - apply when_good; [done|]. intros E. by apply request_good.
  - apply when_good; [done|]. intros E. unfold on_written. pose proof (inv_history w evs Hw id) as Hh.
    rewrite E in Hh. destruct Hh as [r Hh].
    split; [|by repeat constructor]. cbn.
    apply moved; [done|by apply (inv_fresh w evs Hw); rewrite E| |].
    + exists r. rewrite of_session_app, Hh. unfold of_session. cbn. by rewrite bool_decide_true.
    + intros i Hi. unfold of_session. cbn. by rewrite bool_decide_false.
  - destruct c as [now target| | | |]; [by split; [apply inv_quiet|]|..]; rewrite bind_get, (inv_secret w evs Hw);
      by apply signal_good.
Qed.

Lemma serving_inv_ok w evs : 0 ≤ AuthService.ttl_ service < 2 ^ 32 → serving cfg service w evs → inv w evs.
Proof.
  intros Ht. induction 1 as [timeout|w evs env clock c w' ev _ IH Henv Hc E].
  - split; cbn; [done..|constructor| |done]. intros id. by rewrite lookup_empty.
  - assert (Hsv : service_ok (auth_service w) clock) by (split; [by rewrite (inv_ttl w evs IH)|done]).
    pose proof (completion_good env clock c w evs IH Henv Hsv) as Hg. rewrite E in Hg. apply Hg.
Qed.

(** What becomes of a request. *)
Lemma request_outcome env clock id up req w evs : inv w evs → inputs_ok env → service_ok (auth_service w) clock →
  sessions w !! id = Some ReadingRequest →
  ∃ a s' w' ev, handle_request (registerRoutes cfg clock ∅) up req (auth_service w) = (Ok a, s', []) ∧
    on_completion cfg env clock (RequestRead id (Some (up, req))) w = (Ok (), w', ev) ∧ auth_service w' = s' ∧
    match a with
    | Answered r => sessions w' !! id = Some Writing ∧ ev = [Wrote id r]
    | ToWebSocket _ => up = true ∧ sessions w' !! id = Some HandedOver
    end.
Proof.
  intros Hw Henv Hsv Hid. destruct (request_handled clock up req _ Hsv) as (a&s'&E&Hj&_). exists a, s'.
  cbn [on_completion]. unfold when_waiting. rewrite bind_get, decide_True by done.
  unfold on_request. set (w1 := mkHttpServer s' (ws_server_ w) (sessions w) (next_session w)).
  assert (E1 : with_service (handle_request (registerRoutes cfg clock ∅) up req) w = (Ok a, w1, []))
    by (unfold with_service; by rewrite E).
  rewrite (bind_Ok _ _ a w w1 [] E1). destruct a as [target|response].
  - assert (up = true) as ->.
    { unfold handle_request in E. destruct up; [done|]. destruct (find_route _ req) as [h|]; [|done].
      unfold try, mbind, eff_bind in E. by destruct (h req _) as [[[?|[| |??]] ?] ?]. }
    set (w2 := mkHttpServer s' (ws_server_ w) (<[id := HandedOver]> (sessions w)) (next_session w)).
    rewrite (bind_Ok _ _ () w1 w2 []) by reflexivity. rewrite bind_get. cbn [auth_service w2].
    rewrite Hj, (inv_secret w evs Hw). destruct (upgrade_returns env (clock 0%nat) target (ws_server_ w)) as (ws'&ev&Eu).
    unfold with_ws_server. cbn [ws_server_ w2]. rewrite Eu.
    do 2 eexists. split; [done|]. split; [reflexivity|]. cbn. by rewrite lookup_insert_eq.
  - do 2 eexists. split; [done|]. split; [reflexivity|]. cbn. by rewrite lookup_insert_eq.
Qed.
End facts.
End HttpSessionFacts.

(** ** Property *)

Section properties.
Import HttpSession HttpSessionFacts.
Context `{OpenSSLSpec, JsonSpec, SqliteSpec, !SqliteUp, !JwtCpp, !JwtCppSpec, !IterOrder string CallSession}.

(** C9: the backend serves, handler by handler: in every state that connections,
    handshakes, requests and messages of any content, failures, completed writes
    and the timer lead to, the next handler returns without an exception, unless it
    sends a message to a WebSocket session while another to that session is still
    being written: the code then starts a second [async_write], which Boost.Beast
    does not allow.  An HTTP session answers its request once, and then shuts down,
    or hands over an upgrade.  A WebSocket session bears the name in a token that
    the server verified; the table has sessions of its users that are not closed,
    and only to those the server writes; the calls stay consistent.  When nobody
    connected twice at a time and no write failed, every session that is not closed
    is in the table: its user is reached.

    TURN_HOST is a UTF-8 text and TURN_TTL not negative, the lifetime of tokens is from 0 to 2^32 seconds, and the clocks are
    below 2^62 (2^32 for that of the routes). *)
Theorem backend_serves cfg service w evs env clock c :
  cfg_ok cfg → 0 ≤ AuthService.ttl_ service < 2 ^ 32 → serving cfg service w evs →
  inputs_ok env → (∀ k, 0 ≤ clock k < 2 ^ 32) →
  match on_completion cfg env clock c w with
  | (Ok _, w', ev) => Forall (ws_ok w') ev ∧ calls_inv (call_manager_ (WsSession.backend_ (ws_server_ w')))
  | (Err e, _, ev) => e = Undefined ∧ overlap w ev
  end ∧
  (∀ id, history id (sessions w !! id) evs) ∧
  (∀ id up req, sessions w !! id = Some ReadingRequest →
     ∃ a s' w' ev, handle_request (registerRoutes cfg clock ∅) up req (auth_service w) = (Ok a, s', []) ∧
       on_completion cfg env clock (RequestRead id (Some (up, req))) w = (Ok (), w', ev) ∧ auth_service w' = s' ∧
       match a with
       | Answered r => sessions w' !! id = Some Writing ∧ ev = [Wrote id r]
       | ToWebSocket _ => up = true ∧ sessions w' !! id = Some HandedOver
       end) ∧
  (∀ id s, WsSession.sessions (ws_server_ w) !! id = Some s →
     authenticated (AuthService.jwt_ service) (WsSession.userId_ s)) ∧
  WsSessionFacts.table_ok (ws_sessions_ (WsSession.backend_ (ws_server_ w))) (WsSession.sessions (ws_server_ w)) ∧
  (WsSessionFacts.orderly (AuthService.jwt_ service) cfg (ws_server_ w) →
     WsSessionFacts.reachable (ws_server_ w)).
Proof.
  intros Hcfg Ht Hw Henv Hc. pose proof (serving_inv_ok cfg Hcfg service w evs Ht Hw) as Hinv.
  assert (Hsv : service_ok (auth_service w) clock) by (split; [by rewrite (inv_ttl _ _ _ _ Hinv)|done]).
  pose proof (WsSessionFacts.serving_inv _ cfg Hcfg _ (inv_ws _ _ _ _ Hinv)) as Hws.
  split_and!.
  - pose proof (completion_good cfg Hcfg service env clock c w evs Hinv Henv Hsv) as Hg.
    destruct (on_completion cfg env clock c w) as [[[[]|e] w'] ev]; [|exact Hg]. destruct Hg as [Hinv' Hev].
    split; [done|].
    apply inv_calls, (WsSessionFacts.inv_backend _ _ (WsSessionFacts.serving_inv _ cfg Hcfg _ (inv_ws _ _ _ _ Hinv'))).
  - apply (inv_history _ _ _ _ Hinv).
  - intros id up req E. by apply (request_outcome cfg Hcfg service env clock id up req w evs).
  - intros id s E. by apply (WsSessionFacts.inv_sessions _ _ Hws id).
  - apply (WsSessionFacts.inv_table _ _ Hws).
  - intros Ho. by apply (WsSessionFacts.orderly_reachable (AuthService.jwt_ service) cfg Hcfg).
Qed.
End properties.

(** ** Alice logs in, and connects with her token *)

Module session.
Import HttpSession HttpSessionFacts SignalingSafety.talk.
#[local] Existing Instances ToyOpenSSL ToyOpenSSLSpec ToyJson ToyJsonSpec ToySqlite ToySqliteSpec ToySqliteUp
  ToyJwt ToyJwtSpec sessions_order.

Definition step (c : completion) (o : HttpServer * list HttpEvent) : HttpServer * list HttpEvent :=
  let '(_, w, ev) := on_completion http.cfg (inputs 300) http.clock c o.1 in (w, o.2 ++ ev).
Definition start : HttpServer * list HttpEvent := (new_server http.service 30, []).
Definition reading : HttpServer * list HttpEvent :=
  step (HandshakeDone 0 false) (step (SocketAccepted false) start).

Lemma step_serving c o : serving http.cfg http.service o.1 o.2 →
  out_result (on_completion http.cfg (inputs 300) http.clock c o.1) = Ok () →
  serving http.cfg http.service (step c o).1 (step c o).2.
Proof.
  destruct o as [w evs]. intros Hw Hr. cbn in Hw, Hr. unfold step. cbn.
  destruct (on_completion http.cfg (inputs 300) http.clock c w) as [[r w'] ev] eqn:E. cbn in Hr. subst r.
  apply (serving_step http.cfg http.service w evs (inputs 300) http.clock c w' ev); [exact Hw|by apply inputs_good|apply http.service_good|exact E].
Qed.

Lemma reading_serving : serving http.cfg http.service reading.1 reading.2.
Proof.
  apply step_serving; [|by vm_compute]. apply step_serving; [|by vm_compute]. constructor.
Qed.

(** Then her WebSocket session: she sends two texts that are not messages.  The
    first is answered; the answer to the second would overlap it while it is being
    written, and does not once it has been. *)
Definition upgrade : Request := mkRequest "GET" ("/ws?token=" +:+ http.bearer) "" ∅.
Definition connected : HttpServer * list HttpEvent :=
  step (Signal (WsSession.Accepted 0 false)) (step (RequestRead 0 (Some (true, upgrade))) reading).
Definition text : completion := Signal (WsSession.Read 0 (Some "hello")).
Definition answered : HttpServer * list HttpEvent := step text connected.

Lemma answered_serving : serving http.cfg http.service answered.1 answered.2.
Proof.
  apply step_serving; [|by vm_compute]. apply step_serving; [|by vm_compute]. apply step_serving; [|by vm_compute].
  exact reading_serving.
Qed.

Lemma backend_serves_witness :
  (∃ a s' w' ev,
     handle_request (registerRoutes http.cfg http.clock ∅) false http.login_request http.service = (Ok a, s', []) ∧
     on_completion http.cfg (inputs 300) http.clock (RequestRead 0 (Some (false, http.login_request))) reading.1 =
       (Ok (), w', ev) ∧ length ev = 1%nat) ∧
  (∃ w' ev, on_completion http.cfg (inputs 300) http.clock text answered.1 = (Err Undefined, w', ev) ∧
     overlap answered.1 ev) ∧
  out_result (on_completion http.cfg (inputs 300) http.clock text
    (step (Signal (WsSession.WriteDone 0 false)) answered).1) = Ok ().
Proof.
  split; [|split].
  - destruct (backend_serves http.cfg http.service reading.1 reading.2 (inputs 300) http.clock (SocketAccepted false)
      http.http_cfg_good (proj1 http.service_good) reading_serving ltac:(by apply inputs_good) (proj2 http.service_good)) as (_&_&Hr&_).
    destruct (Hr 0%nat false http.login_request ltac:(by vm_compute)) as (a&s'&w'&ev&E&E'&_&Ha).
    exists a, s', w', ev. split; [exact E|]. split; [exact E'|].
    destruct a as [t|r]; [by destruct Ha|by destruct Ha as [_ ->]].
  - destruct (backend_serves http.cfg http.service answered.1 answered.2 (inputs 300) http.clock text
      http.http_cfg_good (proj1 http.service_good) answered_serving ltac:(by apply inputs_good) (proj2 http.service_good)) as (Ho&_).
    destruct (on_completion http.cfg (inputs 300) http.clock text answered.1) as [[r w'] ev] eqn:E.
    assert (r = Err Undefined) as -> by (change r with (out_result (r, w', ev)); rewrite <-E; by vm_compute).
    exact (ex_intro _ w' (ex_intro _ ev (conj eq_refl (proj2 Ho)))).
  - by vm_compute.
Defined.
End session.
