(* ===== verification/Protocol.v ===== *)
(** * The types of the messages

    The backend and the client agree on their messages by their texts only.  A
    schema says which fields a message of a type has and what is in them;
    [server_messages] and [client_messages] are what the functions that read
    messages expect ([Router] in src/backend/signaling/router.cpp, [MessageHandler]
    in src/client_cli/src/signaling/message_handler.cpp).  The functions that write
    messages keep to them, and a message that does is handled without a complaint. *)

From Stdlib Require Import Ascii.
From S2P Require Export ClientSafety.

Section types.
Context `{Json}.

Inductive field_type := Text | OptionalText | Int | Servers.
#[export] Instance field_type_eq_dec : EqDecision field_type.
Proof. solve_decision. Defined.

(** The ICE servers of a configuration: urls, a name and a password. *)
Definition is_text (j : json) : bool := bool_decide (is_Some (json_string j)).
Definition has_text (j : json) (key : string) : bool := bool_decide (is_Some (json_field j key)).
Definition is_server (j : json) : bool :=
  json_is_object j && has_text j "username" && has_text j "credential" &&
  match json_get j "urls" ≫= json_elems with Some urls => forallb is_text urls | None => false end.

Definition has_type (t : field_type) (j : json) : bool :=
  match t with
  | Text | OptionalText => is_text j
  | Int => bool_decide (is_Some (json_number j))
  | Servers => match json_elems j with Some (s :: l) => forallb is_server (s :: l) | _ => false end
  end.

Definition field_ok (j : json) (f : string * field_type) : bool :=
  match json_get j f.1 with Some v => has_type f.2 v | None => bool_decide (f.2 = OptionalText) end.

(** The fields of each type of message. *)
Definition schema : Type := list (string * list (string * field_type)).

Definition well_typed (s : schema) (j : json) : bool :=
  json_is_object j &&
  match json_field j "type" with
  | Some type =>
      match list_find (λ e, e.1 = type) s with Some (_, (_, fields)) => forallb (field_ok j) fields | None => false end
  | None => false
  end.

Definition negotiation : schema :=
  [("webrtc.offer", [("callId", Text); ("sdp", Text)]);
   ("webrtc.answer", [("callId", Text); ("sdp", Text)]);
   ("webrtc.ice", [("callId", Text); ("candidate", Text); ("mid", Text); ("mlineindex", Int)])].

Definition client_messages : schema :=
  [("call.create", [("to", Text)]);
   ("call.accept", [("callId", Text)]);
   ("call.reject", [("callId", Text)]);
   ("call.hangup", [("callId", Text)])] ++ negotiation.

Definition server_messages : schema :=
  [("call.created", [("callId", Text)]);
   ("call.incoming", [("callId", Text); ("from", Text)]);
   ("call.ended", [("callId", Text); ("reason", Text)]);
   ("call.failed", [("callId", Text); ("reason", Text)]);
   ("rtc.config", [("callId", Text); ("iceServers", Servers)]);
   ("error", [("error", OptionalText); ("message", Text)])] ++ negotiation.

(** A line in which the client complains about a message. *)
Definition complaint (e : ClientEvent) : bool :=
  match e with Printed line => str_prefix "[error]" line || str_prefix "[warn]" line | _ => false end.
End types.

(** ** Lemmas *)

Section typing.
Context `{JsonSpec}.

Lemma is_text_str s : is_text (json_str s) = true.
Proof. unfold is_text. rewrite string_str. by apply bool_decide_eq_true. Qed.

Lemma has_text_field j k s : json_field j k = Some s → has_text j k = true.
Proof. unfold has_text. intros ->. by apply bool_decide_eq_true. Qed.

(** Canonical forms. *)
Lemma is_text_inv j : is_text j = true → ∃ s, json_string j = Some s ∧ to_text j = Ok s.
Proof. unfold is_text. intros [s Hs]%bool_decide_eq_true. exists s. unfold to_text. by rewrite Hs. Qed.

Lemma text_field_inv j k : field_ok j (k, Text) = true →
  ∃ s v, json_get j k = Some v ∧ to_text v = Ok s ∧ json_field j k = Some s.
Proof.
  unfold field_ok, json_field. cbn. destruct (json_get j k) as [v|]; [|done]. intros (s&Hs&Ht)%is_text_inv. by exists s, v.
Qed.

Lemma text_value j k d : json_is_object j = true → field_ok j (k, Text) = true → ∃ s, json_value j k d = Ok s.
Proof.
  intros Ho (s&v&Hv&Ht&_)%text_field_inv. exists s. unfold json_value. by rewrite Ho, Hv.
Qed.

(** The fields of a message of a known type. *)
Lemma well_typed_inv sch j : well_typed sch j = true → json_is_object j = true ∧
  ∃ type fields, json_field j "type" = Some type ∧ (type, fields) ∈ sch ∧ forallb (field_ok j) fields = true.
Proof.
  intros [Ho Hf]%andb_true_iff. split; [done|]. destruct (json_field j "type") as [type|]; [|done].
  destruct (list_find _ sch) as [[i [type' fields]]|] eqn:E; [|done].
  apply list_find_Some in E as (Hi&Ht&_). cbn in Ht. subst type'. exists type, fields. split_and!; [done| |done].
  by apply list_elem_of_lookup_2 in Hi.
Qed.

(** *** Messages that are written *)

Lemma texts_typed sch type l fields : list_find (λ e, e.1 = type) sch = Some fields →
  Forall (λ f, f.2 = Text ∧ f.1 ∈ l.*1 ∧ f.1 ≠ "type") fields.2.2 →
  well_typed sch (json_texts (("type", type) :: l)) = true.
Proof.
  intros Hs Hf. unfold well_typed. rewrite texts_is_object, (field_str _ "type" type) by (by rewrite texts_get_cons).
  destruct fields as [i [t fields]]. rewrite Hs. apply forallb_forall. intros [k ft] Hin%list_elem_of_In.
  destruct (proj1 (Forall_forall _ _) Hf _ Hin) as (Hft&Hk&Hne). cbn in Hft, Hk, Hne. subst ft. unfold field_ok. cbn [fst snd].
  rewrite texts_get_cons. destruct (String.eqb_spec "type" k); [congruence|]. clear Hs Hf Hin.
  induction l as [|[k' v'] l IH]; [by apply not_elem_of_nil in Hk|].
  rewrite texts_get_cons. destruct (String.eqb_spec k' k) as [->|]; [apply is_text_str|].
  apply IH. rewrite fmap_cons in Hk. cbn in Hk. set_solver.
Qed.

Lemma error_typed reason : well_typed server_messages (error_msg reason) = true.
Proof.
  unfold well_typed, error_msg. rewrite texts_is_object, (field_str _ "type" "error") by (by rewrite texts_get_cons).
  change (list_find (λ e, e.1 = "error") server_messages) with
    (Some (5%nat, ("error", [("error", OptionalText); ("message", Text)]))). cbn [forallb andb].
  unfold field_ok. cbn [fst snd]. rewrite !texts_get_cons. cbn [String.eqb Ascii.eqb Bool.eqb].
  unfold json_texts. rewrite get_object. cbn. by rewrite is_text_str.
Qed.
Lemma ended_typed id reason : well_typed server_messages (ended_msg id reason) = true.
Proof. eapply texts_typed; [reflexivity|]. repeat constructor; set_solver. Qed.
Lemma over_typed type id reason : type ∈ ["call.ended"; "call.failed"] → well_typed server_messages (over_msg type id reason) = true.
Proof.
  intros Ht%list_elem_of_In. destruct Ht as [<-|[<-|[]]]; (eapply texts_typed; [reflexivity|]); repeat constructor; set_solver.
Qed.

Lemma rtc_typed `{!OpenSSL} cfg now u call : well_typed server_messages (rtc_msg cfg now u call) = true.
Proof.
  unfold well_typed, rtc_msg. rewrite object_is_object, (field_str _ "type" "rtc.config") by (by rewrite !get_cons).
  change (list_find (λ e, e.1 = "rtc.config") server_messages) with
    (Some (4%nat, ("rtc.config", [("callId", Text); ("iceServers", Servers)]))). cbn [forallb andb].
  unfold field_ok. cbn [fst snd]. rewrite !get_cons. cbn [String.eqb Ascii.eqb Bool.eqb has_type].
  rewrite is_text_str. unfold ice_servers. rewrite elems_list. cbn [forallb andb]. unfold is_server.
  rewrite object_is_object, (has_text_field _ "username" (rtc_username cfg now u)),
    (has_text_field _ "credential" (rtc_password cfg (rtc_username cfg now u))) by (apply field_str; by rewrite !get_cons).
  rewrite !get_cons. cbn [String.eqb Ascii.eqb Bool.eqb mbind option_bind]. unfold turn_urls. rewrite elems_list.
  cbn [forallb]. by rewrite !is_text_str.
Qed.

(** What is relayed keeps its type. *)
Lemma negotiation_typed j type : well_typed client_messages j = true → json_field j "type" = Some type →
  type ∈ ["webrtc.offer"; "webrtc.answer"; "webrtc.ice"] → well_typed server_messages j = true.
Proof.
  unfold well_typed. intros Hw Ht Hin%list_elem_of_In. rewrite Ht in *.
  by destruct Hin as [<-|[<-|[<-|[]]]].
Qed.

Lemma relayed_type raw call msg : request_of raw = ReqRelay call msg →
  ∃ type, json_field msg "type" = Some type ∧ type ∈ ["webrtc.offer"; "webrtc.answer"; "webrtc.ice"].
Proof.
  unfold request_of. destruct (json_parse raw) as [j|]; [|done]. unfold with_text at 1.
  destruct (json_field j "type") as [type|] eqn:Ht; [|done].
  assert (Hno : ∀ k (f : string → request), (∀ s, f s ≠ ReqRelay call msg) → with_text j k f ≠ ReqRelay call msg)
    by (intros k f Hf; unfold with_text; destruct (json_field j k); [apply Hf|done]).
  repeat (case_decide; [by intros ?%Hno|]). case_decide as Hin; [|done].
  unfold with_text. destruct (json_field j "callId") as [id|]; [|done]. intros [= _ <-]. by exists type.
Qed.

Lemma respond_typed `{!OpenSSL, !IterOrder string CallSession} cfg env u raw cm v j :
  (v, j) ∈ (respond cfg env u (request_of raw) cm).2 →
  (∀ call msg, request_of raw = ReqRelay call msg → well_typed client_messages msg = true) →
  well_typed server_messages j = true.
Proof.
  intros Hin Hrelay. remember (request_of raw) as r eqn:Er.
  assert (Hanswer : ∀ A (o : result A * CallManager * list Empty_set) f, (v, j) ∈ (answer u o f).2 →
    (∀ a, (v, j) ∈ f a → well_typed server_messages j = true) → well_typed server_messages j = true).
  { intros A o f Ho Hf. unfold answer in Ho. cbn in Ho.
    destruct (out_result o) as [a|[| |k what]]; [by eapply Hf|by apply not_elem_of_nil in Ho..|].
    apply list_elem_of_singleton in Ho as [= -> ->]. apply error_typed. }
  destruct r as [reason|callee|call|call|call|call msg]; cbn [respond] in Hin.
  - apply list_elem_of_singleton in Hin as [= -> ->]. apply error_typed.
  - apply (Hanswer _ _ _ Hin). intros id [[= -> ->]|[[= -> ->]|[]%not_elem_of_nil]%elem_of_cons]%elem_of_cons;
      (eapply texts_typed; [reflexivity|]); repeat constructor; set_solver.
  - apply (Hanswer _ _ _ Hin). intros s [[= -> ->]|[[= -> ->]|[]%not_elem_of_nil]%elem_of_cons]%elem_of_cons; apply rtc_typed.
  - apply (Hanswer _ _ _ Hin). intros s [= -> ->]%list_elem_of_singleton. apply ended_typed.
  - apply (Hanswer _ _ _ Hin). intros s [= -> ->]%list_elem_of_singleton. apply ended_typed.
  - destruct (sessions_ cm !! call); apply list_elem_of_singleton in Hin as [= -> ->]; [|apply error_typed].
    destruct (relayed_type raw call msg (eq_sym Er)) as (type&Ht&Hty). by eapply negotiation_typed; [eapply Hrelay|..].
Qed.

Lemma sweep_typed `{!IterOrder string CallSession} env cm v j : (v, j) ∈ (sweep env cm).2 →
  well_typed server_messages j = true.
Proof.
  unfold sweep. destruct (expireRinging (steady env) cm) as [l cm']. cbn. intros Hin.
  apply list_elem_of_bind in Hin as (s&Hin&_).
  apply elem_of_cons in Hin as [[= -> ->]|[= -> ->]%list_elem_of_singleton]; apply over_typed; set_solver.
Qed.
End typing.

(** *** Messages that are read *)

Section reading.
Context `{JsonSpec}.
Variable rtc_init : ClientTurn → result ().
Variable rtc_apply : ClientEvent → result ().
Hypothesis library : library_answers rtc_init rtc_apply.

(** A computation that returns from every state, or fails with what [fails]
    allows, and makes no complaint. *)
Definition no_complaint (ev : list ClientEvent) : Prop := Forall (λ e, complaint e = false) ev.
Definition nice_at {A} (fails : error → Prop) (m : eff Client ClientEvent A) (c : Client) : Prop :=
  ends fails (out_result (m c)) ∧ no_complaint (out_events (m c)).
Definition nice {A} (fails : error → Prop) (m : eff Client ClientEvent A) : Prop := ∀ c, nice_at fails m c.

Lemma nice_at_bind {A B} fails (m : eff Client ClientEvent A) (f : A → eff Client ClientEvent B) c :
  nice_at fails m c → (∀ a c1 l1, m c = (Ok a, c1, l1) → nice_at fails (f a) c1) → nice_at fails (m ≫= f) c.
Proof.
  intros Hm Hf. unfold nice_at, mbind, eff_bind, no_complaint in *.
  destruct (m c) as [[[a|e] c1] l1]; [|done]. specialize (Hf a c1 l1 eq_refl). destruct (f a c1) as [[r c2] l2].
  destruct Hm as [_ Hm], Hf as [Hr Hf]. split; [exact Hr|]. by apply Forall_app.
Qed.
Lemma nice_bind {A B} fails (m : eff Client ClientEvent A) (f : A → eff Client ClientEvent B) :
  nice fails m → (∀ a, nice fails (f a)) → nice fails (m ≫= f).
Proof. intros Hm Hf c. apply nice_at_bind; [apply Hm|]. intros. apply Hf. Qed.
Lemma nice_ret {A} fails (a : A) : nice fails (mret a).
Proof. intros c. split; [done|constructor]. Qed.
Lemma nice_emit fails e : complaint e = false → nice fails (emit e).
Proof. intros He c. split; [done|]. by constructor. Qed.
Lemma nice_session fails : nice fails get_session.
Proof. intros c. split; [done|constructor]. Qed.
Lemma nice_if {A} fails (b : bool) (m1 m2 : eff Client ClientEvent A) :
  nice fails m1 → nice fails m2 → nice fails (if b then m1 else m2).
Proof. by destruct b. Qed.
Lemma nice_state fails (f : Client → Client) : nice fails (λ c, (Ok (), f c, [])).
Proof. intros c. split; [done|constructor]. Qed.
Lemma nice_try {A} fails (m : eff Client ClientEvent A) h :
  nice throws m → (∀ k what, nice fails (h k what)) → nice fails (try m h).
Proof.
  intros Hm Hh c. specialize (Hm c). unfold nice_at, try in *. destruct (m c) as [[[a|[| |k what]] c1] l1]; try done; [by destruct Hm..|].
  specialize (Hh k what c1). unfold nice_at in Hh. destruct (h k what c1) as [[r c2] l2].
  destruct Hm as [_ Hm], Hh as [Hr Hh]. split; [exact Hr|]. by apply Forall_app.
Qed.
Lemma nice_lift {A B} fails (x : result A) a (f : A → eff Client ClientEvent B) :
  x = Ok a → nice fails (f a) → nice fails (lift x ≫= f).
Proof. intros -> Hf c. unfold nice_at. rewrite bind_lift. apply Hf. Qed.
Lemma nice_value {B} fails j k d (f : string → eff Client ClientEvent B) : json_is_object j = true →
  field_ok j (k, Text) = true → (∀ s, nice fails (f s)) → nice fails (lift (json_value j k d) ≫= f).
Proof. intros Ho Hk Hf. destruct (text_value j k d Ho Hk) as [s E]. by apply (nice_lift _ _ s). Qed.

(** The handlers of the calls, one by one. *)
Lemma nice_put fails s : nice fails (put_session s).
Proof. exact (nice_state fails _). Qed.
Lemma nice_set_turn fails t : nice fails (set_turn t).
Proof. apply nice_bind; [apply nice_session|]. intros s. apply nice_put. Qed.
Lemma nice_cleanup fails : nice fails cleanupCall.
Proof. intros c. unfold nice_at. rewrite cleanupCall_eq. split; [done|]. unfold out_events, no_complaint, cleanup_events. cbn.
  destruct (call_cleanup_done c), (audio_ c), (pc_alive c); by repeat constructor. Qed.
Lemma nice_initRtc : nice throws (initRtc rtc_init).
Proof.
  intros c. unfold nice_at. rewrite initRtc_eq. pose proof (proj1 library (turnConfig (client_session c))) as Hl.
  unfold no_complaint, out_result, out_events, init_events.
  destruct (rtc_init _) as [[]|e]; cbn; (split; [done|]); destruct (pc_alive c), (audio_ c); by repeat constructor.
Qed.

(** After a configuration: the connection, and the start of the call. *)
Lemma nice_started : nice throws (initRtc rtc_init;; s ← get_session;
  (if bool_decide (call_state (call s) = AppState.Calling) then startCall rtc_apply else mret ());; mret true).
Proof.
  intros c. apply nice_at_bind; [apply nice_initRtc|]. intros [] c1 l1 E. rewrite initRtc_eq in E.
  destruct (rtc_init _) as [[]|e]; [|done]. assert (Hc1 : handlers_alive c1 = true) by by injection E as <- _.
  apply nice_at_bind; [apply nice_session|]. intros s c2 l2 [= <- <- <-].
  apply nice_at_bind; [|intros; apply nice_ret]. destruct (bool_decide _); [|apply nice_ret].
  unfold nice_at, startCall. rewrite through_handler_eq by done. split; [apply library|by repeat constructor].
Qed.

Lemma nice_urls fails l : forallb is_text l = true → nice fails (read_urls l).
Proof.
  induction l as [|j l IH]; intros Hl; cbn [read_urls]; [apply nice_ret|].
  apply andb_true_iff in Hl as [(u&_&Hj)%is_text_inv Hl]. apply (nice_lift _ _ u); [done|].
  apply nice_bind; [apply nice_session|]. intros s. apply nice_bind; [|intros []; by apply IH].
  repeat apply nice_if; [apply nice_set_turn..|apply nice_ret].
Qed.

Lemma field_value j k d s : json_is_object j = true → json_field j k = Some s → json_value j k d = Ok s.
Proof.
  unfold json_value, json_field, to_text. intros ->. destruct (json_get j k); [|done]. cbn. by intros ->.
Qed.

Lemma nice_servers fails l : forallb is_server l = true → nice fails (read_servers l).
Proof.
  induction l as [|j l IH]; intros Hl; cbn [read_servers]; [apply nice_ret|].
  apply andb_true_iff in Hl as [Hj Hl]. unfold is_server in Hj.
  apply andb_true_iff in Hj as [[[Ho Hu]%andb_true_iff Hc]%andb_true_iff Hurls].
  apply bool_decide_eq_true in Hu as [u Hu], Hc as [p Hc].
  assert (∃ v, json_get j "username" = Some v) as [v ->]
    by (unfold json_field in Hu; destruct (json_get j "username") as [v|]; [by exists v|done]).
  destruct (json_get j "urls") as [urls|]; [|done]. cbn in Hurls. destruct (json_elems urls) as [ul|] eqn:Eu; [|done].
  rewrite (items_elems _ _ Eu). apply nice_bind; [by apply nice_urls|]. intros [].
  apply (nice_lift _ _ u); [by apply field_value|]. apply nice_bind; [apply nice_session|]. intros s.
  apply nice_bind; [apply nice_set_turn|]. intros []. apply (nice_lift _ _ p); [by apply field_value|].
  apply nice_bind; [apply nice_session|]. intros s'. apply nice_bind; [apply nice_set_turn|]. intros []. by apply IH.
Qed.

Lemma nice_config fails j : field_ok j ("iceServers", Servers) = true → nice fails (handleRtcConfig j).
Proof.
  unfold field_ok, handleRtcConfig. cbn. destruct (json_get j "iceServers") as [v|]; [|done]. cbn.
  destruct (json_elems v) as [[|s l]|]; [done| |done]. intros Hl. apply nice_bind; [by apply nice_servers|]. intros [].
  apply nice_bind; [apply nice_session|]. intros s'. by apply nice_emit.
Qed.

Lemma nice_incoming fails j : json_is_object j = true → forallb (field_ok j) [("callId", Text); ("from", Text)] = true →
  nice fails (handleCallIncoming j).
Proof.
  intros Ho [Hc [Hf _]%andb_true_iff]%andb_true_iff. apply nice_value; [done..|]. intros id. apply nice_value; [done..|].
  intros from. apply nice_bind; [apply nice_session|]. intros s. apply nice_bind; [apply nice_put|]. intros [].
  by apply nice_emit.
Qed.
Lemma nice_created fails j : json_is_object j = true → forallb (field_ok j) [("callId", Text)] = true →
  nice fails (handleCallCreated j).
Proof.
  intros Ho [Hc _]%andb_true_iff. apply nice_value; [done..|]. intros id.
  apply nice_bind; [apply nice_session|]. intros s. apply nice_bind; [apply nice_put|]. intros []. by apply nice_emit.
Qed.
Lemma nice_over fails j (line : string) : json_is_object j = true → field_ok j ("reason", Text) = true →
  (∀ r, complaint (Printed (line +:+ r)) = false) →
  nice fails (reason ← lift (json_value j "reason" "unknown"); s ← get_session;
    put_session (with_call no_call s);; ClientMessages.print (line +:+ reason)).
Proof.
  intros Ho Hr Hl. apply nice_value; [done..|]. intros r. apply nice_bind; [apply nice_session|]. intros s.
  apply nice_bind; [apply nice_put|]. intros []. by apply nice_emit.
Qed.
Lemma nice_error fails j : json_is_object j = true →
  forallb (field_ok j) [("error", OptionalText); ("message", Text)] = true → nice fails (handleError j).
Proof.
  intros Ho [He [Hm _]%andb_true_iff]%andb_true_iff. unfold handleError.
  assert (∃ s, json_value j "error" "unknown error" = Ok s) as [s Hs].
  { unfold json_value, field_ok in *. cbn in He. rewrite Ho. cbn. destruct (json_get j "error"); [|by eexists].
    apply is_text_inv in He as (s&_&E). by exists s. }
  apply (nice_lift _ _ s); [done|]. apply nice_value; [done..|]. intros m. by apply nice_emit.
Qed.

(** A message of the negotiation, while the peer connection is there: it is not for
    this party of the call, or the library gets it, and what the library returns or
    throws is the end of it. *)
Definition negotiating (c : Client) : Prop := handlers_alive c = true ∧ rtc_callbacks c = true.
Definition applied (m : eff Client ClientEvent ()) (c : Client) : Prop :=
  ∃ r ev, m c = (r, c, ev) ∧ no_complaint ev ∧
    ((r = Ok () ∧ ev = []) ∨ ∃ e l, ev = e :: l ∧ r = rtc_apply e ∧ (∀ t, e ≠ WsSend t)).

Lemma applied_through e c : handlers_alive c = true → complaint e = false → (∀ t, e ≠ WsSend t) →
  applied (through_handler rtc_apply e) c.
Proof.
  intros Ha He Hs. unfold applied. rewrite through_handler_eq by done. do 2 eexists. split; [done|]. split; [by repeat constructor|].
  right. by exists e, [].
Qed.

Lemma offer_applied j c : field_ok j ("sdp", Text) = true → negotiating c → applied (handleWebrtcOffer rtc_apply j) c.
Proof.
  intros (sdp&v&Hv&Ht&_)%text_field_inv [Ha Hcb]. unfold applied, handleWebrtcOffer. rewrite Hv, bind_session.
  destruct (is_caller _); [exists (Ok ()), []; split_and!; [done|constructor|by left]|].
  rewrite bind_client, Hcb, Ht, bind_lift. by apply applied_through.
Qed.
Lemma answer_applied j c : field_ok j ("sdp", Text) = true → negotiating c → applied (handleWebrtcAnswer rtc_apply j) c.
Proof.
  intros (sdp&v&Hv&Ht&_)%text_field_inv [Ha Hcb]. unfold applied, handleWebrtcAnswer. rewrite Hv, bind_session.
  destruct (is_caller _); cbn [negb]; [|exists (Ok ()), []; split_and!; [done|constructor|by left]].
  rewrite bind_client, Hcb, Ht, bind_lift. unfold handleAnswer. rewrite bind_through by done.
  destruct (rtc_apply (RtcAnswer sdp)) as [[]|e] eqn:E; (do 2 eexists; split; [reflexivity|]; split; [by repeat constructor|]);
    right; do 2 eexists; (split; [reflexivity|]); by rewrite E.
Qed.
Lemma ice_applied j c : json_is_object j = true →
  forallb (field_ok j) [("candidate", Text); ("mid", Text); ("mlineindex", Int)] = true → negotiating c →
  applied (handleWebrtcIce rtc_apply j) c.
Proof.
  intros Ho [Hc [Hm [Hi _]%andb_true_iff]%andb_true_iff]%andb_true_iff [Ha Hcb].
  apply text_field_inv in Hc as (x&v&Hv&Ht&_). destruct (text_value j "mid" "" Ho Hm) as [mid Hmid].
  unfold field_ok in Hi. cbn in Hi. destruct (json_get j "mlineindex") as [n|] eqn:Hn; [|done].
  apply bool_decide_eq_true in Hi as [k Hk]. unfold applied, handleWebrtcIce.
  rewrite Hv, bind_client, Hcb, Ht, bind_lift, Hmid, bind_lift, Hn, Hk, bind_lift. by apply applied_through.
Qed.

Definition is_negotiation (j : json) : bool :=
  bool_decide (json_field j "type" ∈ [Some "webrtc.offer"; Some "webrtc.answer"; Some "webrtc.ice"]).

(** Of each type of message, the handler that [handle] gives it to. *)
Ltac handled Hp Ht :=
  unfold ClientMessages.handle; rewrite Hp, Ht; cbv zeta;
  repeat (rewrite bool_decide_false by done); rewrite ?bool_decide_true by done; cbv iota.

Lemma handle_nice fails raw j : json_parse raw = Some j → well_typed server_messages j = true →
  is_negotiation j = false → nice fails (ClientMessages.handle rtc_apply raw).
Proof.
  intros Hp (Ho&type&fields&Ht&Hin&Hf)%well_typed_inv. unfold is_negotiation. rewrite Ht.
  apply list_elem_of_In in Hin. cbn in Hin.
  repeat (destruct Hin as [[= <- <-]|Hin]; [intros Hn; try discriminate Hn; handled Hp Ht|]); try done.
  - by apply nice_created.
  - by apply nice_incoming.
  - apply andb_true_iff in Hf as [_ [Hr _]%andb_true_iff]. by apply (nice_over _ j "[call] ended, reason: ").
  - apply andb_true_iff in Hf as [_ [Hr _]%andb_true_iff]. by apply (nice_over _ j "[call] failed: ").
  - apply andb_true_iff in Hf as [_ [Hs _]%andb_true_iff]. by apply nice_config.
  - by apply nice_error.
Qed.

Lemma handle_applied raw j c : json_parse raw = Some j → well_typed server_messages j = true →
  is_negotiation j = true → negotiating c → applied (ClientMessages.handle rtc_apply raw) c.
Proof.
  intros Hp (Ho&type&fields&Ht&Hin&Hf)%well_typed_inv Hn%bool_decide_eq_true Hc. rewrite Ht in Hn.
  assert (Hty : type ∈ ["webrtc.offer"; "webrtc.answer"; "webrtc.ice"]) by set_solver.
  apply list_elem_of_In in Hin. cbn in Hin.
  repeat (destruct Hin as [[= <- <-]|Hin]; [try (exfalso; set_solver); handled Hp Ht|]); try done;
    apply andb_true_iff in Hf as [_ Hf].
  - apply andb_true_iff in Hf as [Hs _]. by apply offer_applied.
  - apply andb_true_iff in Hf as [Hs _]. by apply answer_applied.
  - by apply ice_applied.
Qed.

(** A message of the server, but for those of the negotiation: what the library
    throws at a configuration ends in the catch, and the configuration is read
    once more. *)
Lemma on_message_nice raw j : json_parse raw = Some j → well_typed server_messages j = true →
  is_negotiation j = false → nice never (on_message rtc_init rtc_apply raw).
Proof.
  intros Hp Hw Hn. pose proof (λ fails, handle_nice fails raw j Hp Hw Hn) as Hh.
  apply nice_bind; [|intros []; [apply nice_ret|apply Hh]]. apply nice_try; [|intros; apply nice_ret].
  unfold on_message_try. rewrite Hp. apply (nice_lift _ _ j); [done|].
  apply well_typed_inv in Hw as (Ho&type&fields&Ht&_). apply (nice_lift _ _ type); [by apply field_value|].
  repeat (apply nice_if; [apply nice_bind; [apply Hh|]; intros []|]); [| | |apply nice_ret].
  - apply nice_bind; [apply nice_session|]. intros s. apply nice_bind; [|intros []; apply nice_ret].
    apply nice_if; [apply nice_cleanup|apply nice_ret].
  - apply nice_started.
  - apply nice_bind; [apply nice_cleanup|intros []; apply nice_ret].
Qed.

(** The other way: the callback only hands the message on. *)
Lemma on_message_applied raw j c : json_parse raw = Some j → well_typed server_messages j = true →
  is_negotiation j = true → negotiating c → applied (on_message rtc_init rtc_apply raw) c.
Proof.
  intros Hp Hw Hn Hc. destruct (handle_applied raw j c Hp Hw Hn Hc) as (r&ev&E&Hev). exists r, ev. split; [|done].
  apply well_typed_inv in Hw as (Ho&type&fields&Ht&_). apply bool_decide_eq_true in Hn. rewrite Ht in Hn.
  assert (Et : on_message_try rtc_init rtc_apply raw c = (Ok false, c, [])).
  { unfold on_message_try. rewrite Hp, bind_lift, (field_value j "type" "" type), bind_lift by done.
    rewrite !bool_decide_false by set_solver. done. }
  unfold on_message, mbind, eff_bind, try. rewrite Et, E. done.
Qed.
End reading.

(** *** Messages that the client sends *)

Section sending.
Context `{JsonSpec}.

Definition typed_send (e : ClientEvent) : Prop :=
  match e with
  | WsSend text => ∃ j, json_parse text = Some j ∧ well_typed client_messages j = true
  | _ => True
  end.

(** A command keeps the id of the call a text and sends typed messages, however it
    ends; it may fail with what [fails] allows. *)
Definition call_ok (s : Session) : Prop := text_ok (call_id (call s)).
Definition typed {A} (fails : error → Prop) (m : eff Commands ClientEvent A) : Prop :=
  ∀ c, call_ok (session_ c) → ends fails (out_result (m c)) ∧ call_ok (session_ (out_state (m c))) ∧
    Forall typed_send (out_events (m c)).

Lemma typed_bind {A B} fails (m : eff Commands ClientEvent A) (f : A → eff Commands ClientEvent B) :
  typed fails m → (∀ a, typed fails (f a)) → typed fails (m ≫= f).
Proof.
  intros Hm Hf c Hc. destruct (Hm c Hc) as (Hr&Hs&He). unfold mbind, eff_bind.
  destruct (m c) as [[[a|e] c1] l1]; cbn in *; [|done]. destruct (Hf a c1 Hs) as (Hr'&Hs'&He').
  destruct (f a c1) as [[r c2] l2]. cbn in *. split_and!; [done..|]. by apply Forall_app.
Qed.
Lemma typed_lift {A} fails (r : result A) : ends fails r → typed fails (lift r).
Proof. intros Hr c Hc. split_and!; [done..|constructor]. Qed.
Lemma typed_ret {A} fails (a : A) : typed fails (λ c, (Ok a, c, [])).
Proof. intros c Hc. split_and!; [done..|constructor]. Qed.
Lemma typed_emit fails e : (∀ t, e ≠ WsSend t) → typed fails (emit e).
Proof. intros He c Hc. split_and!; [done..|]. constructor; [|done]. destruct e; try done. by destruct (He text). Qed.
Lemma typed_session {A} fails (f : Session → eff Commands ClientEvent A) :
  (∀ s, call_ok s → typed fails (f s)) → typed fails (session_of ≫= f).
Proof.
  intros Hf c Hc. specialize (Hf (session_ c) Hc c Hc). unfold mbind, eff_bind. cbn.
  by destruct (f (session_ c) c) as [[r c2] l2].
Qed.
Lemma typed_set fails s : call_ok s → typed fails (set_session s).
Proof. intros Hs c _. by split_and!. Qed.
Lemma typed_if {A} fails (b : bool) (m1 m2 : eff Commands ClientEvent A) :
  typed fails m1 → typed fails m2 → typed fails (if b then m1 else m2).
Proof. by destruct b. Qed.
Lemma typed_when fails flag e : (∀ t, e ≠ WsSend t) → typed fails (when flag e).
Proof. intros He c Hc. unfold when. destruct (flag c); [by apply typed_emit|by apply (typed_ret fails ())]. Qed.
Lemma typed_try {A} fails (m : eff Commands ClientEvent A) h :
  typed throws m → (∀ k w, typed fails (h k w)) → typed fails (try m h).
Proof.
  intros Hm Hh c Hc. destruct (Hm c Hc) as (Hr&Hs&He). unfold try.
  destruct (m c) as [[[a|[| |k w]] c1] l1]; cbn in *; try done. destruct (Hh k w c1 Hs) as (Hr'&Hs'&He').
  destruct (h k w c1) as [[r c2] l2]. cbn in *. split_and!; [done..|]. by apply Forall_app.
Qed.
Lemma typed_send_json fails msg : json_ok (json_texts msg) → well_typed client_messages (json_texts msg) = true →
  typed fails (send_json msg).
Proof.
  intros Hj Hw c Hc. unfold send_json. destruct (ws_send_ c); [|by split_and!].
  destruct (text_of_ok _ Hj) as [-> Hp]. rewrite bind_lift. split_and!; [done..|]. constructor; [|done].
  by exists (json_texts msg).
Qed.
Lemma typed_call_msg fails type id : type ∈ ["call.accept"; "call.reject"; "call.hangup"] → text_ok id →
  typed fails (send_json [("type", type); ("callId", id)]).
Proof.
  intros Ht%list_elem_of_In Hid. apply typed_send_json.
  - apply texts_ok. destruct Ht as [<-|[<-|[<-|[]]]]; repeat constructor; try done; text_lit.
  - destruct Ht as [<-|[<-|[<-|[]]]]; (eapply texts_typed; [reflexivity|]); repeat constructor; set_solver.
Qed.

(** What a login may fail with is an exception. *)
Lemma value_throws j k d : ends throws (json_value j k d).
Proof. unfold json_value, to_text. by repeat case_match. Qed.
Lemma dump_texts fails l : Forall (λ kv, text_ok kv.1 ∧ text_ok kv.2) l → ends fails (json_dump (json_texts l)).
Proof. intros Hl%texts_ok. by destruct (text_of_ok _ Hl) as [-> _]. Qed.

(** A step of a command. *)
Ltac typed_step := match goal with
  | |- typed _ (if _ then _ else _) => apply typed_if
  | |- typed _ (session_of ≫= _) => apply typed_session; intros ? ?
  | |- typed _ (_ ≫= _) => apply typed_bind; [|intros ?]
  | |- typed _ (try _ _) => apply typed_try; [|intros ? ?]
  | |- typed _ (set_session _) => apply typed_set; try done
  | |- typed _ (when _ _) => by apply typed_when
  | |- typed _ (emit _) => by apply typed_emit
  | |- typed _ (send_json [("type", _); ("callId", _)]) => apply typed_call_msg; [set_solver|done]
  | |- typed _ (lift _) => apply typed_lift
  | |- typed _ (match ?x with _ => _ end) => destruct x
  | |- typed _ _ => apply typed_ret
  | |- ends throws (json_value _ _ _) => apply value_throws
  end.

Lemma empty_text : text_ok "".
Proof. text_lit. Qed.

(** The POST of the HTTP client returns or throws. *)
Definition posts (http : string → string → result (Z * string)) : Prop := ∀ path body, ends throws (http path body).

Lemma account_texts fails user pass rest : Forall text_ok (user :: pass :: rest) →
  ends fails (json_dump (json_texts [("userId", user); ("password", pass)])).
Proof.
  intros Ha. apply Forall_cons in Ha as [Hu Ha]. apply Forall_cons in Ha as [Hp _].
  apply dump_texts. repeat constructor; try done; text_lit.
Qed.

Lemma typed_dispatch http cmd : posts http → Forall text_ok (args cmd) → typed never (dispatch http cmd).
Proof.
  intros Hp Ha. unfold dispatch. cbv zeta. repeat apply typed_if.
  - unfold login. repeat typed_step; [by eapply account_texts|exact (Hp _ _)|by destruct (json_parse _)].
  - unfold call_. destruct (args cmd) as [|callee args]; [apply typed_ret|]. apply Forall_cons in Ha as [Hcallee _].
    repeat match goal with |- typed _ (send_json _) => fail 1 | _ => typed_step end.
    apply typed_send_json; [apply texts_ok; repeat constructor; try done; text_lit|].
    eapply texts_typed; [reflexivity|]. repeat constructor; set_solver.
  - unfold Cli.accept. repeat typed_step.
  - unfold Cli.reject. repeat typed_step. apply empty_text.
  - unfold Cli.hangup. repeat typed_step. apply empty_text.
  - unfold mute. repeat typed_step.
  - unfold unmute. repeat typed_step.
  - unfold record_. repeat typed_step.
  - unfold register_. repeat typed_step; [by eapply account_texts|exact (Hp _ _)].
  - unfold Cli.stop. repeat typed_step.
  - unfold sendfile. repeat typed_step.
  - unfold status_. repeat typed_step.
  - unfold quit. repeat typed_step. apply empty_text.
  - apply typed_ret.
Qed.

Lemma typed_line http line : posts http → Forall text_ok (args (Cli.parse line)) → typed never (processLine http line).
Proof.
  intros Hp Ha. unfold processLine. apply typed_if; [apply typed_ret|]. cbv zeta. apply typed_if; [apply typed_ret|].
  apply typed_bind; [by apply typed_dispatch|]. intros r. repeat typed_step.
Qed.

(** What the library makes the client send. *)
Lemma sdp_typed (offer : bool) id sdp :
  well_typed client_messages (sdp_msg (if offer then "webrtc.offer" else "webrtc.answer") id sdp) = true.
Proof. destruct offer; (eapply texts_typed; [reflexivity|]); repeat constructor; set_solver. Qed.
Lemma ice_typed id candidate mid : well_typed client_messages (ice_msg id candidate mid) = true.
Proof.
  unfold well_typed, ice_msg. rewrite object_is_object, (field_str _ "type" "webrtc.ice") by (by rewrite get_cons).
  change (list_find (λ e, e.1 = "webrtc.ice") client_messages) with
    (Some (6%nat, ("webrtc.ice", [("callId", Text); ("candidate", Text); ("mid", Text); ("mlineindex", Int)]))).
  cbn [forallb andb]. unfold field_ok. cbn [fst snd]. rewrite !get_cons. cbn [String.eqb Ascii.eqb Bool.eqb has_type].
  by rewrite !is_text_str, number_int, bool_decide_true by (lia || done).
Qed.

Lemma typed_text j : json_ok j → well_typed client_messages j = true → typed_send (WsSend (text_of j)).
Proof. intros Hj Hw. exists j. split; [by apply text_of_ok|done]. Qed.

Lemma description_typed d sdp c : call_ok (client_session c) → text_ok sdp →
  Forall typed_send (out_events (onLocalDescription d sdp c)).
Proof.
  intros Hc Hs. destruct (handlers_alive c) eqn:Ha; [|unfold onLocalDescription; by rewrite bind_client, Ha].
  assert (Hb : ∀ b, Forall typed_send (out_events (onLocalDescription (if b : bool then Offer else Answer) sdp c))).
  { intros b. destruct (local_description_eq b _ sdp c Ha eq_refl Hc Hs) as [line ->]. repeat constructor.
    apply typed_text; [|apply sdp_typed]. apply sdp_msg_ok; try done. destruct b; text_lit. }
  destruct d; [exact (Hb true)|exact (Hb false)|]. unfold onLocalDescription. by rewrite bind_client, Ha.
Qed.

Lemma candidate_typed candidate mid c : call_ok (client_session c) → text_ok candidate → text_ok mid →
  Forall typed_send (out_events (onLocalCandidate candidate mid c)).
Proof.
  intros Hc Hx Hm. destruct (handlers_alive c) eqn:Ha; [|unfold onLocalCandidate; by rewrite bind_client, Ha].
  rewrite (local_candidate_eq _ candidate mid c Ha eq_refl) by done. repeat constructor.
  apply typed_text; [by apply ice_msg_ok|apply ice_typed].
Qed.

Lemma on_failed_typed c : call_ok (client_session c) → Forall typed_send (out_events (on_failed c)).
Proof.
  intros Hc. unfold on_failed. rewrite bind_session.
  assert (Hclean : Forall typed_send (cleanup_events c))
    by (unfold cleanup_events; destruct (call_cleanup_done c), (audio_ c), (pc_alive c); by repeat constructor).
  destruct (negb (str_empty _)).
  - set (j := json_texts [("type", "call.hangup"); ("callId", call_id (call (client_session c)))]).
    assert (Hj : json_ok j) by (apply texts_ok; repeat constructor; try done; text_lit).
    rewrite (bind_Ok _ _ () c c [WsSend (text_of j)]).
    2:{ by rewrite (proj1 (text_of_ok _ Hj)), bind_lift. }
    rewrite cleanupCall_eq. cbn. constructor; [|done]. apply typed_text; [done|].
    eapply texts_typed; [reflexivity|]. repeat constructor; set_solver.
  - rewrite (bind_Ok _ _ () c c []) by done. by rewrite cleanupCall_eq.
Qed.

Lemma state_typed state c : call_ok (client_session c) → Forall typed_send (out_events (handleStateChange state c)).
Proof.
  intros Hc. destruct state; try (by repeat constructor). unfold handleStateChange.
  set (c1 := mkClient (cmds c) (pc_alive c) (handlers_alive c) (rtc_callbacks c) (audio_ c) false (call_cleanup_done c)).
  rewrite (bind_Ok _ _ () c c1 []) by done. unfold ClientMessages.print.
  rewrite (bind_Ok (emit _) _ () c1 c1 [Printed "[rtc] failed — use 'hangup' and call again"]) by done.
  pose proof (on_failed_typed c1 Hc) as Hf. destruct (on_failed c1) as [[r c2] l]. by constructor.
Qed.
End sending.

(** ** Property *)

Section properties.
Context `{OpenSSLSpec, JsonSpec, !JwtCpp, !JwtCppSpec, !IterOrder string CallSession}.
Variable rtc_init : ClientTurn → result ().
Variable rtc_apply : ClientEvent → result ().

End properties.

(** Alice hangs up; what Bob gets is typed, and he handles it. *)
Module hanging_up.
Import talk.
#[local] Existing Instances ToyOpenSSL ToyOpenSSLSpec ToyJson ToyJsonSpec ToyJwt ToyJwtSpec sessions_order.

(** The library refuses an offer that is not a description. *)
Definition rtc_apply (e : ClientEvent) : result () :=
  match e with RtcOffer sdp => if str_prefix "v=" sdp then Ok () else Err (Thrown InvalidArgument "SDP") | _ => Ok () end.
Lemma library_throws : library_answers dial.rtc_init rtc_apply.
Proof. split; [apply dial.answers|]. intros []; try done. unfold rtc_apply. by destruct (str_prefix _ _). Qed.

End hanging_up.
