(* ===== verification/Repl.v ===== *)
(** * The interpreter of the client and its end (src/client_cli/src/cli/repl.cpp, main.cpp)

    [Repl::run] has one thread that prompts, waits for a line, and processes it,
    until [quit_] is set or the input ends.  SIGINT and SIGTERM run
    [signal_handler] of main.cpp, which sets [quit_] too, but does not end the
    wait: [std::signal] restarts the interrupted read.

    The list given to [run] is what happens while the thread waits, in its order:
    a line is entered, a signal arrives, or another thread (the one that reads
    messages, or reconnects) changes the client or the thread of the connection.
    Its end is the end of the input.

    A line that logs in runs [WsClient::connect], which gets through or throws; the
    callback of main.cpp catches that.  When it gets through it assigns
    [read_thread_], and if that is a thread already, the program is terminated.
    [Err Undefined] stands for that end here; nothing catches it. *)

From Stdlib Require Import Ascii.
From S2P Require Export Protocol.

Record Repl := mkRepl {
  client_ : Client;
  repl_quit_ : bool;
  reading_ : bool;              (* [read_thread_] of the WsClient is joinable *)
}.

Inductive input :=
  | Entered (line : string) (connects : bool)   (* whether a connect gets through *)
  | Signalled
  | Elsewhere (c : Client) (reading : bool).

Inductive ReplEvent :=
  | Prompt (text : string)
  | Processed (line : string)
  | Did (e : ClientEvent).

Section repl.
Context `{Json}.
Variable http_post : string → string → result (Z * string).

Abbreviation M := (eff Repl ReplEvent).

Definition prompt : M () := λ r,
  let s := client_session (client_ r) in
  (Ok (), r, [Prompt (if isLoggedIn s then "[" +:+ userId s +:+ "] > " else "> ")]).

(** [print], which other threads call, ends with a prompt too. *)
Definition print (message : string) : M () := emit (Did (Printed message));; prompt.

Definition set_quit (b : bool) : M () := λ r, (Ok (), mkRepl (client_ r) b (reading_ r), []).
Definition shouldQuit (r : Repl) : bool := repl_quit_ r.
Definition requestQuit : M () := set_quit true.

(** [processLine] with the callback of setOnLogin, which runs where the event
    [LoggedIn] is, and then [commands_.shouldQuit()]. *)
Definition logs_in (e : ClientEvent) : bool := match e with LoggedIn => true | _ => false end.
Fixpoint up_to_login (events : list ClientEvent) : list ClientEvent :=
  match events with [] => [] | e :: events => if logs_in e then [e] else e :: up_to_login events end.

Definition on_line (line : string) (connects : bool) : M () := λ r,
  let '(o, c, ev) := type_line http_post line (client_ r) in
  let connected := existsb logs_in ev && connects in
  if connected && reading_ r
  then (Err Undefined, mkRepl c (repl_quit_ r) true, Processed line :: map Did (up_to_login ev))
  else (o, mkRepl c (match o with Ok _ => if quit_ (cmds c) then true else repl_quit_ r | Err _ => repl_quit_ r end)
          (reading_ r || connected),
        Processed line :: map Did ev).

(** main.cpp *)
Definition drop_call (c : Client) : Client :=
  if isInCall (client_session c) then call_dropped c else c.
Definition signal_handler : M () :=
  r ← get;
  put (mkRepl (drop_call (client_ r)) (repl_quit_ r) (reading_ r));;
  requestQuit.

(** The rest of a round, which begins with the prompt, and the rounds after it. *)
Fixpoint wait (inputs : list input) : M () :=
  match inputs with
  | [] => mret ()
  | Signalled :: inputs => signal_handler;; wait inputs
  | Elsewhere c reading :: inputs => r ← get; put (mkRepl c (repl_quit_ r) reading);; wait inputs
  | Entered line connects :: inputs =>
      on_line line connects;;
      r ← get;
      if shouldQuit r then mret () else prompt;; wait inputs
  end.

Definition run (inputs : list input) : M () :=
  r ← get;
  if shouldQuit r then mret () else prompt;; wait inputs.
End repl.

(** What the loop does, by the lines: it processes those before the first that
    quits, that one, or the first after a signal. *)
Definition quits (line : string) : bool :=
  bool_decide (Cli.name (Cli.parse line) = "quit") || bool_decide (Cli.name (Cli.parse line) = "exit").

Fixpoint processed (signalled : bool) (inputs : list input) : list string :=
  match inputs with
  | [] => []
  | Signalled :: inputs => processed true inputs
  | Elsewhere _ _ :: inputs => processed signalled inputs
  | Entered line _ :: inputs => line :: if signalled || quits line then [] else processed signalled inputs
  end.

(** No connect gets through while the thread of an earlier one is there. *)
Definition is_login (line : string) : bool := bool_decide (Cli.name (Cli.parse line) = "login").

Fixpoint one_connection (reading : bool) (inputs : list input) : bool :=
  match inputs with
  | [] => true
  | Signalled :: inputs => one_connection reading inputs
  | Elsewhere _ reading :: inputs => one_connection reading inputs
  | Entered line connects :: inputs =>
      if is_login line && connects then negb reading && one_connection true inputs else one_connection reading inputs
  end.

Definition lines (events : list ReplEvent) : list string :=
  omap (λ e, match e with Processed line => Some line | _ => None end) events.
Definition done_by (events : list ReplEvent) : list ClientEvent :=
  omap (λ e, match e with Did e => Some e | _ => None end) events.
Definition prompts (events : list ReplEvent) : list string :=
  omap (λ e, match e with Prompt text => Some text | _ => None end) events.

(** ** Lemmas *)

(** *** A command other than quit leaves the flag of the commands *)

Section keeping.
Context `{JsonSpec}.

Definition keeps {A} (m : eff Commands ClientEvent A) : Prop := ∀ c, quit_ (out_state (m c)) = quit_ c.

Lemma keeps_bind {A B} (m : eff Commands ClientEvent A) (f : A → eff Commands ClientEvent B) :
  keeps m → (∀ a, keeps (f a)) → keeps (m ≫= f).
Proof.
  intros Hm Hf c. specialize (Hm c). unfold mbind, eff_bind. destruct (m c) as [[[a|e] c1] l1]; [|done].
  specialize (Hf a c1). destruct (f a c1) as [[r c2] l2]. unfold out_state in *. cbn in *. congruence.
Qed.
Lemma keeps_try {A} (m : eff Commands ClientEvent A) h : keeps m → (∀ k w, keeps (h k w)) → keeps (try m h).
Proof.
  intros Hm Hh c. specialize (Hm c). unfold try. destruct (m c) as [[[a|[| |k w]] c1] l1]; try done.
  specialize (Hh k w c1). destruct (h k w c1) as [[r c2] l2]. unfold out_state in *. cbn in *. congruence.
Qed.
Lemma keeps_if {A} (b : bool) (m1 m2 : eff Commands ClientEvent A) : keeps m1 → keeps m2 → keeps (if b then m1 else m2).
Proof. by destruct b. Qed.
Lemma keeps_when flag e : keeps (when flag e).
Proof. intros c. unfold when. by destruct (flag c). Qed.
Lemma keeps_send msg : keeps (send_json msg).
Proof.
  intros c. unfold send_json. destruct (ws_send_ c); [|done]. unfold mbind, eff_bind, lift. by destruct (json_dump _).
Qed.
Lemma keeps_ret {A} (a : A) : keeps (mret a).
Proof. intros c. reflexivity. Qed.

(** Nor does it log in, unless it is a login. *)
Definition silent {A} (m : eff Commands ClientEvent A) : Prop := ∀ c, existsb logs_in (out_events (m c)) = false.

Lemma silent_bind {A B} (m : eff Commands ClientEvent A) (f : A → eff Commands ClientEvent B) :
  silent m → (∀ a, silent (f a)) → silent (m ≫= f).
Proof.
  intros Hm Hf c. specialize (Hm c). unfold mbind, eff_bind. destruct (m c) as [[[a|e] c1] l1]; [|done].
  specialize (Hf a c1). destruct (f a c1) as [[r c2] l2]. unfold out_events in *. cbn in *.
  by rewrite existsb_app, Hm, Hf.
Qed.
Lemma silent_try {A} (m : eff Commands ClientEvent A) h : silent m → (∀ k w, silent (h k w)) → silent (try m h).
Proof.
  intros Hm Hh c. specialize (Hm c). unfold try. destruct (m c) as [[[a|[| |k w]] c1] l1]; try done.
  specialize (Hh k w c1). destruct (h k w c1) as [[r c2] l2]. unfold out_events in *. cbn in *.
  by rewrite existsb_app, Hm, Hh.
Qed.
Lemma silent_if {A} (b : bool) (m1 m2 : eff Commands ClientEvent A) :
  silent m1 → silent m2 → silent (if b then m1 else m2).
Proof. by destruct b. Qed.
Lemma silent_when flag e : logs_in e = false → silent (when flag e).
Proof. intros He c. unfold when. destruct (flag c); [|done]. cbn. by rewrite He. Qed.
Lemma silent_send msg : silent (send_json msg).
Proof.
  intros c. unfold send_json. destruct (ws_send_ c); [|done]. unfold mbind, eff_bind, lift. by destruct (json_dump _).
Qed.
End keeping.

Ltac silent_step := match goal with
  | |- silent (if _ then _ else _) => apply silent_if
  | |- silent (_ ≫= _) => apply silent_bind; [|intros ?]
  | |- silent (try _ _) => apply silent_try; [|intros ? ?]
  | |- silent (when _ _) => by apply silent_when
  | |- silent (send_json _) => apply silent_send
  | |- silent (match ?x with _ => _ end) => destruct x
  | |- silent _ => intros ?; reflexivity
  end.

Ltac keeps_step := match goal with
  | |- keeps (if _ then _ else _) => apply keeps_if
  | |- keeps (_ ≫= _) => apply keeps_bind; [|intros ?]
  | |- keeps (try _ _) => apply keeps_try; [|intros ? ?]
  | |- keeps (when _ _) => apply keeps_when
  | |- keeps (send_json _) => apply keeps_send
  | |- keeps (match ?x with _ => _ end) => destruct x
  | |- keeps _ => intros ?; reflexivity
  end.

Section facts.
Context `{JsonSpec}.
Variable http : string → string → result (Z * string).

Lemma keeps_dispatch cmd : Cli.name cmd ≠ "quit" → Cli.name cmd ≠ "exit" → keeps (dispatch http cmd).
Proof.
  intros Hq He. unfold dispatch. cbv zeta. rewrite (bool_decide_false (Cli.name cmd = "quit")),
    (bool_decide_false (Cli.name cmd = "exit")) by done. cbn [orb].
  repeat apply keeps_if; unfold login, call_, Cli.accept, Cli.reject, Cli.hangup, mute, unmute, record_, register_,
    Cli.stop, sendfile, status_; repeat keeps_step.
Qed.

Lemma keeps_line line : quits line = false → keeps (processLine http line).
Proof.
  intros [H1%bool_decide_eq_false H2%bool_decide_eq_false]%orb_false_iff. unfold processLine.
  apply keeps_if; [apply keeps_ret|]. cbv zeta. apply keeps_if; [apply keeps_ret|].
  apply keeps_bind; [by apply keeps_dispatch|]. intros r. repeat keeps_step.
Qed.

Lemma silent_line line : is_login line = false → silent (processLine http line).
Proof.
  intros Hl%bool_decide_eq_false. unfold processLine. apply silent_if; [silent_step|]. cbv zeta.
  apply silent_if; [silent_step|]. apply silent_bind; [|intros r; repeat silent_step].
  unfold dispatch. cbv zeta. rewrite bool_decide_false by done.
  repeat apply silent_if; unfold call_, Cli.accept, Cli.reject, Cli.hangup, mute, unmute, record_, register_,
    Cli.stop, sendfile, status_, quit; repeat silent_step.
Qed.

Lemma quits_no_login line : quits line = true → is_login line = false.
Proof.
  unfold quits, is_login. intros [E%bool_decide_eq_true|E%bool_decide_eq_true]%orb_true_iff; by rewrite E.
Qed.

(** *** The line that quits *)

Lemma wp_type_quit line c (Q : () → Client → list ClientEvent → Prop) :
  let s := client_session c in
  quits line = true → call_ok s →
  (∀ c' evs, c' = with_cmds (mkCommands (client_session (drop_call c)) true (ws_send_ (cmds c)) (capture_cb_ (cmds c))
       (sendfile_cb_ (cmds c))) c →
     sends evs = (if isInCall s && ws_send_ (cmds c) then [text_of (json_texts (hangup_msg (call_id (call s))))] else []) → Q () c' evs) →
  wp (type_line http line) Q c.
Proof.
  intros s Hq Ht HQ. apply wp_type_line. unfold processLine. destruct line as [|ch line]; [done|]. cbn [str_empty].
  set (cmd := Cli.parse (String ch line)) in *.
  assert (Hd : str_empty (name cmd) = false ∧ dispatch http cmd = quit (args cmd)).
  { unfold quits in Hq. fold cmd in Hq. destruct cmd as [n a]. cbn [name args] in *.
    apply orb_true_iff in Hq as [E|E]; apply bool_decide_eq_true in E; by subst n. }
  destruct Hd as [-> ->]. unfold quit. wp_step. apply wp_bind, wp_session_of. fold (client_session c). fold s.
  destruct (isInCall s) eqn:Hin.
  - wp_steps. destruct (ws_send_ (cmds c)) eqn:Hs.
    + apply wp_send_json; [|done|].
      { apply texts_ok. repeat constructor; try done; text_lit. }
      wp_steps. apply wp_set_session. unfold Cli.set_quit, success. wp_step. unfold wp at 1. wp_step.
      cbn [message str_empty negb]. wp_step. wp_step. unfold when, wp. cbn. apply HQ; [|done].
      unfold drop_call. fold s. by rewrite Hin, Hs.
    + unfold send_json, wp at 1. rewrite Hs. unfold mret at 1, eff_ret at 1.
      wp_steps. apply wp_set_session. unfold Cli.set_quit, success. wp_step. unfold wp at 1. wp_step.
      cbn [message str_empty negb]. wp_step. wp_step. unfold when, wp. cbn. apply HQ; [|done].
      unfold drop_call. fold s. by rewrite Hin, Hs.
  - wp_steps. unfold Cli.set_quit, success. unfold wp at 1. wp_step.
    cbn [message str_empty negb]. wp_step. wp_step. unfold when, wp. cbn. apply HQ; [|done].
    unfold drop_call. fold s. by rewrite Hin.
Qed.

(** *** The loop *)

Definition usable (c : Client) : Prop := call_ok (client_session c) ∧ quit_ (cmds c) = false.
Definition input_ok (i : input) : Prop :=
  match i with
  | Entered line _ => Forall text_ok (args (Cli.parse line))
  | Signalled => True
  | Elsewhere c _ => usable c
  end.

Lemma lines_did ev : lines (map Did ev) = [].
Proof. by induction ev. Qed.
Lemma prompts_did ev : prompts (map Did ev) = [].
Proof. by induction ev. Qed.
Lemma done_did ev : done_by (map Did ev) = ev.
Proof. induction ev as [|e ev IH]; [done|]. change (e :: done_by (map Did ev) = e :: ev). by rewrite IH. Qed.
Lemma lines_app l1 l2 : lines (l1 ++ l2) = lines l1 ++ lines l2.
Proof. apply omap_app. Qed.
Lemma prompts_app l1 l2 : prompts (l1 ++ l2) = prompts l1 ++ prompts l2.
Proof. apply omap_app. Qed.
Lemma done_app l1 l2 : done_by (l1 ++ l2) = done_by l1 ++ done_by l2.
Proof. apply omap_app. Qed.

Lemma typed_up_to ev : Forall typed_send ev → Forall typed_send (up_to_login ev).
Proof. induction 1 as [|e ev He _ IH]; cbn [up_to_login]; [done|]. destruct (logs_in e); by constructor. Qed.

Lemma last_up_to ev : existsb logs_in ev = true → last (up_to_login ev) = Some LoggedIn.
Proof.
  induction ev as [|e ev IH]; [done|]. cbn [existsb up_to_login]. destruct (logs_in e) eqn:He; [by destruct e|].
  intros Hin. rewrite last_cons. by rewrite IH.
Qed.

(** A line is processed; what is left of the program is in [usable] states, or it
    is terminated by a login. *)
Definition terminated (line : string) (connects : bool) (r : Repl) (ev : list ClientEvent) : Prop :=
  is_login line = true ∧ connects = true ∧ reading_ r = true ∧ last ev = Some LoggedIn.

Lemma on_line_runs line connects r : posts http → input_ok (Entered line connects) → usable (client_ r) →
  ∃ o c' reading ev, on_line http line connects r =
      (o, mkRepl c' (if o is Ok _ then quits line || repl_quit_ r else repl_quit_ r) reading, Processed line :: map Did ev) ∧
    Forall typed_send ev ∧
    ((o = Ok () ∧ (quits line = false → usable c') ∧
      reading = reading_ r || (is_login line && connects && reading)) ∨
     (o = Err Undefined ∧ terminated line connects r ev)).
Proof.
  intros Hp Hl [Hc Hq]. destruct (typed_line http line Hp Hl (cmds (client_ r)) Hc) as (Hr&Hc'&He).
  assert (Hs : is_login line = false → existsb logs_in (out_events (type_line http line (client_ r))) = false).
  { intros Hlog. pose proof (silent_line line Hlog (cmds (client_ r))) as Hs. unfold type_line.
    by destruct (processLine http line _) as [[? ?] ?]. }
  unfold on_line. destruct (quits line) eqn:Hquits.
  - destruct (wp_run _ _ _ (wp_type_quit line (client_ r) (λ _ c' ev, quit_ (cmds c') = true) Hquits Hc
      ltac:(by intros c' ev -> _))) as ([]&c'&ev&E&Hq'). rewrite E, Hq'. specialize (Hs (quits_no_login _ Hquits)).
    rewrite E in Hs. unfold out_events in Hs. cbn [snd] in Hs. rewrite Hs, orb_false_r. cbn [andb].
    exists (Ok ()), c', (reading_ r), ev. split; [done|].
    unfold type_line in E. destruct (processLine http line _) as [[o cs] ev'].
    assert (ev' = ev) as -> by by injection E. split; [exact He|]. left. split; [done|]. split; [done|].
    rewrite (quits_no_login _ Hquits). cbn. by rewrite orb_false_r.
  - pose proof (keeps_line line Hquits (cmds (client_ r))) as Hk. unfold type_line in *.
    destruct (processLine http line _) as [[[[]|e] cs] ev]; [|done]. unfold out_state, out_events in *. cbn in Hk, Hs, Hc', He |- *.
    destruct (existsb logs_in ev) eqn:Hlog; cbn [andb].
    2:{ exists (Ok ()), (with_cmds cs (client_ r)), (reading_ r), ev. rewrite Hk, Hq, orb_false_r. split; [done|].
        split; [exact He|]. left. split; [done|]. split; [intros _; split; [exact Hc'|by cbn; rewrite Hk]|].
        destruct (reading_ r); [done|]. by rewrite andb_false_r. }
    destruct (is_login line) eqn:Hil; [|by specialize (Hs eq_refl)].
    destruct connects, (reading_ r) eqn:Hrd; cbn [andb].
    + exists (Err Undefined), (with_cmds cs (client_ r)), true, (up_to_login ev). split; [done|].
      split; [by apply typed_up_to|]. right. split; [done|]. split_and!; [done..|]. by apply last_up_to.
    + exists (Ok ()), (with_cmds cs (client_ r)), true, ev. rewrite Hk, Hq. split; [done|]. split; [exact He|]. left.
      split; [done|]. split; [intros _; split; [exact Hc'|by cbn; rewrite Hk]|done].
    + exists (Ok ()), (with_cmds cs (client_ r)), true, ev. rewrite Hk, Hq. split; [done|]. split; [exact He|]. left.
      split; [done|]. split; [intros _; split; [exact Hc'|by cbn; rewrite Hk]|done].
    + exists (Ok ()), (with_cmds cs (client_ r)), false, ev. rewrite Hk, Hq. split; [done|]. split; [exact He|]. left.
      split; [done|]. split; [intros _; split; [exact Hc'|by cbn; rewrite Hk]|done].
Qed.

Lemma drop_call_idle c : call_state (call (client_session (drop_call c))) = AppState.Idle.
Proof.
  unfold drop_call. destruct (isInCall _) eqn:Ei; [done|]. unfold isInCall in Ei. by apply negb_false_iff, bool_decide_eq_true in Ei.
Qed.

Lemma usable_drop c : usable c → usable (drop_call c).
Proof. intros [Hc Hq]. unfold drop_call. destruct (isInCall _); [|done]. split; [apply empty_text|done]. Qed.

Lemma one_connection_mono inputs : one_connection true inputs = true → one_connection false inputs = true.
Proof.
  induction inputs as [|[line connects| |c rd] inputs IH]; cbn [one_connection]; try done. by destruct (is_login line && connects).
Qed.

(** How the loop ends: with the lines processed, or terminated by a login. *)
Definition finished (o : result ()) (signalled : bool) (inputs : list input) (ev : list ReplEvent) : Prop :=
  (o = Ok () ∧ lines ev = processed signalled inputs) ∨
  (o = Err Undefined ∧ lines ev `prefix_of` processed signalled inputs ∧ last ev = Some (Did LoggedIn)).

Lemma last_did ev e : last ev = Some e → last (map Did ev) = Some (Did e).
Proof.
  intros He. change (map Did ev) with (Did <$> ev). by rewrite fmap_last, He.
Qed.

Lemma wait_runs inputs r : posts http → Forall input_ok inputs → usable (client_ r) →
  ∃ o r' ev, wait http inputs r = (o, r', ev) ∧ finished o (repl_quit_ r) inputs ev ∧
    (one_connection (reading_ r) inputs = true → o = Ok ()) ∧
    Forall typed_send (done_by ev) ∧ (length (prompts ev) ≤ length (lines ev) ≤ S (length (prompts ev)))%nat.
Proof.
  intros Hp. revert r. induction inputs as [|i inputs IH]; intros r Hin Hu.
  { exists (Ok ()), r, []. cbn. split_and!; [done|by left|done|done|lia|lia]. }
  apply Forall_cons in Hin as [Hi Hin]. destruct i as [line connects| |c reading]; cbn [wait].
  - destruct (on_line_runs line connects r Hp Hi Hu) as (o&c'&rd&ev&E&He&[(->&Hu'&Hrd)|(->&Hlog&->&Hr&Hlast)]).
    2:{ exists (Err Undefined), (mkRepl c' (repl_quit_ r) rd), (Processed line :: map Did ev).
        split; [unfold mbind, eff_bind; by rewrite E|].
        change (lines (Processed line :: ?l)) with (line :: lines l). change (done_by (Processed line :: ?l)) with (done_by l).
        change (prompts (Processed line :: ?l)) with (prompts l). unfold finished.
        change (lines (Processed line :: ?l)) with (line :: lines l). rewrite lines_did, done_did, prompts_did.
        cbn [processed one_connection]. rewrite Hlog, Hr. cbn [andb negb].
        split; [right; split; [done|]; split; [by eexists|]|split_and!; [done|done|cbn; lia..]].
        rewrite last_cons. by rewrite (last_did _ _ Hlast). }
    rewrite (bind_Ok _ _ _ _ _ _ E), bind_get. cbn [shouldQuit repl_quit_]. unfold shouldQuit. cbn [repl_quit_].
    destruct (quits line || repl_quit_ r) eqn:Hq.
    + exists (Ok ()), (mkRepl c' true rd), (Processed line :: map Did ev). unfold mret, eff_ret. rewrite app_nil_r.
      split; [done|]. unfold finished.
      change (lines (Processed line :: ?l)) with (line :: lines l). change (done_by (Processed line :: ?l)) with (done_by l).
      change (prompts (Processed line :: ?l)) with (prompts l). rewrite lines_did, done_did, prompts_did.
      cbn [processed]. rewrite (orb_comm (repl_quit_ r)), Hq. split_and!; [by left|done|done|cbn; lia..].
    + apply orb_false_iff in Hq as [Hq Hr].
      destruct (IH (mkRepl c' false rd) Hin (Hu' Hq)) as (o&r'&ev'&E'&Hf&Hone&He'&Hn).
      set (p := if isLoggedIn (client_session c') then "[" +:+ userId (client_session c') +:+ "] > " else "> ").
      assert (Ep : prompt (mkRepl c' false rd) = (Ok (), mkRepl c' false rd, [Prompt p])) by done.
      rewrite (bind_Ok _ _ _ _ _ _ Ep), E'. eexists _, _, _. split; [reflexivity|].
      change ((Processed line :: map Did ev) ++ [Prompt p] ++ ev') with (Processed line :: (map Did ev ++ Prompt p :: ev')).
      change (done_by (Processed line :: ?l)) with (done_by l). change (prompts (Processed line :: ?l)) with (prompts l).
      assert (Hpr : processed (repl_quit_ r) (Entered line connects :: inputs) = line :: processed false inputs)
        by (cbn [processed]; by rewrite Hr, Hq).
      assert (Hl : lines (Processed line :: (map Did ev ++ Prompt p :: ev')) = line :: lines ev').
      { change (line :: lines (map Did ev ++ Prompt p :: ev') = line :: lines ev'). by rewrite lines_app, lines_did. }
      rewrite Hl, done_app, prompts_app, done_did, prompts_did.
      change (done_by (Prompt p :: ev')) with (done_by ev'). change (prompts (Prompt p :: ev')) with (p :: prompts ev').
      split_and!; [| |by apply Forall_app|cbn; lia..].
      * cbn [repl_quit_] in Hf. unfold finished in *. rewrite Hl, Hpr. destruct Hf as [[-> ->]|(->&[k Hk]&Hlast)]; [by left|right].
        split; [done|]. split; [exists k; by rewrite Hk|]. rewrite last_cons, last_app, last_cons. by rewrite Hlast.
      * cbn [one_connection reading_] in *. intros H1. apply Hone. rewrite Hrd.
        destruct (is_login line), connects, (reading_ r), rd; try done. by apply one_connection_mono.
  - destruct (IH (mkRepl (drop_call (client_ r)) true (reading_ r)) Hin (usable_drop _ Hu)) as (o&r'&ev&E&Hrest).
    exists o, r', ev. split; [|exact Hrest].
    by rewrite (bind_Ok (signal_handler) _ () r (mkRepl (drop_call (client_ r)) true (reading_ r)) [] eq_refl), E.
  - destruct (IH (mkRepl c (repl_quit_ r) reading) Hin Hi) as (o&r'&ev&E&Hrest). exists o, r', ev. split; [|exact Hrest].
    rewrite bind_get. by rewrite (bind_Ok (put (mkRepl c (repl_quit_ r) reading)) _ () r (mkRepl c (repl_quit_ r) reading) [] eq_refl), E.
Qed.

Lemma finished_prompt o b inputs p ev : finished o b inputs ev → finished o b inputs (Prompt p :: ev).
Proof.
  intros [[-> Hl]|(->&Hl&Hlast)]; [by left|right]. split_and!; [done..|]. rewrite last_cons. by rewrite Hlast.
Qed.

(** A second login, and a word that cannot be dumped. *)
Lemma on_line_terminated line r c' ev : type_line http line (client_ r) = (Ok (), c', ev) → LoggedIn ∈ ev →
  reading_ r = true → ∃ r' ev', on_line http line true r = (Err Undefined, r', ev').
Proof.
  intros Ht Hin Hr. unfold on_line. rewrite Ht, Hr.
  assert (existsb logs_in ev = true) as -> by (apply existsb_exists; exists LoggedIn; by rewrite <-list_elem_of_In).
  by do 2 eexists.
Qed.

Lemma on_line_undumped w connects r k what : let s := client_session (client_ r) in
  word w → isLoggedIn s = true → userId s ≠ w → isInCall s = false → ws_send_ (cmds (client_ r)) = true →
  json_dump (json_texts (create_msg w)) = Err (Thrown k what) →
  ∃ r' ev, on_line http ("call " +:+ w) connects r = (Err (Thrown k what), r', ev).
Proof.
  intros s Hw Hlog Hne Hidle Hs Hd.
  assert (E : ∃ c', type_line http ("call " +:+ w) (client_ r) = (Err (Thrown k what), c', [])).
  { unfold type_line, processLine. cbn [str_empty String.append]. change (String "c"%char _) with ("call " +:+ w).
    rewrite parse_call by done. cbn [name str_empty]. rewrite dispatch_call. unfold call_.
    destruct (cmds (client_ r)) as [s' q wsend cc sf] eqn:Ec.
    assert (s' = s) as -> by (unfold s, client_session; by rewrite Ec). cbn in Hs. subst wsend.
    unfold mbind, eff_bind, session_of, set_session, send_json. cbn [session_ ws_send_].
    rewrite Hlog, Hidle, bool_decide_false by done. cbn [negb]. unfold lift. cbn [ws_send_].
    unfold create_msg in Hd. rewrite Hd. by eexists. }
  destruct E as [c' E]. unfold on_line. rewrite E. cbn. by do 2 eexists.
Qed.

(** The command quit. *)
Lemma on_line_quits line connects r : usable (client_ r) → quits line = true → ws_send_ (cmds (client_ r)) = true →
  ∃ c' ev, on_line http line connects r = (Ok (), mkRepl c' true (reading_ r), Processed line :: map Did ev) ∧
    sends ev = (if isInCall (client_session (client_ r))
      then [text_of (json_texts (hangup_msg (call_id (call (client_session (client_ r))))))] else []) ∧
    call_state (call (client_session c')) = AppState.Idle.
Proof.
  intros Hu Hq Hs. set (c := client_ r) in *.
  assert (W : wp (type_line http line) (λ _ c' ev, quit_ (cmds c') = true ∧
    call_state (call (client_session c')) = AppState.Idle ∧ sends ev = (if isInCall (client_session c)
       then [text_of (json_texts (hangup_msg (call_id (call (client_session c)))))] else [])) c).
  { apply wp_type_quit; [done|apply Hu|]. intros c' ev -> Hev. rewrite Hs, andb_true_r in Hev. split; [done|].
    split; [apply drop_call_idle|done]. }
  destruct (wp_run _ _ _ W) as ([]&c'&ev&Et&Hq'&Hc&Hsend). exists c', ev. split; [|done].
  pose proof (silent_line line (quits_no_login _ Hq) (cmds c)) as Hl. unfold on_line. fold c. rewrite Et.
  unfold type_line in Et. destruct (processLine http line _) as [[o cs] ev'].
  assert (ev' = ev) as -> by by injection Et. unfold out_events in Hl. cbn [snd] in Hl.
  by rewrite Hl, Hq', orb_false_r.
Qed.

Lemma processed_signal inputs : processed false (Signalled :: inputs) = take 1 (processed false inputs).
Proof.
  assert (Hone : ∀ l, take 1 (processed true l) = processed true l) by (intros l; induction l as [|[]]; done).
  cbn [processed]. induction inputs as [|[line cn| |c' rd] inputs IH]; [done|..]; cbn [processed orb].
  - cbn [take]. by rewrite firstn_O.
  - by rewrite Hone.
  - exact IH.
Qed.

(** A signal makes the client forget its call, and the next line is the last. *)
Lemma signal_waits inputs r :
  wait http (Signalled :: inputs) r = wait http inputs (mkRepl (drop_call (client_ r)) true (reading_ r)).
Proof.
  cbn [wait]. rewrite (bind_Ok (signal_handler) _ () r (mkRepl (drop_call (client_ r)) true (reading_ r)) [] eq_refl).
  by destruct (wait http inputs _) as [[? ?] ?].
Qed.
End facts.

(** *** The call of a client that is gone *)

Section backend.
Context `{OpenSSL, JsonSpec, !IterOrder string CallSession}.

(** The session of a user ends, and the timer runs again and again. *)
Fixpoint sweeps (envs : list RouterInputs) : B () :=
  match envs with [] => mret () | env :: envs => Router.checkExpired env;; sweeps envs end.

Lemma sweeps_keep k s envs b : backend_inv b → sessions_ (call_manager_ b) !! k = Some s → state s = CallState.Active →
  ∃ b' ev, sweeps envs b = (Ok (), b', ev) ∧ backend_inv b' ∧ sessions_ (call_manager_ b') !! k = Some s.
Proof.
  revert b. induction envs as [|env envs IH]; intros b I Hk Hs; [by exists b, []|]. cbn [sweeps].
  destruct (wp_run _ _ _ (implements_checkExpired env b I)) as ([]&b1&ev1&E1&->&_). rewrite (bind_Ok _ _ _ _ _ _ E1).
  destruct (IH (mkBackend (sweep env (call_manager_ b)).1 (ws_sessions_ b))) as (b2&ev2&->&I2&Hk2).
  - by apply expire_inv.
  - destruct (expireRinging_spec (steady env) (call_manager_ b)) as (_&E&_). cbn [call_manager_ sweep fst]. rewrite E.
    apply map_lookup_filter_Some. split; [done|]. cbn. unfold timed_out. by rewrite Hs.
  - done.
  - by exists b2, (ev1 ++ ev2).
Qed.

Lemma abandoned_busy u k s envs b : backend_inv b → sessions_ (call_manager_ b) !! k = Some s →
  state s = CallState.Active →
  ∃ b' ev, (WsServer.removeSession u;; sweeps envs) b = (Ok (), b', ev) ∧ ∀ v, party v s → isBusy v (call_manager_ b') = true.
Proof.
  intros I Hk Hs. set (b1 := mkBackend (call_manager_ b) (delete u (ws_sessions_ b))).
  destruct (sweeps_keep k s envs b1) as (b'&ev&E&_&Hk'); [by destruct I as [I1 I2]|done|done|].
  rewrite (bind_Ok (WsServer.removeSession u) _ () b b1 (out_events (WsServer.removeSession u b)) eq_refl), E.
  eexists b', _. split; [done|].
  intros v Hv. apply isBusy_spec. exists k, s. rewrite Hs. done.
Qed.
End backend.

(** ** Property *)

Section properties.
Context `{OpenSSL, JsonSpec, !IterOrder string CallSession}.

(** C11: the interpreter ends, and how.  Whatever happens while it waits, it
    prompts for each line, processes the lines up to the first quit or exit, or
    one more line after a signal, sends messages of the schema only, and returns
    without failing, under three conditions: the words typed are UTF-8, the HTTP
    client returns or throws, and no login gets through to the WebSocket server
    while the thread of an earlier connection is there.  Without the last one the
    program may be terminated, in a line that logs in and nowhere else, and it is
    when such a line does so; and when the library cannot dump the word typed
    into call, which it cannot if that is not UTF-8, its exception ends the program.
    The command quit leaves the call and tells the server so; a signal makes the
    client forget its call and tells nobody, and the next line is still waited for
    and processed; and the backend then keeps the call: when the connection is
    gone, and however often its timer runs, both parties of an active call stay
    busy. *)
Theorem interpreter_ends http c reading : posts http → usable c →
  let start := mkRepl c false reading in
  (∀ inputs, Forall input_ok inputs → ∃ o r ev, run http inputs start = (o, r, ev) ∧
     finished o false inputs ev ∧ (one_connection reading inputs = true → o = Ok ()) ∧ Forall typed_send (done_by ev) ∧
     (length (lines ev) ≤ length (prompts ev) ≤ S (length (lines ev)))%nat) ∧
  (∀ line later c' ev, reading = true → type_line http line c = (Ok (), c', ev) → LoggedIn ∈ ev →
     (run http (Entered line true :: later) start).1.1 = Err Undefined) ∧
  (∀ w later connects k what, let s := client_session c in
     word w → isLoggedIn s = true → userId s ≠ w → isInCall s = false → ws_send_ (cmds c) = true →
     json_dump (json_texts (create_msg w)) = Err (Thrown k what) →
     (run http (Entered ("call " +:+ w) connects :: later) start).1.1 = Err (Thrown k what)) ∧
  (∀ line connects later, quits line = true → ws_send_ (cmds c) = true →
     ∃ c' ev, run http (Entered line connects :: later) start = (Ok (), mkRepl c' true reading, ev) ∧
       sends (done_by ev) = (if isInCall (client_session c)
         then [text_of (json_texts (hangup_msg (call_id (call (client_session c)))))] else []) ∧
       call_state (call (client_session c')) = AppState.Idle) ∧
  (∃ ev, run http [Signalled] start = (Ok (), mkRepl (drop_call c) true reading, ev) ∧ done_by ev = [] ∧
     call_state (call (client_session (drop_call c))) = AppState.Idle ∧
     ∀ inputs, processed false (Signalled :: inputs) = take 1 (processed false inputs)) ∧
  ∀ b u k s envs, backend_inv b → sessions_ (call_manager_ b) !! k = Some s → state s = CallState.Active →
    ∃ b' ev, (WsServer.removeSession u;; sweeps envs) b = (Ok (), b', ev) ∧
      ∀ v, party v s → isBusy v (call_manager_ b') = true.
Proof.
  intros Hp Hu start.
  assert (Ep : ∃ p, prompt start = (Ok (), start, [Prompt p])) by by eexists.
  destruct Ep as [p Ep].
  assert (Hrun : ∀ inputs o r ev, wait http inputs start = (o, r, ev) → run http inputs start = (o, r, Prompt p :: ev)).
  { intros inputs o r ev Ew. unfold run. rewrite bind_get. cbn [shouldQuit repl_quit_ start].
    by rewrite (bind_Ok _ _ _ _ _ _ Ep), Ew. }
  assert (Hidle : call_state (call (client_session (drop_call c))) = AppState.Idle) by apply drop_call_idle.
  split; [|split; [|split; [|split; [|split]]]].
  - intros inputs Hin. destruct (wait_runs http inputs start Hp Hin Hu) as (o&r&ev&Ew&Hf&Hone&He&Hn).
    exists o, r, (Prompt p :: ev). split; [by apply Hrun|]. split; [by apply finished_prompt|].
    change (lines (Prompt p :: ev)) with (lines ev). change (done_by (Prompt p :: ev)) with (done_by ev).
    change (prompts (Prompt p :: ev)) with (p :: prompts ev). split_and!; [done|done|cbn; lia..].
  - intros line later c' ev Hrd Ht Hin. destruct (on_line_terminated http line start c' ev Ht Hin Hrd) as (r&ev'&El).
    assert (Ew : wait http (Entered line true :: later) start = (Err Undefined, r, ev'))
      by (cbn [wait]; unfold mbind, eff_bind; by rewrite El).
    by rewrite (Hrun _ _ _ _ Ew).
  - intros w later connects k what s Hw Hlog Hne Hidle' Hs Hd.
    destruct (on_line_undumped http w connects start k what Hw Hlog Hne Hidle' Hs Hd) as (r&ev'&El).
    assert (Ew : wait http (Entered ("call " +:+ w) connects :: later) start = (Err (Thrown k what), r, ev'))
      by (cbn [wait]; unfold mbind, eff_bind; by rewrite El).
    by rewrite (Hrun _ _ _ _ Ew).
  - intros line connects later Hq Hs. destruct (on_line_quits http line connects start Hu Hq Hs) as (c'&ev&El&Hsend&Hc).
    exists c', (Prompt p :: Processed line :: map Did ev). split; [|split; [|done]].
    + apply Hrun. cbn [wait]. rewrite (bind_Ok _ _ _ _ _ _ El), bind_get. unfold shouldQuit. cbn [repl_quit_].
      unfold mret, eff_ret. by rewrite app_nil_r.
    + change (done_by (Prompt p :: Processed line :: ?l)) with (done_by l). by rewrite done_did.
  - exists [Prompt p]. split; [|split; [done|split; [done|]]]; [|apply processed_signal].
    apply Hrun. by rewrite signal_waits.
  - intros b u k s envs. apply abandoned_busy.
Qed.
End properties.

(** Alice interrupts her client in a call with Bob. *)
Module interrupted.
Import talk.
#[local] Existing Instances ToyOpenSSL ToyOpenSSLSpec ToyJson ToyJsonSpec ToyJwt ToyJwtSpec sessions_order.

Definition alice : Client := negotiation.client "alice" true.
Definition keys : list input := [Entered "status" true; Signalled; Entered "hangup" true; Entered "quit" true].

(** A server of accounts that accepts every login. *)
Definition http (path body : string) : result (Z * string) :=
  Ok (200, text_of (json_texts [("userId", "alice"); ("token", "t")])).

Lemma posts_http : posts http.
Proof. done. Qed.
Lemma alice_usable : usable alice.
Proof. by split. Qed.
Lemma keys_ok : Forall input_ok keys.
Proof. repeat constructor. Qed.

(** Signalled in the call, she hangs up, in vain; and a second login ends the program. *)
Lemma interpreter_ends_witness :
  (∃ r ev, run http keys (mkRepl alice false true) = (Ok (), r, ev) ∧ lines ev = ["status"; "hangup"]) ∧
  out_result (run http [Entered "login alice pw" true] (mkRepl alice false true)) = Err Undefined ∧
  ∃ b' ev, (WsServer.removeSession "alice";; sweeps [inputs 400; inputs 500]) b2 = (Ok (), b', ev) ∧
    isBusy "bob" (call_manager_ b') = true.
Proof.
  destruct (interpreter_ends http alice true posts_http alice_usable) as (Hrun&Hlogin&_&_&_&Hbusy).
  destruct (Hrun keys keys_ok) as (o&r&ev&E&Hf&Hone&_). specialize (Hone eq_refl). subst o.
  assert (Hl : lines ev = ["status"; "hangup"]) by (destruct Hf as [[_ Hl]|[Hd _]]; [exact Hl|discriminate Hd]).
  destruct (Hbusy b2 "alice" id1 talking [inputs 400; inputs 500]
    (backend_run_inv "jwt-secret" cfg b2 cfg_good b2_run) ltac:(by vm_compute) eq_refl) as (b'&ev'&E'&Hb).
  refine (conj (ex_intro _ r (ex_intro _ ev (conj E Hl))) (conj _ (ex_intro _ b' (ex_intro _ ev' (conj E' (Hb "bob" (or_intror eq_refl))))))).
  refine (Hlogin "login alice pw" [] (out_state (type_line http "login alice pw" alice))
    (out_events (type_line http "login alice pw" alice)) eq_refl _ _); [vm_compute; reflexivity|].
  apply list_elem_of_In. vm_compute. tauto.
Defined.
End interrupted.
