(* ===== verification/DtlsRuns.v ===== *)
(** * What a DTLS datagram comes to (src/turn_server/src/transport/dtls_transport.cpp)

    [Dtls] says when a request over DTLS stops the server; this file says what
    happens to any datagram, in every state in which no mutex is owned: it is
    handled and the mutexes are released, or the thread waits for itself because
    the dispatcher sent something to the peer whose datagram it handles, or
    [make_address] does not take the address of a destination. *)

From S2P Require Export Dtls.

(** What OpenSSL decrypts is bytes. *)
Class DtlsSpec `{Dtls} := { read_bytes x buf : (SSL_read x).1 = Some buf → bytes_ok buf }.

Section runs.
Context `{OpenSSLSpec} `{BoostAddressSpec} `{!IterOrder string ptr} `{!IterOrder Z ChannelBinding} `{DtlsSpec}.
Variable canonical : string → result string.

(** The key under which [send] looks for the session of an endpoint. *)
Definition dest_key (to : Endpoint) : result string :=
  address ← canonical (ep_address to); mret (address +:+ ":" +:+ to_string (ep_port to)).

Lemma dest_key_eq to a : canonical (ep_address to) = Ok a →
  dest_key to = Ok (a +:+ ":" +:+ to_string (ep_port to)).
Proof. intros E. unfold dest_key. by rewrite E. Qed.

(** Only the mutex of the session [key] is owned. *)
Definition holding (key : string) (w : DtlsServer) : Prop :=
  sessions_mutex_ w = false ∧ (∃ s, dtls_sessions_ w !! key = Some s ∧ mutex_ s = true) ∧
  ∀ k s, k ≠ key → dtls_sessions_ w !! k = Some s → mutex_ s = false.

(** The ways in which [m], which sends [data], may end. *)
Definition sending (key : string) (data : list (Transport * bytes * Endpoint)) (d : TurnDispatcher)
    (o : result () * DtlsServer * list DtlsEvent) : Prop :=
  match o with
  | (Ok _, w', _) => holding key w' ∧ dispatcher w' = d
  | (Err e, w', _) => ∃ r to, (DtlsTransport, r, to) ∈ data ∧
      (e = Undefined ∧ dest_key to = Ok key ∨ canonical (ep_address to) = Err e ∧ holding key w')
  end.

Lemma send_session_other key data s w : dtls_sessions_ w !! key = Some s → mutex_ s = false →
  ∃ s' l, send_session key data w = (Ok (), with_session_at key s' w, l) ∧ mutex_ s' = false.
Proof.
  intros E Hm. unfold send_session, lock_guard.
  rewrite (bind_ok _ _ _ _ _ (eq_trans (lock_session_eq key s w E) (f_equal (λ b : bool, if b then _ else _) Hm))).
  set (w1 := with_session_at key (mkDtlsSession (ssl_ s) (handshake_done_ s) true) w).
  assert (E1 : dtls_sessions_ w1 !! key = Some (mkDtlsSession (ssl_ s) (handshake_done_ s) true)) by apply lookup_with_session.
  set (body := s ← session_at key; if negb (handshake_done_ s) then mret () else
    set_ssl key (SSL_write data (ssl_ s));; flush_write key).
  assert (Hbody : ∃ s2 l, body w1 = (Ok (), with_session_at key s2 w, l)).
  { unfold body. rewrite (bind_ok _ _ _ _ _ (session_at_eq _ _ _ E1)). cbn [handshake_done_ ssl_].
    destruct (handshake_done_ s); cbn [negb]; [|by do 2 eexists].
    rewrite (bind_ok _ _ _ _ _ (set_ssl_eq _ _ _ _ E1)). unfold w1. rewrite with_session_twice.
    edestruct flush_write_eq as [l El]; [apply lookup_with_session|]. rewrite El, with_session_twice. by do 2 eexists. }
  destruct Hbody as (s2&l&Hb). exists (mkDtlsSession (ssl_ s2) (handshake_done_ s2) false), (l ++ [] ++ []).
  split; [|done]. fold body.
  assert (Ht : try body (λ k what, unlock_session key;; throw k what) w1 = (Ok (), with_session_at key s2 w, l))
    by (unfold try; by rewrite Hb).
  rewrite (bind_Ok _ _ _ _ _ _ Ht).
  rewrite (bind_Ok _ _ _ _ _ _ (unlock_session_eq _ _ _ (lookup_with_session key s2 w))). by rewrite with_session_twice.
Qed.

Lemma holding_other key k s w : holding key w → k ≠ key → mutex_ s = false → holding key (with_session_at k s w).
Proof.
  intros (Hm&(s0&Hs0&Hl)&Ho) Hne Hs. split; [done|]. split.
  - exists s0. cbn. by rewrite lookup_insert_ne.
  - intros k' s' Hk'. cbn. rewrite lookup_insert_Some. intros [[<- <-]|[_ ?]]; [done|by eapply Ho].
Qed.

(** The session of the destination is the one that is fed. *)
Lemma dtls_send_own data to key w : holding key w → dest_key to = Ok key → hangs (dtls_send canonical data to) w.
Proof.
  intros (Hm&(s&Hs&Hl)&_) Hk. unfold dtls_send.
  destruct (canonical (ep_address to)) as [a|e] eqn:Hc; [|unfold dest_key in Hk; by rewrite Hc in Hk].
  rewrite (dest_key_eq to a Hc) in Hk. assert (Hk' : a +:+ ":" +:+ to_string (ep_port to) = key) by congruence. clear Hk. eapply hangs_bind; [reflexivity|]. cbv zeta. rewrite Hk'.
  eapply hangs_guard; [by apply lock_sessions_eq|]. eapply hangs_bind; [reflexivity|]. cbn [dtls_sessions_].
  rewrite Hs. unfold send_session, lock_guard. apply hangs_now. unfold hangs.
  rewrite (lock_session_eq _ s) by done. rewrite Hl. eauto.
Qed.

(** Another session, or none. *)
Lemma dtls_send_other data to key a w : holding key w → canonical (ep_address to) = Ok a →
  a +:+ ":" +:+ to_string (ep_port to) ≠ key →
  ∃ w' l, dtls_send canonical data to w = (Ok (), w', l) ∧ holding key w' ∧ dispatcher w' = dispatcher w.
Proof.
  intros Hh Hc Hk. pose proof Hh as (Hm&_&Ho). unfold dtls_send. rewrite Hc, bind_lift. cbv zeta.
  set (k := a +:+ ":" +:+ to_string (ep_port to)) in *.
  unfold lock_guard. rewrite (bind_ok _ _ _ _ _ (lock_sessions_eq w Hm)).
  set (w1 := mkDtlsServer (dtls_sessions_ w) true (dispatcher w)).
  set (body := w ← get; match dtls_sessions_ w !! k with
    | Some _ => send_session k data | None => emit (DtlsError ("[dtls] no session for " +:+ k)) end).
  assert (Hbody : ∃ ss l, body w1 = (Ok (), mkDtlsServer ss true (dispatcher w), l) ∧
    holding key (mkDtlsServer ss false (dispatcher w))).
  { unfold body. rewrite bind_get. change (dtls_sessions_ w1) with (dtls_sessions_ w).
    assert (Hw : mkDtlsServer (dtls_sessions_ w) false (dispatcher w) = w) by (destruct w; cbn in *; by subst).
    destruct (dtls_sessions_ w !! k) as [s|] eqn:Es.
    - destruct (send_session_other k data s w1 Es (Ho _ _ Hk Es)) as (s'&l&E&Hs'). rewrite E.
      exists (<[k := s']> (dtls_sessions_ w)), l. split; [done|].
      pose proof (holding_other key k s' w Hh Hk Hs') as Hh'. unfold with_session_at in Hh'. by rewrite Hm in Hh'.
    - exists (dtls_sessions_ w). eexists. split; [reflexivity|]. by rewrite Hw. }
  destruct Hbody as (ss&l&Hb&Hh').
  assert (Ht : try body (λ k what, set_sessions_mutex false;; throw k what) w1 = (Ok (), mkDtlsServer ss true (dispatcher w), l))
    by (unfold try; by rewrite Hb).
  fold body. rewrite (bind_Ok _ _ _ _ _ _ Ht). eexists _, _. split; [reflexivity|]. done.
Qed.

Lemma sending_mono key data data' d o : (∀ x, x ∈ data → x ∈ data') → sending key data d o → sending key data' d o.
Proof.
  intros Hd. destruct o as [[[[]|e] w'] l]; [done|]. intros (r&to&Hin&Hrest). exists r, to. split; [by apply Hd|done].
Qed.

Lemma dispatch_events_cases key events w : holding key w →
  sending key (datagrams events) (dispatcher w) (dispatch_events canonical events w).
Proof.
  revert w. induction events as [|e events IH]; intros w Hh; [done|].
  assert (Hother : dispatch_events canonical (e :: events) w =
      (emit (OtherSend e);; dispatch_events canonical events) w →
    sending key (datagrams (e :: events)) (dispatcher w) (dispatch_events canonical (e :: events) w)).
  { intros ->. rewrite (bind_Ok _ _ () w w [OtherSend e] eq_refl). specialize (IH w Hh).
    destruct (dispatch_events canonical events w) as [[r w'] l]. apply (sending_mono _ (datagrams events)); [|exact IH].
    intros x Hx. destruct e; [by right|done..]. }
  destruct e as [[] data to|line|line]; try (by apply Hother).
  cbn [dispatch_events]. change (datagrams (Send DtlsTransport data to :: events)) with
    ((DtlsTransport, data, to) :: datagrams events).
  destruct (canonical (ep_address to)) as [a|e] eqn:Hc.
  2:{ assert (E : dtls_send canonical data to w = (Err e, w, [])) by (unfold dtls_send, mbind, eff_bind; by rewrite Hc).
      unfold mbind, eff_bind. rewrite E. exists data, to. split; [apply list_elem_of_here|]. by right. }
  destruct (decide (a +:+ ":" +:+ to_string (ep_port to) = key)) as [Hk|Hk].
  - assert (Hd : dest_key to = Ok key) by (by rewrite (dest_key_eq to a Hc), Hk).
    destruct (dtls_send_own data to key w Hh Hd) as (w'&l&E). unfold mbind, eff_bind. rewrite E.
    exists data, to. split; [apply list_elem_of_here|]. by left.
  - destruct (dtls_send_other data to key a w Hh Hc Hk) as (w'&l&E&Hh'&Hd).
    rewrite (bind_Ok _ _ _ _ _ _ E). specialize (IH w' Hh'). rewrite Hd in IH.
    destruct (dispatch_events canonical events w') as [[r w2] l2]. apply (sending_mono _ (datagrams events)); [|exact IH].
    intros x Hx. by right.
Qed.

(** *** A datagram is fed *)

Lemma guard_returns {A} (lock unlock : eff DtlsServer DtlsEvent ()) (m : eff DtlsServer DtlsEvent A) w w1 w2 w3 a l :
  lock w = (Ok (), w1, []) → m w1 = (Ok a, w2, l) → unlock w2 = (Ok (), w3, []) →
  ∃ l', lock_guard lock unlock m w = (Ok a, w3, l').
Proof.
  intros E1 E2 E3. unfold lock_guard. rewrite (bind_ok _ _ _ _ _ E1).
  assert (Et : try m (λ k what, unlock;; throw k what) w1 = (Ok a, w2, l)) by (unfold try; by rewrite E2).
  rewrite (bind_Ok _ _ _ _ _ _ Et), (bind_ok _ _ _ _ _ E3). by eexists.
Qed.

Lemma guard_fails {A} (lock unlock : eff DtlsServer DtlsEvent ()) (m : eff DtlsServer DtlsEvent A) w w1 w2 e l :
  lock w = (Ok (), w1, []) → m w1 = (Err e, w2, l) → (e = Undefined ∨ ∃ w3, unlock w2 = (Ok (), w3, [])) →
  ∃ w' l', lock_guard lock unlock m w = (Err e, w', l').
Proof.
  intros E1 E2 Hu. unfold lock_guard. rewrite (bind_ok _ _ _ _ _ E1). unfold mbind at 1, eff_bind at 1, try. rewrite E2.
  destruct e as [| |k what]; [by do 2 eexists..|]. destruct Hu as [|[w3 E3]]; [done|].
  rewrite (bind_ok _ _ _ _ _ E3). by do 2 eexists.
Qed.

Lemma holding_unlock key w : holding key w → ∃ w', unlock_session key w = (Ok (), w', []) ∧ free w' ∧
  dispatcher w' = dispatcher w.
Proof.
  intros (Hm&(s&Hs&_)&Ho). eexists. split; [by apply unlock_session_eq|]. split; [|done].
  by apply free_except.
Qed.

Lemma holding_flush key w : holding key w → ∃ w' l, flush_write key w = (Ok (), w', l) ∧ holding key w' ∧
  dispatcher w' = dispatcher w.
Proof.
  intros (Hm&(s&Hs&Hl)&Ho). destruct (flush_write_eq key s w Hs) as [l E]. eexists _, l. split; [exact E|].
  split; [|done]. split; [done|]. split; [eexists; split; [apply lookup_with_session|done]|].
  intros k s' Hne. cbn. rewrite lookup_insert_ne by done. by apply Ho.
Qed.

(** A session, while its datagram is handled. *)
Lemma free_holding key x b d w : free w →
  holding key (with_session_at key (mkDtlsSession x b true) (mkDtlsServer (dtls_sessions_ w) false d)).
Proof.
  intros [Hm Hf]. split; [done|]. split; [eexists; split; [apply lookup_with_session|done]|].
  intros k s' Hne. cbn. rewrite lookup_insert_ne by done. by apply Hf.
Qed.

(** Why the datagram is not handled to its end. *)
Definition unanswerable (env : Inputs) (key : string) (peer : Endpoint) (data : bytes) (s : DtlsSession)
    (d : TurnDispatcher) (e : error) : Prop :=
  handshake_done_ s = true ∧ ∃ buf d' ev r to, (SSL_read (BIO_write data (ssl_ s))).1 = Some buf ∧
    onPacket env buf peer DtlsTransport d = (Ok (), d', ev) ∧ (DtlsTransport, r, to) ∈ datagrams ev ∧
    (e = Undefined ∧ dest_key to = Ok key ∨ canonical (ep_address to) = Err e).

Definition fed (env : Inputs) (key : string) (peer : Endpoint) (data : bytes) (s : DtlsSession) (w : DtlsServer)
    (o : result () * DtlsServer * list DtlsEvent) : Prop :=
  match o with
  | (Ok _, w', _) => free w' ∧ served (dispatcher w')
  | (Err e, _, _) => unanswerable env key peer data s (dispatcher w) e
  end.

Lemma feed_established env key peer data s w : free w → served (dispatcher w) → inputs_ok env (dispatcher w) →
  dtls_sessions_ w !! key = Some s → handshake_done_ s = true →
  fed env key peer data s w (feed canonical env key peer data w).
Proof.
  intros Hf Hs Hin E Hd. destruct (feed_enter canonical env key peer data s w E (proj2 Hf _ _ E)) as [El Ef].
  set (W := with_session_at key (feeding data s) w) in *.
  assert (EW : dtls_sessions_ W !! key = Some (feeding data s)) by apply lookup_with_session.
  destruct (SSL_read (BIO_write data (ssl_ s))) as [n x] eqn:Er.
  set (held := λ d, with_session_at key (mkDtlsSession x true true) (mkDtlsServer (dtls_sessions_ w) false d)).
  assert (Elock : feed_locked canonical env key peer W =
    (match n with Some buf => on_receive canonical env buf peer | None => mret () end;; flush_write key)
      (held (dispatcher w))).
  { unfold feed_locked. rewrite (bind_ok _ _ _ _ _ (session_at_eq _ _ _ EW)). cbn [feeding handshake_done_ ssl_].
    rewrite Hd. cbn [negb]. rewrite Er. rewrite (bind_ok _ _ _ _ _ (set_ssl_eq _ _ _ _ EW)).
    unfold W. rewrite with_session_twice. cbn [feeding handshake_done_ mutex_]. rewrite Hd.
    by rewrite (with_session_eta _ _ _ (proj1 Hf)). }
  assert (Hend : ∀ w2, holding key w2 → served (dispatcher w2) → ∃ w3 w4 l,
    flush_write key w2 = (Ok (), w3, l) ∧ unlock_session key w3 = (Ok (), w4, []) ∧ free w4 ∧ served (dispatcher w4)).
  { intros w2 Hh Hs2. destruct (holding_flush key w2 Hh) as (w3&l&E3&Hh3&Hd3).
    destruct (holding_unlock key w3 Hh3) as (w4&E4&Hf4&Hd4). exists w3, w4, l. by rewrite Hd4, Hd3. }
  unfold feed. match type of Ef with ?b _ = _ => set (body := b) in * end. destruct n as [buf|].
  - destruct (server_total env buf peer DtlsTransport (dispatcher w) Hs Hin (read_bytes _ _ (f_equal fst Er)))
      as (d'&ev&Ep).
    assert (Hs' : served d') by (eapply served_next; [done..|exact (read_bytes _ _ (f_equal fst Er))|done]).
    pose proof (dispatch_events_cases key ev (held d') (free_holding key x true d' w Hf)) as Hc.
    assert (Erec : on_receive canonical env buf peer (held (dispatcher w)) =
      let '(r, w', l) := dispatch_events canonical ev (held d') in (r, w', l)).
    { unfold on_receive. change (dispatcher (held (dispatcher w))) with (dispatcher w). rewrite Ep.
      change (mkDtlsServer (dtls_sessions_ (held (dispatcher w))) (sessions_mutex_ (held (dispatcher w))) d')
        with (held d'). unfold mbind, eff_bind, lift. destruct (dispatch_events canonical ev (held d')) as [[[[]|e] w'] l]; [|done].
      by rewrite app_nil_r. }
    destruct (dispatch_events canonical ev (held d')) as [[[[]|e] w2] l2].
    + destruct Hc as [Hh Hd2]. destruct (Hend w2 Hh ltac:(by rewrite Hd2)) as (w3&w4&l3&E3&E4&Hf4&Hs4).
      edestruct (guard_returns (lock_session key) (unlock_session key) body w _ w3 w4 () (l2 ++ l3) El) as [l' E'];
        [|exact E4|rewrite E'; by split].
      rewrite Ef, Elock, (bind_Ok _ _ _ _ _ _ Erec), E3. reflexivity.
    + destruct Hc as (r&to&Hto&Hwhy).
      edestruct (guard_fails (lock_session key) (unlock_session key) body w _ w2 e l2 El) as (w'&l'&E');
        [| |rewrite E'].
      * rewrite Ef, Elock. unfold mbind, eff_bind. by rewrite Erec.
      * destruct Hwhy as [[-> _]|[_ Hh]]; [by left|]. right.
        destruct (holding_unlock key w2 Hh) as (w3&E3&_). by exists w3.
      * split; [done|]. exists buf, d', ev, r, to. split_and!; try done; [by rewrite Er|].
        destruct Hwhy as [?|[? _]]; [by left|by right].
  - destruct (Hend (held (dispatcher w)) (free_holding key x true (dispatcher w) w Hf) Hs) as (w3&w4&l3&E3&E4&Hf4&Hs4).
    edestruct (guard_returns (lock_session key) (unlock_session key) body w _ w3 w4 () ([] ++ l3) El) as [l' E'];
      [|exact E4|rewrite E'; by split].
    rewrite Ef, Elock, (bind_Ok (mret ()) _ () _ _ [] eq_refl), E3. reflexivity.
Qed.

Lemma receive_cases env data from w : free w → served (dispatcher w) → inputs_ok env (dispatcher w) →
  match receive canonical env data from w with
  | (Ok _, w', _) => free w' ∧ served (dispatcher w')
  | (Err e, _, _) => ∃ s, dtls_sessions_ w !! endpointKey from = Some s ∧
      unanswerable env (endpointKey from) from data s (dispatcher w) e
  end.
Proof.
  intros Hf Hs Hin. destruct (decide (data = [])) as [->|Hd]; [done|].
  rewrite (receive_eq canonical env data from w Hd (proj1 Hf)).
  destruct (opened_free (endpointKey from) w Hf) as (Hf'&Hdisp&s0&Hs0&_&Hold&Hnew).
  destruct (handshake_done_ s0) eqn:Hh.
  - assert (Hs1 : dtls_sessions_ w !! endpointKey from = Some s0) by (destruct Hold as [E|E]; [specialize (Hnew E); congruence|exact E]).
    assert (Hw : opened (endpointKey from) w = w) by (unfold opened; by rewrite Hs1). rewrite Hw.
    pose proof (feed_established env (endpointKey from) from data s0 w Hf Hs Hin Hs1 Hh) as Hfed.
    destruct (feed canonical env (endpointKey from) from data w) as [[[[]|e] w'] l]; [done|]. by exists s0.
  - destruct (wp_run _ _ _ (feed_handshake canonical env (endpointKey from) from data s0 _ Hf' Hs0 Hh))
      as ([]&w'&l&E&Hfree&Hdisp'). rewrite E. split; [done|]. by rewrite Hdisp', Hdisp.
Qed.
End runs.
