(* ===== verification/TlsContexts.v ===== *)
(** * TLS contexts (src/turn_server/src/transport/ssl_context_factory.hpp)

    The calls of OpenSSL that make the contexts of the TLS and the DTLS transport,
    as events.  Whether OpenSSL can allocate a context, load a certificate chain,
    and load a key for it, are parameters. *)

From S2P Require Export Text.

Inductive ssl_method := TlsServerMethod | DtlsServerMethod.
Inductive ssl_option := DefaultWorkarounds | NoSslv2 | NoSslv3 | NoTlsv1 | NoTlsv1_1 | SingleDhUse | CookieExchange.

Inductive ssl_call :=
  | CtxNew (m : ssl_method)
  | SetOptions (l : list ssl_option)
  | UseChain (file : string)
  | UseKey (file : string)
  | VerifyNone
  | SetCookieCallbacks
  | CtxFree.

Section factory.
Variable ctx_new : ssl_method → bool.
Variable loads_chain : string → bool.
Variable loads_key : string → string → bool.     (* of a chain, a key *)
Variable boost_error : string → string.          (* what() of the exception for a file *)

Abbreviation M := (eff () ssl_call).

Definition tls_options : list ssl_option := [DefaultWorkarounds; NoSslv2; NoSslv3; NoTlsv1; NoTlsv1_1; SingleDhUse].

(** The object of Boost.Asio frees its context when an exception passes it. *)
Definition makeTlsContext (cert_file key_file : string) : M () :=
  emit (CtxNew TlsServerMethod);;
  if negb (ctx_new TlsServerMethod) then throw RuntimeError (boost_error "") else
  try (
    emit (SetOptions tls_options);;
    emit (UseChain cert_file);;
    if negb (loads_chain cert_file) then throw RuntimeError (boost_error cert_file) else
    emit (UseKey key_file);;
    if negb (loads_key cert_file key_file) then throw RuntimeError (boost_error key_file) else
    mret ())
  (λ k what, emit CtxFree;; throw k what).

Definition makeDtlsContext (cert_file key_file : string) : M () :=
  emit (CtxNew DtlsServerMethod);;
  if negb (ctx_new DtlsServerMethod) then throw RuntimeError "SSL_CTX_new(DTLS) failed" else
  emit (UseChain cert_file);;
  if negb (loads_chain cert_file) then throw RuntimeError ("DTLS: cannot load cert: " +:+ cert_file) else
  emit (UseKey key_file);;
  if negb (loads_key cert_file key_file) then throw RuntimeError ("DTLS: cannot load key: " +:+ key_file) else
  emit VerifyNone;;
  emit SetCookieCallbacks.
End factory.

(** The two callbacks: the buffer, the length and the result; [None] is a failure
    of [RAND_bytes], which is not looked at. *)
Definition generate_cookie (rand : option bytes) (cookie : bytes) : bytes * Z * Z :=
  (match rand with Some r => take 16 r ++ drop 16 cookie | None => cookie end, 16, 1).
Definition verify_cookie (cookie : bytes) : Z := if (length cookie =? 16)%nat then 1 else 0.

(** ** Lemmas *)

Section facts.
Variable ctx_new : ssl_method → bool.
Variable loads_chain : string → bool.
Variable loads_key : string → string → bool.
Variable boost_error : string → string.

(** The context for TLS gets both files and is without the old versions, or it
    is freed. *)
Lemma makeTlsContext_spec cert key :
  let '(r, _, calls) := makeTlsContext ctx_new loads_chain loads_key boost_error cert key () in
  match r with
  | Ok _ => calls = [CtxNew TlsServerMethod; SetOptions tls_options; UseChain cert; UseKey key]
  | Err e => (∃ what, e = Thrown RuntimeError what) ∧ (ctx_new TlsServerMethod = true → last calls = Some CtxFree)
  end.
Proof.
  unfold makeTlsContext, mbind, eff_bind. destruct (ctx_new _); [|split; [by eexists|done]].
  unfold try. cbn. destruct (loads_chain cert); cbn; [|split; [by eexists|done]].
  destruct (loads_key cert key); cbn; [done|split; [by eexists|done]].
Qed.

(** The context for DTLS gets both files, and the callbacks for cookies, but not
    the option that makes OpenSSL use them; and when a file cannot be loaded, it
    stays allocated. *)
Lemma makeDtlsContext_spec cert key :
  let '(r, _, calls) := makeDtlsContext ctx_new loads_chain loads_key cert key () in
  (∀ l, SetOptions l ∉ calls) ∧
  match r with
  | Ok _ => calls = [CtxNew DtlsServerMethod; UseChain cert; UseKey key; VerifyNone; SetCookieCallbacks]
  | Err e => (∃ what, e = Thrown RuntimeError what) ∧ CtxFree ∉ calls
  end.
Proof.
  unfold makeDtlsContext, mbind, eff_bind. destruct (ctx_new _); cbn; [|split; [set_solver|split; [by eexists|set_solver]]].
  destruct (loads_chain cert); cbn; [|split; [set_solver|split; [by eexists|set_solver]]].
  destruct (loads_key cert key); cbn; [by split; [set_solver|]|split; [set_solver|split; [by eexists|set_solver]]].
Qed.
End facts.

(** Every cookie of the right length is accepted, whoever made it. *)
Lemma any_cookie_verifies cookie : verify_cookie cookie = 1 ↔ length cookie = 16%nat.
Proof. unfold verify_cookie. destruct (Nat.eqb_spec (length cookie) 16); split; done || lia. Qed.
