(* ===== verification/TurnServer.v ===== *)
(** * The TURN server (src/turn_server/src/main.cpp)

    [main] makes one dispatcher and four transports, binds their sockets, loads
    the certificate, and runs the handlers of all of them on one thread.  The
    transports share the dispatcher: what one of them receives changes what the
    others see.  Each step is one completion: a datagram of the UDP or the DTLS
    socket, or anything that happens to the TCP or the TLS listener.  A signal
    stops the [io_context] between two of them, so any state may be the last. *)

From S2P Require Export Server TlsContexts.
From S2P Require Udp Streams DtlsRuns Mains.

(** A listener, without the dispatcher. *)
Record Listener := mkListener {
  table : gmap string nat;
  peers : gmap nat Tls.TlsSession.TlsSession;
  next_peer : nat;
  being_written : list nat;
}.
Definition no_peers : Listener := mkListener ∅ ∅ 0 [].

Section program.
Context `{OpenSSL} `{BoostAddress} `{!IterOrder string ptr} `{!IterOrder Z ChannelBinding} `{Dtls.Dtls}.
(** [asio::ip::make_address], by the text of the address. *)
Variable canonical : string → result string.

Record TurnServer := mkTurnServer {
  turn_dispatcher : TurnDispatcher;
  udp_receiving : bool;
  tcp_listener : Listener;
  tls_listener : Listener;
  dtls_table : gmap string Dtls.DtlsSession;
  dtls_locked : bool;
  dtls_receiving : bool;
}.

Inductive TurnEvent :=
  | OverUdp (e : Udp.UdpEvent)
  | OverTcp (e : Streams.StreamEvent)
  | OverTls (e : Streams.StreamEvent)
  | OverDtls (e : Dtls.DtlsEvent).

Inductive arrival :=
  | UdpArrival (datagram : option (bytes * Endpoint))
  | TcpArrival (c : Streams.completion)
  | TlsArrival (c : Streams.completion)
  | DtlsArrival (datagram : option (bytes * Endpoint)).

Abbreviation M := (eff TurnServer TurnEvent).

(** *** A handler of one of the transports, with the dispatcher *)

Definition udp_part (w : TurnServer) : Udp.UdpServer := Udp.mkUdpServer (udp_receiving w) (turn_dispatcher w).
Definition on_udp (m : eff Udp.UdpServer Udp.UdpEvent ()) : M () := λ w,
  let '(r, u, ev) := m (udp_part w) in
  (r, mkTurnServer (Udp.udp_dispatcher u) (Udp.receiving_ u) (tcp_listener w) (tls_listener w) (dtls_table w)
        (dtls_locked w) (dtls_receiving w), map OverUdp ev).

Definition stream_part (l : Listener) (d : TurnDispatcher) : Streams.StreamServer :=
  Streams.mkStreamServer (table l) (peers l) (next_peer l) d (being_written l).
Definition listener_of (s : Streams.StreamServer) : Listener :=
  mkListener (Streams.sessions_ s) (Streams.objects s) (Streams.next_session s) (Streams.writing_ s).

Definition on_tcp (m : eff Streams.StreamServer Streams.StreamEvent ()) : M () := λ w,
  let '(r, s, ev) := m (stream_part (tcp_listener w) (turn_dispatcher w)) in
  (r, mkTurnServer (Streams.dispatcher s) (udp_receiving w) (listener_of s) (tls_listener w) (dtls_table w)
        (dtls_locked w) (dtls_receiving w), map OverTcp ev).
Definition on_tls (m : eff Streams.StreamServer Streams.StreamEvent ()) : M () := λ w,
  let '(r, s, ev) := m (stream_part (tls_listener w) (turn_dispatcher w)) in
  (r, mkTurnServer (Streams.dispatcher s) (udp_receiving w) (tcp_listener w) (listener_of s) (dtls_table w)
        (dtls_locked w) (dtls_receiving w), map OverTls ev).

Definition dtls_part (w : TurnServer) : Dtls.DtlsServer :=
  Dtls.mkDtlsServer (dtls_table w) (dtls_locked w) (turn_dispatcher w).
Definition on_dtls (m : eff Dtls.DtlsServer Dtls.DtlsEvent ()) : M () := λ w,
  let '(r, s, ev) := m (dtls_part w) in
  (r, mkTurnServer (Dtls.dispatcher s) (udp_receiving w) (tcp_listener w) (tls_listener w) (Dtls.dtls_sessions_ s)
        (Dtls.sessions_mutex_ s) (dtls_receiving w), map OverDtls ev).

(** [DtlsTransport::receive] for a datagram, cut to its buffer, or an error, which
    ends it. *)
Definition recv_buf : Z := 65536.
Definition set_dtls_receiving (b : bool) : M () := λ w,
  (Ok (), mkTurnServer (turn_dispatcher w) (udp_receiving w) (tcp_listener w) (tls_listener w) (dtls_table w)
        (dtls_locked w) b, []).
Definition on_dtls_datagram (env : Inputs) (datagram : option (bytes * Endpoint)) : M () :=
  w ← get;
  if negb (dtls_receiving w) then mret () else
  set_dtls_receiving false;;
  match datagram with
  | Some (data, from) => on_dtls (Dtls.receive canonical env (take (Z.to_nat recv_buf) data) from);; set_dtls_receiving true
  | None => mret ()
  end.

(** The handlers that main installs, each with its transport. *)
Definition handle (env : Inputs) (a : arrival) : M () :=
  match a with
  | UdpArrival datagram => on_udp (Udp.on_datagram canonical env datagram)
  | TcpArrival c => on_tcp (Streams.on_completion TcpTransport env c)
  | TlsArrival c => on_tls (Streams.on_completion TlsTransport env c)
  | DtlsArrival datagram => on_dtls_datagram env datagram
  end.

(** *** The start *)

Section start.
(** Opening and binding the socket of a transport. *)
Variable bind : Transport → Z → result ().
Variable ctx_new : ssl_method → bool.
Variable loads_chain : string → bool.
Variable loads_key : string → string → bool.
Variable boost_error : string → string.

Definition start (s : Mains.TurnMain.Settings) : eff () ssl_call TurnServer :=
  let dispatcher := Mains.TurnMain.dispatcher s in
  lift (bind UdpTransport 3478);;
  lift (bind TcpTransport 3478);;
  makeTlsContext ctx_new loads_chain loads_key boost_error (Mains.TurnMain.cert_file s) (Mains.TurnMain.key_file s);;
  makeDtlsContext ctx_new loads_chain loads_key (Mains.TurnMain.cert_file s) (Mains.TurnMain.key_file s);;
  lift (bind TlsTransport 5349);;
  lift (bind DtlsTransport 5349);;
  let u := Udp.run dispatcher in
  mret (mkTurnServer (Udp.udp_dispatcher u) (Udp.receiving_ u) no_peers no_peers ∅ false true).
End start.

Definition arrival_ok (a : arrival) : Prop :=
  match a with
  | UdpArrival (Some (data, _)) | DtlsArrival (Some (data, _)) => bytes_ok data
  | TcpArrival (Streams.Arrived _ piece) | TlsArrival (Streams.Arrived _ piece) => bytes_ok piece
  | _ => True
  end.

Inductive runs (w0 : TurnServer) : TurnServer → Prop :=
  | runs_start : runs w0 w0
  | runs_step w env a w' ev : runs w0 w → inputs_ok env (turn_dispatcher w) → arrival_ok a →
      handle env a w = (Ok (), w', ev) → runs w0 w'.
End program.

(** ** Lemmas *)

Section facts.
Context `{OpenSSLSpec} `{BoostAddressSpec} `{!IterOrder string ptr} `{!IterOrder Z ChannelBinding} `{DtlsRuns.DtlsSpec}.
Variable canonical : string → result string.

(** *** What the dispatcher sends goes over the transport of the packet *)

Definition over (t : Transport) (ev : list Event) : Prop := Forall (λ x, x.1.1 = t) (datagrams ev).

Lemma over_callback t sent : over t (concat (map (callback (Some t)) sent)).
Proof.
  unfold over. induction sent as [|[data to|data to] sent IH]; [constructor|..];
    (cbn [map concat]; rewrite datagrams_app; constructor; [done|exact IH]).
Qed.

Lemma stun_post_over env msg raw from t d d' ev : stun_post env msg raw from t d d' ev → over t ev.
Proof.
  unfold stun_post. case_bool_decide.
  - intros [_ ->]. case_bool_decide; [apply over_callback|constructor].
  - assert (Hone : ∀ r, datagrams ev = [(t, r, from)] → over t ev).
    { intros r E. unfold over. rewrite E. by constructor. }
    intros (res&_&Hres). destruct res; [destruct Hres as (?&?&?&?&_&_&_&_&E)|destruct Hres as (?&_&E)..|destruct Hres as [_ E]|
      destruct Hres as (?&_&E)]; by eapply Hone.
Qed.

Lemma onPacket_over env data from t d : disp_inv d → inputs_ok env d → bytes_ok data →
  wp (onPacket env data from t) (λ _ _ ev, over t ev) d.
Proof.
  intros Hinv Hin Hok. unfold onPacket. destruct data as [|d0 data]; cbn [length Nat.eqb]; [wp_step; constructor|].
  change (rd (d0 :: data) 0) with (Ok d0). wp_steps.
  case_match.
  { eapply wp_mono; [apply wp_handleChannelData; [done|]|].
    - destruct data as [|d1 [|d2 [|d3 data]]]; [by do 2 eexists..|].
      rewrite parse_channel_data_eq. do 2 (case_match; [by do 2 eexists|]). by do 2 eexists.
    - intros [] d' ev (_&r&ch&_&E). unfold over. cbn [app]. rewrite E. case_bool_decide; [|constructor].
      unfold channel_data_events. repeat case_match; by repeat constructor. }
  case_match; [|wp_step; constructor].
  destruct (parse_total (d0 :: data) empty_message Hok) as (r&msg&->&Hm). wp_steps.
  case_bool_decide as Hr; cbn [negb]; [|wp_step; constructor].
  eapply wp_mono; [apply wp_handleStun; [done..|by apply Hm]|]. intros [] d' ev Hpost.
  by eapply stun_post_over.
Qed.

(** *** A UDP datagram *)

Lemma udp_dispatch_cases events u :
  match Udp.dispatch_events canonical events u with
  | (Ok _, u', _) => u' = u
  | (Err e, _, _) => ∃ r to, (UdpTransport, r, to) ∈ datagrams events ∧ canonical (ep_address to) = Err e
  end.
Proof.
  induction events as [|e events IH]; [done|].
  assert (Hother : Udp.dispatch_events canonical (e :: events) u =
      (emit (Udp.OtherSend e);; Udp.dispatch_events canonical events) u →
    match Udp.dispatch_events canonical (e :: events) u with
    | (Ok _, u', _) => u' = u
    | (Err err, _, _) => ∃ r to, (UdpTransport, r, to) ∈ datagrams (e :: events) ∧ canonical (ep_address to) = Err err
    end).
  { intros ->. rewrite (bind_Ok _ _ () u u [Udp.OtherSend e] eq_refl).
    destruct (Udp.dispatch_events canonical events u) as [[[[]|err] u'] l]; [done|].
    destruct IH as (r&to&Hin&Hc). exists r, to. split; [|done]. destruct e; [by right|done..]. }
  destruct e as [[] data to|line|line]; try (by apply Hother).
  cbn [Udp.dispatch_events]. change (datagrams (Send UdpTransport data to :: events)) with
    ((UdpTransport, data, to) :: datagrams events).
  destruct (canonical (ep_address to)) as [a|err] eqn:Hc.
  - assert (E : Udp.send canonical data to u = (Ok (), u, [Udp.SendTo data a (ep_port to)]))
      by (unfold Udp.send; by rewrite Hc, bind_lift).
    rewrite (bind_Ok _ _ _ _ _ _ E). destruct (Udp.dispatch_events canonical events u) as [[[[]|err] u'] l]; [done|].
    destruct IH as (r&to'&Hin&Hc'). exists r, to'. split; [by right|done].
  - assert (E : Udp.send canonical data to u = (Err err, u, [])) by (unfold Udp.send, mbind, eff_bind; by rewrite Hc).
    unfold mbind, eff_bind. rewrite E. exists data, to. split; [apply list_elem_of_here|done].
Qed.

(** [make_address] does not take the address of something that is sent. *)
Definition unaddressable (env : Inputs) (data : bytes) (from : Endpoint) (d : TurnDispatcher) (e : error) : Prop :=
  ∃ d' ev r to, onPacket env data from UdpTransport d = (Ok (), d', ev) ∧ (UdpTransport, r, to) ∈ datagrams ev ∧
    canonical (ep_address to) = Err e.

Lemma udp_cases env o u : served (Udp.udp_dispatcher u) → inputs_ok env (Udp.udp_dispatcher u) →
  (∀ data from, o = Some (data, from) → bytes_ok data) →
  match Udp.on_datagram canonical env o u with
  | (Ok _, u', _) => served (Udp.udp_dispatcher u') ∧ Udp.receiving_ u' = Udp.receiving_ u && bool_decide (is_Some o)
  | (Err e, _, _) => ∃ data from, o = Some (data, from) ∧
      unaddressable env (take (Z.to_nat Udp.kMaxPacketSize) data) from (Udp.udp_dispatcher u) e
  end.
Proof.
  intros Hs Hin Hok. unfold Udp.on_datagram. rewrite bind_get. destruct u as [[] d]; cbn [negb Udp.receiving_]; [|done].
  rewrite (bind_Ok (Udp.set_receiving false) _ () (Udp.mkUdpServer true d) (Udp.mkUdpServer false d) [] eq_refl). cbn [Udp.udp_dispatcher] in *.
  destruct o as [[data from]|]; [|done]. set (packet := take _ data).
  assert (Hp : bytes_ok packet) by (apply Forall_take; by eapply Hok).
  destruct (0 <? length packet)%nat.
  2:{ rewrite (bind_Ok (mret ()) _ () (Udp.mkUdpServer false d) (Udp.mkUdpServer false d) [] eq_refl). done. }
  destruct (server_total env packet from UdpTransport d Hs Hin Hp) as (d'&ev&E).
  pose proof (udp_dispatch_cases ev (Udp.mkUdpServer false d')) as Hd.
  assert (Erec : Udp.on_receive canonical env packet from (Udp.mkUdpServer false d) =
    let '(r, u', l) := Udp.dispatch_events canonical ev (Udp.mkUdpServer false d') in (r, u', l)).
  { unfold Udp.on_receive. cbn [Udp.udp_dispatcher Udp.receiving_]. rewrite E. unfold mbind, eff_bind, lift.
    destruct (Udp.dispatch_events canonical ev _) as [[[[]|err] u'] l]; [|done]. by rewrite app_nil_r. }
  unfold mbind at 1, eff_bind at 1. rewrite Erec.
  destruct (Udp.dispatch_events canonical ev _) as [[[[]|err] u'] l].
  - subst u'. cbn. split; [|done]. by eapply served_next.
  - destruct Hd as (r&to&Hto&Hc). exists data, from. split; [done|]. by exists d', ev, r, to.
Qed.

(** *** The invariant *)

Record turn_inv (w : TurnServer) : Prop := {
  inv_tcp : Streams.stream_inv (stream_part (tcp_listener w) (turn_dispatcher w));
  inv_tls : Streams.stream_inv (stream_part (tls_listener w) (turn_dispatcher w));
  inv_dtls : Dtls.free (dtls_part w);
}.

Lemma inv_turn_served w : turn_inv w → served (turn_dispatcher w).
Proof. intros I. exact (Streams.inv_served _ (inv_tcp w I)). Qed.

(** The other listeners do not see what changes but the dispatcher. *)
Lemma stream_inv_other l d d' : Streams.stream_inv (stream_part l d) → served d' → Streams.stream_inv (stream_part l d').
Proof. intros [_ Ho Ht] Hd. by split. Qed.

Lemma dtls_free_other (w w' : TurnServer) : Dtls.free (dtls_part w) → dtls_table w' = dtls_table w →
  dtls_locked w' = dtls_locked w → Dtls.free (dtls_part w').
Proof. unfold Dtls.free, dtls_part. cbn. by intros ? -> ->. Qed.

(** The ways in which a completion ends the program. *)
Definition stream_failure (l : Listener) (c : Streams.completion) (e : error) : Prop :=
  (c = Streams.Accepted None ∧ ∃ what, e = Thrown RuntimeError what) ∨
  (e = Undefined ∧ ∃ id s, c = Streams.Completed id ∧ peers l !! id = Some s ∧ Streams.oversized (Tls.TlsFacts.unread s)).

Definition failure (env : Inputs) (a : arrival) (w : TurnServer) (e : error) : Prop :=
  match a with
  | UdpArrival (Some (data, from)) => unaddressable env (take (Z.to_nat Udp.kMaxPacketSize) data) from (turn_dispatcher w) e
  | DtlsArrival (Some (data, from)) => ∃ s, dtls_table w !! endpointKey from = Some s ∧
      DtlsRuns.unanswerable canonical env (endpointKey from) from (take (Z.to_nat recv_buf) data) s (turn_dispatcher w) e
  | TcpArrival c => stream_failure (tcp_listener w) c e
  | TlsArrival c => stream_failure (tls_listener w) c e
  | _ => False
  end.

(** A transport whose receive failed receives no more; the others go on. *)
Definition receives (a : arrival) (w w' : TurnServer) : Prop :=
  udp_receiving w' = match a with UdpArrival None => false | _ => udp_receiving w end ∧
  dtls_receiving w' = match a with DtlsArrival None => false | _ => dtls_receiving w end.

(** What is written to a stream goes to a session of the listener that is not destroyed. *)
Definition reaches (w : TurnServer) (e : TurnEvent) : Prop :=
  match e with
  | OverTcp e => Streams.write_ok (peers (tcp_listener w)) e
  | OverTls e => Streams.write_ok (peers (tls_listener w)) e
  | _ => True
  end.

Lemma reaches_all {T} (f : T → TurnEvent) w l : (∀ e, reaches w (f e)) → Forall (reaches w) (map f l).
Proof. intros Hf. induction l; by constructor. Qed.

Definition handled_ok (env : Inputs) (a : arrival) (w : TurnServer) : Prop :=
  match handle canonical env a w with
  | (Ok _, w', ev) => turn_inv w' ∧ receives a w w' ∧ Forall (reaches w') ev
  | (Err e, _, _) => failure env a w e
  end.

Lemma handled_udp env o w : turn_inv w → inputs_ok env (turn_dispatcher w) → arrival_ok (UdpArrival o) →
  handled_ok env (UdpArrival o) w.
Proof.
  intros I Hin Hok. unfold handled_ok. cbn [handle]. unfold on_udp.
  pose proof (udp_cases env o (udp_part w) (inv_turn_served w I) Hin) as Hc.
  destruct (Udp.on_datagram canonical env o (udp_part w)) as [[[[]|e] u] l].
  - destruct Hc as [Hs Hr]; [by intros data from ->|]. split; [|split].
    + split; cbn; [exact (stream_inv_other _ _ _ (inv_tcp w I) Hs)|exact (stream_inv_other _ _ _ (inv_tls w I) Hs)|].
      apply (dtls_free_other w); [apply I|done..].
    + split; cbn; [|done]. rewrite Hr. cbn. destruct o; by rewrite ?andb_true_r, ?andb_false_r.
    + by apply reaches_all.
  - destruct Hc as (data&from&->&Hf); [by intros data from ->|]. exact Hf.
Qed.

(** The listeners, alike. *)
Lemma stream_completion t env c l d : Streams.stream_inv (stream_part l d) → inputs_ok env d →
  (∀ id piece, c = Streams.Arrived id piece → bytes_ok piece) →
  match Streams.on_completion t env c (stream_part l d) with
  | (Ok _, s, ev) => Streams.stream_inv (stream_part (listener_of s) (Streams.dispatcher s)) ∧
      Forall (Streams.write_ok (peers (listener_of s))) ev
  | (Err e, _, _) => stream_failure l c e
  end.
Proof.
  intros I Hin Hp. pose proof (Streams.step_completion t env c (stream_part l d) I Hin Hp) as Hstep.
  destruct (Streams.on_completion t env c (stream_part l d)) as [[[[]|[| |k what]] s] ev].
  - destruct Hstep as [Hi Hev]. split; [|exact Hev]. destruct Hi as [Hs Ho Ht]. by split.
  - right. split; [done|]. destruct Hstep as (id&s'&->&Hid&Hover). by exists id, s'.
  - done.
  - destruct Hstep as [-> ->]. left. split; [done|]. by exists what.
Qed.

Lemma handled_tcp env c w : turn_inv w → inputs_ok env (turn_dispatcher w) → arrival_ok (TcpArrival c) →
  handled_ok env (TcpArrival c) w.
Proof.
  intros I Hin Hok. unfold handled_ok. cbn [handle]. unfold on_tcp.
  pose proof (stream_completion TcpTransport env c _ _ (inv_tcp w I) Hin ltac:(by intros id piece ->)) as Hc.
  destruct (Streams.on_completion TcpTransport env c _) as [[[[]|e] s] l]; [|exact Hc].
  destruct Hc as [Hi Hev]. split; [|split].
  - split; cbn; [exact Hi|exact (stream_inv_other _ _ _ (inv_tls w I) (Streams.inv_served _ Hi))|].
    apply (dtls_free_other w); [apply I|done..].
  - by split.
  - cbn. by apply Forall_map.
Qed.

Lemma handled_tls env c w : turn_inv w → inputs_ok env (turn_dispatcher w) → arrival_ok (TlsArrival c) →
  handled_ok env (TlsArrival c) w.
Proof.
  intros I Hin Hok. unfold handled_ok. cbn [handle]. unfold on_tls.
  pose proof (stream_completion TlsTransport env c _ _ (inv_tls w I) Hin ltac:(by intros id piece ->)) as Hc.
  destruct (Streams.on_completion TlsTransport env c _) as [[[[]|e] s] l]; [|exact Hc].
  destruct Hc as [Hi Hev]. split; [|split].
  - split; cbn; [exact (stream_inv_other _ _ _ (inv_tcp w I) (Streams.inv_served _ Hi))|exact Hi|].
    apply (dtls_free_other w); [apply I|done..].
  - by split.
  - cbn. by apply Forall_map.
Qed.

Lemma handled_dtls env o w : turn_inv w → inputs_ok env (turn_dispatcher w) → handled_ok env (DtlsArrival o) w.
Proof.
  intros I Hin. unfold handled_ok. cbn [handle]. unfold on_dtls_datagram. rewrite bind_get.
  destruct (dtls_receiving w) eqn:Hr; cbn [negb].
  2:{ split; [done|]. split; [|constructor]. split; [done|]. rewrite Hr. by destruct o. }
  set (w1 := mkTurnServer (turn_dispatcher w) (udp_receiving w) (tcp_listener w) (tls_listener w) (dtls_table w)
    (dtls_locked w) false).
  rewrite (bind_Ok (set_dtls_receiving false) _ () w w1 [] eq_refl).
  destruct o as [[data from]|].
  2:{ split; [by destruct I|]. split; [done|constructor]. }
  pose proof (DtlsRuns.receive_cases canonical env (take (Z.to_nat recv_buf) data) from (dtls_part w)
    (inv_dtls w I) (inv_turn_served w I) Hin) as Hc.
  assert (E : on_dtls (Dtls.receive canonical env (take (Z.to_nat recv_buf) data) from) w1 =
    let '(r, s, ev) := Dtls.receive canonical env (take (Z.to_nat recv_buf) data) from (dtls_part w) in
    (r, mkTurnServer (Dtls.dispatcher s) (udp_receiving w) (tcp_listener w) (tls_listener w) (Dtls.dtls_sessions_ s)
        (Dtls.sessions_mutex_ s) false, map OverDtls ev)) by done.
  unfold mbind, eff_bind. rewrite E. destruct (Dtls.receive _ _ _ _ _) as [[[[]|e] s] l].
  - destruct Hc as [Hfree Hs]. split; [|split].
    + split; cbn; [exact (stream_inv_other _ _ _ (inv_tcp w I) Hs)|exact (stream_inv_other _ _ _ (inv_tls w I) Hs)|exact Hfree].
    + by split.
    + apply Forall_app. split; [constructor|]. apply Forall_app. split; [by apply reaches_all|constructor].
  - exact Hc.
Qed.

Lemma handled_step env a w : turn_inv w → inputs_ok env (turn_dispatcher w) → arrival_ok a → handled_ok env a w.
Proof. destruct a; eauto using handled_udp, handled_tcp, handled_tls, handled_dtls. Qed.

(** *** The start *)

Lemma bind_Ok_inv {S E A B} (m : eff S E A) (f : A → eff S E B) s b s2 l : (m ≫= f) s = (Ok b, s2, l) →
  ∃ a s1 l1 l2, m s = (Ok a, s1, l1) ∧ f a s1 = (Ok b, s2, l2) ∧ l = l1 ++ l2.
Proof.
  unfold mbind, eff_bind. destruct (m s) as [[[a|e] s1] l1]; [|done].
  destruct (f a s1) as [[r s'] l2] eqn:Ef. intros [= -> -> <-]. by exists a, s1, l1, l2.
Qed.

(** A start that succeeds: the files of the certificate are loaded into both
    contexts, nothing is connected, and both sockets for datagrams are read. *)
Definition started (s : Mains.TurnMain.Settings) (calls : list ssl_call) (w0 : TurnServer) : Prop :=
  w0 = mkTurnServer (Mains.TurnMain.dispatcher s) true no_peers no_peers ∅ false true ∧
  calls = [CtxNew TlsServerMethod; SetOptions tls_options; UseChain (Mains.TurnMain.cert_file s);
           UseKey (Mains.TurnMain.key_file s);
           CtxNew DtlsServerMethod; UseChain (Mains.TurnMain.cert_file s); UseKey (Mains.TurnMain.key_file s);
           VerifyNone; SetCookieCallbacks].

Lemma start_Ok bind ctx_new loads_chain loads_key boost_error s w0 u calls :
  start bind ctx_new loads_chain loads_key boost_error s () = (Ok w0, u, calls) → started s calls w0.
Proof.
  unfold start. cbv zeta. intros ([]&c1&l1&l1'&E1&E&->)%bind_Ok_inv.
  apply bind_Ok_inv in E as ([]&c2&l2&l2'&E2&E&->). apply bind_Ok_inv in E as ([]&[]&l3&l3'&E3&E&->).
  apply bind_Ok_inv in E as ([]&[]&l4&l4'&E4&E&->). apply bind_Ok_inv in E as ([]&c5&l5&l5'&E5&E&->).
  apply bind_Ok_inv in E as ([]&c6&l6&l6'&E6&E&->).
  unfold lift in E1, E2, E5, E6. injection E1 as _ <- <-. injection E2 as _ <- <-. injection E5 as _ <- <-.
  injection E6 as _ <- <-. injection E as <- _ <-. split; [done|].
  pose proof (makeTlsContext_spec ctx_new loads_chain loads_key boost_error (Mains.TurnMain.cert_file s)
    (Mains.TurnMain.key_file s)) as Ht. rewrite E3 in Ht.
  pose proof (makeDtlsContext_spec ctx_new loads_chain loads_key boost_error (Mains.TurnMain.cert_file s)
    (Mains.TurnMain.key_file s)) as Hd. rewrite E4 in Hd. destruct Hd as [_ Hd]. by rewrite Ht, Hd.
Qed.

Lemma started_inv s calls w0 : started s calls w0 → turn_inv w0.
Proof.
  intros [-> _]. assert (Hs : served (Mains.TurnMain.dispatcher s)) by apply served_start.
  assert (Hn : Streams.stream_inv (stream_part no_peers (Mains.TurnMain.dispatcher s))).
  { split; [done|intros id x; cbn; by rewrite lookup_empty|intros key id; cbn; by rewrite lookup_empty]. }
  split; [done..|]. split; [done|]. intros k x. cbn. by rewrite lookup_empty.
Qed.

Lemma runs_inv s calls w0 w : started s calls w0 → runs canonical w0 w → turn_inv w.
Proof.
  intros Hs. induction 1 as [|w env a w' ev _ IH Hin Ha E]; [by eapply started_inv|].
  pose proof (handled_step env a w IH Hin Ha) as Hh. unfold handled_ok in Hh. rewrite E in Hh. apply Hh.
Qed.
End facts.

(** ** Property *)

Section properties.
Context `{OpenSSLSpec} `{BoostAddressSpec} `{!IterOrder string ptr} `{!IterOrder Z ChannelBinding} `{DtlsRuns.DtlsSpec}.
Variable canonical : string → result string.

(** C16: the TURN server as it is built.  When main has bound the four sockets, it
    has loaded the certificate and the key into both contexts, and whatever then arrives over its transports, in any
    order: a handler returns and leaves a dispatcher that serves, tables of the
    TCP and the TLS listener whose entries are the sessions of their peers, and
    no mutex of the DTLS sessions owned; what a packet makes the dispatcher send
    goes over the transport of the packet, and what is written to a stream goes
    to a live session of it; UDP and DTLS are received until a receive fails.  The
    exceptions are four: a connection that is gone when it is accepted; a channel
    frame over a stream whose padded length wraps; over DTLS, a packet that makes
    the dispatcher send to the session that is being fed; and a destination whose
    address [make_address] does not take. *)
Theorem turn_server_runs bind ctx_new loads_chain loads_key boost_error s w0 u calls w env a :
  start bind ctx_new loads_chain loads_key boost_error s () = (Ok w0, u, calls) →
  runs canonical w0 w → inputs_ok env (turn_dispatcher w) → arrival_ok a →
  started s calls w0 ∧
  match handle canonical env a w with
  | (Ok _, w', ev) =>
      served (turn_dispatcher w') ∧ am_inv (alloc_manager_ (turn_dispatcher w')) ∧
      Streams.table_ok (table (tcp_listener w')) (peers (tcp_listener w')) ∧
      Streams.table_ok (table (tls_listener w')) (peers (tls_listener w')) ∧
      Dtls.free (dtls_part w') ∧ receives a w w' ∧ Forall (reaches w') ev
  | (Err e, _, _) => failure canonical env a w e
  end ∧
  ∀ data from t, bytes_ok data → over t (out_events (onPacket env data from t (turn_dispatcher w))).
Proof.
  intros Hstart%start_Ok Hw Hin Ha. pose proof (runs_inv canonical s calls w0 w Hstart Hw) as I.
  split; [exact Hstart|]. split.
  - pose proof (handled_step canonical env a w I Hin Ha) as Hh. unfold handled_ok in Hh.
    destruct (handle canonical env a w) as [[[[]|e] w'] ev]; [|exact Hh]. destruct Hh as (I'&Hr&Hev).
    pose proof (inv_turn_served w' I') as Hs'. split; [done|]. split; [apply (served_inv _ Hs')|].
    split; [exact (Streams.inv_table _ (inv_tcp w' I'))|]. split; [exact (Streams.inv_table _ (inv_tls w' I'))|].
    split; [apply I'|]. by split.
  - intros data from t Hok.
    destruct (wp_run _ _ _ (onPacket_over env data from t _ (served_inv _ (inv_turn_served w I)) Hin Hok))
      as ([]&d'&ev&E&Hov). by rewrite E.
Qed.
End properties.

(** ** Clients of three transports, one after the other *)

Module clients.
Import Server.session.
#[local] Existing Instances ToyOpenSSL ToyOpenSSLSpec DottedAddress DottedAddressSpec clients_order channels_order.

(** Sessions that pass the datagrams on as they are. *)
#[local] Instance plain : Dtls.Dtls := {|
  Dtls.SSL := option bytes;
  Dtls.SSL_new := None;
  Dtls.BIO_write d _ := Some d;
  Dtls.SSL_do_handshake x := (Dtls.HandshakeDone, x);
  Dtls.SSL_read x := (map (λ b, b mod 256) <$> x, None);
  Dtls.SSL_write _ x := x;
  Dtls.BIO_read_all x := ([], x);
|}.
#[local] Instance plain_spec : DtlsRuns.DtlsSpec.
Proof.
  split. intros [x|] buf; [|done]. cbn. intros [= <-]. apply Forall_map, Forall_true.
  intros b. cbn. unfold byte_ok. apply Z.mod_pos_bound. lia.
Qed.

Definition srv : Mains.TurnMain.Settings :=
  Mains.TurnMain.mkSettings "cert.pem" "key.pem" "s3cret" "chat" "192.168.1.20" 49152 65535 "".
Definition canonical (s : string) : result string := Ok s.
Definition main : eff () ssl_call TurnServer :=
  start (λ _ _, Ok ()) (λ _, true) (λ _, true) (λ _ _, true) (λ s, s) srv.
Definition w0 : TurnServer := mkTurnServer d0 true no_peers no_peers ∅ false true.
Definition step (a : arrival) (w : TurnServer) : TurnServer := out_state (handle canonical env a w).
Definition w1 : TurnServer := step (TcpArrival (Streams.Accepted (Some c2))) w0.
Definition w2 : TurnServer := step (DtlsArrival (Some ([1; 2], c1))) w1.
Definition w3 : TurnServer := step (UdpArrival (Some (unsigned, c1))) w2.

Lemma run_step a w : runs canonical w0 w → (size (store_ (LongTermCred.nonce_manager_ (long_term_cred_ (turn_dispatcher w)))) ≤ 255)%nat →
  arrival_ok a → out_result (handle canonical env a w) = Ok () → runs canonical w0 (step a w).
Proof.
  intros Hw Hn Ha E. unfold step. destruct (handle canonical env a w) as [[r w'] ev] eqn:Eh. cbn in E. subst r.
  by eapply runs_step; [exact Hw|by apply env_ok|exact Ha|exact Eh].
Qed.
Lemma run3 : runs canonical w0 w3.
Proof.
  apply run_step; [|vm_compute; lia|compute_done|by vm_compute].
  apply run_step; [|vm_compute; lia|compute_done|by vm_compute].
  apply run_step; [constructor|vm_compute; lia|exact Logic.I|by vm_compute].
Qed.

(** Bytes of the second client, over TCP, after the UDP client was challenged. *)
Lemma turn_server_runs_witness : ∃ w' ev,
  handle canonical env (TcpArrival (Streams.Arrived 0 unsigned)) w3 = (Ok (), w', ev) ∧
  Streams.table_ok (table (tcp_listener w')) (peers (tcp_listener w')) ∧ table (tcp_listener w') !! "10.1.1.2:2222" = Some 0%nat.
Proof.
  destruct (main ()) as [[r u] calls] eqn:Hmain.
  assert (r = Ok w0) as -> by (change r with (out_result (r, u, calls)); rewrite <-Hmain; by vm_compute).
  destruct (turn_server_runs canonical (λ _ _, Ok ()) (λ _, true) (λ _, true) (λ _ _, true) (λ s, s) srv w0 u calls w3 env
    (TcpArrival (Streams.Arrived 0 unsigned)) Hmain run3 ltac:(apply env_ok; vm_compute; lia) ltac:(compute_done))
    as (_&Hh&_).
  destruct (handle canonical env (TcpArrival (Streams.Arrived 0 unsigned)) w3) as [[r w'] ev] eqn:E.
  assert (r = Ok ()) as -> by (change r with (out_result (r, w', ev)); rewrite <-E; by vm_compute).
  destruct Hh as (_&_&Htab&_).
  assert (Hid : table (tcp_listener w') !! "10.1.1.2:2222" = Some 0%nat)
    by (change w' with (out_state (Ok (), w', ev)); rewrite <-E; by vm_compute).
  exact (ex_intro _ w' (ex_intro _ ev (conj eq_refl (conj Htab Hid)))).
Defined.
End clients.
