(* ===== verification/Logger.v ===== *)
(** * The logger (src/shared/log/logger.hpp)

    One object, with a mutex and a file, that every thread of the servers calls.
    The threads interleave between the actions of [log], [err] and [setFile]: to
    take the mutex, to write to the console, to write to the file, to release the
    mutex.  The handler of SIGINT and SIGTERM of both servers is one more call,
    on the stack of the thread that the signal interrupts. *)

From S2P Require Export Text.

(** The file: [open] on an open one fails, and nothing is written after that. *)
Inductive ofstream := Closed | Opened (path : string) | Failed (path : string).
Definition open_file (path : string) (succeeds : bool) (f : ofstream) : ofstream :=
  match f with
  | Closed => if succeeds then Opened path else Closed
  | Opened path | Failed path => Failed path
  end.

Inductive call := Log (err : bool) (msg : string) | SetFile (path : string) (succeeds : bool).

(** Where a call is; [Said] has its line, which the console has got. *)
Inductive call_frame :=
  | Waiting (c : call)
  | Inside (c : call)
  | Said (line : string)
  | Leaving.

Inductive output :=
  | Console (err : bool) (line : string)
  | ToFile (path line : string).

(** The calls a thread is in, the innermost first, and those it makes next. *)
Record thread := mkThread { stack : list call_frame; todo : list call }.
Record Logger := mkLogger { mutex_ : option nat; file_ : ofstream; threads : gmap nat thread }.

Definition set_stack (i : nat) (st : list call_frame) (l : list call) (s : Logger) : Logger :=
  mkLogger (mutex_ s) (file_ s) (<[i := mkThread st l]> (threads s)).
Definition set_mutex (m : option nat) (s : Logger) : Logger := mkLogger m (file_ s) (threads s).
Definition set_file (f : ofstream) (s : Logger) : Logger := mkLogger (mutex_ s) f (threads s).

(** What is written to the file when it is open and good. *)
Definition keep (line : string) (f : ofstream) : list output :=
  match f with Opened path => [ToFile path line] | _ => [] end.

(** The next action of the thread [i], at the time that the text [now] is; [None]:
    it has none, or waits for the mutex. *)
Definition action (i : nat) (now : string) (s : Logger) : option (Logger * list output) :=
  match threads s !! i with
  | None => None
  | Some (mkThread [] []) => None
  | Some (mkThread [] (c :: l)) => Some (set_stack i [Waiting c] l s, [])
  | Some (mkThread (f :: st) l) =>
      match f with
      | Waiting c =>
          match mutex_ s with
          | None => Some (set_mutex (Some i) (set_stack i (Inside c :: st) l s), [])
          | Some _ => None
          end
      | Inside (SetFile path succeeds) =>
          Some (set_file (open_file path succeeds (file_ s)) (set_stack i (Leaving :: st) l s), [])
      | Inside (Log err msg) =>
          let line := now +:+ " " +:+ msg in
          Some (set_stack i (Said line :: st) l s, [Console err line])
      | Said line => Some (set_stack i (Leaving :: st) l s, keep line (file_ s))
      | Leaving => Some (set_mutex None (set_stack i st l s), [])
      end
  end.

(** [signal_handler] of the servers, on the thread [i]. *)
Definition signal (i : nat) (msg : string) (s : Logger) : Logger :=
  match threads s !! i with
  | None => s
  | Some t => set_stack i (Waiting (Log false msg) :: stack t) (todo t) s
  end.

(** What happens: an action of a thread, or a signal to it. *)
Inductive happening := Acts (i : nat) (now : string) | Signal (i : nat) (msg : string).
Definition happen (h : happening) (s : Logger) : option (Logger * list output) :=
  match h with
  | Acts i now => action i now s
  | Signal i msg => Some (signal i msg s, [])
  end.

Inductive runs (s0 : Logger) : Logger → list output → Prop :=
  | runs_start : runs s0 s0 []
  | runs_step s l h s' l' : runs s0 s l → happen h s = Some (s', l') → runs s0 s' (l ++ l').

(** The threads before any of them has called. *)
Definition start (f : ofstream) (calls : gmap nat (list call)) : Logger :=
  mkLogger None f (mkThread [] <$> calls).

Definition console (l : list output) : list string :=
  omap (λ o, match o with Console _ line => Some line | ToFile _ _ => None end) l.
Definition kept (path : string) (l : list output) : list string :=
  omap (λ o, match o with ToFile p line => if decide (p = path) then Some line else None | Console _ _ => None end) l.

(** ** Lemmas *)

(** A frame that owns the mutex, and the lines that frames have said and not kept. *)
Definition owns (f : call_frame) : bool := match f with Waiting _ => false | _ => true end.
Definition owned (st : list call_frame) : nat := length (filter (λ f, owns f = true) st).
Definition said (st : list call_frame) : list string := omap (λ f, match f with Said line => Some line | _ => None end) st.

Definition no_setfile (c : call) : Prop := match c with Log _ _ => True | SetFile _ _ => False end.
Definition frame_logs (f : call_frame) : Prop := match f with Waiting c | Inside c => no_setfile c | _ => True end.

(** The thread that owns the mutex has exactly one frame that owns it; the others
    have none.  The calls to come are calls of [log] and [err]. *)
Definition thread_ok (m : option nat) (i : nat) (t : thread) : Prop :=
  owned (stack t) = (if decide (m = Some i) then 1 else 0)%nat ∧ Forall frame_logs (stack t) ∧ Forall no_setfile (todo t).

(** The line that the console has got and the file has not. *)
Definition pending (s : Logger) : list string :=
  match mutex_ s with
  | Some i => match threads s !! i with Some t => said (stack t) | None => [] end
  | None => []
  end.

Record log_inv (path : string) (s : Logger) (l : list output) : Prop := {
  inv_threads i t : threads s !! i = Some t → thread_ok (mutex_ s) i t;
  inv_file : file_ s = Opened path;
  inv_lines : console l = kept path l ++ pending s;
}.

Lemma owned_cons f st : owned (f :: st) = ((if owns f then 1 else 0) + owned st)%nat.
Proof. unfold owned. rewrite filter_cons. by destruct f. Qed.

Lemma owned_said st : owned st = 0%nat → said st = [].
Proof.
  induction st as [|f st IH]; [done|]. rewrite owned_cons. destruct f; cbn [owns]; intros E; try lia. by apply IH.
Qed.

Lemma console_app l1 l2 : console (l1 ++ l2) = console l1 ++ console l2.
Proof. apply omap_app. Qed.
Lemma kept_app path l1 l2 : kept path (l1 ++ l2) = kept path l1 ++ kept path l2.
Proof. apply omap_app. Qed.

(** The thread [i], with its stack replaced, owns the mutex or nobody does. *)
Lemma replace_inv path i st td m s l : file_ s = Opened path →
  (∀ j u, threads s !! j = Some u → thread_ok (mutex_ s) j u) → (m = None ∨ m = Some i) →
  (∀ j, j ≠ i → mutex_ s ≠ Some j) → thread_ok m i (mkThread st td) → console l = kept path l ++ said st →
  log_inv path (mkLogger m (file_ s) (<[i := mkThread st td]> (threads s))) l.
Proof.
  intros Hf Hth Hm Hother Ht Hl. split; cbn; [|done|].
  - intros j u. rewrite lookup_insert_Some. intros [[<- <-]|[Hne Hu]]; [done|].
    destruct (Hth j u Hu) as (Hc&Hrest). split; [|done]. rewrite Hc, !decide_False; [done| |by apply Hother].
    destruct Hm as [->| ->]; congruence.
  - rewrite Hl. f_equal. unfold pending. destruct Ht as (Hc&_). cbn in Hc. destruct Hm as [->| ->]; cbn.
    + rewrite decide_False in Hc by done. by apply owned_said.
    + by rewrite lookup_insert_eq.
Qed.

(** A frame is pushed that does not own the mutex. *)
Lemma push_inv path i c t l' s l : log_inv path s l → threads s !! i = Some t → no_setfile c → Forall no_setfile l' →
  log_inv path (set_stack i (Waiting c :: stack t) l' s) l.
Proof.
  intros [Ht Hf Hl] Hi Hc Hl'. destruct (Ht i t Hi) as (Hn&Hfr&_). split; cbn; [|done|].
  - intros j u. rewrite lookup_insert_Some. intros [[<- <-]|[Hne Hu]]; [|by apply Ht].
    split; [|split; [by constructor|done]]. cbn [stack]. by rewrite owned_cons.
  - rewrite Hl. f_equal. unfold pending. cbn. destruct (mutex_ s) as [j|]; [|done].
    destruct (decide (j = i)) as [->|Hne]; [by rewrite lookup_insert_eq, Hi|by rewrite lookup_insert_ne].
Qed.

Lemma action_inv path i now s l s' out : log_inv path s l → action i now s = Some (s', out) → log_inv path s' (l ++ out).
Proof.
  intros I Hact. pose proof I as [Ht Hf Hl]. unfold action in Hact.
  destruct (threads s !! i) as [[st td]|] eqn:Hi; [|done]. destruct (Ht i _ Hi) as (Hn&Hfr&Htd). cbn [stack todo] in *.
  destruct st as [|f st].
  { destruct td as [|c td]; [done|]. injection Hact as <- <-. apply Forall_cons in Htd as [Hc Htd]. rewrite app_nil_r.
    by apply (push_inv path i c (mkThread [] (c :: td))). }
  apply Forall_cons in Hfr as [Hff Hfr]. rewrite owned_cons in Hn.
  assert (Hown : owns f = true → mutex_ s = Some i ∧ owned st = 0%nat ∧ said st = [] ∧
    pending s = match f with Said line => [line] | _ => [] end).
  { intros Ho. rewrite Ho in Hn. case_decide as Hm; [|lia]. assert (H0 : owned st = 0%nat) by lia.
    split; [done|]. split; [done|]. split; [by apply owned_said|]. unfold pending. rewrite Hm, Hi. cbn [stack].
    pose proof (owned_said st H0) as Hs. destruct f; try done. change (line :: said st = [line]). by rewrite Hs. }
  assert (Hrep : ∀ m st' line, owns f = true → m = None ∨ m = Some i → owned st' = (if decide (m = Some i) then 1 else 0)%nat →
    Forall frame_logs st' → console (l ++ line) = kept path (l ++ line) ++ said st' →
    log_inv path (mkLogger m (file_ s) (<[i := mkThread st' td]> (threads s))) (l ++ line)).
  { intros m st' line Ho Hm Hst' Hfr' Hline. destruct (Hown Ho) as (Hmi&_). apply replace_inv; try done.
    intros j Hne. congruence. }
  destruct f as [c|[err msg|path' ok]|line|]; cbn [owns] in *.
  - destruct (mutex_ s) eqn:Hm; [done|]. injection Hact as <- <-. rewrite app_nil_r.
    rewrite decide_False in Hn by done.
    apply (replace_inv path i (Inside c :: st) td (Some i) s); try done; [by rewrite Hm|by right|by rewrite Hm| |].
    + split; cbn [stack]; [rewrite owned_cons, decide_True by done; cbn [owns]; lia|split; [by constructor|done]].
    + rewrite Hl. unfold pending. rewrite Hm. change (said (Inside c :: st)) with (said st). by rewrite owned_said by lia.
  - injection Hact as <- <-. destruct (Hown eq_refl) as (Hm&H0&Hs&Hp). unfold set_stack. rewrite Hm.
    apply Hrep; [done|by right|rewrite owned_cons, decide_True by done; cbn; lia|by constructor|].
    rewrite console_app, kept_app, Hl, Hp. change (said (Said ?x :: st)) with (x :: said st). rewrite Hs.
    by rewrite !app_nil_r.
  - done.
  - injection Hact as <- <-. destruct (Hown eq_refl) as (Hm&H0&Hs&Hp). unfold set_stack. rewrite Hm, Hf.
    rewrite <-Hf at 1. apply Hrep; [done|by right|rewrite owned_cons, decide_True by done; cbn; lia|by constructor|].
    rewrite console_app, kept_app, Hl, Hp. change (said (Leaving :: st)) with (said st). rewrite Hs.
    unfold keep, kept, console. cbn. by rewrite decide_True, !app_nil_r by done.
  - injection Hact as <- <-. destruct (Hown eq_refl) as (Hm&H0&Hs&Hp).
    apply (Hrep None st []); [done|by left|by rewrite decide_False|done|].
    by rewrite app_nil_r, Hl, Hp, Hs.
Qed.

Lemma signal_inv path i msg s l : log_inv path s l → log_inv path (signal i msg s) l.
Proof.
  intros I. unfold signal. destruct (threads s !! i) as [t|] eqn:Hi; [|done].
  apply (push_inv path i (Log false msg) t); [done|done|done|]. by destruct (inv_threads _ _ _ I i t Hi) as (_&_&?).
Qed.

Lemma logger_runs_inv path calls s l : (∀ i c, calls !! i = Some c → Forall no_setfile c) →
  runs (start (Opened path) calls) s l → log_inv path s l.
Proof.
  intros Hc. induction 1 as [|s l [i now|i msg] s' l' _ IH E].
  - split; [|done|done]. intros i t. cbn. rewrite lookup_fmap. intros (c&E&->)%fmap_Some.
    split; [done|]. split; [constructor|]. by eapply Hc.
  - by eapply action_inv.
  - injection E as <- <-. rewrite app_nil_r. by apply signal_inv.
Qed.

(** The console and the file have the same lines in the same order, the file being
    at most one behind, and two threads never write at once. *)
Lemma lines_whole path calls s l : (∀ i c, calls !! i = Some c → Forall no_setfile c) →
  runs (start (Opened path) calls) s l →
  (∃ rest, console l = kept path l ++ rest ∧ (length rest ≤ 1)%nat ∧ (mutex_ s = None → rest = [])) ∧
  ∀ i j t u, threads s !! i = Some t → threads s !! j = Some u → owned (stack t) ≠ 0%nat → owned (stack u) ≠ 0%nat → i = j.
Proof.
  intros Hc Hr. pose proof (logger_runs_inv path calls s l Hc Hr) as [Ht Hf Hl]. split.
  - exists (pending s). split; [done|]. unfold pending. destruct (mutex_ s) as [i|]; [|cbn; split; [lia|done]].
    split; [|done]. destruct (threads s !! i) as [t|] eqn:Hi; [|cbn; lia]. destruct (Ht i t Hi) as (Hn&_).
    rewrite decide_True in Hn by done. revert Hn. generalize (stack t). clear. intros st. induction st as [|f st IH]; [done|].
    rewrite owned_cons. destruct f; cbn [owns]; intros E; try (by apply IH);
      (change (said (?f :: st)) with (match f with Said line => line :: said st | _ => said st end));
      cbv beta iota; rewrite owned_said by lia; cbn; lia.
  - intros i j t u Hi Hj Hti Huj. destruct (Ht i t Hi) as (Hni&_), (Ht j u Hj) as (Hnj&_).
    rewrite Hni in Hti. rewrite Hnj in Huj. repeat case_decide; congruence.
Qed.

(** A signal that interrupts the thread that is logging: the handler waits for
    the mutex, which the thread it runs on owns, and from then on nobody logs. *)
Lemma signal_deadlock path calls s l i msg : (∀ j c, calls !! j = Some c → Forall no_setfile c) →
  runs (start (Opened path) calls) s l → mutex_ s = Some i → is_Some (threads s !! i) →
  ∀ s' l', runs (signal i msg s) s' l' → l' = [] ∧ mutex_ s' = Some i ∧ ∀ now, action i now s' = None.
Proof.
  intros Hc Hr Hm Hi s' l' Hr'. pose proof (logger_runs_inv path calls s l Hc Hr) as I.
  enough (l' = [] ∧ mutex_ s' = Some i ∧ log_inv path s' l ∧ ∃ c st td, threads s' !! i = Some (mkThread (Waiting c :: st) td))
    as (->&Hm'&_&c&st&td&E).
  { split; [done|]. split; [done|]. intros now. unfold action. by rewrite E, Hm'. }
  induction Hr' as [|s1 l1 [j now|j msg'] s2 l2 _ IH E].
  - split; [done|]. split; [unfold signal; by destruct (threads s !! i)|]. split; [by apply signal_inv|].
    destruct Hi as [t Ht]. unfold signal. rewrite Ht. do 3 eexists. apply lookup_insert_eq.
  - destruct IH as (->&Hm1&I1&c&st&td&E1). unfold happen in E. pose proof E as E'. unfold action in E.
    destruct (threads s1 !! j) as [[stj tdj]|] eqn:Ej; [|done].
    assert (Hne : j ≠ i) by (intros ->; rewrite E1 in Ej; injection Ej as <- <-; by rewrite Hm1 in E).
    destruct (inv_threads _ _ _ I1 j _ Ej) as (Hn&_). cbn [stack] in Hn. rewrite decide_False in Hn by congruence.
    destruct stj as [|f stj].
    + destruct tdj as [|c' tdj]; [done|]. pose proof (action_inv path j now s1 l s2 l2 I1 E') as I2.
      injection E as <- <-. split; [done|]. split; [done|]. rewrite app_nil_r in I2. split; [done|].
      do 3 eexists. cbn. by rewrite lookup_insert_ne.
    + rewrite owned_cons in Hn. destruct f; cbn [owns] in Hn; try lia. by rewrite Hm1 in E.
  - destruct IH as (->&Hm1&I1&c&st&td&E1). injection E as <- <-. split; [done|].
    split; [unfold signal; by destruct (threads s1 !! j)|]. split; [by apply signal_inv|].
    unfold signal. destruct (decide (j = i)) as [->|Hne].
    + rewrite E1. do 3 eexists. cbn. apply lookup_insert_eq.
    + destruct (threads s1 !! j) as [u|]; [|by do 3 eexists]. do 3 eexists. cbn. by rewrite lookup_insert_ne.
Qed.
